(* ===== verification/_CoqProject ===== *)
-Q . S2P
Prelude.v
Text.v
Config.v
Lock.v
Ring.v
Dequeue.v
CompQueue.v
Pool.v
Locked.v
Threads.v
Hashtable.v
Avl.v
Vma.v
VmaMem.v
VmaRep.v
VmaSpec.v
Dreg.v
DregSpec.v
PmiUtil.v
PmiSpec.v
Pmi.v
PmiKvs.v
Lcrq.v
LcrqSpec.v
LfHash.v
LfList.v
LfHashSpec.v
State.v
Proto.v
Api.v
ProtoSpec.v
Rendezvous.v
ProtoDemo.v
Places.v
Custody.v
Ledger.v
Psm.v
PsmSpec.v
PsmRendezvous.v
PsmDemo.v
PsmLedger.v
Coll.v
ColExec.v
Net.v
CollSpec.v
Reduce.v
Allreduce.v
Ibv.v
IbvSpec.v
IbvStart.v
IbvDemo.v
