(* ===== verification/Prelude.v ===== *)
(** * LCI: a verification development of the LC communication layer

    LC lets the threads of many processes exchange messages: short ones copied through
    packets (eager protocol), long ones written in place after a handshake (rendezvous
    protocol), puts into the memory of a peer, and collectives.  Arrivals are matched with
    receives in a hash table or handed to the client through a completion queue.  Below it
    is a network server, for PSM2, which config.mk builds by default, or for InfiniBand
    verbs; beside it the client of the process manager, through which processes find each
    other, and a cache of registered memory.

    ** Parts

    Each file translates the source files named and declares operations under their names.

    Common ground
    - Prelude.v: machine integers, the [result] of an operation that may fault, arrays,
      the state monad [ST], tactics and hints; Text.v: C strings and decimal numbers;
      Config.v: the constants of include/lc.h and include/config.h.
    Data structures
    - Lock.v (lc/lock.h): the spin lock as atomic steps of threads that interleave.
    - Ring.v: the arithmetic of ring buffers; Dequeue.v (lc/dequeue.h): the deque of free
      packets; CompQueue.v (include/cq.h): the queue of completed requests.
    - Pool.v (lc/pool.h, pool.c): the packet pool, a deque for each worker, with stealing.
    - Locked.v: threads that use objects under such locks, at the grain of single reads,
      writes and steps of the lock, against calls that take effect at once; Threads.v: the
      deques of the pool and the completion queue as such objects.
    - Hashtable.v (lc/hashtable.h, hashtable.c): the table where sends meet receives.
    - Lcrq.v (lcrq.c, lcrq.h): the queue of linked rings, and LcrqSpec.v about it.
    - LfHash.v (include/hashtable/lf_hash.h, hashtbl_lf.h): the split-ordered hash table;
      LfList.v and LfHashSpec.v about it, from its bits and list to the map it is.
    - Avl.v (dreg/avl.c): balanced trees of items of a type with the class [Item], the copy
      of a word that deletion makes; its theorems are for items of one word.
    Registration cache (dreg/dreg.c, dreg/dreg.h)
    - Vma.v: the page database, areas of pages indexed by the tree of Avl.v; VmaMem.v,
      VmaRep.v and VmaSpec.v about it, from its store to the set it represents.
    - Dreg.v: entries, their reference counts, eviction and the allocator hook, over Vma.v
      and a server given by the class [Dma]; DregSpec.v about it.
    Communication
    - State.v (lc_priv.h, packet.h): the state of a process and the monad [M] of its
      operations.  A call of the server or of a function of the client is an [event] of
      the [trace].
    - Proto.v (include/proto.h): what a process does with arrivals and completions.  The
      class [Server] is what it asks of any server, [Client] what it asks of its client,
      [Build] what depends on the build.
    - Api.v (lc.c, ep.c, short.c, medium.c, long.c, tag.c, cq.c, misc.c, glob.c): the calls
      of the client: devices, endpoints, sends, receives, puts, completions.  The class
      [Platform] is what it asks of the system.
    - ProtoSpec.v about both, Rendezvous.v about long messages, with the concrete process
      of ProtoDemo.v.
    - Places.v, Custody.v, Ledger.v about both, over whole runs: where each packet is, what
      an operation does to the places, and the runs of a process with its server and client,
      who hold a ticket for each packet they have; PsmLedger.v: the PSM2 server makes steps
      of such runs, and its calls of the library account for the tickets.
    - Psm.v (server/server_psm2.h): the PSM2 server, over a process of State.v and a queue of
      Lcrq.v.  It calls Proto.v for what arrives, and [serve_event] carries out the events
      Api.v and Proto.v leave, so that two processes can be put together.  PsmSpec.v,
      PsmRendezvous.v (long messages) and PsmDemo.v about it.
    - Ibv.v (server/server_ibv.h, server_ibv_helper.h): the InfiniBand server in the same
      way, over a process, the cache of Dreg.v and the client of Pmi.v; the verbs library is
      the class [Verbs] and the log of requests.  IbvSpec.v, IbvStart.v, IbvDemo.v about it.
    Process manager
    - PmiUtil.v (pmi/simple_pmiutil.c): key-value messages, bounded copies, lines;
      PmiSpec.v about it.
    - Pmi.v (pmi/simple_pmi.c, pm.c): the client and the functions LC calls; PmiKvs.v
      about it.
    Collectives
    - Coll.v (coll/, coll.c): the schedules of barrier, broadcast and allreduce and their
      execution by [lc_col_progress] over Api.v; ColExec.v about the execution.
    - Net.v: schedules of many ranks running together; CollSpec.v, Reduce.v and
      Allreduce.v: what the schedules of Coll.v compute in it.

    ** How state and operations correspond

    A C function is a definition with its name whose state is explicit: a function on a
    record where one structure is changed (deques, pools, tables, trees), a computation of
    a state monad where globals or linked objects are ([M] for a process, [ST] at the states
    of the page database, the cache, the queue of rings, the server and the process manager's
    client).  Pieces of a function are definitions of their own when a theorem is about
    them.  Integers are [Z] with the wrap-around of their type written out, pointers are
    [Z] with 0 for NULL, objects that are linked or shared live in finite maps by address.
    exit, a failed assert, an access outside an array, a null pointer and a loop that
    never ends are the errors of [result]; a retry is a status, as in the source.

    ** Theorems

    - Matching (Hashtable.v): insertion is the insertion into queues per key: it hands out
      the oldest waiting value of the other side; the two sides never both wait.  The tag
      -1 breaks this, as a theorem shows.
    - Delivery (ProtoSpec.v, PsmSpec.v): an eager message reaches the buffer of its
      receive in either order of arrival, also through the tags of two PSM2 servers or the
      queue pairs of two InfiniBand servers (IbvSpec.v); the two completions of a rendezvous
      complete it once; a long message completes at both ends, in either order, if the network
      brings each its messages and completions (Rendezvous.v), and two PSM2 servers bring
      them, the library moving bytes between a send and the receive its tag matches
      (PsmRendezvous.v); packets go back to their pool; dynamic endpoints and completion
      queues.  The limits of the fields (packet room,
      pool number, tag) are exact: theorems state what goes wrong beyond them.
    - Packets (Ledger.v, PsmLedger.v): in every state a process reaches after [lc_init] its
      structures are well formed and each packet is in one place, in a pool, a table, a
      queue, or with who must give it back; none is lost or used twice, and the progress of
      the PSM2 server keeps this, each ticket it takes or leaves being one of a completion, of
      a receive given to the library, or of a send asked for.
    - Start (ProtoSpec.v, PsmSpec.v, PmiKvs.v, IbvStart.v): packets are carved out of the
      heap without overlap, servers read each other's names, keys published are found; two
      InfiniBand servers that start connect their queue pairs through the process manager,
      and the table from pairs to ranks is found and perfect.
    - Servers: keys, words and counts (PsmSpec.v, IbvSpec.v), with the ones that go wrong.
    - Threads (Lock.v, Locked.v, Threads.v): the lock excludes and every call can return; what
      threads see of an object under a lock is a sequence of calls; no packet of the pool is
      lost or given twice, and a completion queue is first in, first out, for any threads.
    - Collectives (CollSpec.v, Reduce.v, Allreduce.v): in any interleaving of any number of
      ranks the barrier synchronises, broadcast delivers up to its bound, allreduce
      reduces; no run gets stuck and all end.  ColExec.v: each rank executes its schedule
      in order.
    - Containers: the tree refines sorted lists and stays balanced, the queue of rings
      refines a list queue, the split-ordered table a map (of the 32 bits of a key's hash it
      keeps), the pool keeps exactly the packets put.
    - Registration cache: the page database refines a set of registrations and its loops
      end; counts, lists and eviction of the cache are consistent.
    - Text and process manager: messages are parsed to the pairs they were made of, lines
      are cut as documented whatever pieces they come in, a value put is the value got.

    ** Bounds and fuel

    Recursion on trees, lists and arrays is structural.  Loops whose end is no such matter
    take a number of rounds and return [Spin] when it does not suffice, and a theorem
    gives a number that does: [2 * avlcount + 1] for the loops over areas in VmaSpec.v, one more
    than the operations run (and the rings linked) in LcrqSpec.v, two more than the blocks
    malloc has in LfHashSpec.v, where 64 bounds the depth of [initialize_bucket], the length of
    the array for the scans of PmiSpec.v, whose callers pass that length; 31 for the doubling
    distances of Coll.v, which run up to an [int]; the largest number of a queue pair for the
    search of a modulus in Ibv.v. Waits for other parties ([col_wait], [GetResponse]) take what
    the others do as an argument or part of the state and end with it; [lc_safe_send], which
    asks again while the pool is empty, takes the number of its tries. Allocation fails when the
    memory given to the model is used up, where the source checks for it: the trees, the page
    database and the split-ordered table have a count of blocks, and the theorems say how many
    are enough.
    The constants are the source's, so witnesses run at full size.

    ** Not modelled

    - The third server, include/server/server_ofi.h: written against an earlier interface,
      whose names are declared nowhere in the tree; it cannot be compiled with the rest.
    - The PSM2 and verbs libraries, the process manager itself and the operating system: what they
      answer is an argument, a part of the state or a class, never a definition.
    - Interleaving inside the matching table, the registration of a worker with the pool and
      the queue of rings: Lock.v proves the exclusion the locked sections rely on, and each
      operation is then one step.  The lock-free steps of lcrq.c and of lf_hash.h are run by
      one thread.
    - Weak memory: the accesses of threads are in one order, as the locks' barriers give it.
    - LC_SERVER_DEBUG, which config.mk does not define.
    - The code under USE_PMI_PORT of simple_pmi.c and all printing.
    - mpiv.c, include/progress.h, the other tables of include/hashtable/ and include/packet/: written against
      earlier interfaces or included nowhere.
    - include/lc/affinity.h, profiler.h and debug.h: no state the library reads.
    - lc_server_finalize of server_psm2.h, which only frees the record of a server no longer
      used.
    - Programs: benchmarks, examples, tests. *)
From stdpp Require Export base decidable list numbers option relations.
From Stdlib Require Export ZArith Lia.

Global Open Scope Z_scope.

(** ** Machine integers

    Words are [Z] values with their wrap-around written out.  [u32], [u64] are the
    values of a C expression of an unsigned type, [i8], [i16], [i32] those of a
    conversion to a signed type (two's complement, as gcc defines it). *)

Definition u8 (z : Z) : Z := z mod 2 ^ 8.
Definition u32 (z : Z) : Z := z mod 2 ^ 32.
Definition u64 (z : Z) : Z := z mod 2 ^ 64.
Definition i8 (z : Z) : Z := (z + 2 ^ 7) mod 2 ^ 8 - 2 ^ 7.
Definition i16 (z : Z) : Z := (z + 2 ^ 15) mod 2 ^ 16 - 2 ^ 15.
Definition i32 (z : Z) : Z := (z + 2 ^ 31) mod 2 ^ 32 - 2 ^ 31.
Definition i64 (z : Z) : Z := (z + 2 ^ 63) mod 2 ^ 64 - 2 ^ 63.

(** The null pointer, and C's truth value of an integer. *)
Definition NULL : Z := 0.
Definition truth (z : Z) : bool := negb (z =? 0).

(** ** Results

    Every operation of the model that can stop the process, read outside an
    array, follow a null pointer or spin without end returns a [result]. *)

Inductive fault : Type :=
| Exit (code : Z)       (* exit(code) *)
| AssertFail            (* assert(...) *)
| OutOfBounds           (* an access outside the array the source indexes *)
| NullDeref             (* a field of NULL, or of a pointer no object has *)
| Spin.                 (* a loop that no step of this thread leaves *)

Inductive result (A : Type) : Type :=
| Ok (a : A)
| Err (f : fault).
Arguments Ok {A} a.
Arguments Err {A} f.

#[export] Instance fault_eq_dec : EqDecision fault.
Proof. solve_decision. Defined.

#[export] Instance result_ret : MRet result := fun A a => Ok a.
#[export] Instance result_bind : MBind result := fun A B k m =>
  match m with Ok a => k a | Err f => Err f end.

(** [c_assert b] is C's [assert(b)]. *)
Definition c_assert (b : bool) : result unit := if b then Ok tt else Err AssertFail.

(** [from_option_or f o] turns a partial read into a fault. *)
Definition get_or {A} (f : fault) (o : option A) : result A :=
  match o with Some a => Ok a | None => Err f end.

Definition is_ok {A} (r : result A) : bool :=
  match r with Ok _ => true | Err _ => false end.

Lemma bind_ok {A B} (m : result A) (k : A -> result B) b :
  mbind k m = Ok b <-> exists a, m = Ok a /\ k a = Ok b.
Proof. destruct m; cbn; naive_solver. Qed.

Lemma bind_Ok {A B} (a : A) (k : A -> result B) : mbind k (Ok a) = k a.
Proof. done. Qed.

(** ** Tactics *)

(** Opens every [result] bind among the hypotheses. *)
Ltac inv_bind :=
  repeat match goal with
  | H : mbind _ _ = Ok _ |- _ =>
      let a := fresh "a" in let Ha := fresh "Ha" in
      apply bind_ok in H; destruct H as (a & Ha & H)
  | H : Ok _ = Ok _ |- _ => injection H; clear H; intros; subst
  | H : Err _ = Ok _ |- _ => discriminate H
  | H : Ok _ = Err _ |- _ => discriminate H
  end.

(** Turns the boolean comparisons of the goal and the hypotheses into
    propositions of [Z], splitting on those that decide the goal. *)
Ltac zbool :=
  repeat match goal with
  | H : (_ =? _) = true |- _ => apply Z.eqb_eq in H
  | H : (_ =? _) = false |- _ => apply Z.eqb_neq in H
  | H : (_ <? _) = true |- _ => apply Z.ltb_lt in H
  | H : (_ <? _) = false |- _ => apply Z.ltb_ge in H
  | H : (_ <=? _) = true |- _ => apply Z.leb_le in H
  | H : (_ <=? _) = false |- _ => apply Z.leb_gt in H
  | H : truth _ = true |- _ => apply negb_true_iff, Z.eqb_neq in H
  | H : truth _ = false |- _ => apply negb_false_iff, Z.eqb_eq in H
  | H : andb _ _ = true |- _ => apply andb_true_iff in H; destruct H
  | H : orb _ _ = false |- _ => apply orb_false_iff in H; destruct H
  end.

Ltac case_zbool :=
  match goal with
  | |- context [ ?a =? ?b ] => destruct (Z.eqb_spec a b)
  | |- context [ ?a <? ?b ] => destruct (Z.ltb_spec a b)
  | |- context [ ?a <=? ?b ] => destruct (Z.leb_spec a b)
  end.

(** ** Words *)

Lemma u32_range z : 0 <= u32 z < 2 ^ 32.
Proof. apply Z.mod_pos_bound; lia. Qed.
Lemma u64_range z : 0 <= u64 z < 2 ^ 64.
Proof. apply Z.mod_pos_bound; lia. Qed.
Lemma u32_small z : 0 <= z < 2 ^ 32 -> u32 z = z.
Proof. apply Z.mod_small. Qed.
Lemma u64_small z : 0 <= z < 2 ^ 64 -> u64 z = z.
Proof. apply Z.mod_small. Qed.
Lemma i8_small z : - 2 ^ 7 <= z < 2 ^ 7 -> i8 z = z.
Proof. intros. unfold i8. rewrite Z.mod_small; lia. Qed.
Lemma i32_small z : - 2 ^ 31 <= z < 2 ^ 31 -> i32 z = z.
Proof. intros. unfold i32. rewrite Z.mod_small; lia. Qed.

Create HintDb lc_word.
#[export] Hint Resolve u32_range u64_range : lc_word.
Create Rewrite HintDb lc_word.
#[export] Hint Rewrite u32_small u64_small i8_small i32_small using lia : lc_word.

(** Masking with [2^k - 1] is reduction modulo [2^k]. *)
Lemma land_mask k x : 0 <= k -> Z.land x (2 ^ k - 1) = x mod 2 ^ k.
Proof.
  intros Hk. rewrite <- Z.land_ones by done. by rewrite Z.ones_equiv, Z.sub_1_r.
Qed.

(** A bit above a number is none of its bits. *)
Lemma land_high p m : 0 < m -> 0 <= p < 2 ^ m -> Z.land p (2 ^ m) = 0.
Proof.
  intros Hm Hp. rewrite <- (Z.mul_1_l (2 ^ m)), <- Z.shiftl_mul_pow2 by lia.
  apply Z.bits_inj'. intros k Hk. rewrite Z.land_spec, Z.bits_0.
  destruct (Z.lt_ge_cases k m); [by rewrite Z.shiftl_spec_low, andb_false_r|].
  destruct Hp as [Hp0 Hp]. rewrite (Z.bits_above_log2 p); [done|done|].
  destruct (Z.eq_dec p 0) as [->|]; [cbn; lia|]. assert (Z.log2 p < m); [|lia].
  apply Z.log2_lt_pow2; lia.
Qed.

(** Fields of a word that do not overlap are added. *)
Lemma lor_disjoint k x y : 0 <= k -> 0 <= x < 2 ^ k -> Z.lor x (y * 2 ^ k) = x + y * 2 ^ k.
Proof.
  intros Hk Hx. pose proof (Z.add_lor_land x (y * 2 ^ k)) as H.
  assert (Z.land x (y * 2 ^ k) = 0) as H0; [|lia].
  rewrite <- (Z.mod_small x (2 ^ k)) by done.
  rewrite <- Z.land_ones, <- Z.land_assoc, (Z.land_comm (Z.ones k)), Z.land_ones by done.
  rewrite Z.mod_mul by lia. apply Z.land_0_r.
Qed.

(** ** Arrays: lists indexed by [Z] with the bounds check written out *)

Definition aget {A} (l : list A) (i : Z) : result A :=
  if (0 <=? i) && (i <? Z.of_nat (length l))
  then get_or OutOfBounds (l !! Z.to_nat i) else Err OutOfBounds.

Definition aset {A} (l : list A) (i : Z) (x : A) : result (list A) :=
  if (0 <=? i) && (i <? Z.of_nat (length l))
  then Ok (<[Z.to_nat i := x]> l) else Err OutOfBounds.

Declare Scope lc_scope.
Delimit Scope lc_scope with lc.
(** [a .[ i ]] reads and [a .[ i <- x ]] writes the array [a] of the C code. *)
Notation "a .[ i ]" := (aget a i) (at level 1, i at level 200, left associativity,
  format "a .[ i ]") : lc_scope.
Notation "a .[ i <- x ]" := (aset a i x) (at level 1, i at level 200, x at level 200,
  left associativity, format "a .[ i  <-  x ]") : lc_scope.
Global Open Scope lc_scope.

Lemma aget_ok {A} (l : list A) i x :
  aget l i = Ok x <-> 0 <= i /\ l !! Z.to_nat i = Some x.
Proof.
  unfold aget. split.
  - destruct (_ && _) eqn:E; [|done]. zbool.
    destruct (l !! Z.to_nat i) eqn:Hl; cbn; [|done]. intros [= ->]. done.
  - intros [Hi Hl]. pose proof (lookup_lt_Some _ _ _ Hl) as Hlt.
    rewrite (proj2 (andb_true_iff _ _)), Hl; [done|].
    split; [by apply Z.leb_le|apply Z.ltb_lt; lia].
Qed.

Lemma aset_ok {A} (l : list A) i x l' :
  aset l i x = Ok l' <-> 0 <= i < Z.of_nat (length l) /\ l' = <[Z.to_nat i := x]> l.
Proof.
  unfold aset. destruct (_ && _) eqn:E.
  - zbool. split; [intros [= <-]; split; [lia|done]|intros [_ ->]; done].
  - split; [done|]. intros [Hi _]. exfalso.
    apply andb_false_iff in E as [E|E]; zbool; lia.
Qed.

Lemma aget_in {A} (l : list A) i :
  0 <= i < Z.of_nat (length l) -> exists x, aget l i = Ok x /\ l !! Z.to_nat i = Some x.
Proof.
  intros Hi. destruct (lookup_lt_is_Some_2 l (Z.to_nat i)) as [x Hx]; [lia|].
  exists x. split; [|done]. apply aget_ok. split; [lia|done].
Qed.

Lemma aset_in {A} (l : list A) i x :
  0 <= i < Z.of_nat (length l) -> aset l i x = Ok (<[Z.to_nat i := x]> l).
Proof. intros Hi. by apply aset_ok. Qed.

Lemma aget_out {A} (l : list A) i :
  i < 0 \/ Z.of_nat (length l) <= i -> aget l i = Err OutOfBounds.
Proof.
  intros Hi. unfold aget. destruct (_ && _) eqn:E; [|done]. zbool. lia.
Qed.

Lemma aset_out {A} (l : list A) i (x : A) :
  i < 0 \/ Z.of_nat (length l) <= i -> aset l i x = Err OutOfBounds.
Proof.
  intros Hi. unfold aset. destruct (_ && _) eqn:E; [|done]. zbool. lia.
Qed.

(** ** Lists *)

(** Two predicates that differ at one element only, which one of them keeps. *)
Lemma length_filter_one {A} (P Q : A -> Prop)
    `{!forall x, Decision (P x), !forall x, Decision (Q x)} (l : list A) x :
  NoDup l -> x ∈ l -> ~ P x -> Q x -> (forall y, y ∈ l -> y <> x -> P y <-> Q y) ->
  length (filter Q l) = S (length (filter P l)).
Proof.
  intros Hnd Hin HP HQ Heq.
  induction Hnd as [|y l Hy Hnd IH]; [by inversion Hin|].
  rewrite !filter_cons. apply elem_of_cons in Hin as [->|Hin].
  - rewrite decide_True, decide_False by done. cbn. do 2 f_equal.
    assert (forall z, z ∈ l -> P z <-> Q z) as Hl.
    { intros z Hz. apply Heq; [by apply elem_of_cons; right|]. by intros ->. }
    clear -Hl. induction l as [|z l IH]; [done|].
    pose proof (Hl z ltac:(by apply elem_of_cons; left)).
    rewrite !filter_cons, IH by (intros; apply Hl, elem_of_cons; by right).
    by repeat case_decide; try tauto.
  - assert (y <> x) as Hne by (by intros ->).
    pose proof (Heq y ltac:(by apply elem_of_cons; left) Hne).
    assert (length (filter Q l) = S (length (filter P l))) as IH'
      by (apply IH; [done|intros; apply Heq; [by apply elem_of_cons; right|done]]).
    repeat case_decide; try tauto; cbn; by rewrite IH'.
Qed.

(** The element at [i] of a list of lists, and the rest of their concatenation. *)
Lemma concat_lookup {A B} (f : A -> list B) (l : list A) i a :
  l !! i = Some a ->
  exists rest, concat (f <$> l) ≡ₚ f a ++ rest /\
    forall a', concat (f <$> <[i := a']> l) ≡ₚ f a' ++ rest.
Proof.
  intros Hi. exists (concat (f <$> take i l) ++ concat (f <$> drop (S i) l)).
  assert (forall a', concat (f <$> take i l ++ a' :: drop (S i) l) ≡ₚ
    f a' ++ concat (f <$> take i l) ++ concat (f <$> drop (S i) l)) as H.
  { intros a'. rewrite fmap_app, concat_app, fmap_cons. cbn.
    rewrite !app_assoc. by rewrite (Permutation_app_comm (concat _) (f a')). }
  split.
  - rewrite <- H. by rewrite take_drop_middle.
  - intros a'. rewrite <- H.
    by rewrite insert_take_drop by (by eapply lookup_lt_Some).
Qed.

(** ** State passing

    Operations on a state of type [S] that can fault; each component has its own state. *)
Definition ST (S A : Type) : Type := S -> result (A * S).

#[export] Instance ST_ret {S} : MRet (ST S) := fun A a s => Ok (a, s).
#[export] Instance ST_bind {S} : MBind (ST S) := fun A B k m s =>
  match m s with Ok (a, s') => k a s' | Err f => Err f end.

Definition st_get {S A} (f : S -> A) : ST S A := fun s => Ok (f s, s).
Definition st_set {S} (f : S -> S) : ST S unit := fun s => Ok (tt, f s).
Definition st_lift {S A} (r : result A) : ST S A := fun s =>
  match r with Ok a => Ok (a, s) | Err f => Err f end.
Definition st_fail {S A} (f : fault) : ST S A := fun _ => Err f.
Definition st_when {S} (b : bool) (m : ST S unit) : ST S unit := if b then m else mret tt.

Lemma st_bind_run {S A B} (m : ST S A) (k : A -> ST S B) s a s' :
  m s = Ok (a, s') -> (m ≫= k) s = k a s'.
Proof. intros E. unfold mbind, ST_bind. by rewrite E. Qed.

Lemma st_bind_inv {S A B} (m : ST S A) (k : A -> ST S B) s b s' :
  (m ≫= k) s = Ok (b, s') -> exists a s1, m s = Ok (a, s1) /\ k a s1 = Ok (b, s').
Proof. unfold mbind, ST_bind. destruct (m s) as [[a s1]|]; [eauto|done]. Qed.

(** Opens the binds of a hypothesis. *)
Ltac inv_st :=
  repeat match goal with
  | H : mbind _ _ _ = Ok (_, _) |- _ =>
      let a := fresh "a" in let s := fresh "s" in let Ha := fresh "Ha" in
      apply st_bind_inv in H as (a & s & Ha & H)
  | H : Ok _ = Ok _ |- _ => injection H; clear H; intros; subst
  end.
