(* ===== verification/Text.v ===== *)
(** * Text: C strings as lists of bytes, and the numbers of printf and scanf

    What the C library's conversions %d, %llu, atoi, strtol and strtoull do, as the
    components that format and parse text use them. *)
From Stdlib Require Import String Ascii.
From S2P Require Import Prelude.

(** The bytes of a literal. *)
Fixpoint str (s : string) : list Z :=
  match s with
  | EmptyString => []
  | String c s => Z.of_nat (nat_of_ascii c) :: str s
  end.

Definition DASH : Z := 45.

(** The decimal digits of [n >= 0] in front of [acc]; a 64-bit word has at most 20. *)
Fixpoint digits_acc (fuel : nat) (n : Z) (acc : list Z) : list Z :=
  match fuel with
  | O => acc
  | S fuel => let acc := (48 + n mod 10) :: acc in
              if n <? 10 then acc else digits_acc fuel (n / 10) acc
  end.
Definition print_unsigned (n : Z) : list Z := digits_acc 20 n [].
Definition print_signed (n : Z) : list Z :=
  if n <? 0 then DASH :: print_unsigned (- n) else print_unsigned n.

Definition is_digit (c : Z) : bool := (48 <=? c) && (c <=? 57).
Definition is_space (c : Z) : bool := (c =? 32) || ((9 <=? c) && (c <=? 13)).

Fixpoint skip_spaces (l : list Z) : list Z :=
  match l with c :: l' => if is_space c then skip_spaces l' else l | [] => [] end.

Fixpoint read_digits (l : list Z) (v : Z) : Z * list Z :=
  match l with
  | c :: l' => if is_digit c then read_digits l' (10 * v + (c - 48)) else (v, l)
  | [] => (v, [])
  end.

(** An optional sign and digits: whether there was a minus, the digits' value, the rest. *)
Definition read_number (l : list Z) : option (bool * Z * list Z) :=
  let l := skip_spaces l in
  let '(neg, l) := match l with
    | c :: l' => if c =? DASH then (true, l') else if c =? 43 then (false, l') else (false, l)
    | [] => (false, []) end in
  match l with
  | c :: _ => if is_digit c then let '(v, r) := read_digits l 0 in Some (neg, v, r) else None
  | [] => None
  end.

(** %llu as strtoull reads it, %d as strtol reads it, its value cut to a word. *)
Definition scan_unsigned (l : list Z) : option (Z * list Z) :=
  '(neg, v, r) ← read_number l;
  Some (if 2 ^ 64 <=? v then 2 ^ 64 - 1 else if neg : bool then u64 (- v) else v, r).
Definition scan_int (l : list Z) : option (Z * list Z) :=
  '(neg, v, r) ← read_number l;
  Some (if neg : bool then - Z.min v (2 ^ 63) else Z.min v (2 ^ 63 - 1), r).
(** atoi: 0 when there is no number. *)
Definition atoi (l : list Z) : Z :=
  match scan_int l with Some (v, _) => i32 v | None => 0 end.

(** ** What is printed is read back *)

Definition num (ds : list Z) (v : Z) : Z := fold_left (fun v c => 10 * v + (c - 48)) ds v.

Lemma print_digits fuel n acc : (0 < fuel)%nat -> 0 <= n < 10 ^ Z.of_nat fuel ->
  exists ds, digits_acc fuel n acc = ds ++ acc /\ ds <> [] /\
    Forall (fun c => is_digit c = true) ds /\ num ds 0 = n.
Proof.
  revert n acc. induction fuel as [|fuel IH]; intros n acc Hf Hn; [lia|]. cbn [digits_acc].
  pose proof (Z.mod_pos_bound n 10 ltac:(lia)). pose proof (Z.div_mod n 10 ltac:(lia)).
  assert (is_digit (48 + n mod 10) = true) as Hd.
  { unfold is_digit. apply andb_true_iff. split; apply Z.leb_le; lia. }
  destruct (Z.ltb_spec n 10) as [Hlt|Hge].
  - exists [48 + n mod 10]. rewrite Z.mod_small in * by lia. split_and!; [done|done|by repeat constructor|].
    cbn. lia.
  - rewrite Nat2Z.inj_succ, Z.pow_succ_r in Hn by lia.
    destruct (IH (n / 10) ((48 + n mod 10) :: acc)) as (ds & E & Hne & Hds & Hv).
    { destruct fuel; [|lia]. cbn in Hn. lia. }
    { split; [apply Z.div_pos; lia|apply Z.div_lt_upper_bound; lia]. }
    exists (ds ++ [48 + n mod 10]). rewrite E, <- app_assoc. split_and!; [done|by destruct ds| |].
    + by apply Forall_app; split; [|repeat constructor].
    + unfold num in *. rewrite fold_left_app, Hv. cbn. lia.
Qed.

Lemma read_digits_app ds r v : Forall (fun c => is_digit c = true) ds ->
  is_digit (hd DASH r) = false -> read_digits (ds ++ r) v = (num ds v, r).
Proof.
  intros Hds Hr. revert v. induction Hds as [|c ds Hc Hds IH]; intros v; cbn [app].
  - destruct r as [|c r]; [done|]. cbn in Hr |- *. by rewrite Hr.
  - cbn [read_digits]. rewrite Hc, IH. done.
Qed.

Lemma read_number_print n r : 0 <= n < 2 ^ 64 -> is_digit (hd DASH r) = false ->
  read_number (print_unsigned n ++ r) = Some (false, n, r).
Proof.
  intros Hn Hr. destruct (print_digits 20 n []) as (ds & E & Hne & Hds & Hv); [lia|cbn; lia|].
  unfold print_unsigned. rewrite E, app_nil_r. destruct ds as [|c ds]; [done|].
  pose proof (read_digits_app _ r 0 Hds Hr) as Hrd. inversion Hds as [|? ? Hc _]; subst.
  unfold read_number. cbn [app skip_spaces] in *.
  assert (48 <= c <= 57) as Hcr.
  { unfold is_digit in Hc. apply andb_true_iff in Hc as [H1 H2]. apply Z.leb_le in H1, H2. lia. }
  assert (is_space c = false) as ->.
  { unfold is_space. rewrite (proj2 (Z.eqb_neq c 32)), (proj2 (Z.leb_gt c 13)) by lia. apply andb_false_r. }
  rewrite (proj2 (Z.eqb_neq c DASH)), (proj2 (Z.eqb_neq c 43)), Hc by (unfold DASH; lia).
  by rewrite Hrd.
Qed.

Lemma scan_unsigned_print n r : 0 <= n < 2 ^ 64 -> is_digit (hd DASH r) = false ->
  scan_unsigned (print_unsigned n ++ r) = Some (n, r).
Proof.
  intros Hn Hr. unfold scan_unsigned. rewrite read_number_print by done. cbn.
  by rewrite (proj2 (Z.leb_gt _ _)) by lia.
Qed.

Lemma scan_int_unsigned n r : 0 <= n < 2 ^ 63 -> is_digit (hd DASH r) = false ->
  scan_int (print_unsigned n ++ r) = Some (n, r).
Proof.
  intros Hn Hr. unfold scan_int. rewrite read_number_print by (done || lia). cbn.
  by rewrite Z.min_l by lia.
Qed.

(** %d reads back what %d printed, negative numbers too. *)
Lemma scan_int_print n r : - 2 ^ 31 <= n < 2 ^ 31 -> is_digit (hd DASH r) = false ->
  scan_int (print_signed n ++ r) = Some (n, r).
Proof.
  intros Hn Hr. unfold print_signed. destruct (Z.ltb_spec n 0); [|apply scan_int_unsigned; [lia|done]].
  destruct (print_digits 20 (- n) []) as (ds & E & Hne & Hds & Hv); [lia|cbn; lia|].
  unfold print_unsigned. rewrite E, app_nil_r. destruct ds as [|c ds]; [done|].
  pose proof (read_digits_app _ r 0 Hds Hr) as Hrd. inversion Hds as [|? ? Hc _]; subst.
  unfold scan_int, read_number. cbn [app skip_spaces is_space].
  change (is_space DASH) with false. cbn [Z.eqb]. change (DASH =? DASH) with true. cbn iota beta.
  rewrite Hc. cbn [app] in Hrd. rewrite Hrd. cbn [mbind option_bind]. rewrite Hv, Z.min_l by lia.
  do 2 f_equal. lia.
Qed.

Lemma atoi_print n : 0 <= n < 2 ^ 31 -> atoi (print_unsigned n) = n.
Proof.
  intros Hn. unfold atoi, scan_int. rewrite <- (app_nil_r (print_unsigned n)).
  rewrite read_number_print by (done || lia). cbn [mbind option_bind].
  rewrite Z.min_l, i32_small by lia. done.
Qed.

Lemma print_signed_nonneg n : 0 <= n -> print_signed n = print_unsigned n.
Proof. intros Hn. unfold print_signed. by rewrite (proj2 (Z.ltb_ge _ _)). Qed.
