(* ===== verification/Config.v ===== *)
(** * Constants and enumerations (include/lc.h, src/include/config.h)

    Built as the default [config.mk] builds it: not the OFI server. *)
From S2P Require Import Prelude.

Definition LC_PACKET_SIZE : Z := 8 * 1024 + 4096.
Definition LC_MAX_INLINE : Z := 128.
Definition LC_DEV_MEM_SIZE : Z := 8 * 1024 * 1024.
Definition LC_SERVER_MAX_RCVS : Z := 64.
Definition LC_SERVER_NUM_PKTS : Z := 1024.
Definition LC_CACHE_LINE : Z := 64.

(** lc_status *)
Inductive lc_status : Type := LC_OK | LC_ERR_RETRY | LC_ERR_FATAL.

#[export] Instance lc_status_eq_dec : EqDecision lc_status.
Proof. solve_decision. Defined.

(** lc_ep_addr: how arrivals of an endpoint are addressed. *)
Definition EP_AR_DYN : Z := Z.shiftl 1 1.
Definition EP_AR_EXP : Z := Z.shiftl 1 2.
Definition EP_AR_IMM : Z := Z.shiftl 1 3.

(** lc_ep_ce: how completions are reported. *)
Definition EP_CE_NULL : Z := 0.
Definition EP_CE_SYNC : Z := Z.shiftl (Z.shiftl 1 1) 4.
Definition EP_CE_CQ : Z := Z.shiftl (Z.shiftl 1 2) 4.
Definition EP_CE_AM : Z := Z.shiftl (Z.shiftl 1 3) 4.
Definition EP_CE_GLOB : Z := Z.shiftl (Z.shiftl 1 4) 4.

(** struct lc_ep_desc and its predefined values. *)
Record lc_ep_desc : Type := EpDesc { desc_addr : Z; desc_ce : Z }.
Definition LC_EXP_NULL := EpDesc EP_AR_EXP EP_CE_NULL.
Definition LC_EXP_SYNC := EpDesc EP_AR_EXP EP_CE_SYNC.
Definition LC_EXP_CQ := EpDesc EP_AR_EXP EP_CE_CQ.
Definition LC_EXP_AM := EpDesc EP_AR_EXP EP_CE_AM.
Definition LC_DYN_CQ := EpDesc EP_AR_DYN EP_CE_CQ.
Definition LC_DYN_AM := EpDesc EP_AR_DYN EP_CE_AM.
Definition LC_IMM_CQ := EpDesc EP_AR_IMM EP_CE_CQ.
Definition LC_IMM_AM := EpDesc EP_AR_IMM EP_CE_AM.

(** The bit test [cap & flag] of the dispatch functions. *)
Definition has_cap (cap flag : Z) : bool := truth (Z.land cap flag).
