(* ===== verification/Lock.v ===== *)
(** * The spin lock (include/lc/lock.h)

    [lc_spin_lock] and [lc_spin_unlock] as the atomic steps threads interleave, and
    the sequential functions the lock-protected components call. *)
From S2P Require Import Prelude.

(** LC_SPIN_UNLOCKED, LC_SPIN_LOCKED *)
Definition LC_SPIN_UNLOCKED : Z := 0.
Definition LC_SPIN_LOCKED : Z := 1.

(** ** One thread running alone

    A thread that finds the lock taken spins until another thread releases it: run
    alone it never returns. *)
Definition lc_spin_lock (flag : Z) : result Z :=
  if flag =? LC_SPIN_UNLOCKED then Ok LC_SPIN_LOCKED else Err Spin.

Definition lc_spin_unlock (flag : Z) : Z := LC_SPIN_UNLOCKED.

(** ** Threads interleaving

    The program counter of a thread that uses the lock: outside, at the
    [__sync_lock_test_and_set], in the inner [while ( *flag)] loop, at the
    [__sync_val_compare_and_swap], between lock and unlock. *)
Inductive lock_pc : Type :=
| Outside | AtTestAndSet | Spinning | AtCas | Holding.

#[export] Instance lock_pc_eq_dec : EqDecision lock_pc.
Proof. solve_decision. Defined.

(** One atomic step of one thread: the new counter and the new flag. *)
Definition lock_pc_step (pc : lock_pc) (flag : Z) : lock_pc * Z :=
  match pc with
  | Outside => (AtTestAndSet, flag)
  | AtTestAndSet => (if truth flag then Spinning else Holding, 1)
  | Spinning => (if truth flag then Spinning else AtCas, flag)
  | AtCas => if flag =? 0 then (Holding, 1) else (Spinning, flag)
  | Holding => (Outside, 0)
  end.

Record lock_state : Type := LockState { ls_flag : Z; ls_pcs : list lock_pc }.

(** Any thread may take the next step. *)
Inductive lock_step : lock_state -> lock_state -> Prop :=
| LockStep s i pc pc' flag' :
    ls_pcs s !! i = Some pc ->
    lock_pc_step pc (ls_flag s) = (pc', flag') ->
    lock_step s (LockState flag' (<[i := pc']> (ls_pcs s))).

Definition lock_init (n : nat) : lock_state :=
  LockState LC_SPIN_UNLOCKED (replicate n Outside).

Definition lock_reachable (n : nat) : lock_state -> Prop :=
  rtc lock_step (lock_init n).

(** Run the threads in the order a schedule names them. *)
Fixpoint lock_run (sched : list nat) (s : lock_state) : lock_state :=
  match sched with
  | [] => s
  | i :: sched' =>
      match ls_pcs s !! i with
      | Some pc => let '(pc', f') := lock_pc_step pc (ls_flag s) in
                   lock_run sched' (LockState f' (<[i := pc']> (ls_pcs s)))
      | None => lock_run sched' s
      end
  end.

(** ** The invariant: the flag counts the threads that hold the lock *)

Definition holders (pcs : list lock_pc) : nat :=
  length (filter (fun pc => pc = Holding) pcs).

Definition lock_inv (s : lock_state) : Prop :=
  ls_flag s = Z.of_nat (holders (ls_pcs s)) /\ (holders (ls_pcs s) <= 1)%nat.

Definition hold1 (pc : lock_pc) : nat := match pc with Holding => 1 | _ => 0 end.

#[local] Arguments holders _ : simpl never.

Lemma holders_cons p pcs : holders (p :: pcs) = (hold1 p + holders pcs)%nat.
Proof. unfold holders. rewrite filter_cons. by destruct p. Qed.

Lemma holders_insert pcs i pc pc' :
  pcs !! i = Some pc ->
  (holders (<[i := pc']> pcs) + hold1 pc = holders pcs + hold1 pc')%nat.
Proof.
  revert i. induction pcs as [|p pcs IH]; intros [|i] H; cbn in H; simplify_eq.
  - change (<[O := pc']> (pc :: pcs)) with (pc' :: pcs). rewrite !holders_cons. lia.
  - specialize (IH _ H). change (<[S i := pc']> (p :: pcs)) with (p :: <[i := pc']> pcs).
    rewrite !holders_cons. lia.
Qed.

Lemma lock_inv_init n : lock_inv (lock_init n).
Proof.
  assert (holders (replicate n Outside) = 0)%nat as H.
  { induction n as [|n IH]; [done|]. cbn [replicate]. by rewrite holders_cons. }
  unfold lock_inv, lock_init, LC_SPIN_UNLOCKED. cbn [ls_flag ls_pcs]. rewrite H. lia.
Qed.

Lemma lock_inv_step s s' : lock_inv s -> lock_step s s' -> lock_inv s'.
Proof.
  intros [Hf Hle] Hs. destruct Hs as [s i pc pc' flag' Hi Hstep]. cbn.
  pose proof (holders_insert _ _ _ pc' Hi) as Hc. unfold lock_inv. cbn.
  destruct pc; unfold hold1 in Hc; cbn in *;
    repeat match type of Hstep with
    | context [truth ?f] => destruct (truth f) eqn:?; zbool
    | context [?f =? 0] => destruct (Z.eqb_spec f 0)
    end; simplify_eq; cbn in *; try done; lia.
Qed.

Lemma lock_inv_steps s s' : rtc lock_step s s' -> lock_inv s -> lock_inv s'.
Proof. induction 1; eauto using lock_inv_step. Qed.

Lemma lock_inv_reachable n s : lock_reachable n s -> lock_inv s.
Proof. intros H. eapply lock_inv_steps; [exact H|apply lock_inv_init]. Qed.

Lemma holders_two pcs i j :
  pcs !! i = Some Holding -> pcs !! j = Some Holding -> i <> j ->
  (2 <= holders pcs)%nat.
Proof.
  intros Hi Hj Hne.
  pose proof (holders_insert _ _ _ Outside Hi) as H1.
  assert (<[i := Outside]> pcs !! j = Some Holding) as Hj'
    by (by rewrite list_lookup_insert_ne).
  pose proof (holders_insert _ _ _ Outside Hj') as H2.
  unfold hold1 in *. cbn in *. lia.
Qed.

Lemma holders_pos pcs : (0 < holders pcs)%nat -> exists i, pcs !! i = Some Holding.
Proof.
  induction pcs as [|p pcs IH]; [by inversion 1|]. rewrite holders_cons.
  destruct p; cbn; intros H; [destruct (IH H) as [i Hi]; by exists (S i)..|].
  by exists O.
Qed.

(** ** Properties *)

(** C38: Mutual exclusion: in every state that threads interleaving the atomic steps of
    [lc_spin_lock] and [lc_spin_unlock] can reach, at most one is between the two. *)
Theorem lock_mutual_exclusion n s i j :
  lock_reachable n s ->
  ls_pcs s !! i = Some Holding -> ls_pcs s !! j = Some Holding -> i = j.
Proof.
  intros Hr Hi Hj. destruct (decide (i = j)) as [|Hne]; [done|exfalso].
  pose proof (lock_inv_reachable _ _ Hr) as [_ Hle].
  pose proof (holders_two _ _ _ Hi Hj Hne). lia.
Qed.

(** No lost release: whenever the flag is set some thread holds the lock, and when it
    is clear any thread waiting in the spin loop takes it with its next two steps. *)
Theorem lock_no_lost_release n s :
  lock_reachable n s ->
  (ls_flag s <> LC_SPIN_UNLOCKED -> exists i, ls_pcs s !! i = Some Holding) /\
  (ls_flag s = LC_SPIN_UNLOCKED -> forall i, ls_pcs s !! i = Some Spinning ->
     lock_run [i; i] s = LockState LC_SPIN_LOCKED (<[i := Holding]> (ls_pcs s))).
Proof.
  intros Hr. pose proof (lock_inv_reachable _ _ Hr) as [Hf Hle].
  unfold LC_SPIN_UNLOCKED, LC_SPIN_LOCKED. split.
  - intros Hne. apply holders_pos. lia.
  - intros H0 i Hi. destruct s as [f pcs]. cbn in *. subst f. rewrite Hi, H0. cbn.
    pose proof (lookup_lt_Some _ _ _ Hi).
    rewrite list_lookup_insert_eq by done. cbn. by rewrite list_insert_insert_eq.
Qed.

(** ** Witnesses: two threads race, thread 0 wins and thread 1 spins *)

Lemma lock_run_reachable sched s : rtc lock_step s (lock_run sched s).
Proof.
  revert s. induction sched as [|i sched IH]; intros s; cbn; [done|].
  destruct (ls_pcs s !! i) as [pc|] eqn:Hi; [|done].
  destruct (lock_pc_step pc (ls_flag s)) as [pc' f'] eqn:Hp.
  eapply rtc_l; [by econstructor|apply IH].
Qed.

Definition demo_race : lock_state := lock_run [0; 1; 1; 0]%nat (lock_init 2).
Definition demo_released : lock_state := lock_run [1]%nat demo_race.

Lemma lock_mutual_exclusion_witness :
  lock_reachable 2 demo_race /\ ls_pcs demo_race = [Spinning; Holding] /\
  (forall j, ls_pcs demo_race !! j = Some Holding -> 1%nat = j).
Proof.
  assert (lock_reachable 2 demo_race) as H by apply lock_run_reachable.
  split; [exact H|]. split; [reflexivity|]. intros j Hj.
  refine (lock_mutual_exclusion 2 demo_race 1 j H _ Hj). reflexivity.
Defined.

Lemma lock_no_lost_release_witness :
  ls_flag demo_released = LC_SPIN_UNLOCKED /\
  lock_run [0; 0]%nat demo_released = LockState LC_SPIN_LOCKED [Holding; Outside].
Proof.
  assert (lock_reachable 2 demo_released) as H.
  { unfold lock_reachable. transitivity demo_race; apply lock_run_reachable. }
  split; [reflexivity|].
  exact (proj2 (lock_no_lost_release 2 demo_released H) eq_refl 0%nat eq_refl).
Defined.
