(* ===== verification/Ring.v ===== *)
(** * Ring buffers

    The window of a ring of [N] cells: the elements from index [bot] on, [n] of
    them, indices taken modulo [N].  [Dequeue] and [CompQueue] describe their
    contents with it; the lemmas here are the whole of the ring arithmetic. *)
From S2P Require Import Prelude.

Section Ring.
Context {A : Type} (N : Z) (HN : 0 < N).

  (** The elements at [bot], [bot + 1], ... of the ring, [n] of them. *)
Fixpoint ring_window (cells : list A) (bot : Z) (n : nat) : list A :=
    match n with
    | O => []
    | S n' =>
        match cells !! Z.to_nat (bot mod N) with
        | Some x => x :: ring_window cells (bot + 1) n'
        | None => []
        end
    end.

  (** How many elements lie between [bot] and [top]. *)
Definition ring_count (bot top : Z) : nat := Z.to_nat ((top - bot) mod N).

Definition in_ring (i : Z) : Prop := 0 <= i < N.

Lemma mod_in_ring i : in_ring (i mod N).
  Proof. apply Z.mod_pos_bound, HN. Qed.

Lemma ring_count_lt bot top : (Z.of_nat (ring_count bot top) < N).
  Proof. unfold ring_count. pose proof (mod_in_ring (top - bot)) as []. lia. Qed.

Lemma ring_count_self i : ring_count i i = O.
  Proof. unfold ring_count. by rewrite Z.sub_diag, Z.mod_0_l by lia. Qed.

Lemma ring_count_0 bot top :
    in_ring bot -> in_ring top -> ring_count bot top = O -> bot = top.
  Proof.
    unfold ring_count, in_ring. intros Hb Ht H.
    pose proof (Z.mod_pos_bound (top - bot) N HN) as Hm.
    destruct (Z.lt_ge_cases top bot).
    - rewrite <- (Z_mod_plus_full (top - bot) 1 N), Z.mod_small in H by lia. lia.
    - rewrite Z.mod_small in H by lia. lia.
  Qed.

Lemma ring_count_succ bot top :
    Z.of_nat (ring_count bot top) < N - 1 ->
    ring_count bot ((top + 1) mod N) = S (ring_count bot top).
  Proof.
    unfold ring_count. intros H. pose proof (mod_in_ring (top - bot)) as [].
    rewrite Zminus_mod_idemp_l.
    replace (top + 1 - bot) with ((top - bot) + 1) by lia.
    rewrite <- Zplus_mod_idemp_l. rewrite (Z.mod_small (_ + 1)) by lia. lia.
  Qed.

  (** One more element makes the indices meet exactly when the ring held [N - 1]. *)
Lemma ring_full_iff bot top :
    in_ring bot -> in_ring top ->
    (top + 1) mod N = bot <-> Z.of_nat (ring_count bot top) = N - 1.
  Proof.
    intros Hb Ht. unfold ring_count, in_ring in *.
    pose proof (mod_in_ring (top - bot)) as [? ?]. rewrite Z2Nat.id by lia.
    destruct (Z.lt_ge_cases top bot).
    - rewrite <- (Z_mod_plus_full (top - bot) 1 N), (Z.mod_small (_ + 1 * N)) by lia.
      rewrite Z.mod_small by lia. lia.
    - rewrite (Z.mod_small (top - bot)) by lia.
      destruct (Z.eq_dec top (N - 1)) as [->|].
      + replace (N - 1 + 1) with (0 + 1 * N) by lia.
        rewrite Z_mod_plus_full, Z.mod_0_l by lia. lia.
      + rewrite Z.mod_small by lia. lia.
  Qed.

Lemma ring_count_succ_bot bot top :
    (0 < ring_count bot top)%nat ->
    ring_count bot top = S (ring_count ((bot + 1) mod N) top).
  Proof.
    unfold ring_count. intros H. pose proof (mod_in_ring (top - bot)) as [].
    rewrite Zminus_mod_idemp_r.
    replace (top - (bot + 1)) with ((top - bot) - 1) by lia.
    rewrite <- (Zminus_mod_idemp_l (top - bot) 1), (Z.mod_small (_ - 1)) by lia. lia.
  Qed.

Lemma ring_count_pred bot top :
    (0 < ring_count bot top)%nat ->
    ring_count bot top = S (ring_count bot ((top + N - 1) mod N)).
  Proof.
    unfold ring_count. intros H. pose proof (mod_in_ring (top - bot)) as [].
    rewrite Zminus_mod_idemp_l.
    replace (top + N - 1 - bot) with ((top - bot) - 1 + 1 * N) by lia.
    rewrite Z_mod_plus_full, <- (Zminus_mod_idemp_l (top - bot) 1),
      (Z.mod_small (_ - 1)) by lia. lia.
  Qed.

Lemma ring_window_mod cells bot n :
    ring_window cells (bot mod N) n = ring_window cells bot n.
  Proof.
    revert bot. induction n as [|n IH]; intros bot; [done|]. cbn.
    rewrite Z.mod_mod by lia. destruct (_ !! _); [|done]. f_equal.
    rewrite <- (IH (bot + 1)), <- (IH (bot mod N + 1)).
    by rewrite Zplus_mod_idemp_l.
  Qed.

  Section Cells.
Context (cells : list A) (Hlen : Z.of_nat (length cells) = N).

Lemma ring_cell i : exists x, cells !! Z.to_nat (i mod N) = Some x.
    Proof.
      pose proof (mod_in_ring i) as []. apply lookup_lt_is_Some_2. lia.
    Qed.

Lemma length_ring_window bot n : length (ring_window cells bot n) = n.
    Proof.
      revert bot. induction n as [|n IH]; intros bot; [done|]. cbn.
      destruct (ring_cell bot) as [x ->]. cbn. by rewrite IH.
    Qed.

Lemma ring_window_cons bot n x :
      cells !! Z.to_nat (bot mod N) = Some x ->
      ring_window cells bot (S n) = x :: ring_window cells ((bot + 1) mod N) n.
    Proof. intros H. cbn. by rewrite H, ring_window_mod. Qed.

Lemma ring_window_snoc bot n x :
      cells !! Z.to_nat ((bot + Z.of_nat n) mod N) = Some x ->
      ring_window cells bot (S n) = ring_window cells bot n ++ [x].
    Proof.
      revert bot. induction n as [|n IH]; intros bot Hx.
      - rewrite Z.add_0_r in Hx. cbn. by rewrite Hx.
      - change (ring_window cells bot (S (S n))) with
          (match cells !! Z.to_nat (bot mod N) with
           | Some y => y :: ring_window cells (bot + 1) (S n) | None => [] end).
        rewrite IH; [|by replace (bot + 1 + Z.of_nat n) with (bot + Z.of_nat (S n)) by lia].
        cbn. by destruct (ring_cell bot) as [y ->].
    Qed.

    (** A store outside the window leaves the window alone. *)
Lemma ring_window_insert_out bot n k x :
      in_ring k -> (Z.of_nat n <= (k - bot) mod N) ->
      ring_window (<[Z.to_nat k := x]> cells) bot n = ring_window cells bot n.
    Proof.
      intros Hk. revert bot. induction n as [|n IH]; intros bot Hn; [done|]. cbn.
      pose proof (mod_in_ring (k - bot)) as [? ?]. pose proof (mod_in_ring bot) as [? ?].
      assert (bot mod N <> k).
      { intros E. assert ((k - bot) mod N = 0); [|lia].
        rewrite <- E, Zminus_mod_idemp_l, Z.sub_diag. apply Z.mod_0_l. lia. }
      unfold in_ring in Hk.
      rewrite list_lookup_insert_ne by lia. destruct (_ !! _); [|done].
      f_equal. apply IH.
      replace (k - (bot + 1)) with ((k - bot) - 1) by lia.
      rewrite <- Zminus_mod_idemp_l, (Z.mod_small (_ - 1)) by lia. lia.
    Qed.
  End Cells.

Lemma ring_count_Z bot top : Z.of_nat (ring_count bot top) = (top - bot) mod N.
  Proof. unfold ring_count. rewrite Z2Nat.id; [done|]. by apply mod_in_ring. Qed.

  (** Store at the top and advance it: the window grows at its end. *)
Lemma ring_push cells bot top x :
    Z.of_nat (length cells) = N -> in_ring top -> Z.of_nat (ring_count bot top) < N - 1 ->
    ring_window (<[Z.to_nat top := x]> cells) bot (ring_count bot ((top + 1) mod N)) =
    ring_window cells bot (ring_count bot top) ++ [x].
  Proof.
    intros Hlen Ht Hlt. rewrite ring_count_succ by done.
    rewrite (ring_window_snoc _ ltac:(by rewrite length_insert) _ _ x).
    - f_equal. apply ring_window_insert_out; [done|]. by rewrite ring_count_Z.
    - rewrite ring_count_Z, Zplus_mod_idemp_r, Zplus_minus, (Z.mod_small top) by apply Ht.
      apply list_lookup_insert_eq. unfold in_ring in Ht. lia.
  Qed.

  (** Read at the bottom and advance it: the window loses its first element. *)
Lemma ring_pop_bot cells bot top x :
    Z.of_nat (length cells) = N -> in_ring bot -> (0 < ring_count bot top)%nat ->
    cells !! Z.to_nat bot = Some x ->
    ring_window cells bot (ring_count bot top) =
    x :: ring_window cells ((bot + 1) mod N) (ring_count ((bot + 1) mod N) top).
  Proof.
    intros Hlen Hb Hpos Hx. rewrite ring_count_succ_bot by done.
    apply ring_window_cons. by rewrite Z.mod_small.
  Qed.

  (** Retreat the top and read there: the window loses its last element. *)
Lemma ring_pop_top cells bot top x :
    Z.of_nat (length cells) = N -> (0 < ring_count bot top)%nat ->
    cells !! Z.to_nat ((top + N - 1) mod N) = Some x ->
    ring_window cells bot (ring_count bot top) =
    ring_window cells bot (ring_count bot ((top + N - 1) mod N)) ++ [x].
  Proof.
    intros Hlen Hpos Hx. rewrite ring_count_pred by done.
    apply ring_window_snoc; [done|].
    by rewrite ring_count_Z, Zplus_mod_idemp_r, Zplus_minus, Z.mod_mod by lia.
  Qed.

Lemma ring_count_pos bot top :
    in_ring bot -> in_ring top -> bot <> top -> (0 < ring_count bot top)%nat.
  Proof.
    intros Hb Ht Hne. destruct (ring_count bot top) eqn:E; [|lia].
    by apply ring_count_0 in E.
  Qed.

Lemma ring_window_nil cells bot top :
    Z.of_nat (length cells) = N -> in_ring bot -> in_ring top ->
    ring_window cells bot (ring_count bot top) = [] <-> top = bot.
  Proof.
    intros Hl Hb Ht. rewrite <- length_zero_iff_nil, length_ring_window by done. split.
    - intros H. symmetry. by apply ring_count_0.
    - intros ->. apply ring_count_self.
  Qed.
End Ring.

#[global] Arguments in_ring N i /.
