(* ===== verification/Dequeue.v ===== *)
(** * The double-ended queue of free packets (include/lc/dequeue.h)

    A ring of [MAX_SIZE] pointers under a spin lock: pushed and popped at the top by
    its owner, popped at the bottom by thieves. *)
From S2P Require Import Prelude Lock Ring.

Definition MAX_SIZE : Z := 2 ^ 12.

Record dequeue : Type := Dequeue {
  dq_cache : Z;
  dq_top : Z;
  dq_bot : Z;
  dq_spinlock : Z;
  dq_container : list Z
}.

Definition dq_init : dequeue :=
  {| dq_cache := NULL; dq_top := 0; dq_bot := 0; dq_spinlock := LC_SPIN_UNLOCKED;
     dq_container := replicate (Z.to_nat MAX_SIZE) 0 |}.

Definition dq_pop_top (deq : dequeue) : result (dequeue * Z) :=
  l ← lc_spin_lock (dq_spinlock deq);
  if negb (dq_top deq =? dq_bot deq) then
    let top := Z.land (u64 (dq_top deq + MAX_SIZE - 1)) (MAX_SIZE - 1) in
    ret ← (dq_container deq).[top];
    Ok (Dequeue (dq_cache deq) top (dq_bot deq) (lc_spin_unlock l) (dq_container deq), ret)
  else
    Ok (Dequeue (dq_cache deq) (dq_top deq) (dq_bot deq) (lc_spin_unlock l)
          (dq_container deq), NULL).

Definition dq_push_top (deq : dequeue) (p : Z) : result dequeue :=
  l ← lc_spin_lock (dq_spinlock deq);
  container ← (dq_container deq).[dq_top deq <- p];
  let top := Z.land (u64 (dq_top deq + 1)) (MAX_SIZE - 1) in
  if top =? dq_bot deq then Err (Exit 1)    (* "pool overflow" *)
  else Ok (Dequeue (dq_cache deq) top (dq_bot deq) (lc_spin_unlock l) container).

Definition dq_pop_bot (deq : dequeue) : result (dequeue * Z) :=
  l ← lc_spin_lock (dq_spinlock deq);
  if negb (dq_top deq =? dq_bot deq) then
    ret ← (dq_container deq).[dq_bot deq];
    let bot := Z.land (u64 (dq_bot deq + 1)) (MAX_SIZE - 1) in
    Ok (Dequeue (dq_cache deq) (dq_top deq) bot (lc_spin_unlock l) (dq_container deq), ret)
  else
    Ok (Dequeue (dq_cache deq) (dq_top deq) (dq_bot deq) (lc_spin_unlock l)
          (dq_container deq), NULL).

(** ** Specification: the pointers held, bottom first *)

Definition dq_elems (deq : dequeue) : list Z :=
  ring_window MAX_SIZE (dq_container deq) (dq_bot deq)
    (ring_count MAX_SIZE (dq_bot deq) (dq_top deq)).

Record dq_wf (deq : dequeue) : Prop := {
  dq_wf_len : Z.of_nat (length (dq_container deq)) = MAX_SIZE;
  dq_wf_top : in_ring MAX_SIZE (dq_top deq);
  dq_wf_bot : in_ring MAX_SIZE (dq_bot deq);
  dq_wf_lock : dq_spinlock deq = LC_SPIN_UNLOCKED
}.

(** The ring keeps one cell free, so it holds at most this many pointers. *)
Definition dq_capacity : nat := Z.to_nat (MAX_SIZE - 1).

Lemma MAX_SIZE_pos : 0 < MAX_SIZE.
Proof. done. Qed.
#[local] Hint Resolve MAX_SIZE_pos : core.

Lemma dq_mask x : Z.land x (MAX_SIZE - 1) = x mod MAX_SIZE.
Proof. by apply land_mask. Qed.

Lemma dq_u64 x : - MAX_SIZE <= x < 3 * MAX_SIZE -> 0 <= x -> u64 x = x.
Proof. intros. apply u64_small. unfold MAX_SIZE in *. lia. Qed.

Lemma dq_lock_ok deq : dq_wf deq -> lc_spin_lock (dq_spinlock deq) = Ok LC_SPIN_LOCKED.
Proof. intros []. unfold lc_spin_lock. by rewrite dq_wf_lock0. Qed.

Lemma dq_elems_length deq : dq_wf deq ->
  length (dq_elems deq) = ring_count MAX_SIZE (dq_bot deq) (dq_top deq).
Proof. intros []. unfold dq_elems. by rewrite length_ring_window. Qed.

Lemma dq_elems_nil deq : dq_wf deq -> dq_elems deq = [] <-> dq_top deq = dq_bot deq.
Proof. intros []. by apply ring_window_nil. Qed.

(** The empty case the two pops share: the lock is released, nothing changes. *)
Lemma dq_unlocked deq : dq_wf deq ->
  Dequeue (dq_cache deq) (dq_top deq) (dq_bot deq) (lc_spin_unlock LC_SPIN_LOCKED)
    (dq_container deq) = deq.
Proof. destruct deq. intros [_ _ _ H]. cbn in *. by subst. Qed.

Lemma dq_init_wf : dq_wf dq_init.
Proof. split; cbn -[Z.to_nat]; rewrite ?length_replicate; unfold MAX_SIZE; lia. Qed.

Lemma dq_init_elems : dq_elems dq_init = [].
Proof. apply dq_elems_nil; [apply dq_init_wf|done]. Qed.

(** Pushing appends at the top, and exits exactly when the ring is full. *)
Lemma dq_push_top_spec deq p : dq_wf deq ->
  if decide (length (dq_elems deq) = dq_capacity)
  then dq_push_top deq p = Err (Exit 1)
  else exists deq', dq_push_top deq p = Ok deq' /\ dq_wf deq' /\
                    dq_elems deq' = dq_elems deq ++ [p].
Proof.
  intros Hwf. pose proof (dq_elems_length _ Hwf) as Hl. rewrite Hl.
  unfold dq_push_top. rewrite dq_lock_ok by done. destruct Hwf as [Hlen Ht Hb Hlk].
  pose proof Ht as Ht'. cbn in Ht'. cbn [mbind result_bind].
  rewrite aset_in by lia. cbn [mbind result_bind].
  rewrite dq_u64, dq_mask by lia.
  pose proof (ring_full_iff MAX_SIZE ltac:(done) _ _ Hb Ht) as Hfull.
  pose proof (ring_count_lt MAX_SIZE ltac:(done) (dq_bot deq) (dq_top deq)) as Hlt.
  unfold dq_capacity. case_decide as Hd.
  - rewrite (proj2 Hfull) by lia. by rewrite Z.eqb_refl.
  - destruct (Z.eqb_spec ((dq_top deq + 1) mod MAX_SIZE) (dq_bot deq)) as [E|E].
    { apply Hfull in E. lia. }
    eexists. split; [done|]. split.
    + split; cbn; [by rewrite length_insert|by apply Z.mod_pos_bound|done|done].
    + apply ring_push; [done..|lia].
Qed.

(** Popping at the top takes the pointer pushed last; an empty ring gives NULL. *)
Lemma dq_pop_top_spec deq : dq_wf deq ->
  exists deq' ret, dq_pop_top deq = Ok (deq', ret) /\ dq_wf deq' /\
    match dq_elems deq with
    | [] => ret = NULL /\ deq' = deq
    | _ :: _ => dq_elems deq = dq_elems deq' ++ [ret]
    end.
Proof.
  intros Hwf. unfold dq_pop_top. rewrite dq_lock_ok by done. cbn [mbind result_bind].
  destruct (Z.eqb_spec (dq_top deq) (dq_bot deq)) as [E|E]; cbn [negb].
  - rewrite (proj2 (dq_elems_nil _ Hwf) E).
    exists deq, NULL. split_and!; [by rewrite dq_unlocked|done..].
  - assert (dq_elems deq <> []) as Hne by (by rewrite dq_elems_nil).
    destruct Hwf as [Hlen Ht Hb Hlk]. pose proof Ht as Ht'. cbn in Ht'.
    rewrite dq_u64, dq_mask by lia.
    pose proof (mod_in_ring MAX_SIZE ltac:(done) (dq_top deq + MAX_SIZE - 1)) as Hm.
    destruct (aget_in (dq_container deq) ((dq_top deq + MAX_SIZE - 1) mod MAX_SIZE))
      as (x & -> & Hx); [by rewrite Hlen|].
    cbn [mbind result_bind]. eexists _, x. split; [done|]. split; [by split|].
    destruct (dq_elems deq) eqn:El; [done|]. rewrite <- El.
    apply ring_pop_top; [done..| |done]. by apply ring_count_pos; try done; apply not_eq_sym.
Qed.

(** Popping at the bottom takes the oldest pointer. *)
Lemma dq_pop_bot_spec deq : dq_wf deq ->
  exists deq' ret, dq_pop_bot deq = Ok (deq', ret) /\ dq_wf deq' /\
    match dq_elems deq with
    | [] => ret = NULL /\ deq' = deq
    | x :: rest => ret = x /\ dq_elems deq' = rest
    end.
Proof.
  intros Hwf. unfold dq_pop_bot. rewrite dq_lock_ok by done. cbn [mbind result_bind].
  destruct (Z.eqb_spec (dq_top deq) (dq_bot deq)) as [E|E]; cbn [negb].
  - rewrite (proj2 (dq_elems_nil _ Hwf) E).
    exists deq, NULL. split_and!; [by rewrite dq_unlocked|done..].
  - assert (dq_elems deq <> []) as Hne by (by rewrite dq_elems_nil).
    destruct Hwf as [Hlen Ht Hb Hlk]. pose proof Hb as Hb'. cbn in Hb'.
    destruct (aget_in (dq_container deq) (dq_bot deq)) as (x & -> & Hx); [by rewrite Hlen|].
    cbn [mbind result_bind]. rewrite dq_u64, dq_mask by lia. eexists _, x.
    split; [done|]. split; [split; cbn; try done; by apply Z.mod_pos_bound|].
    unfold dq_elems at 1. rewrite (ring_pop_bot MAX_SIZE ltac:(done) _ _ _ x); try done.
    by apply ring_count_pos; try done; apply not_eq_sym.
Qed.
