(* ===== verification/CompQueue.v ===== *)
(** * The completion queue (src/include/cq.h)

    A FIFO of completed requests: a ring of [CQ_MAX_SIZE] request pointers under a
    spin lock. *)
From S2P Require Import Prelude Config Lock Ring.

Definition CQ_MAX_SIZE : Z := LC_SERVER_NUM_PKTS * 2.

Record comp_q : Type := CompQ {
  cq_top : Z;
  cq_bot : Z;
  cq_spinlock : Z;
  cq_container : list Z
}.

Definition cq_init : comp_q :=
  CompQ 0 0 LC_SPIN_UNLOCKED (replicate (Z.to_nat CQ_MAX_SIZE) 0).

Definition cq_push (cq : comp_q) (req : Z) : result comp_q :=
  l ← lc_spin_lock (cq_spinlock cq);
  container ← (cq_container cq).[cq_top cq <- req];
  let top := Z.land (u64 (cq_top cq + 1)) (CQ_MAX_SIZE - 1) in
  if top =? cq_bot cq then Err (Exit 1)     (* "pool overflow" *)
  else Ok (CompQ top (cq_bot cq) (lc_spin_unlock l) container).

Definition cq_pop (cq : comp_q) : result (comp_q * Z) :=
  l ← lc_spin_lock (cq_spinlock cq);
  if negb (cq_top cq =? cq_bot cq) then
    ret ← (cq_container cq).[cq_bot cq];
    let bot := Z.land (u64 (cq_bot cq + 1)) (CQ_MAX_SIZE - 1) in
    Ok (CompQ (cq_top cq) bot (lc_spin_unlock l) (cq_container cq), ret)
  else
    Ok (CompQ (cq_top cq) (cq_bot cq) (lc_spin_unlock l) (cq_container cq), NULL).

(** ** Specification: the queued requests, oldest first *)

Definition cq_elems (cq : comp_q) : list Z :=
  ring_window CQ_MAX_SIZE (cq_container cq) (cq_bot cq)
    (ring_count CQ_MAX_SIZE (cq_bot cq) (cq_top cq)).

Record cq_wf (cq : comp_q) : Prop := {
  cq_wf_len : Z.of_nat (length (cq_container cq)) = CQ_MAX_SIZE;
  cq_wf_top : in_ring CQ_MAX_SIZE (cq_top cq);
  cq_wf_bot : in_ring CQ_MAX_SIZE (cq_bot cq);
  cq_wf_lock : cq_spinlock cq = LC_SPIN_UNLOCKED
}.

Definition cq_capacity : nat := Z.to_nat (CQ_MAX_SIZE - 1).

Lemma CQ_MAX_SIZE_pos : 0 < CQ_MAX_SIZE.
Proof. done. Qed.
#[local] Hint Resolve CQ_MAX_SIZE_pos : core.

Lemma cq_mask x : Z.land x (CQ_MAX_SIZE - 1) = x mod CQ_MAX_SIZE.
Proof. by apply (land_mask 11). Qed.

Lemma cq_u64 x : 0 <= x < 3 * CQ_MAX_SIZE -> u64 x = x.
Proof. intros. apply u64_small. unfold CQ_MAX_SIZE, LC_SERVER_NUM_PKTS in *. lia. Qed.

Lemma cq_lock_ok cq : cq_wf cq -> lc_spin_lock (cq_spinlock cq) = Ok LC_SPIN_LOCKED.
Proof. intros []. unfold lc_spin_lock. by rewrite cq_wf_lock0. Qed.

Lemma cq_elems_length cq : cq_wf cq ->
  length (cq_elems cq) = ring_count CQ_MAX_SIZE (cq_bot cq) (cq_top cq).
Proof. intros []. unfold cq_elems. by rewrite length_ring_window. Qed.

Lemma cq_elems_nil cq : cq_wf cq -> cq_elems cq = [] <-> cq_top cq = cq_bot cq.
Proof. intros []. by apply ring_window_nil. Qed.

Lemma cq_init_wf : cq_wf cq_init.
Proof.
  split; cbn -[Z.to_nat CQ_MAX_SIZE]; rewrite ?length_replicate;
    unfold CQ_MAX_SIZE, LC_SERVER_NUM_PKTS; lia.
Qed.

Lemma cq_init_elems : cq_elems cq_init = [].
Proof. apply cq_elems_nil; [apply cq_init_wf|done]. Qed.

(** A push appends; the process exits exactly when the ring is full. *)
Lemma cq_push_spec cq req : cq_wf cq ->
  if decide (length (cq_elems cq) = cq_capacity)
  then cq_push cq req = Err (Exit 1)
  else exists cq', cq_push cq req = Ok cq' /\ cq_wf cq' /\
                   cq_elems cq' = cq_elems cq ++ [req].
Proof.
  intros Hwf. rewrite cq_elems_length by done.
  unfold cq_push. rewrite cq_lock_ok by done. destruct Hwf as [Hlen Ht Hb Hlk].
  pose proof Ht as Ht'. cbn in Ht'. cbn [mbind result_bind].
  rewrite aset_in by lia. cbn [mbind result_bind].
  rewrite cq_u64, cq_mask by (cbn in *; lia).
  pose proof (ring_full_iff CQ_MAX_SIZE ltac:(done) _ _ Hb Ht) as Hfull.
  pose proof (ring_count_lt CQ_MAX_SIZE ltac:(done) (cq_bot cq) (cq_top cq)) as Hlt.
  unfold cq_capacity. case_decide as Hd.
  - rewrite (proj2 Hfull) by lia. by rewrite Z.eqb_refl.
  - destruct (Z.eqb_spec ((cq_top cq + 1) mod CQ_MAX_SIZE) (cq_bot cq)) as [E|E].
    { apply Hfull in E. lia. }
    eexists. split; [done|]. split.
    + split; cbn -[CQ_MAX_SIZE]; [by rewrite length_insert|by apply Z.mod_pos_bound|done|done].
    + apply ring_push; [done..|lia].
Qed.

(** A pop takes the oldest request; an empty queue gives NULL. *)
Lemma cq_pop_spec cq : cq_wf cq ->
  exists cq' ret, cq_pop cq = Ok (cq', ret) /\ cq_wf cq' /\
    match cq_elems cq with
    | [] => ret = NULL /\ cq' = cq
    | x :: rest => ret = x /\ cq_elems cq' = rest
    end.
Proof.
  intros Hwf. unfold cq_pop. rewrite cq_lock_ok by done. cbn [mbind result_bind].
  destruct (Z.eqb_spec (cq_top cq) (cq_bot cq)) as [E|E]; cbn [negb].
  - rewrite (proj2 (cq_elems_nil _ Hwf) E).
    exists cq, NULL. split_and!; [|done..]. destruct cq, Hwf; cbn in *. by subst.
  - assert (cq_elems cq <> []) as Hne by (by rewrite cq_elems_nil).
    destruct Hwf as [Hlen Ht Hb Hlk]. pose proof Hb as Hb'. cbn -[CQ_MAX_SIZE] in Hb'.
    destruct (aget_in (cq_container cq) (cq_bot cq)) as (x & -> & Hx); [by rewrite Hlen|].
    cbn [mbind result_bind]. rewrite cq_u64, cq_mask by lia. eexists _, x.
    split; [done|]. split.
    { split; cbn -[CQ_MAX_SIZE]; try done; by apply Z.mod_pos_bound. }
    unfold cq_elems at 1. rewrite (ring_pop_bot CQ_MAX_SIZE ltac:(done) _ _ _ x); try done.
    by apply ring_count_pos; try done; apply not_eq_sym.
Qed.
