(* ===== verification/Pool.v ===== *)
(** * The packet pool (include/lc/pool.h, src/pool.c, lc_worker_id)

    A pool is a set of deques, one per worker thread that used it; a worker finds its
    deque's number through the table [tls_pool_struct], indexed by worker and pool
    key.  A worker puts and gets at the top of its own deque and steals at the bottom
    of a random one. *)
From S2P Require Import Prelude Lock Ring Dequeue.

Definition MAX_NPOOLS : Z := 272.
Definition MAX_LOCAL_POOL : Z := 32.
Definition POOL_UNINIT : Z := -1.

(** The globals of pool.c.  [tls_pool_struct] is the array as it lies in memory, row
    after row, so that an index past the end of a row reads the next row. *)
Record pool_globals : Type := PoolGlobals {
  tls_pool_struct : list Z;
  lc_pool_nkey : Z;
  init_lock : Z;
  initialized : bool
}.

Definition pool_globals0 : pool_globals :=
  PoolGlobals (replicate (Z.to_nat (MAX_NPOOLS * MAX_LOCAL_POOL)) 0) 0 0 false.

Definition tls_index (wid key : Z) : Z := wid * MAX_LOCAL_POOL + key.

(** struct lc_pool; a cell of [lpools] no one assigned yet is [None]. *)
Record lc_pool : Type := LcPool {
  pool_key : Z;
  pool_npools : Z;
  pool_lpools : list (option dequeue)
}.

(** The worker number of a thread: [core_id] is its [lcg_core_id], [cpu] what
    [sched_getcpu] answers, [current_id] the global counter.  Returns the number (also
    the new [lcg_core_id]) and the new counter. *)
Definition lc_worker_id (core_id cpu current_id : Z) : Z * Z :=
  if core_id =? -1 then
    if cpu =? -1 then (current_id, current_id + 1) else (cpu, current_id)
  else (core_id, current_id).

Definition lc_pool_init (g : pool_globals) : result pool_globals :=
  l ← lc_spin_lock (init_lock g);
  if negb (initialized g) then
    Ok (PoolGlobals (replicate (Z.to_nat (MAX_NPOOLS * MAX_LOCAL_POOL)) POOL_UNINIT)
          (lc_pool_nkey g) (lc_spin_unlock l) true)
  else Ok (PoolGlobals (tls_pool_struct g) (lc_pool_nkey g) (lc_spin_unlock l)
             (initialized g)).

Definition lc_pool_create (g : pool_globals) : result (pool_globals * lc_pool) :=
  g ← (if negb (initialized g) then lc_pool_init g else Ok g);
  let p := LcPool (lc_pool_nkey g) 0 (replicate (Z.to_nat MAX_NPOOLS) None) in
  let g := PoolGlobals (tls_pool_struct g) (lc_pool_nkey g + 1) (init_lock g)
             (initialized g) in
  if (pool_key p <? 0) || (pool_key p >? MAX_LOCAL_POOL)
  then Err (Exit 1)                        (* "Unable to allocate more pool" *)
  else Ok (g, p).

(** Follow [pool->lpools[pid]]. *)
Definition lpool_at (pool : lc_pool) (pid : Z) : result dequeue :=
  o ← (pool_lpools pool).[pid]; get_or NullDeref o.

Definition set_lpool (pool : lc_pool) (pid : Z) (d : dequeue) : result lc_pool :=
  l ← (pool_lpools pool).[pid <- Some d];
  Ok (LcPool (pool_key pool) (pool_npools pool) l).

Definition lc_pool_get_local (g : pool_globals) (pool : lc_pool) (wid : Z)
    : result (pool_globals * lc_pool * Z) :=
  pid ← (tls_pool_struct g).[tls_index wid (pool_key pool)];
  if pid =? POOL_UNINIT then
    l ← lc_spin_lock (init_lock g);
    pid ← (tls_pool_struct g).[tls_index wid (pool_key pool)];
    if pid =? POOL_UNINIT then
      let lpool := dq_init in
      let pid := pool_npools pool in
      lpools ← (pool_lpools pool).[pid <- Some lpool];
      tls ← (tls_pool_struct g).[tls_index wid (pool_key pool) <- pid];
      Ok (PoolGlobals tls (lc_pool_nkey g) (lc_spin_unlock l) (initialized g),
          LcPool (pool_key pool) (pool_npools pool + 1) lpools, pid)
    else
      Ok (PoolGlobals (tls_pool_struct g) (lc_pool_nkey g) (lc_spin_unlock l)
            (initialized g), pool, pid)
  else Ok (g, pool, pid).

(** One attempt to steal from the deque [rand() % npools]. *)
Definition lc_pool_steal (pool : lc_pool) (rand : Z) : result (lc_pool * Z) :=
  let steal := Z.rem rand (pool_npools pool) in
  o ← (pool_lpools pool).[steal];
  match o with
  | Some d => '(d', elm) ← dq_pop_bot d; pool' ← set_lpool pool steal d'; Ok (pool', elm)
  | None => Ok (pool, NULL)
  end.

(** The loop of [lc_pool_get_slow]; the random numbers drawn are the list [rands]. *)
Fixpoint lc_pool_get_slow (pool : lc_pool) (rands : list Z) : result (lc_pool * Z) :=
  match rands with
  | [] => Err Spin
  | r :: rands' =>
      '(pool', elm) ← lc_pool_steal pool r;
      if elm =? NULL then lc_pool_get_slow pool' rands' else Ok (pool', elm)
  end.

Definition lc_pool_put_to (pool : lc_pool) (elm pid : Z) : result lc_pool :=
  lpool ← lpool_at pool pid;
  lpool' ← dq_push_top lpool elm;
  set_lpool pool pid lpool'.

Definition lc_pool_put (g : pool_globals) (pool : lc_pool) (wid elm : Z)
    : result (pool_globals * lc_pool) :=
  '(g', pool', pid) ← lc_pool_get_local g pool wid;
  pool'' ← lc_pool_put_to pool' elm pid;
  Ok (g', pool'').

(** The part [lc_pool_get] and [lc_pool_get_nb] share: pop the worker's own deque. *)
Definition lc_pool_pop_local (g : pool_globals) (pool : lc_pool) (wid : Z)
    : result (pool_globals * lc_pool * Z) :=
  '(g', pool', pid) ← lc_pool_get_local g pool wid;
  lpool ← lpool_at pool' pid;
  '(lpool', elm) ← dq_pop_top lpool;
  pool'' ← set_lpool pool' pid lpool';
  Ok (g', pool'', elm).

Definition lc_pool_get (g : pool_globals) (pool : lc_pool) (wid : Z) (rands : list Z)
    : result (pool_globals * lc_pool * Z) :=
  '(g', pool', elm) ← lc_pool_pop_local g pool wid;
  if elm =? NULL then '(pool'', elm) ← lc_pool_get_slow pool' rands; Ok (g', pool'', elm)
  else Ok (g', pool', elm).

Definition lc_pool_get_nb (g : pool_globals) (pool : lc_pool) (wid rand : Z)
    : result (pool_globals * lc_pool * Z) :=
  '(g', pool', elm) ← lc_pool_pop_local g pool wid;
  if elm =? NULL then '(pool'', elm) ← lc_pool_steal pool' rand; Ok (g', pool'', elm)
  else Ok (g', pool', elm).

(** void lc_pool_destroy: the deques handed to [free]. *)
Definition lc_pool_destroy (pool : lc_pool) : list (option dequeue) :=
  take (Z.to_nat (pool_npools pool)) (pool_lpools pool).

(** ** Specification *)

Definition deq_elems (o : option dequeue) : list Z := from_option dq_elems [] o.

(** Every pointer the pool holds, deque by deque. *)
Definition pool_elems (pool : lc_pool) : list Z :=
  concat (deq_elems <$> take (Z.to_nat (pool_npools pool)) (pool_lpools pool)).

(** The workers a table gives a deque number for the pool [key]. *)
Definition registered (tls : list Z) (key : Z) : list Z :=
  filter (fun w => tls !! Z.to_nat (tls_index w key) <> Some POOL_UNINIT)
    (seqZ 0 MAX_NPOOLS).

Record globals_wf (g : pool_globals) : Prop := {
  gwf_len : Z.of_nat (length (tls_pool_struct g)) = MAX_NPOOLS * MAX_LOCAL_POOL;
  gwf_lock : init_lock g = LC_SPIN_UNLOCKED;
  gwf_init : initialized g = true
}.

Record pool_wf (g : pool_globals) (pool : lc_pool) : Prop := {
  pwf_globals : globals_wf g;
  pwf_key : 0 <= pool_key pool < MAX_LOCAL_POOL;
  pwf_len : Z.of_nat (length (pool_lpools pool)) = MAX_NPOOLS;
  pwf_npools : pool_npools pool =
    Z.of_nat (length (registered (tls_pool_struct g) (pool_key pool)));
  pwf_deques : forall pid, 0 <= pid < pool_npools pool ->
    exists d, pool_lpools pool !! Z.to_nat pid = Some (Some d) /\ dq_wf d;
  pwf_pids : forall w pid, 0 <= w < MAX_NPOOLS ->
    tls_pool_struct g !! Z.to_nat (tls_index w (pool_key pool)) = Some pid ->
    pid = POOL_UNINIT \/ 0 <= pid < pool_npools pool
}.

Lemma MAX_NPOOLS_val : MAX_NPOOLS = 272. Proof. done. Qed.
Lemma MAX_LOCAL_POOL_val : MAX_LOCAL_POOL = 32. Proof. done. Qed.
Lemma POOL_UNINIT_val : POOL_UNINIT = -1. Proof. done. Qed.
Ltac pool_lia := pose proof MAX_NPOOLS_val; pose proof MAX_LOCAL_POOL_val;
  pose proof POOL_UNINIT_val; unfold tls_index in *; lia.

Lemma tls_index_range w key :
  0 <= w < MAX_NPOOLS -> 0 <= key < MAX_LOCAL_POOL ->
  0 <= tls_index w key < MAX_NPOOLS * MAX_LOCAL_POOL.
Proof. pool_lia. Qed.

(** With keys below the row length, cells of different workers or pools differ. *)
Lemma tls_index_inj w k w' k' :
  0 <= w -> 0 <= w' -> 0 <= k < MAX_LOCAL_POOL -> 0 <= k' < MAX_LOCAL_POOL ->
  Z.to_nat (tls_index w k) = Z.to_nat (tls_index w' k') -> w = w' /\ k = k'.
Proof. intros. split; pool_lia. Qed.

Lemma registered_le tls key : (length (registered tls key) <= Z.to_nat MAX_NPOOLS)%nat.
Proof.
  unfold registered. etransitivity; [apply length_filter|]. by rewrite length_seqZ.
Qed.

Lemma registered_set tls key w pid :
  0 <= w < MAX_NPOOLS -> 0 <= key < MAX_LOCAL_POOL ->
  Z.of_nat (length tls) = MAX_NPOOLS * MAX_LOCAL_POOL ->
  tls !! Z.to_nat (tls_index w key) = Some POOL_UNINIT -> pid <> POOL_UNINIT ->
  length (registered (<[Z.to_nat (tls_index w key) := pid]> tls) key) =
  S (length (registered tls key)).
Proof.
  intros Hw Hk Hlen Hu Hp. pose proof (tls_index_range w key Hw Hk).
  apply (length_filter_one _ _ _ w).
  - apply NoDup_seqZ.
  - apply elem_of_seqZ. lia.
  - rewrite Hu. tauto.
  - rewrite list_lookup_insert_eq by lia. congruence.
  - intros y Hy Hne. apply elem_of_seqZ in Hy.
    rewrite list_lookup_insert_ne; [done|]. intros E.
    apply tls_index_inj in E; lia.
Qed.

(** Rows of other pools keep their cells. *)
Lemma registered_other tls key key' w pid :
  0 <= w < MAX_NPOOLS -> 0 <= key < MAX_LOCAL_POOL -> 0 <= key' < MAX_LOCAL_POOL ->
  key <> key' ->
  registered (<[Z.to_nat (tls_index w key) := pid]> tls) key' = registered tls key'.
Proof.
  intros Hw Hk Hk' Hne. unfold registered.
  assert (forall l, Forall (fun y => 0 <= y) l ->
    filter (fun w' => <[Z.to_nat (tls_index w key) := pid]> tls
              !! Z.to_nat (tls_index w' key') <> Some POOL_UNINIT) l =
    filter (fun w' => tls !! Z.to_nat (tls_index w' key') <> Some POOL_UNINIT) l) as H.
  { induction 1 as [|y l Hy Hl IH]; [done|]. rewrite !filter_cons, IH.
    rewrite list_lookup_insert_ne; [done|]. intros E. apply tls_index_inj in E; lia. }
  apply H, Forall_forall. intros y Hy%elem_of_seqZ. lia.
Qed.

(** Looking at one deque of a pool, and putting another in its place. *)
Lemma lpool_focus g pool pid :
  pool_wf g pool -> 0 <= pid < pool_npools pool ->
  exists d rest, (pool_lpools pool).[pid] = Ok (Some d) /\ dq_wf d /\
    pool_elems pool ≡ₚ dq_elems d ++ rest /\
    forall d', dq_wf d' -> exists pool',
      set_lpool pool pid d' = Ok pool' /\ pool_wf g pool' /\
      pool_npools pool' = pool_npools pool /\
      pool_elems pool' ≡ₚ dq_elems d' ++ rest.
Proof.
  intros [Hg Hk Hl Hn Hd Hp] Hpid. destruct (Hd pid Hpid) as (d & Hlk & Hwf).
  pose proof (registered_le (tls_pool_struct g) (pool_key pool)).
  assert (take (Z.to_nat (pool_npools pool)) (pool_lpools pool) !! Z.to_nat pid =
    Some (Some d)) as Ht by (rewrite lookup_take_lt by lia; done).
  destruct (concat_lookup deq_elems _ _ _ Ht) as (rest & H1 & H2).
  exists d, rest. split_and!; [apply aget_ok; split; [lia|done]|done|exact H1|].
  intros d' Hwf'. unfold set_lpool. rewrite aset_in by pool_lia. cbn [mbind result_bind].
  eexists. split_and!; [done| |done|].
  - split; cbn; [done|done|by rewrite length_insert|done| |done].
    intros pid' Hpid'. destruct (decide (pid' = pid)) as [->|Hne].
    + exists d'. split; [|done]. apply list_lookup_insert_eq. pool_lia.
    + rewrite list_lookup_insert_ne by lia. by apply Hd.
  - unfold pool_elems. cbn. rewrite take_insert_lt by lia. apply (H2 (Some d')).
Qed.

(** The first use of a pool by a worker gives it a new, empty deque; the pointers the
    pool holds do not change. *)
Lemma lc_pool_get_local_spec g pool wid :
  pool_wf g pool -> 0 <= wid < MAX_NPOOLS ->
  exists g' pool' pid, lc_pool_get_local g pool wid = Ok (g', pool', pid) /\
    pool_wf g' pool' /\ 0 <= pid < pool_npools pool' /\
    pool_elems pool' = pool_elems pool /\
    tls_pool_struct g' !! Z.to_nat (tls_index wid (pool_key pool)) = Some pid /\
    pool_npools pool <= pool_npools pool' <= pool_npools pool + 1.
Proof.
  intros Hwf Hw. pose proof Hwf as [[Hgl Hlk Hgi] Hk Hl Hn Hd Hp].
  pose proof (tls_index_range wid _ Hw Hk) as Hir.
  pose proof (registered_le (tls_pool_struct g) (pool_key pool)) as Hle.
  destruct (aget_in (tls_pool_struct g) (tls_index wid (pool_key pool)))
    as (pid & Ha & Hpid); [lia|].
  unfold lc_pool_get_local. rewrite Ha. cbn [mbind result_bind].
  destruct (Hp wid pid Hw Hpid) as [->|Hr].
  2:{ rewrite (proj2 (Z.eqb_neq pid POOL_UNINIT)) by pool_lia.
      exists g, pool, pid. split_and!; done || lia. }
  rewrite Z.eqb_refl, Hlk. cbn [mbind result_bind lc_spin_lock].
  change (lc_spin_lock LC_SPIN_UNLOCKED) with (Ok LC_SPIN_LOCKED).
  cbn [mbind result_bind]. rewrite ?Z.eqb_refl.
  assert (length (registered (tls_pool_struct g) (pool_key pool)) < Z.to_nat MAX_NPOOLS)%nat
    as Hlt.
  { unfold registered at 1. replace (Z.to_nat MAX_NPOOLS) with (length (seqZ 0 MAX_NPOOLS))
      by (by rewrite length_seqZ).
    apply (length_filter_lt _ _ wid); [apply elem_of_seqZ; lia|]. rewrite Hpid. tauto. }
  rewrite aset_in by pool_lia. cbn [mbind result_bind].
  rewrite aset_in by pool_lia. cbn [mbind result_bind].
  eexists _, _, _. split; [done|].
  assert (forall i, 0 <= i < pool_npools pool ->
    <[Z.to_nat (pool_npools pool) := Some dq_init]> (pool_lpools pool) !! Z.to_nat i =
    pool_lpools pool !! Z.to_nat i) as Hold
    by (intros; rewrite list_lookup_insert_ne; [done|lia]).
  split_and!; cbn; [|lia|lia| | |lia|lia].
  - split; cbn; [split; cbn; by rewrite ?length_insert|done|by rewrite length_insert| | |].
    + rewrite registered_set by (try done; pool_lia). lia.
    + intros i Hi. destruct (decide (i = pool_npools pool)) as [->|Hne].
      * exists dq_init. split; [|apply dq_init_wf]. apply list_lookup_insert_eq. pool_lia.
      * rewrite Hold by lia. apply Hd. lia.
    + intros w i Hw' Hi. destruct (decide (w = wid)) as [->|Hne].
      * rewrite list_lookup_insert_eq in Hi by lia. right. simplify_eq. lia.
      * rewrite list_lookup_insert_ne in Hi by (intros E; apply tls_index_inj in E; lia).
        destruct (Hp w i Hw' Hi); [by left|right; lia].
  - unfold pool_elems. cbn. replace (Z.to_nat (pool_npools pool + 1))
      with (S (Z.to_nat (pool_npools pool))) by lia.
    rewrite (take_S_r _ _ (Some dq_init)) by (apply list_lookup_insert_eq; pool_lia).
    rewrite fmap_app, concat_app. cbn. rewrite dq_init_elems, !app_nil_r.
    by rewrite take_insert_ge by done.
  - apply list_lookup_insert_eq. lia.
Qed.

Lemma dq_elems_le_pool pool d rest n :
  pool_elems pool ≡ₚ dq_elems d ++ rest -> (length (pool_elems pool) < n)%nat ->
  (length (dq_elems d) < n)%nat.
Proof. intros ->. rewrite length_app. lia. Qed.

Lemma lpool_at_some pool pid d :
  (pool_lpools pool).[pid] = Ok (Some d) -> lpool_at pool pid = Ok d.
Proof. intros H. unfold lpool_at. by rewrite H. Qed.

Lemma lc_pool_put_to_spec g pool elm pid :
  pool_wf g pool -> 0 <= pid < pool_npools pool ->
  (length (pool_elems pool) < dq_capacity)%nat ->
  exists pool', lc_pool_put_to pool elm pid = Ok pool' /\ pool_wf g pool' /\
    pool_elems pool' ≡ₚ elm :: pool_elems pool.
Proof.
  intros Hwf Hpid Hcap.
  destruct (lpool_focus _ _ _ Hwf Hpid) as (d & rest & Hat & Hd & Hel & Hset).
  pose proof (dq_push_top_spec d elm Hd) as Hpush.
  pose proof (dq_elems_le_pool _ _ _ _ Hel Hcap).
  rewrite decide_False in Hpush by lia. destruct Hpush as (d' & Hpush & Hd' & Hel').
  destruct (Hset d' Hd') as (pool' & Hs & Hwf' & _ & Hel'').
  exists pool'. unfold lc_pool_put_to. rewrite (lpool_at_some _ _ _ Hat).
  cbn [mbind result_bind]. rewrite Hpush. cbn [mbind result_bind].
  split_and!; [done|done|]. rewrite Hel'', Hel', Hel, <- app_assoc. cbn.
  symmetry. apply Permutation_middle.
Qed.

Lemma lc_pool_pop_local_spec g pool wid :
  pool_wf g pool -> 0 <= wid < MAX_NPOOLS ->
  Forall (fun e => e <> NULL) (pool_elems pool) ->
  exists g' pool' elm, lc_pool_pop_local g pool wid = Ok (g', pool', elm) /\
    pool_wf g' pool' /\ 0 < pool_npools pool' <= pool_npools pool + 1 /\
    (elm = NULL /\ pool_elems pool' ≡ₚ pool_elems pool \/
     elm <> NULL /\ pool_elems pool ≡ₚ elm :: pool_elems pool').
Proof.
  intros Hwf Hw Hnn.
  destruct (lc_pool_get_local_spec _ _ _ Hwf Hw)
    as (g' & pool' & pid & Hl & Hwf' & Hpid & He & _ & Hgrow).
  destruct (lpool_focus _ _ _ Hwf' Hpid) as (d & rest & Hat & Hd & Hel & Hset).
  destruct (dq_pop_top_spec d Hd) as (d' & elm & Hpop & Hd' & Hcase).
  destruct (Hset d' Hd') as (pool'' & Hs & Hwf'' & Hn & Hel').
  exists g', pool'', elm. unfold lc_pool_pop_local. rewrite Hl. cbn [mbind result_bind].
  rewrite (lpool_at_some _ _ _ Hat). cbn [mbind result_bind]. rewrite Hpop.
  cbn [mbind result_bind]. rewrite Hs. cbn [mbind result_bind].
  split_and!; [done|done|lia|lia|]. rewrite <- He. rewrite <- He in Hnn.
  destruct (dq_elems d) eqn:E.
  - destruct Hcase as [-> ->]. left. split; [done|]. by rewrite Hel', Hel, E.
  - right. rewrite Hcase in Hel. split.
    + rewrite Forall_forall in Hnn. apply Hnn. rewrite Hel. set_solver.
    + rewrite Hel, Hel', <- app_assoc. cbn. symmetry. apply Permutation_middle.
Qed.

Lemma set_lpool_same pool pid d :
  (pool_lpools pool).[pid] = Ok (Some d) -> set_lpool pool pid d = Ok pool.
Proof.
  intros [Hpid Hd]%aget_ok. unfold set_lpool. rewrite aset_in.
  - cbn. rewrite list_insert_id by done. by destruct pool.
  - apply lookup_lt_Some in Hd. lia.
Qed.

Lemma lc_pool_steal_spec g pool rand :
  pool_wf g pool -> 0 < pool_npools pool -> 0 <= rand ->
  Forall (fun e => e <> NULL) (pool_elems pool) ->
  exists pool' elm, lc_pool_steal pool rand = Ok (pool', elm) /\
    pool_wf g pool' /\ pool_npools pool' = pool_npools pool /\
    (elm = NULL /\ pool' = pool /\
       (forall d, pool_lpools pool !! Z.to_nat (rand mod pool_npools pool) = Some (Some d) ->
          dq_elems d = []) \/
     elm <> NULL /\ pool_elems pool ≡ₚ elm :: pool_elems pool').
Proof.
  intros Hwf Hn Hr Hnn. unfold lc_pool_steal. rewrite Z.rem_mod_nonneg by lia.
  assert (0 <= rand mod pool_npools pool < pool_npools pool) as Hs
    by (apply Z.mod_pos_bound; lia).
  destruct (lpool_focus _ _ _ Hwf Hs) as (d & rest & Hat & Hd & Hel & Hset).
  destruct (dq_pop_bot_spec d Hd) as (d' & elm & Hpop & Hd' & Hcase).
  destruct (Hset d' Hd') as (pool' & Hst & Hwf' & Hn' & Hel').
  exists pool', elm. rewrite Hat. cbn [mbind result_bind]. rewrite Hpop.
  cbn [mbind result_bind]. rewrite Hst. cbn [mbind result_bind].
  split_and!; [done|done|done|].
  destruct (dq_elems d) eqn:E.
  - destruct Hcase as [-> ->]. rewrite (set_lpool_same _ _ _ Hat) in Hst. simplify_eq.
    left. split_and!; [done|done|]. intros d' Hd''.
    apply aget_ok in Hat as [_ Hat]. by simplify_eq.
  - destruct Hcase as [-> Hcase]. right. rewrite Forall_forall in Hnn. split.
    + apply Hnn. rewrite Hel. set_solver.
    + by rewrite Hel, Hel', Hcase.
Qed.

(** [lc_pool_get_slow] only ever returns a pointer of the pool. *)
Lemma lc_pool_get_slow_spec g pool rands pool' elm :
  pool_wf g pool -> 0 < pool_npools pool -> Forall (fun r => 0 <= r) rands ->
  Forall (fun e => e <> NULL) (pool_elems pool) ->
  lc_pool_get_slow pool rands = Ok (pool', elm) ->
  pool_wf g pool' /\ elm <> NULL /\ pool_elems pool ≡ₚ elm :: pool_elems pool'.
Proof.
  revert pool. induction rands as [|r rands IH]; intros pool Hwf Hn Hr Hnn; [done|].
  inversion Hr as [|? ? Hr0 Hr']; subst. cbn.
  destruct (lc_pool_steal_spec _ _ _ Hwf Hn Hr0 Hnn)
    as (pool1 & e & -> & Hwf1 & Hn1 & [(-> & -> & _)|(Hne & He)]); cbn [mbind result_bind].
  - rewrite Z.eqb_refl. by apply IH.
  - rewrite (proj2 (Z.eqb_neq _ _)) by done. intros [= <- <-]. done.
Qed.

(** The steal loop terminates: it is enough that one of the random numbers drawn picks
    a deque that holds something. *)
Lemma lc_pool_get_slow_terminates g pool rands d :
  pool_wf g pool -> 0 < pool_npools pool -> Forall (fun r => 0 <= r) rands ->
  Forall (fun e => e <> NULL) (pool_elems pool) ->
  Exists (fun r => pool_lpools pool !! Z.to_nat (r mod pool_npools pool) = Some (Some d))
    rands -> dq_elems d <> [] ->
  is_ok (lc_pool_get_slow pool rands) = true.
Proof.
  intros Hwf Hn Hr Hnn Hex Hd. induction Hr as [|r rands Hr0 Hr IH]; [by inversion Hex|].
  cbn. destruct (lc_pool_steal_spec _ _ _ Hwf Hn Hr0 Hnn)
    as (pool1 & e & -> & Hwf1 & Hn1 & [(-> & -> & Hempty)|(Hne & He)]); cbn [mbind result_bind].
  2:{ by rewrite (proj2 (Z.eqb_neq e NULL)) by done. }
  rewrite Z.eqb_refl. apply IH. inversion Hex as [? ? Hx|]; subst; [|done].
  by apply Hempty in Hx.
Qed.

Lemma lc_pool_put_spec g pool wid elm :
  pool_wf g pool -> 0 <= wid < MAX_NPOOLS ->
  (length (pool_elems pool) < dq_capacity)%nat ->
  exists g' pool', lc_pool_put g pool wid elm = Ok (g', pool') /\ pool_wf g' pool' /\
    pool_elems pool' ≡ₚ elm :: pool_elems pool.
Proof.
  intros Hwf Hw Hcap.
  destruct (lc_pool_get_local_spec _ _ _ Hwf Hw)
    as (g' & pool' & pid & Hl & Hwf' & Hpid & He & _ & _).
  rewrite <- He in Hcap.
  destruct (lc_pool_put_to_spec _ _ elm _ Hwf' Hpid Hcap) as (pool'' & Hp & Hwf'' & He'').
  exists g', pool''. unfold lc_pool_put. rewrite Hl. cbn [mbind result_bind]. rewrite Hp.
  rewrite He in He''. done.
Qed.

Lemma lc_pool_get_nb_spec g pool wid rand :
  pool_wf g pool -> 0 <= wid < MAX_NPOOLS -> 0 <= rand ->
  Forall (fun e => e <> NULL) (pool_elems pool) ->
  exists g' pool' elm, lc_pool_get_nb g pool wid rand = Ok (g', pool', elm) /\
    pool_wf g' pool' /\ pool_npools pool' <= pool_npools pool + 1 /\
    (elm = NULL /\ pool_elems pool' ≡ₚ pool_elems pool \/
     elm <> NULL /\ pool_elems pool ≡ₚ elm :: pool_elems pool').
Proof.
  intros Hwf Hw Hr Hnn.
  destruct (lc_pool_pop_local_spec _ _ _ Hwf Hw Hnn)
    as (g' & pool' & e & Hp & Hwf' & [Hn Hn'] & Hcase).
  unfold lc_pool_get_nb. rewrite Hp. cbn [mbind result_bind].
  destruct Hcase as [[-> He]|[Hne He]].
  - rewrite Z.eqb_refl. assert (Forall (fun e => e <> NULL) (pool_elems pool')) as Hnn'
      by (by rewrite He).
    destruct (lc_pool_steal_spec _ _ _ Hwf' Hn Hr Hnn')
      as (pool1 & e & -> & Hwf1 & Hn1 & Hcase). cbn [mbind result_bind].
    exists g', pool1, e. split_and!; [done|done|lia|]. rewrite <- He.
    destruct Hcase as [(-> & -> & _)|?]; [left|right]; done.
  - rewrite (proj2 (Z.eqb_neq e NULL)) by done. exists g', pool', e. auto 10.
Qed.

(** Where the non-blocking get looks: the deque of the worker, and that of the worker the
    random number [rand] picks, among one more when this one is not yet registered. *)
Definition worker_pid (g : pool_globals) (pool : lc_pool) (wid : Z) : Z :=
  default POOL_UNINIT (tls_pool_struct g !! Z.to_nat (tls_index wid (pool_key pool))).
Definition own_deque (g : pool_globals) (pool : lc_pool) (wid : Z) : list Z :=
  let pid := worker_pid g pool wid in
  if pid =? POOL_UNINIT then [] else deq_elems (mjoin (pool_lpools pool !! Z.to_nat pid)).
Definition victim_deque (g : pool_globals) (pool : lc_pool) (wid rand : Z) : list Z :=
  let n := pool_npools pool + Z.b2z (worker_pid g pool wid =? POOL_UNINIT) in
  let i := rand mod n in
  if i <? pool_npools pool then deq_elems (mjoin (pool_lpools pool !! Z.to_nat i)) else [].

(** Once the worker is registered, with deque [pid]. *)
Lemma get_nb_registered g pool wid rand g' pool' elm g1 pool1 pid d :
  pool_wf g1 pool1 -> Forall (fun e => e <> NULL) (pool_elems pool1) -> 0 <= pid < pool_npools pool1 ->
  0 <= rand -> lc_pool_get_local g pool wid = Ok (g1, pool1, pid) ->
  pool_lpools pool1 !! Z.to_nat pid = Some (Some d) ->
  lc_pool_get_nb g pool wid rand = Ok (g', pool', elm) ->
  elm = NULL <-> dq_elems d = [] /\
    deq_elems (mjoin (pool_lpools pool1 !! Z.to_nat (rand mod pool_npools pool1))) = [].
Proof.
  intros Hwf Hnn Hpid Hr El Hd E. unfold lc_pool_get_nb, lc_pool_pop_local in E. rewrite El in E.
  destruct (lpool_focus _ _ _ Hwf Hpid) as (d0 & rest & Hat & Hwd & Hel & Hset).
  assert (d0 = d) as -> by (apply aget_ok in Hat as [_ Hat]; congruence).
  cbn [mbind result_bind] in E. rewrite (lpool_at_some _ _ _ Hat) in E. cbn [mbind result_bind] in E.
  destruct (dq_pop_top_spec d Hwd) as (d' & e & Hpop & Hd' & Hcase). rewrite Hpop in E.
  cbn [mbind result_bind] in E.
  destruct (dq_elems d) as [|x l] eqn:Ed.
  - destruct Hcase as [-> ->]. rewrite (set_lpool_same _ _ _ Hat) in E. cbn [mbind result_bind] in E.
    rewrite Z.eqb_refl in E.
    destruct (lc_pool_steal_spec g1 pool1 rand Hwf ltac:(lia) Hr Hnn) as (pool2 & e & Es & _ & _ & Hst).
    rewrite Es in E. injection E as <- <- <-.
    destruct (pwf_deques _ _ Hwf (rand mod pool_npools pool1)) as (dv & Hv & Hwv);
      [apply Z.mod_pos_bound; lia|]. rewrite Hv. cbn [mjoin option_join deq_elems from_option id].
    destruct Hst as [(-> & _ & Hz)|[Hne Hp]]; [split; [split; [done|by apply Hz]|done]|].
    split; [done|]. intros [_ Hz]. exfalso.
    unfold lc_pool_steal in Es. rewrite Z.rem_mod_nonneg in Es by lia.
    rewrite (proj2 (aget_ok _ _ _)) in Es by (split; [|exact Hv]; apply Z.mod_pos_bound; lia).
    cbn [mbind result_bind] in Es. destruct (dq_pop_bot_spec dv Hwv) as (dv' & ev & Hb & _ & Hc).
    rewrite Hb in Es. cbn [mbind result_bind] in Es. rewrite Hz in Hc. destruct Hc as [-> _].
    destruct (set_lpool _ _ _); [|done]. by injection Es as _ <-.
  - destruct (Hset d' Hd') as (pool2 & Hs & _). rewrite Hs in E. cbn [mbind result_bind] in E.
    assert (e <> NULL) as Hne.
    { rewrite Forall_forall in Hnn. apply Hnn. rewrite Hel, Hcase. set_solver. }
    rewrite (proj2 (Z.eqb_neq e NULL)) in E by done. injection E as <- <- <-. split; [done|by intros [[=] _]].
Qed.

(** It gives nothing exactly when both are empty. *)
Lemma get_nb_null g pool wid rand g' pool' elm :
  pool_wf g pool -> 0 <= wid < MAX_NPOOLS -> 0 <= rand ->
  Forall (fun e => e <> NULL) (pool_elems pool) ->
  lc_pool_get_nb g pool wid rand = Ok (g', pool', elm) ->
  elm = NULL <-> own_deque g pool wid = [] /\ victim_deque g pool wid rand = [].
Proof.
  intros Hwf Hw Hr Hnn E.
  destruct (lc_pool_get_local_spec _ _ _ Hwf Hw) as (g1 & pool1 & pid & El & Hwf1 & Hpid & He & _ & _).
  destruct (pwf_deques _ _ Hwf1 pid Hpid) as (d & Hd & _).
  rewrite (get_nb_registered g pool wid rand g' pool' elm g1 pool1 pid d Hwf1) by (by rewrite ?He).
  unfold own_deque, victim_deque, worker_pid.
  pose proof (tls_index_range wid _ Hw (pwf_key _ _ Hwf)) as Hir.
  pose proof (gwf_len _ (pwf_globals _ _ Hwf)) as Hgl.
  destruct (aget_in (tls_pool_struct g) (tls_index wid (pool_key pool))) as (pid0 & Ha & Hpid0); [lia|].
  rewrite Hpid0. cbn [default from_option id]. unfold lc_pool_get_local in El. rewrite Ha in El.
  cbn [mbind result_bind] in El. destruct (Z.eqb_spec pid0 POOL_UNINIT) as [Hu|Hne]; [rewrite Hu in *;
    clear Hu|].
  - rewrite (gwf_lock _ (pwf_globals _ _ Hwf)) in El.
    change (lc_spin_lock LC_SPIN_UNLOCKED) with (Ok LC_SPIN_LOCKED) in El.
    pose proof (registered_le (tls_pool_struct g) (pool_key pool)) as Hle.
    pose proof Hwf1 as [_ _ Hlen1 _ _ _]. pose proof (pwf_len _ _ Hwf) as Hlen.
    pose proof (pwf_npools _ _ Hwf) as Hn0.
    rewrite bind_Ok in El. apply bind_ok in El as (lp & [Hb1 ->]%aset_ok & El).
    apply bind_ok in El as (tls & _ & El). injection El as <- <- <-. cbn [pool_npools pool_lpools] in *.
    cbn [Z.b2z].
    rewrite list_lookup_insert_eq in Hd by lia. injection Hd as <-.
    set (i := rand mod (pool_npools pool + 1)).
    assert (0 <= i < pool_npools pool + 1) as Hi by (apply Z.mod_pos_bound; lia).
    destruct (Z.ltb_spec i (pool_npools pool)).
    + rewrite list_lookup_insert_ne by lia. done.
    + replace i with (pool_npools pool) by lia. rewrite list_lookup_insert_eq by lia. done.
  - injection El as <- <- <-. cbn [Z.b2z]. rewrite Z.add_0_r, Hd.
    rewrite (proj2 (Z.ltb_lt _ _)) by (apply Z.mod_pos_bound; lia). done.
Qed.

(** ** Properties *)

(** A put by any worker succeeds and adds exactly the pointer put, as long as the pool
    holds fewer pointers than one deque's capacity (the library puts 1024 packets, the
    capacity is 4095); the pool invariant is preserved. *)
Theorem pool_put_adds g pool wid elm :
  pool_wf g pool -> 0 <= wid < MAX_NPOOLS ->
  (length (pool_elems pool) < dq_capacity)%nat ->
  exists g' pool', lc_pool_put g pool wid elm = Ok (g', pool') /\ pool_wf g' pool' /\
    pool_elems pool' ≡ₚ elm :: pool_elems pool.
Proof. apply lc_pool_put_spec. Qed.

(** The non-blocking get never faults; it either removes exactly the pointer it returns,
    or returns NULL and leaves the contents as they were. *)
Theorem pool_get_nb_removes g pool wid rand :
  pool_wf g pool -> 0 <= wid < MAX_NPOOLS -> 0 <= rand ->
  Forall (fun e => e <> NULL) (pool_elems pool) ->
  exists g' pool' elm, lc_pool_get_nb g pool wid rand = Ok (g', pool', elm) /\
    pool_wf g' pool' /\
    (elm = NULL /\ pool_elems pool' ≡ₚ pool_elems pool \/
     elm <> NULL /\ pool_elems pool ≡ₚ elm :: pool_elems pool').
Proof.
  intros Hwf Hw Hr Hnn. destruct (lc_pool_get_nb_spec g pool wid rand Hwf Hw Hr Hnn)
    as (g' & pool' & e & Hp & Hwf' & _ & Hcase). by exists g', pool', e.
Qed.

(** The blocking get returns a pointer of the pool and removes exactly it; when the
    worker's own deque is empty it comes back as soon as one of the random numbers picks
    a deque that is not. *)
Theorem pool_get_removes g pool wid rands g' pool' elm :
  pool_wf g pool -> 0 <= wid < MAX_NPOOLS -> Forall (fun r => 0 <= r) rands ->
  Forall (fun e => e <> NULL) (pool_elems pool) ->
  lc_pool_get g pool wid rands = Ok (g', pool', elm) ->
  pool_wf g' pool' /\ elm <> NULL /\ pool_elems pool ≡ₚ elm :: pool_elems pool'.
Proof.
  intros Hwf Hw Hr Hnn.
  destruct (lc_pool_pop_local_spec _ _ _ Hwf Hw Hnn)
    as (g1 & pool1 & e & Hp & Hwf1 & [Hn _] & Hcase).
  unfold lc_pool_get. rewrite Hp. cbn [mbind result_bind].
  destruct Hcase as [[-> He]|[Hne He]].
  - rewrite Z.eqb_refl. intros H. apply bind_ok in H as ([pool2 e2] & Hs & H).
    simplify_eq. rewrite <- He.
    eapply lc_pool_get_slow_spec; [done|done|exact Hr|by rewrite He|done].
  - rewrite (proj2 (Z.eqb_neq e NULL)) by done. intros [= <- <- <-]. done.
Qed.

(** Pools do not interfere: what a worker does to register with one pool leaves the
    invariant of a pool with another key as it was. *)
Theorem pool_keys_isolate g pool other wid g' pool' pid :
  pool_wf g pool -> pool_wf g other -> pool_key other <> pool_key pool ->
  0 <= wid < MAX_NPOOLS ->
  lc_pool_get_local g pool wid = Ok (g', pool', pid) -> pool_wf g' other.
Proof.
  intros Hwf Ho Hne Hw Hl.
  destruct (lc_pool_get_local_spec _ _ _ Hwf Hw)
    as (g1 & pool1 & pid1 & Hl' & Hwf' & _). rewrite Hl in Hl'. injection Hl' as <- <- <-.
  assert (tls_pool_struct g' = tls_pool_struct g \/ exists p,
    tls_pool_struct g' = <[Z.to_nat (tls_index wid (pool_key pool)) := p]>
      (tls_pool_struct g)) as Htls.
  { unfold lc_pool_get_local in Hl. inv_bind. repeat (case_match; inv_bind); auto.
    apply aset_ok in Ha3 as [_ ->]. eauto. }
  destruct Ho as [_ Hk Hlen Hn Hd Hp]. destruct (pwf_key _ _ Hwf) as [Hk0 Hk1].
  split; [apply Hwf'|done|done| |done|].
  - destruct Htls as [->|[p ->]]; [done|]. by rewrite registered_other by auto.
  - intros w i Hw' Hi. apply (Hp w i Hw').
    destruct Htls as [E|[p E]]; rewrite E in Hi; [done|].
    rewrite list_lookup_insert_ne in Hi; [done|].
    intros E'. apply tls_index_inj in E'; lia.
Qed.

(** Keys not handed out yet have no worker registered. *)
Definition keys_fresh (g : pool_globals) : Prop :=
  forall w key, 0 <= w < MAX_NPOOLS -> lc_pool_nkey g <= key < MAX_LOCAL_POOL ->
  tls_pool_struct g !! Z.to_nat (tls_index w key) = Some POOL_UNINIT.

Lemma registered_none tls key :
  (forall w, 0 <= w < MAX_NPOOLS -> tls !! Z.to_nat (tls_index w key) = Some POOL_UNINIT) ->
  registered tls key = [].
Proof.
  intros H. unfold registered.
  assert (forall l, Forall (fun w => 0 <= w < MAX_NPOOLS) l ->
    filter (fun w => tls !! Z.to_nat (tls_index w key) <> Some POOL_UNINIT) l = []) as Hl.
  { induction 1 as [|w l Hw Hl IH]; [done|]. rewrite filter_cons, IH.
    by rewrite decide_False by (rewrite H by done; tauto). }
  apply Hl, Forall_forall. intros w Hw%elem_of_seqZ. lia.
Qed.

Lemma lc_pool_create_spec g :
  globals_wf g -> keys_fresh g -> 0 <= lc_pool_nkey g < MAX_LOCAL_POOL ->
  exists g' pool, lc_pool_create g = Ok (g', pool) /\ pool_wf g' pool /\
    pool_elems pool = [] /\ pool_key pool = lc_pool_nkey g /\ keys_fresh g' /\
    forall other, pool_wf g other -> pool_wf g' other.
Proof.
  intros [Hlen Hlk Hi] Hf Hk. unfold lc_pool_create. rewrite Hi. cbn [negb mbind result_bind].
  cbn [pool_key]. rewrite (proj2 (Z.ltb_ge _ _)) by lia.
  rewrite Z.gtb_ltb, (proj2 (Z.ltb_ge _ _)) by lia. cbn [orb].
  eexists _, _. split; [done|]. split_and!; cbn; [|done|done| |].
  - assert (registered (tls_pool_struct g) (lc_pool_nkey g) = []) as Hr.
    { apply registered_none. intros w Hw. apply Hf; [done|lia]. }
    split; cbn; [done|done|by rewrite length_replicate|by rewrite Hr|lia|].
    intros w pid Hw H. left. rewrite Hf in H by (done || lia). by simplify_eq.
  - intros w key Hw Hkey. cbn in *. apply Hf; [done|lia].
  - intros other [[? ? ?] ? ? ? ? ?]. by split.
Qed.

(** While fewer than 32 pools exist, creating one gives a well-formed empty pool with a
    key of its own and leaves the other pools as they were. *)
Theorem pool_create_ok g :
  globals_wf g -> keys_fresh g -> 0 <= lc_pool_nkey g < MAX_LOCAL_POOL ->
  exists g' pool, lc_pool_create g = Ok (g', pool) /\ pool_wf g' pool /\
    pool_elems pool = [] /\ pool_key pool = lc_pool_nkey g /\ keys_fresh g' /\
    forall other, pool_wf g other -> pool_wf g' other.
Proof. apply lc_pool_create_spec. Qed.

(** The guard [key > MAX_LOCAL_POOL] admits a thirty-third pool, whose cell for worker
    [w] is the cell of worker [w + 1] for the pool of key 0: if that worker has
    registered, worker [w] takes its deque number, no deque is made, and the put follows
    a pointer nobody assigned. *)
Theorem pool_33rd_aliases g w pid elm :
  globals_wf g -> lc_pool_nkey g = MAX_LOCAL_POOL -> 0 <= w < MAX_NPOOLS - 1 ->
  0 <= pid < MAX_NPOOLS ->
  tls_pool_struct g !! Z.to_nat (tls_index (w + 1) 0) = Some pid ->
  exists g' pool, lc_pool_create g = Ok (g', pool) /\
    lc_pool_get_local g' pool w = Ok (g', pool, pid) /\
    lc_pool_put g' pool w elm = Err NullDeref.
Proof.
  intros [Hlen Hlk Hi] Hk Hw Hpid Ht. unfold lc_pool_create. rewrite Hi.
  cbn [negb mbind result_bind]. rewrite Hk. cbn [pool_key]. change ((MAX_LOCAL_POOL <? 0) || _) with false.
  cbn iota. eexists _, _. split; [done|].
  assert (tls_index w MAX_LOCAL_POOL = tls_index (w + 1) 0) as E by pool_lia.
  assert (lc_pool_get_local
    (PoolGlobals (tls_pool_struct g) (MAX_LOCAL_POOL + 1) (init_lock g) (initialized g))
    (LcPool MAX_LOCAL_POOL 0 (replicate (Z.to_nat MAX_NPOOLS) None)) w =
    Ok (PoolGlobals (tls_pool_struct g) (MAX_LOCAL_POOL + 1) (init_lock g) (initialized g),
        LcPool MAX_LOCAL_POOL 0 (replicate (Z.to_nat MAX_NPOOLS) None), pid)) as Hl.
  { unfold lc_pool_get_local. cbn [pool_key tls_pool_struct]. rewrite E.
    rewrite (proj2 (aget_ok _ _ pid)) by (split; [pool_lia|done]).
    cbn [mbind result_bind]. by rewrite (proj2 (Z.eqb_neq pid POOL_UNINIT)) by pool_lia. }
  rewrite Hi in Hl. rewrite Hi. split; [done|].
  unfold lc_pool_put. rewrite Hl. cbn [mbind result_bind]. unfold lc_pool_put_to, lpool_at.
  cbn [pool_lpools]. rewrite (proj2 (aget_ok _ pid None)); [done|]. split; [lia|].
  apply lookup_replicate. split; [done|pool_lia].
Qed.

(** ** Witnesses: a pool as [lc_pool_create] makes it, and one with a packet in it *)

Definition demo_globals : pool_globals :=
  PoolGlobals (replicate (Z.to_nat (MAX_NPOOLS * MAX_LOCAL_POOL)) POOL_UNINIT) 1 0 true.
Definition demo_pool : lc_pool := LcPool 0 0 (replicate (Z.to_nat MAX_NPOOLS) None).

Example demo_pool_created :
  lc_pool_create (PoolGlobals [] 0 0 false) = Ok (demo_globals, demo_pool).
Proof. reflexivity. Qed.

Lemma demo_globals_wf : globals_wf demo_globals.
Proof. split; [|done..]. cbn [demo_globals tls_pool_struct]. rewrite length_replicate. pool_lia. Qed.

Lemma demo_keys_fresh : keys_fresh demo_globals.
Proof.
  intros w key Hw Hk. cbn in Hk. apply lookup_replicate. split; [done|].
  pose proof (tls_index_range w key Hw). pool_lia.
Qed.

Lemma demo_uninit w : 0 <= w < MAX_NPOOLS ->
  tls_pool_struct demo_globals !! Z.to_nat (tls_index w 0) = Some POOL_UNINIT.
Proof. intros Hw. apply lookup_replicate. split; [done|]. pool_lia. Qed.

Lemma demo_pool_wf : pool_wf demo_globals demo_pool.
Proof.
  split; [apply demo_globals_wf|done|cbn [demo_pool pool_lpools]; rewrite length_replicate; pool_lia| | |].
  - rewrite registered_none; [done|]. apply demo_uninit.
  - cbn. lia.
  - intros w pid Hw Hp. cbn [demo_pool pool_key] in Hp.
    rewrite (demo_uninit w Hw) in Hp. left. by simplify_eq.
Qed.

(** The pool after worker 3 put packet 4096. *)
Definition demo_put : pool_globals * lc_pool :=
  match lc_pool_put demo_globals demo_pool 3 4096 with
  | Ok gp => gp | Err _ => (demo_globals, demo_pool)
  end.

Lemma demo_put_wf : pool_wf (fst demo_put) (snd demo_put) /\
  pool_elems (snd demo_put) ≡ₚ [4096].
Proof.
  destruct (lc_pool_put_spec demo_globals demo_pool 3 4096 demo_pool_wf) as (g & p & H & Hw & He).
  - done.
  - vm_compute. lia.
  - unfold demo_put. rewrite H. split; [done|]. rewrite He. done.
Qed.

Lemma demo_put_nonnull : Forall (fun e => e <> NULL) (pool_elems (snd demo_put)).
Proof. rewrite (proj2 demo_put_wf). by repeat constructor. Qed.

Lemma pool_put_adds_witness : exists g' pool',
  lc_pool_put demo_globals demo_pool 3 4096 = Ok (g', pool') /\ pool_wf g' pool' /\
  pool_elems pool' ≡ₚ 4096 :: pool_elems demo_pool.
Proof.
  apply (pool_put_adds demo_globals demo_pool 3 4096); [apply demo_pool_wf|done|].
  vm_compute. lia.
Defined.

Lemma pool_get_nb_removes_witness : exists g' pool' elm,
  lc_pool_get_nb (fst demo_put) (snd demo_put) 5 7 = Ok (g', pool', elm) /\
  pool_wf g' pool' /\
  (elm = NULL /\ pool_elems pool' ≡ₚ pool_elems (snd demo_put) \/
   elm <> NULL /\ pool_elems (snd demo_put) ≡ₚ elm :: pool_elems pool').
Proof.
  apply (pool_get_nb_removes (fst demo_put) (snd demo_put) 5 7);
    [apply demo_put_wf|done|done|apply demo_put_nonnull].
Defined.

(** What a blocking get by worker 5 gives: its own deque is empty, so it steals. *)
Definition demo_get : pool_globals * lc_pool :=
  match lc_pool_get (fst demo_put) (snd demo_put) 5 [1; 2] with
  | Ok (g, p, _) => (g, p) | Err _ => demo_put
  end.

Lemma demo_get_eq :
  lc_pool_get (fst demo_put) (snd demo_put) 5 [1; 2] = Ok (fst demo_get, snd demo_get, 4096).
Proof. vm_compute. reflexivity. Qed.

Lemma pool_get_removes_witness :
  pool_wf (fst demo_get) (snd demo_get) /\ 4096 <> NULL /\
  pool_elems (snd demo_put) ≡ₚ 4096 :: pool_elems (snd demo_get).
Proof.
  refine (pool_get_removes (fst demo_put) (snd demo_put) 5 [1; 2] _ _ 4096
    (proj1 demo_put_wf) _ _ demo_put_nonnull demo_get_eq); [done|].
  repeat constructor; done.
Defined.

Lemma pool_create_ok_witness : exists g' pool,
  lc_pool_create demo_globals = Ok (g', pool) /\ pool_wf g' pool /\
  pool_elems pool = [] /\ pool_key pool = 1 /\ keys_fresh g' /\
  forall other, pool_wf demo_globals other -> pool_wf g' other.
Proof.
  apply (pool_create_ok demo_globals); [apply demo_globals_wf|apply demo_keys_fresh|done].
Defined.

(** 32 pools exist and worker 1 has registered with the first. *)
Definition demo_32 : pool_globals :=
  PoolGlobals (<[32%nat := 0]> (replicate (Z.to_nat (MAX_NPOOLS * MAX_LOCAL_POOL)) POOL_UNINIT))
    32 0 true.

Lemma pool_33rd_aliases_witness : exists g' pool,
  lc_pool_create demo_32 = Ok (g', pool) /\
  lc_pool_get_local g' pool 0 = Ok (g', pool, 0) /\
  lc_pool_put g' pool 0 4096 = Err NullDeref.
Proof.
  apply (pool_33rd_aliases demo_32 0 0 4096); [|done|done|done|reflexivity].
  split; [|done..]. unfold demo_32. cbn [tls_pool_struct].
  rewrite length_insert, length_replicate. pool_lia.
Defined.
