(* ===== verification/Locked.v ===== *)
(** * Threads that share objects under spin locks (include/lc/lock.h in use)

    The objects are structures that have a spin lock as a field; an operation on one is
    a sequence of single reads and writes made between lc_spin_lock and lc_spin_unlock.
    Threads make calls one after another, each depending on what the calls before it
    returned, and interleave at every access and at every step of the lock.  What they
    see is what threads see whose calls take effect at once, one after another. *)
From stdpp Require Import relations.
From S2P Require Import Prelude Lock.

(** A structure with a spin lock. *)
Class Lockable (O : Type) : Type := {
  flag : O -> Z;
  set_flag : Z -> O -> O;
  flag_set z x : flag (set_flag z x) = z;
  set_flag_set y z x : set_flag y (set_flag z x) = set_flag y x;
  set_flag_id x : set_flag (flag x) x = x }.

Section locked.
Context {O : Type} `{Lockable O} {op ret T : Type}.

(** ** Programs *)

(** What is done while the lock is held: accesses to the object, then a result. *)
Inductive prog : Type :=
| Ret (r : ret)
| Act {A : Type} (a : O -> result (O * A)) (k : A -> prog).

Fixpoint run (p : prog) (x : O) : result (O * ret) :=
  match p with
  | Ret r => Ok (x, r)
  | Act a k => match a x with Ok (x, v) => run (k v) x | Err f => Err f end
  end.

(** No access is to the lock. *)
Fixpoint keeps (p : prog) : Prop :=
  match p with
  | Ret _ => True
  | Act a k => (forall x x' v, a x = Ok (x', v) -> flag x' = flag x) /\ forall v, keeps (k v)
  end.

(** The calls of a thread: the operation [o] on the object [i]. *)
Inductive client : Type :=
| Done (t : T)
| Call (i : nat) (o : op) (k : ret -> client).

Context (body : op -> prog).

(** A call by a thread alone. *)
Definition call (o : op) (x : O) : result (O * ret) :=
  l ← lc_spin_lock (flag x);
  '(x, r) ← run (body o) (set_flag l x);
  Ok (set_flag (lc_spin_unlock l) x, r).

(** ** Threads interleaving *)

Inductive thread : Type :=
| At (c : client)
| Locking (pc : lock_pc) (i : nat) (o : op) (k : ret -> client)
| Inside (i : nat) (o : op) (p : prog) (k : ret -> client).

Record conc : Type := Conc { objects : list O; threads : list thread; exited : option fault }.

(** One step of thread [j]: it starts a call, makes a step of the lock, makes an access, or
    releases the lock and has its result.  An access that fails ends the process. *)
Inductive step : conc -> conc -> Prop :=
| StepCall xs ts j i o k : ts !! j = Some (At (Call i o k)) -> is_Some (xs !! i) ->
    step (Conc xs ts None) (Conc xs (<[j := Locking AtTestAndSet i o k]> ts) None)
| StepLock xs ts j pc i o k x pc' f' : ts !! j = Some (Locking pc i o k) -> xs !! i = Some x ->
    lock_pc_step pc (flag x) = (pc', f') ->
    step (Conc xs ts None)
      (Conc (<[i := set_flag f' x]> xs)
        (<[j := if decide (pc' = Holding) then Inside i o (body o) k else Locking pc' i o k]> ts) None)
| StepAct xs ts j i o A (a : O -> result (O * A)) p k x x' v :
    ts !! j = Some (Inside i o (Act a p) k) -> xs !! i = Some x -> a x = Ok (x', v) ->
    step (Conc xs ts None) (Conc (<[i := x']> xs) (<[j := Inside i o (p v) k]> ts) None)
| StepExit xs ts j i o A (a : O -> result (O * A)) p k x f :
    ts !! j = Some (Inside i o (Act a p) k) -> xs !! i = Some x -> a x = Err f ->
    step (Conc xs ts None) (Conc xs ts (Some f))
| StepRet xs ts j i o r k x : ts !! j = Some (Inside i o (Ret r) k) -> xs !! i = Some x ->
    step (Conc xs ts None)
      (Conc (<[i := set_flag (lc_spin_unlock (flag x)) x]> xs) (<[j := At (k r)]> ts) None).

Definition start (xs : list O) (cs : list client) : conc := Conc xs (At <$> cs) None.

(** The step of thread [j], and the steps of threads in the order named. *)
Definition next (j : nat) (s : conc) : option conc :=
  match s with
  | Conc xs ts (Some _) => None
  | Conc xs ts None =>
      match ts !! j with
      | None | Some (At (Done _)) => None
      | Some (At (Call i o k)) =>
          if xs !! i then Some (Conc xs (<[j := Locking AtTestAndSet i o k]> ts) None) else None
      | Some (Locking pc i o k) =>
          x ← xs !! i;
          let '(pc', f') := lock_pc_step pc (flag x) in
          Some (Conc (<[i := set_flag f' x]> xs)
            (<[j := if decide (pc' = Holding) then Inside i o (body o) k else Locking pc' i o k]> ts) None)
      | Some (Inside i o (Act a p) k) =>
          x ← xs !! i;
          match a x with
          | Ok (x', v) => Some (Conc (<[i := x']> xs) (<[j := Inside i o (p v) k]> ts) None)
          | Err f => Some (Conc xs ts (Some f))
          end
      | Some (Inside i o (Ret r) k) =>
          x ← xs !! i;
          Some (Conc (<[i := set_flag (lc_spin_unlock (flag x)) x]> xs) (<[j := At (k r)]> ts) None)
      end
  end.

Fixpoint exec (sched : list nat) (s : conc) : conc :=
  match sched with [] => s | j :: sched => exec sched (default s (next j s)) end.

Lemma next_step j s s' : next j s = Some s' -> step s s'.
Proof.
  destruct s as [xs ts [f|]]; [done|]. cbn [next]. destruct (ts !! j) as [[[t|i o k]|pc i o k|i o [r|A a p] k]|] eqn:Hj;
    [done|..|done]; destruct (xs !! i) as [x|] eqn:Hx; try done; cbn [mbind option_bind].
  - intros [= <-]. apply StepCall; [done|by rewrite Hx].
  - destruct (lock_pc_step pc (flag x)) as [pc' f'] eqn:E. intros [= <-]. by eapply StepLock.
  - intros [= <-]. by eapply StepRet.
  - destruct (a x) as [[x' v]|f] eqn:E; intros [= <-]; [by eapply StepAct|by eapply StepExit].
Qed.

Lemma exec_reachable sched s : rtc step s (exec sched s).
Proof.
  revert s. induction sched as [|j sched IH]; intros s; [done|]. cbn [exec].
  destruct (next j s) as [s'|] eqn:E; [|apply IH]. eapply rtc_l; [by eapply next_step|apply IH].
Qed.

(** ** Calls that take effect at once *)

(** With the calls made so far: the thread, the object, the operation and its result. *)
Record atomic : Type := Atomic {
  a_objects : list O; clients : list client; a_exited : option fault; history : list (nat * nat * op * ret) }.

Inductive atomic_step : atomic -> atomic -> Prop :=
| AtomicCall xs cs h j i o k x x' r : cs !! j = Some (Call i o k) -> xs !! i = Some x -> call o x = Ok (x', r) ->
    atomic_step (Atomic xs cs None h) (Atomic (<[i := x']> xs) (<[j := k r]> cs) None (h ++ [(j, i, o, r)]))
| AtomicExit xs cs h j i o k x f : cs !! j = Some (Call i o k) -> xs !! i = Some x -> call o x = Err f ->
    atomic_step (Atomic xs cs None h) (Atomic xs cs (Some f) h).

(** ** The simulation *)

(** A thread has still to make the call it is in. *)
Definition client_of (t : thread) : client :=
  match t with At c => c | Locking _ i o k => Call i o k | Inside i o _ k => Call i o k end.

Definition holds (ts : list thread) (i j : nat) : Prop :=
  exists o p k, ts !! j = Some (Inside i o p k).

Definition waiting_pc (pc : lock_pc) : Prop := pc = AtTestAndSet \/ pc = Spinning \/ pc = AtCas.
Definition thread_ok (t : thread) : Prop := match t with Locking pc _ _ _ => waiting_pc pc | _ => True end.

(** The object [x] and what it is when no call is under way: the same when the lock is free;
    when a thread holds it, that thread's call made alone would get where it is now. *)
Inductive object_ok (ts : list thread) (i : nat) (x y : O) : Prop :=
| ObjectFree : flag x = 0 -> x = y -> (forall j, ~ holds ts i j) -> object_ok ts i x y
| ObjectHeld j o p k : flag x = 1 -> flag y = 0 -> ts !! j = Some (Inside i o p k) -> keeps p ->
    run p x = run (body o) (set_flag 1 y) -> (forall j', holds ts i j' -> j' = j) -> object_ok ts i x y.

Record simulates (s : conc) (a : atomic) : Prop := {
  sim_clients : clients a = client_of <$> threads s;
  sim_exited : a_exited a = exited s;
  sim_threads : Forall thread_ok (threads s);
  sim_length : length (objects s) = length (a_objects a);
  sim_objects : exited s = None -> forall i x y, objects s !! i = Some x -> a_objects a !! i = Some y ->
    object_ok (threads s) i x y }.

Hypothesis body_keeps : forall o, keeps (body o).

Lemma holds_insert ts i j j' t : holds (<[j := t]> ts) i j' ->
  (j' = j /\ exists o p k, t = Inside i o p k) \/ (j' <> j /\ holds ts i j').
Proof.
  intros (o & p & k & E). destruct (decide (j' = j)) as [->|Hne].
  - left. split; [done|]. destruct (decide (j < length ts)%nat).
    + rewrite list_lookup_insert_eq in E by done. injection E as ->. eauto.
    + rewrite list_insert_ge in E by lia. apply lookup_lt_Some in E. lia.
  - right. split; [done|]. rewrite list_lookup_insert_ne in E by done. by exists o, p, k.
Qed.

(** A step of a thread that holds no lock, and takes none, keeps what the objects are. *)
Lemma object_ok_other ts i x y j t t0 : ts !! j = Some t0 -> object_ok ts i x y ->
  (forall o p k, t0 <> Inside i o p k) -> (forall o p k, t <> Inside i o p k) ->
  object_ok (<[j := t]> ts) i x y.
Proof.
  intros Hj Hok H0 Ht. destruct Hok as [Hf -> Hno|j1 o p k Hf Hy Hj1 Hk Hr Hu].
  - apply ObjectFree; [done..|]. intros j' [[_ (o & p & k & E)]|[_ Hh]]%holds_insert; [by apply (Ht o p k)|by apply (Hno j')].
  - assert (j <> j1) as Hne by (intros <-; rewrite Hj in Hj1; injection Hj1 as ->; by apply (H0 o p k)).
    eapply ObjectHeld; [done..| |done|done|].
    + by rewrite list_lookup_insert_ne.
    + intros j' [[_ (o' & p' & k' & E)]|[_ Hh]]%holds_insert; [by apply Ht in E|by apply Hu].
Qed.

(** The holder of a lock is the one thread found inside. *)
Lemma object_held ts i x y j o p k : ts !! j = Some (Inside i o p k) -> object_ok ts i x y ->
  flag x = 1 /\ flag y = 0 /\ keeps p /\ run p x = run (body o) (set_flag 1 y) /\
  (forall j', holds ts i j' -> j' = j).
Proof.
  intros Hj [_ _ Hno|j1 o1 p1 k1 Hf Hy Hj1 Hk Hr Hu]; [by destruct (Hno j); exists o, p, k|].
  assert (j1 = j) as -> by (symmetry; apply Hu; by exists o, p, k).
  rewrite Hj in Hj1. by injection Hj1 as <- <- <-.
Qed.

Lemma object_held' ts i x y j o p k : (j < length ts)%nat -> flag x = 1 -> flag y = 0 -> keeps p ->
  run p x = run (body o) (set_flag 1 y) -> (forall j', holds ts i j' -> j' = j) ->
  object_ok (<[j := Inside i o p k]> ts) i x y.
Proof.
  intros Hj Hf Hy Hk Hr Hu. eapply ObjectHeld; [done..| |done|done|].
  - by apply list_lookup_insert_eq.
  - intros j' [[-> _]|[_ Hh]]%holds_insert; [done|by apply Hu].
Qed.

Lemma thread_lt (ts : list thread) j (t : thread) : ts !! j = Some t -> (j < length ts)%nat.
Proof. apply lookup_lt_Some. Qed.

(** A step that changes the objects at most at [i], and thread [j] only, which is not then nor
    later inside another object. *)
Lemma objects_ok (xs ys : list O) ts i j x' y' t0 t : ts !! j = Some t0 ->
  (forall i' o p k, t0 = Inside i' o p k -> i' = i) -> (forall i' o p k, t = Inside i' o p k -> i' = i) ->
  (forall i x y, xs !! i = Some x -> ys !! i = Some y -> object_ok ts i x y) ->
  object_ok (<[j := t]> ts) i x' y' ->
  forall i1 x y, <[i := x']> xs !! i1 = Some x -> <[i := y']> ys !! i1 = Some y ->
    object_ok (<[j := t]> ts) i1 x y.
Proof.
  intros Hj H0 Ht Hall Hi i1 x y Hx Hy. destruct (decide (i1 = i)) as [->|Hne].
  - apply list_lookup_insert_Some in Hx as [(_ & -> & _)|[? _]]; [|done].
    apply list_lookup_insert_Some in Hy as [(_ & -> & _)|[? _]]; done.
  - rewrite list_lookup_insert_ne in Hx, Hy by done. eapply object_ok_other; [exact Hj|by apply Hall| |].
    + intros o p k ->. by apply Hne, (H0 _ o p k).
    + intros o p k ->. by apply Hne, (Ht _ o p k).
Qed.

(** With the atomic object unchanged. *)
Lemma objects_ok_same (xs ys : list O) ts i j x' y t0 t : ts !! j = Some t0 -> ys !! i = Some y ->
  (forall i' o p k, t0 = Inside i' o p k -> i' = i) -> (forall i' o p k, t = Inside i' o p k -> i' = i) ->
  (forall i x y, xs !! i = Some x -> ys !! i = Some y -> object_ok ts i x y) ->
  object_ok (<[j := t]> ts) i x' y ->
  forall i1 x y, <[i := x']> xs !! i1 = Some x -> ys !! i1 = Some y -> object_ok (<[j := t]> ts) i1 x y.
Proof.
  intros Hj Hy H0 Ht Hall Hi i1 x1 y1 Hx1 Hy1.
  eapply (objects_ok xs ys ts i j x' y t0 t); try done. by rewrite list_insert_id.
Qed.

(** The lock taken, or not, by a waiting thread. *)
Lemma lock_pc_waits pc f pc' f' : waiting_pc pc -> f = 0 \/ f = 1 -> lock_pc_step pc f = (pc', f') ->
  (pc' = Holding /\ f = 0 /\ f' = 1) \/ (pc' <> Holding /\ waiting_pc pc' /\ f' = f).
Proof.
  unfold waiting_pc. intros [->|[-> | ->]] [->| ->]; cbn; intros [= <- <-]; naive_solver.
Qed.

Lemma object_flag ts i x y : object_ok ts i x y -> flag x = 0 \/ flag x = 1.
Proof. intros []; auto. Qed.

Lemma fmap_client_insert (ts : list thread) j t0 (t : thread) : ts !! j = Some t0 -> client_of t = client_of t0 ->
  client_of <$> <[j := t]> ts = client_of <$> ts.
Proof.
  intros Hj E. rewrite list_fmap_insert, E. apply list_insert_id. by rewrite list_lookup_fmap, Hj.
Qed.

Lemma call_eq o y : flag y = 0 -> call o y =
  match run (body o) (set_flag 1 y) with Ok (x, r) => Ok (set_flag 0 x, r) | Err f => Err f end.
Proof.
  intros Hy. unfold call, lc_spin_lock. rewrite Hy. cbn [Z.eqb LC_SPIN_UNLOCKED mbind result_bind].
  by destruct (run _ _) as [[x r]|].
Qed.

Lemma sim_lookup s a i x : simulates s a -> objects s !! i = Some x -> exists y, a_objects a !! i = Some y.
Proof.
  intros Hs Hx. apply lookup_lt_is_Some_2. rewrite <- (sim_length _ _ Hs). by apply lookup_lt_Some in Hx.
Qed.

Lemma step_locks xs ts j pc i o k x pc' f' a : simulates (Conc xs ts None) a ->
  ts !! j = Some (Locking pc i o k) -> xs !! i = Some x -> lock_pc_step pc (flag x) = (pc', f') ->
  simulates (Conc (<[i := set_flag f' x]> xs)
    (<[j := if decide (pc' = Holding) then Inside i o (body o) k else Locking pc' i o k]> ts) None) a.
Proof.
  intros Hs Hj Hx E. destruct (sim_lookup _ _ _ _ Hs Hx) as [y Hy].
  destruct Hs as [Hc He Ht Hl Ho]. specialize (Ho eq_refl). cbn in *.
  pose proof (Ho _ _ _ Hx Hy) as Hok. pose proof (proj1 (Forall_lookup _ _) Ht _ _ Hj) as Hw. cbn in Hw.
  destruct (lock_pc_waits _ _ _ _ Hw (object_flag _ _ _ _ Hok) E) as [(-> & Hf & ->)|(Hne & Hw' & ->)];
    [rewrite decide_True by done|rewrite decide_False by done]; split; cbn;
    try done; try (by rewrite length_insert); try (by rewrite (fmap_client_insert _ _ _ _ Hj));
    try (by apply Forall_insert).
  - intros _. eapply objects_ok_same; [exact Hj|exact Hy| | |done|]; [naive_solver..|].
    destruct Hok as [_ -> Hno|]; [|lia]. eapply object_held'; [by eapply thread_lt|apply flag_set|done|apply body_keeps|done|].
    intros j' Hh. by destruct (Hno j').
  - intros _. rewrite set_flag_id. eapply objects_ok_same; [exact Hj|exact Hy| | |done|]; [naive_solver..|].
    eapply object_ok_other; [exact Hj|done|naive_solver..].
Qed.

Lemma step_returns xs ts j i o r k x a : simulates (Conc xs ts None) a ->
  ts !! j = Some (Inside i o (Ret r) k) -> xs !! i = Some x ->
  exists a', atomic_step a a' /\
    simulates (Conc (<[i := set_flag (lc_spin_unlock (flag x)) x]> xs) (<[j := At (k r)]> ts) None) a'.
Proof.
  intros Hs Hj Hx. destruct (sim_lookup _ _ _ _ Hs Hx) as [y Hy].
  destruct Hs as [Hc He Ht Hl Ho]. specialize (Ho eq_refl). destruct a as [ys cs e h]. cbn in *. subst cs e.
  destruct (object_held _ _ _ _ _ _ _ _ Hj (Ho _ _ _ Hx Hy)) as (Hf & Hfy & _ & Hr & Hu). cbn in Hr.
  eexists. split.
  - eapply (AtomicCall _ _ _ j i o k y (set_flag 0 x) r); [by rewrite list_lookup_fmap, Hj|done|].
    by rewrite call_eq, <- Hr.
  - split; cbn; [by rewrite list_fmap_insert|done|by apply Forall_insert|by rewrite !length_insert|].
    intros _. eapply objects_ok; [exact Hj|naive_solver|naive_solver|done|].
    apply ObjectFree; [apply flag_set|done|]. intros j' [[_ (? & ? & ? & ?)]|[Hne Hh]]%holds_insert; [done|].
    by apply Hne, Hu.
Qed.

Lemma step_simulates s s' a : simulates s a -> step s s' ->
  exists a', rtc atomic_step a a' /\ simulates s' a'.
Proof.
  intros Hs Hstep. destruct Hstep as [xs ts j i o k Hj _|xs ts j pc i o k x pc' f' Hj Hx E
    |xs ts j i o A act p k x x' v Hj Hx E|xs ts j i o A act p k x f Hj Hx E|xs ts j i o r k x Hj Hx].
  - exists a. split; [done|]. destruct Hs as [Hc He Ht Hl Ho]. cbn in *. split; cbn; try done.
    + by rewrite (fmap_client_insert _ _ _ _ Hj).
    + apply Forall_insert; [done|]. by left.
    + intros _ i1 x y Hx Hy. eapply object_ok_other; [exact Hj|by apply Ho|done|done].
  - exists a. split; [done|]. by eapply step_locks.
  - exists a. split; [done|]. destruct (sim_lookup _ _ _ _ Hs Hx) as [y Hy]. destruct Hs as [Hc He Ht Hl Ho].
    specialize (Ho eq_refl). cbn in *.
    destruct (object_held _ _ _ _ _ _ _ _ Hj (Ho _ _ _ Hx Hy)) as (Hf & Hfy & [Hka Hkp] & Hr & Hu).
    split; cbn; [by rewrite (fmap_client_insert _ _ _ _ Hj)|done|by apply Forall_insert|by rewrite length_insert|].
    intros _. eapply objects_ok_same; [exact Hj|exact Hy|naive_solver|naive_solver|done|].
    apply object_held'; [by eapply thread_lt|by rewrite (Hka _ _ _ E)|done|apply Hkp| |done].
    cbn in Hr. by rewrite E in Hr.
  - destruct (sim_lookup _ _ _ _ Hs Hx) as [y Hy]. destruct Hs as [Hc He Ht Hl Ho].
    specialize (Ho eq_refl). destruct a as [ys cs e h]. cbn in *. subst cs e.
    destruct (object_held _ _ _ _ _ _ _ _ Hj (Ho _ _ _ Hx Hy)) as (Hf & Hfy & _ & Hr & _). cbn in Hr. rewrite E in Hr.
    eexists. split; [apply rtc_once; eapply (AtomicExit _ _ _ j i o k y f); [by rewrite list_lookup_fmap, Hj|done|]|by split].
    by rewrite call_eq, <- Hr.
  - destruct (step_returns _ _ _ _ _ _ _ _ _ Hs Hj Hx) as (a' & E & Hs'). exists a'. split; [by apply rtc_once|done].
Qed.

Lemma start_simulates xs cs : Forall (fun x => flag x = 0) xs -> simulates (start xs cs) (Atomic xs cs None []).
Proof.
  intros Hf. split; cbn; try done.
  - rewrite <- list_fmap_compose. symmetry. apply list_fmap_id.
  - by apply Forall_fmap, Forall_true.
  - intros _ i x y Hx [= ->]%(eq_trans (eq_sym Hx)). apply ObjectFree; [by eapply (Forall_lookup_1 _ _ _ _ Hf)|done|].
    intros j (o & p & k & E). rewrite list_lookup_fmap in E. by destruct (cs !! j).
Qed.

Lemma steps_simulate s s' a : rtc step s s' -> simulates s a -> exists a', rtc atomic_step a a' /\ simulates s' a'.
Proof.
  intros Hs. revert a. induction Hs as [s|s s1 s' H1 _ IH]; intros a Ha; [by exists a|].
  destruct (step_simulates _ _ _ Ha H1) as (a1 & E1 & Ha1). destruct (IH _ Ha1) as (a' & E & Ha').
  exists a'. split; [by transitivity a1|done].
Qed.

Lemma atomic_lengths a a' : rtc atomic_step a a' -> length (a_objects a') = length (a_objects a).
Proof.
  induction 1 as [|a a1 a' Hstep _ IH]; [done|]. rewrite IH. destruct Hstep; cbn; [by rewrite length_insert|done].
Qed.

(** What threads see: there is an order of the calls that returned, with which calls that take
    effect at once leave the same objects, the same results and the same exit. *)
Lemma locked_refines xs cs s : Forall (fun x => flag x = 0) xs -> rtc step (start xs cs) s ->
  exists a, rtc atomic_step (Atomic xs cs None []) a /\ clients a = client_of <$> threads s /\
    a_exited a = exited s /\ length (objects s) = length (a_objects a) /\
    (exited s = None -> forall i x, objects s !! i = Some x -> flag x = 0 -> a_objects a !! i = Some x).
Proof.
  intros Hf Hs. destruct (steps_simulate _ _ _ Hs (start_simulates xs cs Hf)) as (a & Ha & Hsim).
  exists a. split; [done|]. split; [apply Hsim|]. split; [apply Hsim|]. split; [apply Hsim|].
  intros He i x Hx Hx0. destruct (sim_lookup _ _ _ _ Hsim Hx) as [y Hy].
  destruct (sim_objects _ _ Hsim He _ _ _ Hx Hy) as [_ <- _|]; [done|lia].
Qed.

(** ** Every call can return *)

(** The holder of a lock runs to the end of its call. *)
Lemma inside_returns p : forall xs ts j i o k x, ts !! j = Some (Inside i o p k) -> xs !! i = Some x ->
  exists s', rtc step (Conc xs ts None) s' /\
    (exited s' <> None \/ exists x' r, s' = Conc (<[i := set_flag 0 x']> xs) (<[j := At (k r)]> ts) None).
Proof.
  induction p as [r|A act p IH]; intros xs ts j i o k x Hj Hx.
  - eexists. split; [apply rtc_once; by eapply StepRet|]. right. by exists x, r.
  - destruct (act x) as [[x' v]|f] eqn:E.
    + destruct (IH v (<[i := x']> xs) (<[j := Inside i o (p v) k]> ts) j i o k x') as (s' & Hs & Hcase).
      { apply list_lookup_insert_eq. by eapply thread_lt. }
      { apply list_lookup_insert_eq. by eapply lookup_lt_Some. }
      exists s'. split; [eapply rtc_l; [by eapply StepAct|exact Hs]|].
      destruct Hcase as [|(x1 & r & ->)]; [by left|right]. exists x1, r. by rewrite !list_insert_insert_eq.
    + eexists. split; [apply rtc_once; by eapply StepExit|]. by left.
Qed.

(** The lock of an object can become free, the threads that do not hold it as they are. *)
Lemma lock_freed s a i x : simulates s a -> exited s = None -> objects s !! i = Some x ->
  exists s', rtc step s s' /\ (exited s' <> None \/
    exists x', exited s' = None /\ objects s' !! i = Some x' /\ flag x' = 0 /\
      forall j t, threads s !! j = Some t -> ~ holds (threads s) i j -> threads s' !! j = Some t).
Proof.
  intros Hs He Hx. destruct (sim_lookup _ _ _ _ Hs Hx) as [y Hy].
  destruct (sim_objects _ _ Hs He _ _ _ Hx Hy) as [Hf _ _|j o p k _ _ Hj _ _ _].
  { exists s. split; [done|right]. by exists x. }
  destruct s as [xs ts e]. cbn in *. subst e.
  destruct (inside_returns p xs ts j i o k x Hj Hx) as (s' & E & [|(x' & r & ->)]); [exists s'; auto|].
  eexists. split; [exact E|right]. exists (set_flag 0 x'). split; [done|]. split.
  { cbn. apply list_lookup_insert_eq. by eapply lookup_lt_Some. }
  split; [apply flag_set|]. intros j' t Ht Hno. cbn. rewrite list_lookup_insert_ne; [done|].
  intros ->. apply Hno. by exists o, p, k.
Qed.

(** A thread waiting for a free lock gets it. *)
Lemma lock_taken xs ts j pc i o k x : ts !! j = Some (Locking pc i o k) -> waiting_pc pc -> xs !! i = Some x ->
  flag x = 0 -> exists x', rtc step (Conc xs ts None)
    (Conc (<[i := x']> xs) (<[j := Inside i o (body o) k]> ts) None).
Proof.
  intros Hj Hpc Hx Hf.
  assert (forall xs ts pc x, ts !! j = Some (Locking pc i o k) -> pc = AtTestAndSet \/ pc = AtCas ->
    xs !! i = Some x -> flag x = 0 ->
    step (Conc xs ts None) (Conc (<[i := set_flag 1 x]> xs) (<[j := Inside i o (body o) k]> ts) None)) as Hone.
  { clear. intros xs ts pc x Hj Hpc Hx Hf.
    pose proof (StepLock xs ts j pc i o k x Holding 1 Hj Hx) as Hs. rewrite decide_True in Hs by done.
    apply Hs. rewrite Hf. by destruct Hpc as [-> | ->]. }
  exists (set_flag 1 x). destruct Hpc as [->|[-> | ->]];
    [apply rtc_once, (Hone _ _ _ _ Hj); auto| |apply rtc_once, (Hone _ _ _ _ Hj); auto].
  assert (set_flag 0 x = x) as E0 by (rewrite <- Hf; apply set_flag_id).
  eapply rtc_l.
  - eapply (StepLock xs ts j Spinning i o k x AtCas 0); [done|done|by rewrite Hf].
  - rewrite decide_False, E0, (list_insert_id xs) by done.
    replace (<[j := Inside i o (body o) k]> ts) with
      (<[j := Inside i o (body o) k]> (<[j := Locking AtCas i o k]> ts)) by apply list_insert_insert_eq.
    apply rtc_once. eapply (Hone _ _ AtCas); [|by right|exact Hx|done].
    apply list_lookup_insert_eq. by eapply thread_lt.
Qed.

(** A thread that waits for a lock can get it. *)
Lemma waiting_enters s a j pc i o k x : simulates s a -> exited s = None ->
  threads s !! j = Some (Locking pc i o k) -> waiting_pc pc -> objects s !! i = Some x ->
  exists s1, rtc step s s1 /\ (exited s1 <> None \/ exists x1, exited s1 = None /\
    objects s1 !! i = Some x1 /\ threads s1 !! j = Some (Inside i o (body o) k)).
Proof.
  intros Hs He Ht Hpc Hx. destruct (lock_freed s a i x Hs He Hx) as (s1 & E1 & [|(x1 & He1 & Hx1 & Hf1 & Hk)]);
    [exists s1; auto|].
  assert (~ holds (threads s) i j) as Hno by (intros (? & ? & ? & E); by rewrite E in Ht).
  specialize (Hk j _ Ht Hno). destruct s1 as [xs ts e]. cbn in *. subst e.
  destruct (lock_taken xs ts j pc i o k x1 Hk Hpc Hx1 Hf1) as [x2 E2].
  eexists. split; [by etransitivity|right]. exists x2. split; [done|].
  split; apply list_lookup_insert_eq; [by eapply lookup_lt_Some|eapply thread_lt, Hk].
Qed.

(** A thread that has a call to make can get to its body. *)
Lemma call_enters s a j i o k : simulates s a -> exited s = None ->
  client_of <$> threads s !! j = Some (Call i o k) -> is_Some (objects s !! i) ->
  exists s1, rtc step s s1 /\ (exited s1 <> None \/ exists x1 p, exited s1 = None /\
    objects s1 !! i = Some x1 /\ threads s1 !! j = Some (Inside i o p k)).
Proof.
  intros Hsim He Hj [x0 Hx0]. destruct (threads s !! j) as [t|] eqn:Et; [|done]. cbn in Hj. injection Hj as Hj.
  destruct t as [c|pc i1 o1 k1|i1 o1 p k1]; cbn in Hj; subst.
  - destruct s as [xs ts e]. cbn in *. subst e.
    assert (step (Conc xs ts None) (Conc xs (<[j := Locking AtTestAndSet i o k]> ts) None)) as E1 by (by eapply StepCall).
    destruct (step_simulates _ _ _ Hsim E1) as (a1 & _ & Hs1).
    destruct (waiting_enters _ _ j AtTestAndSet i o k x0 Hs1 eq_refl) as (s1 & E2 & Hc); [|by left|done|].
    { apply list_lookup_insert_eq. by eapply thread_lt. }
    exists s1. split; [by eapply rtc_l|]. destruct Hc as [|(x1 & H1)]; [by left|right]. by exists x1, (body o).
  - injection Hj as -> -> ->. destruct (waiting_enters _ _ j pc i o k x0 Hsim He Et) as (s1 & E2 & Hc); [|done|].
    { exact (proj1 (Forall_lookup _ _) (sim_threads _ _ Hsim) _ _ Et). }
    exists s1. split; [done|]. destruct Hc as [|(x1 & H1)]; [by left|right]. by exists x1, (body o).
  - injection Hj as -> -> ->. exists s. split; [done|right]. by exists x0, p.
Qed.

(** Whatever the threads did, a call under way, or about to be made, can still return. *)
Lemma call_returns xs0 cs s j i o k : Forall (fun x => flag x = 0) xs0 -> rtc step (start xs0 cs) s ->
  exited s = None -> client_of <$> threads s !! j = Some (Call i o k) -> is_Some (objects s !! i) ->
  exists s', rtc step s s' /\ (exited s' <> None \/ exists r, threads s' !! j = Some (At (k r))).
Proof.
  intros Hf0 Hr He Hj Hi. destruct (steps_simulate _ _ _ Hr (start_simulates xs0 cs Hf0)) as (a & _ & Hsim).
  destruct (call_enters s a j i o k Hsim He Hj Hi) as (s1 & E1 & Hcase).
  destruct Hcase as [|(x1 & p & He1 & Hx1 & Hj1)]; [exists s1; auto|].
  destruct s1 as [xs ts e]. cbn in *. subst e.
  destruct (inside_returns p xs ts j i o k x1 Hj1 Hx1) as (s' & E & [|(x' & r & ->)]);
    (eexists; split; [by etransitivity|]); [by left|right].
  exists r. cbn. apply list_lookup_insert_eq. by eapply thread_lt.
Qed.

End locked.
