(* ===== verification/Threads.v ===== *)
(** * The pool's deques and the completion queues used by several threads

    (include/lc/dequeue.h, include/lc/pool.h, include/cq.h)  The bodies of the operations as
    the single reads and writes the code makes between lc_spin_lock and lc_spin_unlock, and
    what threads that interleave at each of them can rely on (Locked.v). *)
From stdpp Require Import relations.
From S2P Require Import Prelude Config Lock Ring Dequeue Pool CompQueue Locked.

(** A read and a write of an object. *)
Definition rd {O ret A} (f : O -> A) (k : A -> @prog O ret) : prog := Act (fun x => Ok (x, f x)) k.
Definition wr {O ret} (f : O -> O) (k : @prog O ret) : prog := Act (fun x => Ok (f x, tt)) (fun _ => k).
(** exit(EXIT_FAILURE) *)
Definition die {O ret} : @prog O ret := Act (A := ret) (fun _ => Err (Exit 1)) Ret.

(** ** Deques *)

#[export] Program Instance dequeue_lockable : Lockable dequeue := {|
  flag := dq_spinlock;
  set_flag z d := Dequeue (dq_cache d) (dq_top d) (dq_bot d) z (dq_container d) |}.
Next Obligation. done. Qed.
Next Obligation. done. Qed.
Next Obligation. by intros []. Qed.

Inductive dq_op : Type := DqPushTop (p : Z) | DqPopTop | DqPopBot.

Definition set_top z d := Dequeue (dq_cache d) z (dq_bot d) (dq_spinlock d) (dq_container d).
Definition set_bot z d := Dequeue (dq_cache d) (dq_top d) z (dq_spinlock d) (dq_container d).
Definition set_container c d := Dequeue (dq_cache d) (dq_top d) (dq_bot d) (dq_spinlock d) c.
Definition rd_cell (i : Z) (k : Z -> @prog dequeue Z) : prog :=
  Act (fun d => x ← (dq_container d).[i]; Ok (d, x)) k.
Definition wr_cell (i p : Z) (k : @prog dequeue Z) : prog :=
  Act (fun d => c ← (dq_container d).[i <- p]; Ok (set_container c d, tt)) (fun _ => k).

Definition dq_body (o : dq_op) : @prog dequeue Z :=
  match o with
  | DqPushTop p =>
      rd dq_top (fun t => wr_cell t p
        (rd dq_top (fun t => wr (set_top (Z.land (u64 (t + 1)) (MAX_SIZE - 1)))
          (rd dq_top (fun t => rd dq_bot (fun b => if t =? b then die else Ret NULL))))))
  | DqPopTop =>
      rd dq_top (fun t => rd dq_bot (fun b =>
        if negb (t =? b) then
          rd dq_top (fun t => wr (set_top (Z.land (u64 (t + MAX_SIZE - 1)) (MAX_SIZE - 1)))
            (rd dq_top (fun t => rd_cell t (fun ret => Ret ret))))
        else Ret NULL))
  | DqPopBot =>
      rd dq_top (fun t => rd dq_bot (fun b =>
        if negb (t =? b) then
          rd dq_bot (fun b => rd_cell b (fun ret =>
            rd dq_bot (fun b => wr (set_bot (Z.land (u64 (b + 1)) (MAX_SIZE - 1))) (Ret ret))))
        else Ret NULL))
  end.

(** The operation as Dequeue.v has it. *)
Definition dq_run (o : dq_op) (d : dequeue) : result (dequeue * Z) :=
  match o with
  | DqPushTop p => d ← dq_push_top d p; Ok (d, NULL)
  | DqPopTop => dq_pop_top d
  | DqPopBot => dq_pop_bot d
  end.

Lemma dq_body_keeps o : keeps (dq_body o).
Proof.
  assert (forall d d' (v : Z) (i : Z), (x ← (dq_container d).[i]; Ok (d, x)) = Ok (d', v) -> flag d' = flag d) as Hr
    by (intros d d' v i; destruct (aget _ _); [by intros [= <- _]|done]).
  assert (forall d d' (v : ()) i p, (c ← (dq_container d).[i <- p]; Ok (set_container c d, tt)) = Ok (d', v) ->
    flag d' = flag d) as Hw by (intros d d' v i p; destruct (aset _ _ _); [by intros [= <- _]|done]).
  destruct o; cbn; repeat first
    [ done | split | intros ? ? ? [= <- _] | intros ? ? ?; apply Hr | intros ? ? ?; apply Hw | intros ?
    | match goal with |- context [if ?b then _ else _] => destruct b end; cbn ].
Qed.

(** The steps of a call made alone are the operation. *)
Lemma dq_call o d : call dq_body o d = dq_run o d.
Proof.
  unfold call, dq_run. destruct o; unfold dq_push_top, dq_pop_top, dq_pop_bot;
    destruct (lc_spin_lock (flag d)) as [l|f] eqn:El; cbn in El |- *; rewrite El; cbn; try done.
  - destruct (aset _ _ _) as [c|]; cbn; [|done]. by destruct (_ =? _).
  - destruct (negb _); cbn; [|done]. by destruct (aget _ _).
  - destruct (negb _); cbn; [|done]. by destruct (aget _ _).
Qed.

(** ** What an operation does to the pointers held, bottom first *)

Definition dq_spec (es : list Z) (o : dq_op) (r : Z) (es' : list Z) : Prop :=
  match o with
  | DqPushTop p => r = NULL /\ es' = es ++ [p]
  | DqPopTop => match es with [] => r = NULL /\ es' = [] | _ :: _ => es = es' ++ [r] end
  | DqPopBot => match es with [] => r = NULL /\ es' = [] | x :: rest => r = x /\ es' = rest end
  end.

Lemma dq_run_spec o d : dq_wf d ->
  match dq_run o d with
  | Ok (d', r) => dq_wf d' /\ dq_spec (dq_elems d) o r (dq_elems d')
  | Err f => f = Exit 1 /\ length (dq_elems d) = dq_capacity
  end.
Proof.
  intros Hwf. destruct o; cbn [dq_run dq_spec].
  - pose proof (dq_push_top_spec d p Hwf) as Hs. case_decide; [by rewrite Hs|].
    destruct Hs as (d' & -> & Hwf' & E). done.
  - destruct (dq_pop_top_spec d Hwf) as (d' & r & -> & Hwf' & E). split; [done|].
    destruct (dq_elems d) eqn:Ed; [|done]. destruct E as [-> ->]. by rewrite Ed.
  - destruct (dq_pop_bot_spec d Hwf) as (d' & r & -> & Hwf' & E). split; [done|].
    destruct (dq_elems d) eqn:Ed; [|done]. destruct E as [-> ->]. by rewrite Ed.
Qed.

(** The pointers put by the calls of a history, and those got. *)
Definition call_event : Type := nat * nat * dq_op * Z.
Definition put_by (e : call_event) : list Z := match e.1.2 with DqPushTop p => [p] | _ => [] end.
Definition got_by (e : call_event) : list Z :=
  match e.1.2 with DqPushTop _ => [] | _ => if e.2 =? NULL then [] else [e.2] end.
Definition held (ds : list dequeue) : list Z := concat (dq_elems <$> ds).

(** A deque [d] becomes [d'], [x] put and [y] got, the others [r] as they were. *)
Lemma perm_moves (h p g d d' r x y : list Z) : h ++ p ≡ₚ (d ++ r) ++ g -> d ++ x ≡ₚ d' ++ y ->
  h ++ p ++ x ≡ₚ (d' ++ r) ++ g ++ y.
Proof.
  intros H1 H2. transitivity ((r ++ g) ++ (d ++ x)).
  - rewrite app_assoc, H1. rewrite (Permutation_app_comm d r), <- !app_assoc.
    apply Permutation_app_head. rewrite !app_assoc. by rewrite (Permutation_app_comm d g).
  - rewrite H2, (Permutation_app_comm d' r), <- !app_assoc. apply Permutation_app_head.
    rewrite !app_assoc. by rewrite (Permutation_app_comm d' g).
Qed.

Lemma delete_insert_list {A} (l : list A) i x : delete i (<[i := x]> l) = delete i l.
Proof. revert i. induction l as [|y l IH]; intros [|i]; cbn; [done..|]. f_equal. apply IH. Qed.

Lemma held_lookup ds i d : ds !! i = Some d -> held ds ≡ₚ dq_elems d ++ held (delete i ds).
Proof. intros Hd. unfold held. rewrite (delete_Permutation ds i d Hd) at 1. done. Qed.

Lemma held_insert ds i d d' : ds !! i = Some d -> held (<[i := d']> ds) ≡ₚ dq_elems d' ++ held (delete i ds).
Proof.
  intros Hd. rewrite (held_lookup _ i d') by (apply list_lookup_insert_eq; by eapply lookup_lt_Some).
  by rewrite delete_insert_list.
Qed.

(** One operation moves pointers between the deque and the caller. *)
Lemma dq_spec_moves j i es o r es' : dq_spec es o r es' -> Forall (fun p => p <> NULL) es ->
  es ++ put_by (j, i, o, r) ≡ₚ es' ++ got_by (j, i, o, r).
Proof.
  unfold put_by, got_by. cbn [fst snd]. intros Hs Hnn. destruct o; cbn in Hs |- *.
  - destruct Hs as [-> ->]. by rewrite app_nil_r.
  - rewrite app_nil_r. destruct es as [|x es]; [destruct Hs as [-> ->]; done|]. rewrite Hs in Hnn |- *.
    apply Forall_app in Hnn as [_ [Hr _]%Forall_cons]. by rewrite (proj2 (Z.eqb_neq _ _) Hr).
  - rewrite app_nil_r. destruct es as [|x es]; [destruct Hs as [-> ->]; done|]. destruct Hs as [-> ->].
    apply Forall_cons in Hnn as [Hr _]. rewrite (proj2 (Z.eqb_neq _ _) Hr). by rewrite Permutation_cons_append.
Qed.

(** ** Threads on a pool of deques *)

Section pool.
Context {T : Type}.
Notation client := (@client dq_op Z T).
Notation dq_step := (@step dequeue _ dq_op Z T dq_body).
Notation dq_atomic := (@atomic_step dequeue _ dq_op Z T dq_body).

Record deques_ok (ds : list dequeue) (a : @atomic dequeue dq_op Z T) : Prop := {
  dk_wf : Forall dq_wf (a_objects a);
  dk_length : length (a_objects a) = length ds;
  dk_held : held ds ++ (history a ≫= put_by) ≡ₚ held (a_objects a) ++ (history a ≫= got_by);
  dk_exit : forall f, a_exited a = Some f ->
    f = Exit 1 /\ exists d, d ∈ a_objects a /\ length (dq_elems d) = dq_capacity }.

Lemma dq_atomic_ok ds a a' : Forall (fun p => p <> NULL) (held ds) ->
  Forall (fun p => p <> NULL) (history a' ≫= put_by) -> dq_atomic a a' -> deques_ok ds a -> deques_ok ds a'.
Proof.
  intros Hds Hput Hstep [Hwf Hlen Hheld _]. destruct Hstep as [xs cs h j i o k d d' r Hj Hd E|xs cs h j i o k d f Hj Hd E];
    cbn -[held] in *; rewrite dq_call in E; pose proof (dq_run_spec o d (Forall_lookup_1 _ _ _ _ Hwf Hd)) as Hs; rewrite E in Hs.
  - destruct Hs as [Hwf' Hs]. split; cbn -[held].
    + by apply Forall_insert.
    + by rewrite length_insert.
    + rewrite bind_app, Forall_app in Hput. destruct Hput as [Hput _].
      rewrite !bind_app. cbn [mbind list_bind]. rewrite !app_nil_r. rewrite (held_insert _ _ _ _ Hd).
      rewrite (held_lookup _ _ _ Hd) in Hheld.
      assert (Forall (fun p => p <> NULL) (dq_elems d)) as Hnn.
      { assert (Forall (fun p => p <> NULL) (held ds ++ (h ≫= put_by))) as Hall by (by apply Forall_app).
        rewrite Hheld, !Forall_app in Hall. tauto. }
      exact (perm_moves _ _ _ _ _ _ _ _ Hheld (dq_spec_moves j i _ _ _ _ Hs Hnn)).
    + done.
  - destruct Hs as [-> Hs]. split; cbn; try done. intros f [= <-]. split; [done|].
    exists d. split; [by eapply list_elem_of_lookup_2|done].
Qed.

Lemma dq_atomics_ok ds cs a : Forall dq_wf ds -> Forall (fun p => p <> NULL) (held ds) ->
  rtc dq_atomic (Atomic ds cs None []) a -> Forall (fun p => p <> NULL) (history a ≫= put_by) -> deques_ok ds a.
Proof.
  intros Hwf Hnn. apply (rtc_ind_r (fun a => Forall (fun p => p <> NULL) (history a ≫= put_by) -> deques_ok ds a)).
  - intros _. split; [done|done|cbn; by rewrite !app_nil_r|done].
  - intros a1 a2 _ Hstep IH Hput. eapply dq_atomic_ok; [done|done|exact Hstep|]. apply IH.
    destruct Hstep; cbn in *; [|done]. rewrite bind_app, Forall_app in Hput. tauto.
Qed.

(** C16: However the threads interleave, the packets that were in the pool and those put make up
    those left and those got, so that none is lost and none is given to two threads; the
    threads got the results of calls that take effect one after another; the process exits
    only when a deque is full; and every call a thread has to make can return. *)
Theorem pool_concurrent ds (cs : list client) s :
  Forall dq_wf ds -> Forall (fun p => p <> NULL) (held ds) -> rtc dq_step (start ds cs) s ->
  exists a, rtc dq_atomic (Atomic ds cs None []) a /\ clients a = client_of <$> threads s /\
    a_exited a = exited s /\
    (Forall (fun p => p <> NULL) (history a ≫= put_by) ->
       held ds ++ (history a ≫= put_by) ≡ₚ held (a_objects a) ++ (history a ≫= got_by) /\
       (forall f, exited s = Some f -> f = Exit 1 /\
          exists d, d ∈ a_objects a /\ length (dq_elems d) = dq_capacity) /\
       (exited s = None -> Forall (fun d => dq_spinlock d = LC_SPIN_UNLOCKED) (objects s) ->
          objects s = a_objects a /\ Forall dq_wf (objects s))) /\
    (forall j i o k, exited s = None -> client_of <$> threads s !! j = Some (Call i o k) ->
       (i < length ds)%nat -> exists s', rtc dq_step s s' /\
         (exited s' <> None \/ exists r, threads s' !! j = Some (At (k r)))).
Proof.
  intros Hwf Hnn Hs.
  assert (Forall (fun d => flag d = 0) ds) as Hf by (eapply Forall_impl; [exact Hwf|by intros d []]).
  destruct (locked_refines dq_body dq_body_keeps ds cs s Hf Hs) as (a & Ha & Hc & He & Hl & Ho).
  exists a. split; [done|]. split; [done|]. split; [done|]. split.
  - intros Hput. destruct (dq_atomics_ok ds cs a Hwf Hnn Ha Hput) as [Hwfa Hlen Hheld Hexit].
    split; [done|]. split; [intros f Ef; apply Hexit; by rewrite He|]. intros En Hfree.
    assert (objects s = a_objects a) as Eo; [|by rewrite Eo].
    apply list_eq_same_length with (n := length ds); [lia|lia|]. intros i x y _ Hx Hy.
    pose proof (Forall_lookup_1 _ _ _ _ Hfree Hx) as Hx0. rewrite (Ho En i x Hx Hx0) in Hy. by injection Hy.
  - intros j i o k En Hj Hi. eapply (call_returns dq_body dq_body_keeps ds cs); try done.
    apply lookup_lt_is_Some_2. rewrite Hl. by rewrite (atomic_lengths _ _ _ Ha).
Qed.

End pool.

(** ** The calls of the pool *)

Section calls.
Context {T : Type}.
Notation client := (@client dq_op Z T).

(** lc_pool_put and lc_pool_get_nb of a worker whose deque is [pid], and what follows. *)
Definition put_call (pid : nat) (elm : Z) (k : client) : client := Call pid (DqPushTop elm) (fun _ => k).
Definition get_nb_call (pid steal : nat) (k : Z -> client) : client :=
  Call pid DqPopTop (fun elm => if elm =? NULL then Call steal DqPopBot k else k elm).

(** Calls by one thread. *)
Fixpoint alone (c : client) (ds : list dequeue) : result (list dequeue * T) :=
  match c with
  | Done t => Ok (ds, t)
  | Call i o k => d ← get_or OutOfBounds (ds !! i); '(d, r) ← dq_run o d; alone (k r) (<[i := d]> ds)
  end.

(** The pool whose deques are [ds]. *)
Definition pool_of (key : Z) (ds : list dequeue) : lc_pool :=
  LcPool key (Z.of_nat (length ds))
    ((Some <$> ds) ++ replicate (Z.to_nat MAX_NPOOLS - length ds) None).

Lemma pool_of_at key ds (pid : nat) d : ds !! pid = Some d ->
  aget (pool_lpools (pool_of key ds)) (Z.of_nat pid) = Ok (Some d).
Proof.
  intros Hd. apply aget_ok. split; [lia|]. rewrite Nat2Z.id. cbn.
  apply lookup_app_l_Some. by rewrite list_lookup_fmap, Hd.
Qed.

Lemma pool_of_set key ds (pid : nat) d d' : ds !! pid = Some d ->
  set_lpool (pool_of key ds) (Z.of_nat pid) d' = Ok (pool_of key (<[pid := d']> ds)).
Proof.
  intros Hd. pose proof (lookup_lt_Some _ _ _ Hd) as Hlt. unfold set_lpool, pool_of. cbn [pool_lpools pool_key pool_npools].
  rewrite aset_in by (rewrite length_app, length_fmap; lia). cbn [mbind result_bind]. rewrite Nat2Z.id.
  rewrite insert_app_l by (by rewrite length_fmap). by rewrite <- list_fmap_insert, length_insert.
Qed.

Lemma pool_of_none key ds (i : Z) : Z.of_nat (length ds) <= MAX_NPOOLS -> Z.of_nat (length ds) <= i < MAX_NPOOLS ->
  aget (pool_lpools (pool_of key ds)) i = Ok None.
Proof.
  intros Hl Hi. apply aget_ok. split; [lia|]. cbn. rewrite lookup_app_r by (rewrite length_fmap; lia).
  apply lookup_replicate. rewrite length_fmap. split; [done|lia].
Qed.

End calls.

(** Made by one thread they are the operations of Pool.v. *)
Lemma put_alone {T} g key ds wid (pid : nat) elm (t : T) :
  lc_pool_get_local g (pool_of key ds) wid = Ok (g, pool_of key ds, Z.of_nat pid) -> (pid < length ds)%nat ->
  lc_pool_put g (pool_of key ds) wid elm =
    ('(ds, _) ← alone (put_call pid elm (Done t)) ds; Ok (g, pool_of key ds)).
Proof.
  intros Hl Hp. destruct (lookup_lt_is_Some_2 ds pid Hp) as [d Hd]. unfold lc_pool_put, lc_pool_put_to, lpool_at.
  rewrite Hl. cbn [mbind result_bind alone put_call]. rewrite (pool_of_at _ _ _ _ Hd), Hd. cbn [mbind result_bind get_or dq_run].
  destruct (dq_push_top d elm) as [d'|]; [|done]. cbn [mbind result_bind]. by rewrite (pool_of_set _ _ _ _ _ Hd).
Qed.

Lemma get_nb_alone g key ds wid (pid : nat) rand :
  lc_pool_get_local g (pool_of key ds) wid = Ok (g, pool_of key ds, Z.of_nat pid) -> (pid < length ds)%nat ->
  0 <= rand ->
  lc_pool_get_nb g (pool_of key ds) wid rand =
    ('(ds, elm) ← alone (get_nb_call pid (Z.to_nat (Z.rem rand (Z.of_nat (length ds)))) Done) ds;
     Ok (g, pool_of key ds, elm)).
Proof.
  intros Hl Hp Hr. destruct (lookup_lt_is_Some_2 ds pid Hp) as [d Hd].
  unfold lc_pool_get_nb, lc_pool_pop_local, lpool_at. rewrite Hl. cbn [mbind result_bind alone get_nb_call].
  rewrite (pool_of_at _ _ _ _ Hd), Hd. cbn [mbind result_bind get_or dq_run].
  destruct (dq_pop_top d) as [[d' elm]|]; [|done]. cbn [mbind result_bind].
  rewrite (pool_of_set _ _ _ _ _ Hd). cbn [mbind result_bind]. destruct (elm =? NULL); [|done].
  set (ds' := <[pid := d']> ds). assert (length ds' = length ds) as El by apply length_insert.
  pose proof (Z.rem_bound_pos rand (Z.of_nat (length ds)) Hr ltac:(lia)) as Hs.
  unfold lc_pool_steal. cbn [pool_of pool_npools]. fold (pool_of key ds'). rewrite El.
  set (st := Z.rem rand _) in *. destruct (lookup_lt_is_Some_2 ds' (Z.to_nat st)) as [e He]; [lia|].
  pose proof (pool_of_at key _ _ _ He) as Hat. rewrite Z2Nat.id in Hat by lia. rewrite Hat.
  cbn [mbind result_bind alone]. rewrite He. cbn [mbind result_bind get_or dq_run].
  destruct (dq_pop_bot e) as [[e' elm']|]; [|done]. cbn [mbind result_bind].
  pose proof (pool_of_set key _ _ _ e' He) as Hset. rewrite Z2Nat.id in Hset by lia. by rewrite Hset.
Qed.

(** ** Completion queues *)

#[export] Program Instance comp_q_lockable : Lockable comp_q := {|
  flag := cq_spinlock;
  set_flag z q := CompQ (cq_top q) (cq_bot q) z (cq_container q) |}.
Next Obligation. done. Qed.
Next Obligation. done. Qed.
Next Obligation. by intros []. Qed.

Inductive cq_op : Type := CqPush (req : Z) | CqPop.

Definition cq_set_top z q := CompQ z (cq_bot q) (cq_spinlock q) (cq_container q).
Definition cq_set_bot z q := CompQ (cq_top q) z (cq_spinlock q) (cq_container q).
Definition cq_set_container c q := CompQ (cq_top q) (cq_bot q) (cq_spinlock q) c.

Definition cq_body (o : cq_op) : @prog comp_q Z :=
  match o with
  | CqPush req =>
      rd cq_top (fun t => Act (fun q => c ← (cq_container q).[t <- req]; Ok (cq_set_container c q, tt)) (fun _ =>
        rd cq_top (fun t => wr (cq_set_top (Z.land (u64 (t + 1)) (CQ_MAX_SIZE - 1)))
          (rd cq_top (fun t => rd cq_bot (fun b => if t =? b then die else Ret NULL))))))
  | CqPop =>
      rd cq_top (fun t => rd cq_bot (fun b =>
        if negb (t =? b) then
          rd cq_bot (fun b => Act (fun q => x ← (cq_container q).[b]; Ok (q, x)) (fun ret =>
            rd cq_bot (fun b => wr (cq_set_bot (Z.land (u64 (b + 1)) (CQ_MAX_SIZE - 1))) (Ret ret))))
        else Ret NULL))
  end.

Definition cq_run (o : cq_op) (q : comp_q) : result (comp_q * Z) :=
  match o with CqPush req => q ← cq_push q req; Ok (q, NULL) | CqPop => cq_pop q end.

Lemma cq_body_keeps o : keeps (cq_body o).
Proof.
  assert (forall q q' (v : Z) (i : Z), (x ← (cq_container q).[i]; Ok (q, x)) = Ok (q', v) -> flag q' = flag q) as Hr
    by (intros q q' v i; destruct (aget _ _); [by intros [= <- _]|done]).
  assert (forall q q' (v : ()) i p, (c ← (cq_container q).[i <- p]; Ok (cq_set_container c q, tt)) = Ok (q', v) ->
    flag q' = flag q) as Hw by (intros q q' v i p; destruct (aset _ _ _); [by intros [= <- _]|done]).
  destruct o; cbn; repeat first
    [ done | split | intros ? ? ? [= <- _] | intros ? ? ?; apply Hr | intros ? ? ?; apply Hw | intros ?
    | match goal with |- context [if ?b then _ else _] => destruct b end; cbn ].
Qed.

Lemma cq_call o q : call cq_body o q = cq_run o q.
Proof.
  unfold call, cq_run. destruct o; unfold cq_push, cq_pop;
    destruct (lc_spin_lock (flag q)) as [l|f] eqn:El; cbn -[CQ_MAX_SIZE] in El |- *; rewrite El; cbn -[CQ_MAX_SIZE]; try done.
  - destruct (aset _ _ _) as [c|]; cbn -[CQ_MAX_SIZE]; [|done]. by destruct (_ =? _).
  - destruct (negb _); cbn -[CQ_MAX_SIZE]; [|done]. by destruct (aget _ _).
Qed.

(** The requests pushed by a history, and those popped. *)
Definition pushed_by (e : nat * nat * cq_op * Z) : list Z := match e.1.2 with CqPush req => [req] | CqPop => [] end.
Definition popped_by (e : nat * nat * cq_op * Z) : list Z :=
  match e.1.2 with CqPush _ => [] | CqPop => if e.2 =? NULL then [] else [e.2] end.

Section queue.
Context {T : Type}.
Notation client := (@client cq_op Z T).
Notation cq_step := (@step comp_q _ cq_op Z T cq_body).
Notation cq_atomic := (@atomic_step comp_q _ cq_op Z T cq_body).

Definition queue_ok (q0 : comp_q) (a : @atomic comp_q cq_op Z T) : Prop :=
  exists q, a_objects a = [q] /\ cq_wf q /\
    cq_elems q0 ++ (history a ≫= pushed_by) = (history a ≫= popped_by) ++ cq_elems q /\
    (forall f, a_exited a = Some f -> f = Exit 1 /\ length (cq_elems q) = cq_capacity).

Lemma cq_atomic_ok q0 a a' : Forall (fun p => p <> NULL) (cq_elems q0) ->
  Forall (fun p => p <> NULL) (history a' ≫= pushed_by) -> cq_atomic a a' -> queue_ok q0 a -> queue_ok q0 a'.
Proof.
  intros Hq0 Hput Hstep (q & Eq & Hwf & Hel & _).
  destruct Hstep as [xs cs h j i o k q1 q' r Hj Hq E|xs cs h j i o k q1 f Hj Hq E];
    cbn in *; subst xs; apply list_lookup_singleton_Some in Hq as [-> <-]; rewrite cq_call in E.
  - exists q'. split; [done|]. cbn [history a_exited]. rewrite bind_app, Forall_app in Hput. destruct Hput as [Hput _].
    rewrite !bind_app. cbn [mbind list_bind]. rewrite !app_nil_r, app_assoc, Hel. destruct o as [req|]; cbn [cq_run] in E.
    + pose proof (cq_push_spec q req Hwf) as Hs. case_decide; [by rewrite Hs in E|].
      destruct Hs as (q2 & E2 & Hwf' & Ee). rewrite E2 in E. cbn in E. injection E as -> <-.
      split; [done|]. split; [|done]. cbn [pushed_by popped_by fst snd]. by rewrite Ee, app_nil_r, <- app_assoc.
    + destruct (cq_pop_spec q Hwf) as (q2 & r2 & E2 & Hwf' & Ee). rewrite E2 in E. injection E as -> ->.
      split; [done|]. split; [|done]. cbn [pushed_by popped_by fst snd]. rewrite app_nil_r.
      destruct (cq_elems q) as [|x rest] eqn:Ex; [by destruct Ee as [-> ->]; rewrite Ex, !app_nil_r|].
      destruct Ee as [-> Ee]. rewrite Ee.
      assert (Forall (fun p => p <> NULL) (cq_elems q0 ++ (h ≫= pushed_by))) as Hall by (by apply Forall_app).
      rewrite Hel, Forall_app, Forall_cons in Hall. rewrite (proj2 (Z.eqb_neq x NULL)) by tauto.
      by rewrite <- app_assoc.
  - exists q. split; [done|]. split; [done|]. split; [done|]. intros f' [= <-].
    destruct o as [req|]; cbn [cq_run] in E.
    + pose proof (cq_push_spec q req Hwf) as Hs. case_decide; [rewrite Hs in E; by injection E|].
      destruct Hs as (q2 & E2 & _). by rewrite E2 in E.
    + destruct (cq_pop_spec q Hwf) as (q2 & r2 & E2 & _). by rewrite E2 in E.
Qed.

(** C17: A completion queue used by any number of threads is first in, first out: there is an order
    of the calls that returned, in which the requests that were queued and those pushed, in
    that order, are those popped followed by those still queued; the process exits only when
    the queue is full; and every call can return. *)
Theorem cq_concurrent q0 (cs : list client) s :
  cq_wf q0 -> Forall (fun p => p <> NULL) (cq_elems q0) -> rtc cq_step (start [q0] cs) s ->
  exists a, rtc cq_atomic (Atomic [q0] cs None []) a /\ clients a = client_of <$> threads s /\
    a_exited a = exited s /\
    (Forall (fun p => p <> NULL) (history a ≫= pushed_by) -> exists q, a_objects a = [q] /\
       cq_elems q0 ++ (history a ≫= pushed_by) = (history a ≫= popped_by) ++ cq_elems q /\
       (forall f, exited s = Some f -> f = Exit 1 /\ length (cq_elems q) = cq_capacity) /\
       (forall x, exited s = None -> objects s !! 0%nat = Some x -> cq_spinlock x = LC_SPIN_UNLOCKED -> x = q)) /\
    (forall j o k, exited s = None -> client_of <$> threads s !! j = Some (Call 0 o k) ->
       exists s', rtc cq_step s s' /\ (exited s' <> None \/ exists r, threads s' !! j = Some (At (k r)))).
Proof.
  intros Hwf Hnn Hs.
  assert (Forall (fun q => flag q = 0) [q0]) as Hf by (apply Forall_singleton; by destruct Hwf).
  destruct (locked_refines cq_body cq_body_keeps [q0] cs s Hf Hs) as (a & Ha & Hc & He & Hl & Ho).
  exists a. split; [done|]. split; [done|]. split; [done|]. split.
  - intros Hput. assert (queue_ok q0 a) as (q & Eq & _ & Hel & Hexit).
    { clear Hc He Hl Ho. revert a Ha Hput.
      apply (rtc_ind_r (fun a => Forall (fun p => p <> NULL) (history a ≫= pushed_by) -> queue_ok q0 a)).
      - intros _. exists q0. split; [done|]. split; [done|]. split; [by rewrite app_nil_r|done].
      - intros a1 a2 _ Hstep IH Hput. eapply cq_atomic_ok; [done|done|exact Hstep|]. apply IH.
        destruct Hstep; cbn in *; [|done]. rewrite bind_app, Forall_app in Hput. tauto. }
    exists q. split; [done|]. split; [done|]. split; [intros f Ef; apply Hexit; by rewrite He|].
    intros x En Hx Hfree. specialize (Ho En _ _ Hx Hfree). rewrite Eq in Ho. by injection Ho.
  - intros j o k En Hj. eapply (call_returns cq_body cq_body_keeps [q0] cs); try done.
    apply lookup_lt_is_Some_2. rewrite Hl, (atomic_lengths _ _ _ Ha). cbn. lia.
Qed.

End queue.

(** ** Witnesses: the owner of a deque pops while a thief spins on its lock *)

Definition demo_deques : list dequeue :=
  [match dq_push_top dq_init 4096 with Ok d => d | Err _ => dq_init end; dq_init].
Definition demo_clients : list (@client dq_op Z Z) := [get_nb_call 0 1 Done; Call 0 DqPopBot Done].
Definition demo_threads := exec dq_body [0; 0; 1; 0; 1; 1; 0]%nat (start demo_deques demo_clients).

Lemma demo_deques_wf : Forall dq_wf demo_deques.
Proof.
  pose proof (dq_push_top_spec dq_init 4096 dq_init_wf) as Hs. rewrite dq_init_elems in Hs.
  rewrite decide_False in Hs by (intros E; vm_compute in E; done). destruct Hs as (d & E & Hwf & _).
  unfold demo_deques. rewrite E. apply Forall_cons; split; [done|]. apply Forall_singleton, dq_init_wf.
Qed.

Lemma pool_concurrent_witness :
  (exists k, threads demo_threads !! 1%nat = Some (Locking Spinning 0 DqPopBot k)) /\
  exists s' r, rtc (step dq_body) demo_threads s' /\
    (exited s' <> None \/ threads s' !! 1%nat = Some (At (Done r))).
Proof.
  split; [eexists; by vm_compute|].
  destruct (pool_concurrent demo_deques demo_clients demo_threads demo_deques_wf ltac:(repeat constructor; discriminate)
    (exec_reachable _ _ _)) as (a & _ & _ & _ & _ & Hreturn).
  destruct (Hreturn 1%nat 0%nat DqPopBot Done) as (s' & E & Hcase); [by vm_compute|by vm_compute|cbn; lia|].
  destruct Hcase as [Hx|[r Hr]]; [exists s', 0|exists s', r]; (split; [exact E|]); [left; exact Hx|right; exact Hr].
Defined.

Definition demo_queues : list (@client cq_op Z Z) := [Call 0 (CqPush 900) Done; Call 0 CqPop Done].
Definition demo_queue_threads := exec cq_body [0; 0; 1; 0; 1; 1; 0]%nat (start [cq_init] demo_queues).

Lemma cq_concurrent_witness :
  (exists k, threads demo_queue_threads !! 1%nat = Some (Locking Spinning 0 CqPop k)) /\
  exists s' r, rtc (step cq_body) demo_queue_threads s' /\
    (exited s' <> None \/ threads s' !! 1%nat = Some (At (Done r))).
Proof.
  split; [eexists; by vm_compute|].
  destruct (cq_concurrent cq_init demo_queues demo_queue_threads cq_init_wf
    ltac:(rewrite cq_init_elems; constructor) (exec_reachable _ _ _)) as (a & _ & _ & _ & _ & Hreturn).
  destruct (Hreturn 1%nat CqPop Done) as (s' & E & Hcase); [by vm_compute|by vm_compute|].
  destruct Hcase as [Hx|[r Hr]]; [exists s', 0|exists s', r]; (split; [exact E|]); [left; exact Hx|right; exact Hr].
Defined.
