(* ===== verification/Hashtable.v ===== *)
(** * The matching table (include/lc/hashtable.h, src/hashtable.c)

    A hash table in which a send (SERVER) and a receive (CLIENT) of the same key meet:
    [lc_hash_insert] either takes out the entry of the opposite type or leaves its own.
    A bucket is a row of [TBL_WIDTH - 1] slots under a spin lock, extended by further
    rows when it is full. *)
From S2P Require Import Prelude Lock.

Definition EMPTY : Z := 2 ^ 64 - 1.       (* (uint64_t)-1 *)
Definition TBL_BIT_SIZE : Z := 16.
Definition TBL_WIDTH : nat := 4.

Inductive insert_type : Type := CLIENT | SERVER.
Definition insert_type_val (t : insert_type) : Z :=
  match t with CLIENT => 0 | SERVER => 1 end.

(** struct hash_val: the [entry] arm of the union, and a row (its [control] arm and the
    slots after it; the rows [control.next] links form the list of a bucket). *)
Record hash_entry : Type := HashEntry { he_tag : Z; he_val : Z }.
Record hash_row : Type := HashRow { hr_lock : Z; hr_slots : list hash_entry }.
Notation bucket := (list hash_row).
Notation lc_hash := (list (list hash_row)).

Definition Prime : Z := 0x01000193.
Definition Seed : Z := 0x811C9DC5.
Definition TINY_MASK (x : Z) : Z := u32 (Z.shiftl 1 x - 1).

(** One round of the FNV hash, on the byte of [k] at bit [sh]. *)
Definition myhash_round (k sh hash : Z) : Z :=
  u32 (Z.lxor (Z.land (Z.shiftr k sh) 0xff) hash * Prime).

Definition myhash (k : Z) : Z :=
  let hash := myhash_round k 0 Seed in
  let hash := myhash_round k 8 hash in
  let hash := myhash_round k 16 hash in
  let hash := myhash_round k 24 hash in
  let hash := myhash_round k 32 hash in
  let hash := myhash_round k 40 hash in
  let hash := myhash_round k 48 hash in
  let hash := myhash_round k 56 hash in
  Z.land (Z.lxor (Z.shiftr hash TBL_BIT_SIZE) hash) (TINY_MASK TBL_BIT_SIZE).

(** A fresh row: unlocked, all slots EMPTY. *)
Definition new_row : hash_row :=
  HashRow LC_SPIN_UNLOCKED (replicate (TBL_WIDTH - 1) (HashEntry EMPTY 0)).

(** [create_table num_rows]: rows without extension. *)
Definition create_table (num_rows : nat) : lc_hash := replicate num_rows [new_row].

Definition lc_hash_create : lc_hash := create_table (Z.to_nat (Z.shiftl 1 TBL_BIT_SIZE)).

(** lc_hash_destroy gives back the rows of the table alone: what stays allocated are the
    rows chained behind them. *)
Definition lc_hash_destroy (h : lc_hash) : lc_hash := tail <$> h.

(** A slot, as the row of the bucket and the slot of the row. *)
Notation slot_pos := (nat * nat)%type.

(** The scan of the slots of row [r] from slot [j] on: the slot found and its value, or
    the [empty_hentry] reached. *)
Fixpoint scan_slots (cmp_key : Z) (r j : nat) (slots : list hash_entry)
    (empty_hentry : option slot_pos) : (slot_pos * Z) + option slot_pos :=
  match slots with
  | [] => inr empty_hentry
  | e :: rest =>
      if he_tag e =? cmp_key then inl ((r, j), he_val e)
      else if he_tag e =? EMPTY then
        scan_slots cmp_key r (S j) rest
          (match empty_hentry with None => Some (r, j) | Some p => Some p end)
      else scan_slots cmp_key r (S j) rest None
  end.

(** The loop over the rows. *)
Fixpoint scan_bucket (cmp_key : Z) (r : nat) (rows : bucket)
    (empty_hentry : option slot_pos) : (slot_pos * Z) + option slot_pos :=
  match rows with
  | [] => inr empty_hentry
  | row :: rest =>
      match scan_slots cmp_key r 0 (hr_slots row) empty_hentry with
      | inl found => inl found
      | inr empty' => scan_bucket cmp_key (S r) rest empty'
      end
  end.

(** Store [e] in the slot at [p]. *)
Definition set_slot (b : bucket) (p : slot_pos) (e : hash_entry) : bucket :=
  alter (fun row => HashRow (hr_lock row) (<[snd p := e]> (hr_slots row))) (fst p) b.

(** What [lc_hash_insert] does to the bucket of its key, between taking and releasing
    the lock: the bucket, the value read back and the return code. *)
Definition bucket_insert (b : bucket) (key value : Z) (type : insert_type)
    : bucket * Z * Z :=
  let cmp_key := Z.lor (u64 (Z.shiftl key 1)) (1 - insert_type_val type) in
  let own_key := Z.lor (u64 (Z.shiftl key 1)) (insert_type_val type) in
  match scan_bucket cmp_key 0 b None with
  | inl (p, v) => (set_slot b p (HashEntry EMPTY v), v, 0)
  | inr (Some p) => (set_slot b p (HashEntry own_key value), value, 1)
  | inr None =>
      (set_slot (b ++ [new_row]) (length b, O) (HashEntry own_key value), value, 1)
  end.

Definition set_lock (l : Z) (b : bucket) : bucket :=
  match b with
  | [] => []
  | master :: rest => HashRow l (hr_slots master) :: rest
  end.

Definition master_lock (b : bucket) : result Z :=
  match b with [] => Err NullDeref | master :: _ => Ok (hr_lock master) end.

(** int lc_hash_insert(h, key, &value, type): the table, the value and the code. *)
Definition lc_hash_insert (h : lc_hash) (key value : Z) (type : insert_type)
    : result (lc_hash * Z * Z) :=
  let hash := myhash key in
  b ← h.[hash];
  flag ← master_lock b;
  l ← lc_spin_lock flag;
  let '(b', value', code) := bucket_insert (set_lock l b) key value type in
  h' ← h.[hash <- set_lock (lc_spin_unlock l) b'];
  Ok (h', value', code).

(** lc_make_key(r, t) (include/lc/macro.h): rank and tag are [int]s, converted to
    [uint64_t]. *)
Definition lc_make_key (r t : Z) : Z := Z.lor (u64 (Z.shiftl (u64 r) 32)) (u64 t).

(** ** Specification: a bucket as the queue of the unmatched entries *)

Definition tag_of (key : Z) (type : insert_type) : Z :=
  Z.lor (u64 (Z.shiftl key 1)) (insert_type_val type).

Definition other_type (type : insert_type) : insert_type :=
  match type with CLIENT => SERVER | SERVER => CLIENT end.

Definition flat (b : bucket) : list hash_entry := concat (hr_slots <$> b).

Definition live (l : list hash_entry) : list (Z * Z) :=
  (fun e => (he_tag e, he_val e)) <$> filter (fun e => he_tag e <> EMPTY) l.

Definition contents (b : bucket) : list (Z * Z) := live (flat b).

(** Remove the first pair with tag [t]. *)
Fixpoint take_first (t : Z) (q : list (Z * Z)) : option (Z * list (Z * Z)) :=
  match q with
  | [] => None
  | (t', v) :: q' =>
      if t' =? t then Some (v, q')
      else match take_first t q' with
           | Some (v', q'') => Some (v', (t', v) :: q'')
           | None => None
           end
  end.

(** The abstract operation: match the oldest opposite entry, or queue up. *)
Definition match_insert (q : list (Z * Z)) (key value : Z) (type : insert_type)
    : list (Z * Z) * Z * Z :=
  match take_first (tag_of key (other_type type)) q with
  | Some (v, q') => (q', v, 0)
  | None => (q ++ [(tag_of key type, value)], value, 1)
  end.

Record row_wf (row : hash_row) : Prop := {
  row_wf_len : length (hr_slots row) = (TBL_WIDTH - 1)%nat;
  row_wf_lock : hr_lock row = LC_SPIN_UNLOCKED
}.

Definition bucket_wf (b : bucket) : Prop := b <> [] /\ Forall row_wf b.

Record table_wf (h : lc_hash) : Prop := {
  twf_len : length h = Z.to_nat (2 ^ TBL_BIT_SIZE);
  twf_buckets : Forall bucket_wf h
}.

(** ** The scan *)

(** [p] is the slot of [b] that holds [x], with [l1] before it and [l2] after it. *)
Definition at_pos (b : bucket) (p : slot_pos) (l1 : list hash_entry) (x : hash_entry)
    (l2 : list hash_entry) : Prop :=
  exists b1 lk s1 s2 b2, b = b1 ++ HashRow lk (s1 ++ x :: s2) :: b2 /\
    p = (length b1, length s1) /\ l1 = flat b1 ++ s1 /\ l2 = s2 ++ flat b2.

Lemma flat_app b1 b2 : flat (b1 ++ b2) = flat b1 ++ flat b2.
Proof. unfold flat. by rewrite fmap_app, concat_app. Qed.

Lemma flat_cons row b : flat (row :: b) = hr_slots row ++ flat b.
Proof. done. Qed.

Lemma at_pos_flat b p l1 x l2 : at_pos b p l1 x l2 -> flat b = l1 ++ x :: l2.
Proof.
  intros (b1 & lk & s1 & s2 & b2 & -> & _ & -> & ->).
  rewrite flat_app, flat_cons. cbn. by rewrite <- !app_assoc.
Qed.

Lemma set_slot_at b p l1 x l2 e :
  at_pos b p l1 x l2 -> at_pos (set_slot b p e) p l1 e l2.
Proof.
  intros (b1 & lk & s1 & s2 & b2 & -> & -> & -> & ->).
  exists b1, lk, s1, s2, b2. split_and!; [|done..]. unfold set_slot. cbn.
  rewrite alter_app_r_alt, Nat.sub_diag by done. cbn. do 3 f_equal.
  rewrite insert_app_r_alt, Nat.sub_diag by done. done.
Qed.

Lemma set_slot_wf b p e : bucket_wf b -> bucket_wf (set_slot b p e).
Proof.
  intros [Hne Hf]. split.
  - unfold set_slot. intros H. apply Hne. apply (f_equal length) in H.
    rewrite length_alter in H. by apply length_zero_iff_nil.
  - unfold set_slot. apply Forall_alter; [done|]. intros row _ Hrow.
    destruct Hrow. split; cbn; [by rewrite length_insert|done].
Qed.

Section Scan.
Context (cmp_key : Z) (b : bucket).

Definition is_empty (e : hash_entry) : Prop := he_tag e = EMPTY.

  (** The state of the scan after the entries [seen], before the entries [rest]. *)
Definition scan_inv (seen rest : list hash_entry) (empty_hentry : option slot_pos) : Prop :=
    Forall (fun e => he_tag e <> cmp_key) seen /\
    match empty_hentry with
    | Some p => exists l1 x l2, seen = l1 ++ x :: l2 /\ at_pos b p l1 x (l2 ++ rest) /\
                  is_empty x /\ Forall is_empty l2
    | None => True
    end.

Definition scan_found (p : slot_pos) (v : Z) : Prop :=
    exists l1 x l2, at_pos b p l1 x l2 /\ he_tag x = cmp_key /\ he_val x = v /\
      Forall (fun e => he_tag e <> cmp_key) l1.

Lemma scan_inv_step b1 lk s1 e s2 b2 empty :
    b = b1 ++ HashRow lk (s1 ++ e :: s2) :: b2 -> he_tag e <> cmp_key ->
    scan_inv (flat b1 ++ s1) (e :: s2 ++ flat b2) empty ->
    scan_inv (flat b1 ++ s1 ++ [e]) (s2 ++ flat b2)
      (if he_tag e =? EMPTY
       then match empty with None => Some (length b1, length s1) | Some p => Some p end
       else None).
  Proof.
    intros Hb Hne [Hs He]. split.
    - rewrite app_assoc, Forall_app. split; [done|]. by constructor.
    - destruct (Z.eqb_spec (he_tag e) EMPTY) as [E|E]; [|done].
      destruct empty as [p|].
      + destruct He as (l1 & x & l2 & Hseen & Hp & Hx & Hl2).
        exists l1, x, (l2 ++ [e]). rewrite app_assoc, Hseen, <- !app_assoc. cbn.
        split_and!; [done|done|done|]. apply Forall_app. split; [done|]. by constructor.
      + exists (flat b1 ++ s1), e, []. split_and!; [by rewrite <- app_assoc| |done|done].
        by exists b1, lk, s1, s2, b2.
  Qed.

Lemma scan_slots_spec b1 lk s1 slots b2 empty :
    b = b1 ++ HashRow lk (s1 ++ slots) :: b2 ->
    scan_inv (flat b1 ++ s1) (slots ++ flat b2) empty ->
    match scan_slots cmp_key (length b1) (length s1) slots empty with
    | inl (p, v) => scan_found p v
    | inr empty' => scan_inv (flat b1 ++ s1 ++ slots) (flat b2) empty'
    end.
  Proof.
    revert s1 empty. induction slots as [|e slots IH]; intros s1 empty Hb Hinv; cbn.
    - by rewrite app_nil_r.
    - destruct (Z.eqb_spec (he_tag e) cmp_key) as [E|E].
      + exists (flat b1 ++ s1), e, (slots ++ flat b2).
        split_and!; [by exists b1, lk, s1, slots, b2|done|done|apply Hinv].
      + assert (b = b1 ++ HashRow lk ((s1 ++ [e]) ++ slots) :: b2) as Hb'
          by (by rewrite <- app_assoc).
        pose proof (scan_inv_step _ _ _ _ _ _ _ Hb E Hinv) as Hstep.
        specialize (IH (s1 ++ [e]) _ Hb' Hstep).
        rewrite length_app, Nat.add_1_r, <- !app_assoc in IH. cbn in IH.
        destruct (Z.eqb_spec (he_tag e) EMPTY); exact IH.
  Qed.

Lemma scan_bucket_spec b1 b2 empty :
    b = b1 ++ b2 -> scan_inv (flat b1) (flat b2) empty ->
    match scan_bucket cmp_key (length b1) b2 empty with
    | inl (p, v) => scan_found p v
    | inr empty' => scan_inv (flat b) [] empty'
    end.
  Proof.
    revert b1 empty. induction b2 as [|[lk slots] b2 IH]; intros b1 empty Hb Hinv; cbn.
    - rewrite app_nil_r in Hb. by subst.
    - rewrite <- (app_nil_r (flat b1)), flat_cons in Hinv.
      pose proof (scan_slots_spec b1 lk [] slots b2 empty Hb Hinv) as Hs. cbn in Hs.
      destruct (scan_slots _ _ _ _ _) as [[p v]|empty']; [done|].
      assert (b = (b1 ++ [HashRow lk slots]) ++ b2) as Hb' by (by rewrite <- app_assoc).
      specialize (IH _ empty' Hb'). rewrite length_app, Nat.add_1_r, flat_app in IH.
      apply IH. rewrite flat_cons. cbn. by rewrite app_nil_r.
  Qed.
End Scan.

(** ** The bucket operation refines the queue *)

#[local] Arguments set_slot : simpl never.
#[local] Arguments bucket_insert : simpl never.

Lemma live_app l1 l2 : live (l1 ++ l2) = live l1 ++ live l2.
Proof. unfold live. by rewrite filter_app, fmap_app. Qed.

Lemma live_cons e l :
  live (e :: l) = if decide (he_tag e = EMPTY) then live l else (he_tag e, he_val e) :: live l.
Proof. unfold live. rewrite filter_cons. by repeat case_decide. Qed.

Lemma live_empty l : Forall is_empty l -> live l = [].
Proof.
  induction 1 as [|e l He _ IH]; [done|]. rewrite live_cons, IH.
  by rewrite decide_True.
Qed.

Lemma take_first_none t q : Forall (fun p => p.1 <> t) q -> take_first t q = None.
Proof.
  induction 1 as [|[t' v] q Ht _ IH]; [done|]. cbn in *.
  by rewrite (proj2 (Z.eqb_neq _ _)), IH.
Qed.

Lemma take_first_app t q1 v q2 :
  Forall (fun p => p.1 <> t) q1 -> take_first t (q1 ++ (t, v) :: q2) = Some (v, q1 ++ q2).
Proof.
  induction 1 as [|[t' v'] q Ht _ IH]; cbn in *.
  - by rewrite Z.eqb_refl.
  - by rewrite (proj2 (Z.eqb_neq _ _)), IH.
Qed.

Lemma live_ne t l : Forall (fun e => he_tag e <> t) l -> Forall (fun p => p.1 <> t) (live l).
Proof.
  induction 1 as [|e l He _ IH]; [constructor|]. rewrite live_cons. case_decide; [done|].
  by constructor.
Qed.

Lemma new_row_wf : row_wf new_row.
Proof. by split. Qed.

Lemma bucket_wf_snoc b : bucket_wf b -> bucket_wf (b ++ [new_row]).
Proof.
  intros [Hne Hf]. split; [by intros [? ?]%app_eq_nil|].
  apply Forall_app. split; [done|]. constructor; [apply new_row_wf|constructor].
Qed.

Lemma flat_new_row : flat [new_row] = replicate 3 (HashEntry EMPTY 0).
Proof. reflexivity. Qed.

(** The case of [bucket_insert] that queues an entry in an empty slot. *)
Lemma contents_fill b p l1 x l2 tag v :
  at_pos b p l1 x l2 -> is_empty x -> Forall is_empty l2 -> tag <> EMPTY ->
  contents (set_slot b p (HashEntry tag v)) = contents b ++ [(tag, v)].
Proof.
  intros Hp Hx Hl2 Htag. unfold contents.
  rewrite (at_pos_flat _ _ _ _ _ Hp), (at_pos_flat _ _ _ _ _ (set_slot_at _ _ _ _ _ _ Hp)).
  rewrite !live_app, !live_cons, (live_empty l2) by done.
  rewrite (decide_True (P := he_tag x = EMPTY)) by done.
  rewrite decide_False by done. by rewrite app_nil_r.
Qed.

(** Between lock and unlock a bucket behaves as the queue of its live entries, for keys
    whose two tags are not the EMPTY mark. *)
Lemma bucket_insert_spec b key value type :
  bucket_wf b -> tag_of key type <> EMPTY -> tag_of key (other_type type) <> EMPTY ->
  let '(b', v, code) := bucket_insert b key value type in
  bucket_wf b' /\ match_insert (contents b) key value type = (contents b', v, code).
Proof.
  intros Hwf Hown Hcmp. unfold bucket_insert, match_insert.
  assert (Z.lor (u64 (Z.shiftl key 1)) (1 - insert_type_val type) =
    tag_of key (other_type type)) as -> by (by destruct type).
  set (cmp := tag_of key (other_type type)) in *.
  assert (scan_inv cmp b (flat []) (flat b) None) as Hinit by (split; [constructor|done]).
  pose proof (scan_bucket_spec cmp b [] b None eq_refl Hinit) as Hscan. cbn in Hscan.
  destruct (scan_bucket cmp 0 b None) as [[p v]|[p|]]; cbn.
  - destruct Hscan as (l1 & x & l2 & Hp & Hx & Hv & Hl1). split; [by apply set_slot_wf|].
    unfold contents at 1. rewrite (at_pos_flat _ _ _ _ _ Hp), live_app, live_cons.
    rewrite decide_False by congruence. rewrite Hx, Hv, take_first_app by (by apply live_ne).
    unfold contents. rewrite (at_pos_flat _ _ _ _ _ (set_slot_at _ _ _ _ _ _ Hp)).
    by rewrite live_app, live_cons, decide_True.
  - destruct Hscan as [Hall (l1 & x & l2 & Hb & Hp & Hx & Hl2)].
    split; [by apply set_slot_wf|]. rewrite app_nil_r in Hp.
    rewrite take_first_none by (by apply live_ne). by rewrite (contents_fill _ _ l1 x l2).
  - destruct Hscan as [Hall _]. split; [by apply set_slot_wf, bucket_wf_snoc|].
    rewrite take_first_none by (by apply live_ne).
    assert (at_pos (b ++ [new_row]) (length b, O) (flat b ++ []) (HashEntry EMPTY 0)
      (replicate 2 (HashEntry EMPTY 0) ++ [])) as Hp
      by (by exists b, LC_SPIN_UNLOCKED, [], (replicate 2 (HashEntry EMPTY 0)), []).
    rewrite (contents_fill _ _ _ _ _ _ _ Hp); [|done|by repeat constructor|done].
    unfold contents. rewrite flat_app, live_app, flat_new_row.
    rewrite (live_empty (replicate 3 _)) by (by repeat constructor).
    by rewrite app_nil_r.
Qed.

Lemma contents_set_lock l b : contents (set_lock l b) = contents b.
Proof. by destruct b. Qed.

Lemma bucket_wf_lock b l : bucket_wf b -> contents (set_lock l b) = contents b.
Proof. intros _. apply contents_set_lock. Qed.

Lemma myhash_range k : 0 <= myhash k < 2 ^ TBL_BIT_SIZE.
Proof.
  unfold myhash, TINY_MASK, TBL_BIT_SIZE. cbv zeta.
  replace (u32 (Z.shiftl 1 16 - 1)) with (2 ^ 16 - 1) by reflexivity.
  rewrite land_mask by lia. apply Z.mod_pos_bound. lia.
Qed.

(** The lock flag does not influence the bucket operation. *)
Lemma bucket_wf_master b : bucket_wf b ->
  exists master rest, b = master :: rest /\ master_lock b = Ok LC_SPIN_UNLOCKED /\
    set_lock LC_SPIN_UNLOCKED b = b.
Proof.
  intros [Hne Hf]. destruct b as [|[lk sl] rest]; [done|].
  inversion Hf as [|? ? Hr _]; subst. destruct Hr as [Hlen Hlk]. cbn in *. subst.
  by eexists _, _.
Qed.

Lemma bucket_insert_lock b l key value type : b <> [] ->
  bucket_insert (set_lock l b) key value type =
  (let '(b', v, c) := bucket_insert b key value type in (set_lock l b', v, c)).
Proof.
  destruct b as [|[lk sl] rest]; [done|]. intros _. unfold bucket_insert. cbn -[alter].
  destruct (match scan_slots _ _ _ _ _ with inl _ => _ | inr _ => _ end)
    as [[[r j] v]|[[r j]|]]; cbn -[alter]; [by destruct r..|done].
Qed.

(** ** The table: per key, one queue for each side *)

(** Keys whose two tags are distinct from each other, from those of other keys and from
    the EMPTY mark. *)
Definition valid_key (key : Z) : Prop := 0 <= key < 2 ^ 63 - 1.

Lemma tag_of_val key type : valid_key key -> tag_of key type = 2 * key + insert_type_val type.
Proof.
  intros [H0 H1]. unfold tag_of. rewrite Z.shiftl_mul_pow2 by lia. rewrite u64_small by lia.
  destruct type; cbn [insert_type_val].
  - rewrite Z.lor_0_r. lia.
  - pose proof (Z.add_lor_land (key * 2 ^ 1) 1) as Hor.
    assert (Z.land (key * 2 ^ 1) 1 = 0) as H.
    { apply Z.bits_inj'. intros n Hn. rewrite Z.land_spec, Z.bits_0.
      rewrite Z.mul_pow2_bits by lia. destruct (Z.eq_dec n 0) as [->|].
      - rewrite (Z.testbit_neg_r key) by lia. done.
      - rewrite (Z.bits_above_log2 1) by (cbn; lia). by rewrite andb_false_r. }
    lia.
Qed.

Lemma tag_of_inj k t k' t' :
  valid_key k -> valid_key k' -> tag_of k t = tag_of k' t' -> k = k' /\ t = t'.
Proof.
  intros Hk Hk' E. rewrite !tag_of_val in E by done.
  destruct t, t'; cbn in E; split; done || lia.
Qed.

Lemma tag_of_not_empty k t : valid_key k -> tag_of k t <> EMPTY.
Proof. intros Hk. rewrite tag_of_val by done. unfold valid_key, EMPTY in *. destruct t; cbn; lia. Qed.

(** The values queued under a tag, oldest first. *)
Definition waiting_tag (q : list (Z * Z)) (t : Z) : list Z :=
  snd <$> filter (fun p => p.1 = t) q.

#[local] Arguments waiting_tag : simpl never.

Lemma waiting_tag_app q1 q2 t : waiting_tag (q1 ++ q2) t = waiting_tag q1 t ++ waiting_tag q2 t.
Proof. unfold waiting_tag. by rewrite filter_app, fmap_app. Qed.

Lemma waiting_tag_cons t v q t' :
  waiting_tag ((t, v) :: q) t' = if decide (t = t') then v :: waiting_tag q t' else waiting_tag q t'.
Proof. unfold waiting_tag. rewrite filter_cons. by repeat case_decide. Qed.

Lemma take_first_waiting t q :
  match take_first t q with
  | Some (v, q') => waiting_tag q t = v :: waiting_tag q' t /\
                    forall t', t' <> t -> waiting_tag q' t' = waiting_tag q t'
  | None => waiting_tag q t = []
  end.
Proof.
  induction q as [|[t1 v1] q IH]; cbn; [done|]. rewrite waiting_tag_cons.
  destruct (Z.eqb_spec t1 t) as [->|Hne].
  - rewrite decide_True by done. split; [done|]. intros t' Ht'.
    by rewrite waiting_tag_cons, decide_False.
  - rewrite decide_False by done. destruct (take_first t q) as [[v q']|]; [|done].
    destruct IH as [IH1 IH2]. cbn. split.
    + by rewrite waiting_tag_cons, decide_False.
    + intros t' Ht'. rewrite !waiting_tag_cons. by rewrite (IH2 t') by done.
Qed.

Definition table_contents (h : lc_hash) (key : Z) : list (Z * Z) :=
  from_option contents [] (h !! Z.to_nat (myhash key)).

(** The values of [type] waiting under [key], oldest first. *)
Definition waiting (h : lc_hash) (key : Z) (type : insert_type) : list Z :=
  waiting_tag (table_contents h key) (tag_of key type).

Lemma lc_hash_insert_bucket h key value type :
  table_wf h -> valid_key key ->
  exists h' v code, lc_hash_insert h key value type = Ok (h', v, code) /\ table_wf h' /\
    match_insert (table_contents h key) key value type = (table_contents h' key, v, code) /\
    (forall i, i <> Z.to_nat (myhash key) -> h' !! i = h !! i).
Proof.
  intros [Hlen Hb] Hkey. pose proof (myhash_range key) as Hr.
  destruct (aget_in h (myhash key)) as (b & Hget & Hlk); [lia|].
  assert (bucket_wf b) as Hwf by (rewrite Forall_lookup in Hb; eauto).
  destruct (bucket_wf_master b Hwf) as (m & rest & Hm & Hml & Hsl).
  pose proof (bucket_insert_spec b key value type Hwf (tag_of_not_empty _ _ Hkey)
    (tag_of_not_empty _ _ Hkey)) as Hspec.
  unfold lc_hash_insert. rewrite Hget. cbn [mbind result_bind]. rewrite Hml.
  cbn [mbind result_bind]. change (lc_spin_lock LC_SPIN_UNLOCKED) with (Ok LC_SPIN_LOCKED).
  cbn [mbind result_bind]. rewrite bucket_insert_lock by (by subst).
  destruct (bucket_insert b key value type) as [[b' v] code]. destruct Hspec as [Hwf' Hmi].
  rewrite aset_in by lia. cbn [mbind result_bind].
  assert (set_lock (lc_spin_unlock LC_SPIN_LOCKED) (set_lock LC_SPIN_LOCKED b') = b') as ->.
  { destruct (bucket_wf_master b' Hwf') as (m' & rest' & -> & _ & E). exact E. }
  eexists _, _, _. split; [done|]. unfold table_contents. rewrite Hlk. cbn.
  rewrite list_lookup_insert_eq by lia. split_and!; [|done|].
  - split; [by rewrite length_insert|]. by apply Forall_insert.
  - intros i Hi. by rewrite list_lookup_insert_ne.
Qed.

(** An insertion touches the queues of its own key only. *)
Lemma match_insert_other q key value type q' v code key' type' :
  match_insert q key value type = (q', v, code) ->
  valid_key key -> valid_key key' -> key' <> key ->
  waiting_tag q' (tag_of key' type') = waiting_tag q (tag_of key' type').
Proof.
  intros Hm Hk Hk' Hne. unfold match_insert in Hm.
  pose proof (take_first_waiting (tag_of key (other_type type)) q) as Ht.
  destruct (take_first _ q) as [[v1 q1]|]; simplify_eq.
  - apply Ht. intros E. apply tag_of_inj in E; naive_solver.
  - rewrite waiting_tag_app, waiting_tag_cons, decide_False; [apply app_nil_r|].
    intros E. apply tag_of_inj in E; naive_solver.
Qed.

(** What an insertion does to the two queues of its key. *)
Lemma match_insert_own q key value type q' v code :
  match_insert q key value type = (q', v, code) -> valid_key key ->
  match waiting_tag q (tag_of key (other_type type)) with
  | w :: rest => v = w /\ code = 0 /\ waiting_tag q' (tag_of key (other_type type)) = rest /\
                 waiting_tag q' (tag_of key type) = waiting_tag q (tag_of key type)
  | [] => v = value /\ code = 1 /\ waiting_tag q' (tag_of key (other_type type)) = [] /\
          waiting_tag q' (tag_of key type) = waiting_tag q (tag_of key type) ++ [value]
  end.
Proof.
  intros Hm Hk. unfold match_insert in Hm.
  assert (tag_of key type <> tag_of key (other_type type)) as Hne.
  { intros E. apply tag_of_inj in E as [_ E]; [by destruct type|done|done]. }
  pose proof (take_first_waiting (tag_of key (other_type type)) q) as Ht.
  destruct (take_first _ q) as [[v1 q1]|]; simplify_eq.
  - destruct Ht as [-> Ht]. split_and!; auto.
  - rewrite Ht, !waiting_tag_app, !waiting_tag_cons, Ht.
    rewrite decide_False, decide_True by done. done.
Qed.

(** The two views together: what an insertion does to every queue. *)
Lemma lc_hash_insert_spec h key value type :
  table_wf h -> valid_key key ->
  exists h' v code, lc_hash_insert h key value type = Ok (h', v, code) /\ table_wf h' /\
    match waiting h key (other_type type) with
    | w :: rest => v = w /\ code = 0 /\ waiting h' key (other_type type) = rest /\
                   waiting h' key type = waiting h key type
    | [] => v = value /\ code = 1 /\ waiting h' key (other_type type) = [] /\
            waiting h' key type = waiting h key type ++ [value]
    end /\
    forall key' type', valid_key key' -> key' <> key ->
      waiting h' key' type' = waiting h key' type'.
Proof.
  intros Hwf Hk. destruct (lc_hash_insert_bucket h key value type Hwf Hk)
    as (h' & v & code & Hi & Hwf' & Hm & Hother).
  exists h', v, code. split_and!; [done|done|by eapply match_insert_own|].
  intros key' type' Hk' Hne. unfold waiting.
  destruct (decide (Z.to_nat (myhash key') = Z.to_nat (myhash key))) as [E|E].
  - unfold table_contents in *. rewrite E. by eapply match_insert_other.
  - unfold table_contents. by rewrite Hother.
Qed.

(** ** Properties *)

(** C2: The matching theorem.  For valid keys an insertion never faults; it returns 0 and the
    OLDEST waiting value of the other side, removing it, when there is one, and otherwise
    returns 1 with its own value queued last; the queues of every other key are as they
    were, those that hash to the same bucket included. *)
Theorem hash_insert_matches h key value type :
  table_wf h -> valid_key key ->
  exists h' v code, lc_hash_insert h key value type = Ok (h', v, code) /\ table_wf h' /\
    match waiting h key (other_type type) with
    | w :: rest => v = w /\ code = 0 /\ waiting h' key (other_type type) = rest /\
                   waiting h' key type = waiting h key type
    | [] => v = value /\ code = 1 /\ waiting h' key (other_type type) = [] /\
            waiting h' key type = waiting h key type ++ [value]
    end /\
    forall key' type', valid_key key' -> key' <> key ->
      waiting h' key' type' = waiting h key' type'.
Proof. apply lc_hash_insert_spec. Qed.

(** No send and receive of the same key are ever left waiting together. *)
Theorem hash_never_both_wait h key value type h' v code :
  table_wf h -> valid_key key -> lc_hash_insert h key value type = Ok (h', v, code) ->
  (waiting h key CLIENT = [] \/ waiting h key SERVER = []) ->
  waiting h' key CLIENT = [] \/ waiting h' key SERVER = [].
Proof.
  intros Hwf Hk Hi Hinv. destruct (lc_hash_insert_bucket h key value type Hwf Hk)
    as (h1 & v1 & c1 & Hi1 & _ & Hm & _). rewrite Hi in Hi1. injection Hi1 as <- <- <-.
  apply match_insert_own in Hm; [|done]. unfold waiting in *.
  destruct type; cbn [other_type] in Hm.
  - destruct (waiting_tag _ (tag_of key SERVER)) eqn:E; [right; apply Hm|left].
    destruct Hinv as [H|H]; [|congruence]. destruct Hm as (_ & _ & _ & ->). exact H.
  - destruct (waiting_tag _ (tag_of key CLIENT)) eqn:E; [left; apply Hm|right].
    destruct Hinv as [H|H]; [congruence|]. destruct Hm as (_ & _ & _ & ->). exact H.
Qed.

Lemma lc_make_key_val r t :
  0 <= r < 2 ^ 31 -> 0 <= t < 2 ^ 31 -> lc_make_key r t = r * 2 ^ 32 + t.
Proof.
  intros Hr Ht. unfold lc_make_key. rewrite (u64_small r), (u64_small t) by lia.
  rewrite Z.shiftl_mul_pow2, u64_small by lia.
  pose proof (Z.add_lor_land (r * 2 ^ 32) t) as H.
  assert (Z.land (r * 2 ^ 32) t = 0) as E; [|lia].
  apply Z.bits_inj'. intros n Hn. rewrite Z.land_spec, Z.bits_0, Z.mul_pow2_bits by lia.
  destruct (Z.lt_ge_cases n 32).
  - by rewrite (Z.testbit_neg_r r) by lia.
  - destruct (Z.eq_dec t 0) as [->|]; [by rewrite Z.bits_0, andb_false_r|].
    rewrite (Z.bits_above_log2 t); [apply andb_false_r|lia|].
    apply Z.log2_lt_pow2; [lia|]. pose proof (Z.pow_le_mono_r 2 32 n). lia.
Qed.

Lemma lc_hash_create_wf : table_wf lc_hash_create.
Proof.
  unfold lc_hash_create, create_table. split; [by rewrite length_replicate|].
  apply Forall_replicate. split; [done|]. repeat constructor.
Qed.

Lemma lc_hash_create_waiting key type : waiting lc_hash_create key type = [].
Proof.
  unfold waiting, table_contents, lc_hash_create, create_table.
  destruct (replicate _ _ !! _) as [b|] eqn:E; [|done].
  apply lookup_replicate in E as [-> _]. reflexivity.
Qed.

(** The first insertion in a fresh table, bucket by bucket. *)
Lemma lc_hash_insert_fresh key value type :
  lc_hash_insert lc_hash_create key value type =
  (let '(b', v, c) := bucket_insert [new_row] key value type in
   Ok (<[Z.to_nat (myhash key) := set_lock LC_SPIN_UNLOCKED b']> lc_hash_create, v, c)).
Proof.
  pose proof (myhash_range key) as Hr. unfold TBL_BIT_SIZE in Hr.
  assert (length lc_hash_create = Z.to_nat (2 ^ 16)) as Hlen by (apply length_replicate).
  unfold lc_hash_insert. rewrite (proj2 (aget_ok _ _ [new_row])).
  2:{ split; [lia|]. apply lookup_replicate. split; [done|].
      change (Z.shiftl 1 TBL_BIT_SIZE) with (2 ^ 16). lia. }
  cbn [mbind result_bind]. change (master_lock [new_row]) with (Ok LC_SPIN_UNLOCKED).
  cbn [mbind result_bind]. change (lc_spin_lock LC_SPIN_UNLOCKED) with (Ok LC_SPIN_LOCKED).
  cbn [mbind result_bind]. rewrite bucket_insert_lock by done.
  destruct (bucket_insert [new_row] key value type) as [[b' v] c].
  rewrite aset_in by (rewrite Hlen; lia). cbn [mbind result_bind]. by destruct b'.
Qed.

(** The keys the library makes from a rank and a nonnegative tag are valid, and distinct
    for distinct pairs: receives and arrivals meet exactly on equal rank and tag. *)
Theorem make_key_injective r t r' t' :
  0 <= r < 2 ^ 31 - 1 -> 0 <= t < 2 ^ 31 -> 0 <= r' < 2 ^ 31 - 1 -> 0 <= t' < 2 ^ 31 ->
  valid_key (lc_make_key r t) /\ (lc_make_key r t = lc_make_key r' t' <-> r = r' /\ t = t').
Proof.
  intros. rewrite !lc_make_key_val by lia. unfold valid_key. split; [lia|].
  split; [split; nia|by intros [-> ->]].
Qed.

(** A receive posted with tag -1 on a fresh table "matches" at once: the tag it looks for
    is the mark of an empty slot, and the value it is given is that slot's initial 0, so
    [lc_recv] goes on with a null packet. *)
Theorem hash_tag_minus_one r value :
  lc_hash_insert lc_hash_create (lc_make_key r (-1)) value CLIENT = Ok (lc_hash_create, 0, 0).
Proof.
  assert (lc_make_key r (-1) = 2 ^ 64 - 1) as ->.
  { unfold lc_make_key. replace (u64 (-1)) with (Z.ones 64) by reflexivity.
    rewrite Z.lor_ones_low; [reflexivity|apply u64_range|].
    pose proof (u64_range (Z.shiftl (u64 r) 32)) as [H0 H1].
    destruct (Z.eq_dec (u64 (Z.shiftl (u64 r) 32)) 0) as [->|]; [done|].
    apply Z.log2_lt_pow2; lia. }
  rewrite lc_hash_insert_fresh.
  change (bucket_insert [new_row] (2 ^ 64 - 1) value CLIENT) with ([new_row], 0, 0).
  cbn [set_lock]. rewrite list_insert_id; [done|]. apply lookup_replicate. split; [done|].
  pose proof (myhash_range (2 ^ 64 - 1)). change (Z.shiftl 1 TBL_BIT_SIZE) with (2 ^ TBL_BIT_SIZE). lia.
Qed.

(** ** Witnesses *)

(** A receive of rank 2, tag 7 queued on a fresh table. *)
Definition demo_table : lc_hash :=
  <[Z.to_nat (myhash (lc_make_key 2 7)) :=
      [HashRow LC_SPIN_UNLOCKED
         [HashEntry (tag_of (lc_make_key 2 7) CLIENT) 4096; HashEntry EMPTY 0;
          HashEntry EMPTY 0]]]> lc_hash_create.

Lemma demo_table_eq :
  lc_hash_insert lc_hash_create (lc_make_key 2 7) 4096 CLIENT = Ok (demo_table, 4096, 1).
Proof. rewrite lc_hash_insert_fresh. reflexivity. Qed.

Lemma demo_key_valid : valid_key (lc_make_key 2 7).
Proof. vm_compute. split; congruence. Qed.

Lemma demo_table_wf : table_wf demo_table.
Proof.
  destruct (lc_hash_insert_bucket lc_hash_create _ 4096 CLIENT lc_hash_create_wf demo_key_valid)
    as (h & v & c & H & Hwf & _). rewrite demo_table_eq in H. by injection H as -> _ _.
Qed.

Lemma hash_insert_matches_witness : exists h' v code,
  lc_hash_insert demo_table (lc_make_key 2 7) 8192 SERVER = Ok (h', v, code) /\ table_wf h' /\
  match waiting demo_table (lc_make_key 2 7) CLIENT with
  | w :: rest => v = w /\ code = 0 /\ waiting h' (lc_make_key 2 7) CLIENT = rest /\
      waiting h' (lc_make_key 2 7) SERVER = waiting demo_table (lc_make_key 2 7) SERVER
  | [] => v = 8192 /\ code = 1 /\ waiting h' (lc_make_key 2 7) CLIENT = [] /\
      waiting h' (lc_make_key 2 7) SERVER = waiting demo_table (lc_make_key 2 7) SERVER ++ [8192]
  end /\
  forall key' type', valid_key key' -> key' <> lc_make_key 2 7 ->
    waiting h' key' type' = waiting demo_table key' type'.
Proof.
  apply (hash_insert_matches demo_table (lc_make_key 2 7) 8192 SERVER);
    [apply demo_table_wf|apply demo_key_valid].
Defined.

Lemma hash_never_both_wait_witness :
  waiting demo_table (lc_make_key 2 7) CLIENT = [] \/ waiting demo_table (lc_make_key 2 7) SERVER = [].
Proof.
  refine (hash_never_both_wait lc_hash_create _ 4096 CLIENT _ _ _ lc_hash_create_wf
    demo_key_valid demo_table_eq _). left. apply lc_hash_create_waiting.
Defined.

Lemma make_key_injective_witness :
  valid_key (lc_make_key 2 7) /\ (lc_make_key 2 7 = lc_make_key 7 2 <-> 2 = 7 /\ 7 = 2).
Proof. apply (make_key_injective 2 7 7 2); lia. Defined.
