(* ===== verification/Avl.v ===== *)
(** * AVL trees (dreg/avl.c, dreg/avl.h, dreg/avl_typs.h)

    The balanced search trees the registration cache keeps its memory regions in.  A
    node is identified by the address of its data buffer (each node owns one for
    life, also on the free list); the buffer's content is the [item].  The short
    return codes, the balance factors and the order of the pointer updates are the
    source's. *)
From stdpp Require Import sorting.
From S2P Require Import Prelude.

(** DIRECTION, OPPOSITE *)
Inductive DIRECTION : Type := LEFT | RIGHT.
Definition OPPOSITE (d : DIRECTION) : DIRECTION :=
  match d with LEFT => RIGHT | RIGHT => LEFT end.

(** Codes returned by [avl_insert], [avl_delete] and [balance]. *)
Definition HEIGHT_UNCHANGED : Z := 0.
Definition HEIGHT_CHANGED : Z := 1.

(** Balance factors. *)
Definition LEFT_HEAVY : Z := -1.
Definition BALANCED : Z := 0.
Definition RIGHT_HEAVY : Z := 1.

(** Enumerations of avl.h. *)
Inductive VISIT : Type := PREORDER | INORDER | POSTORDER.
Inductive SIBLING_ORDER : Type := LEFT_TO_RIGHT | RIGHT_TO_LEFT.
Inductive NODE : Type := IS_TREE | IS_LBRANCH | IS_RBRANCH | IS_LEAF | IS_NULL.

#[export] Instance NODE_eq_dec : EqDecision NODE.
Proof. solve_decision. Defined.

(** ** Memory

    [avl_free_list] threads freed nodes (identified by their data buffers); [brk] is
    the next address malloc gives, [avail] how many more times it succeeds, [freed]
    what was passed to free. *)
Record heap : Type := Heap {
  avl_free_list : list Z;
  brk : Z;
  avail : nat;
  freed : list Z;
  g_is_dreg_finalize : Z }.

Definition ckalloc (h : heap) : result (Z * heap) :=
  match avail h with
  | O => Err (Exit 1)
  | S n => Ok (brk h, Heap (avl_free_list h) (brk h + 1) n (freed h) (g_is_dreg_finalize h))
  end.

(** GET_AVL_FREE_LIST *)
Definition GET_AVL_FREE_LIST (h : heap) : Z * heap :=
  match avl_free_list h with
  | [] => (NULL, h)
  | a :: l => (a, Heap l (brk h) (avail h) (freed h) (g_is_dreg_finalize h))
  end.

(** ADD_AVL_FREE_LIST *)
Definition ADD_AVL_FREE_LIST (a : Z) (h : heap) : heap :=
  Heap (a :: avl_free_list h) (brk h) (avail h) (freed h) (g_is_dreg_finalize h).

(** free() *)
Definition c_free (a : Z) (h : heap) : heap :=
  Heap (avl_free_list h) (brk h) (avail h) (a :: freed h) (g_is_dreg_finalize h).

Inductive tree (D : Type) : Type :=
| NULL_TREE
| Node (data : Z) (item : D) (bal : Z) (l r : tree D).
Arguments NULL_TREE {D}.
Arguments Node {D} data item bal l r.

Definition is_null {D} (t : tree D) : bool :=
  match t with NULL_TREE => true | _ => false end.

(** [t->subtree[d]], [t->bal] and their assignments. *)
Definition subtree {D} (d : DIRECTION) (t : tree D) : result (tree D) :=
  match t with
  | NULL_TREE => Err NullDeref
  | Node _ _ _ l r => Ok (match d with LEFT => l | RIGHT => r end)
  end.

Definition set_subtree {D} (d : DIRECTION) (t s : tree D) : result (tree D) :=
  match t with
  | NULL_TREE => Err NullDeref
  | Node a x b l r =>
      Ok (match d with LEFT => Node a x b s r | RIGHT => Node a x b l s end)
  end.

Definition nd_bal {D} (t : tree D) : result Z :=
  match t with NULL_TREE => Err NullDeref | Node _ _ b _ _ => Ok b end.

Definition set_bal {D} (t : tree D) (b : Z) : result (tree D) :=
  match t with
  | NULL_TREE => Err NullDeref
  | Node a x _ l r => Ok (Node a x b l r)
  end.

(** new_node: a node of the free list keeps its buffer, a fresh one takes two
    mallocs; the item is copied into the buffer. *)
Definition new_node {D} (x : D) (h : heap) : result (tree D * heap) :=
  let '(root, h1) := GET_AVL_FREE_LIST h in
  if root =? NULL then
    '(_, h2) ← ckalloc h1;
    '(data, h3) ← ckalloc h2;
    Ok (Node data x BALANCED NULL_TREE NULL_TREE, h3)
  else Ok (Node root x BALANCED NULL_TREE NULL_TREE, h1).

Definition free_node (a : Z) (h : heap) : heap :=
  if g_is_dreg_finalize h =? 1 then c_free a h else ADD_AVL_FREE_LIST a h.

Definition node_type {D} (t : tree D) : NODE :=
  match t with
  | NULL_TREE => IS_NULL
  | Node _ _ _ l r =>
      if negb (is_null l) && negb (is_null r) then IS_TREE
      else if negb (is_null l) then IS_LBRANCH
      else if negb (is_null r) then IS_RBRANCH
      else IS_LEAF
  end.

(** Comparison functions that look for the ends of the tree.  A comparison is given
    here already applied to its key, the first argument of the C function. *)
Definition avl_min {D} (elt2 : D) (nd_typ : NODE) : Z :=
  match nd_typ with IS_RBRANCH | IS_LEAF => 0 | _ => -1 end.

Definition avl_max {D} (elt2 : D) (nd_typ : NODE) : Z :=
  match nd_typ with IS_LBRANCH | IS_LEAF => 0 | _ => 1 end.

(** ** Rotations *)

Definition rotate_once {D} (root : tree D) (dir : DIRECTION) : result (tree D * Z) :=
  let other_dir := OPPOSITE dir in
  let old_root := root in
  new_root ← subtree other_dir root;
  b ← nd_bal new_root;
  let ht_unchanged := if truth b then 0 else 1 in
  mid ← subtree dir new_root;
  old_root ← set_subtree other_dir old_root mid;
  let b := match dir with LEFT => b - 1 | RIGHT => b + 1 end in
  old_root ← set_bal old_root (- b);
  new_root ← set_subtree dir new_root old_root;
  new_root ← set_bal new_root b;
  Ok (new_root, ht_unchanged).

Definition rotate_twice {D} (root : tree D) (dir : DIRECTION) : result (tree D) :=
  let other_dir := OPPOSITE dir in
  let old_root := root in
  old_other ← subtree other_dir root;
  new_root ← subtree dir old_other;
  s ← subtree dir new_root;
  old_root ← set_subtree other_dir old_root s;
  s ← subtree other_dir new_root;
  old_other ← set_subtree dir old_other s;
  new_root ← set_subtree dir new_root old_root;
  new_root ← set_subtree other_dir new_root old_other;
  b ← nd_bal new_root;
  lt ← subtree LEFT new_root;
  lt ← set_bal lt (- Z.max b 0);
  new_root ← set_subtree LEFT new_root lt;
  rt ← subtree RIGHT new_root;
  rt ← set_bal rt (- Z.min b 0);
  new_root ← set_subtree RIGHT new_root rt;
  set_bal new_root 0.

(** balance: the rotations that restore the balance of a tree; the code says whether
    its height changed. *)
Definition balance {D} (root : tree D) : result (tree D * Z) :=
  let code (special_case : Z) :=
    if truth special_case then HEIGHT_UNCHANGED else HEIGHT_CHANGED in
  rb ← nd_bal root;
  if rb <? LEFT_HEAVY then
    lt ← subtree LEFT root;
    lb ← nd_bal lt;
    if lb =? RIGHT_HEAVY then
      root ← rotate_twice root RIGHT;
      Ok (root, code 0)
    else
      '(root, special_case) ← rotate_once root RIGHT;
      Ok (root, code special_case)
  else if RIGHT_HEAVY <? rb then
    rt ← subtree RIGHT root;
    b ← nd_bal rt;
    if b =? LEFT_HEAVY then
      root ← rotate_twice root LEFT;
      Ok (root, code 0)
    else
      '(root, special_case) ← rotate_once root LEFT;
      Ok (root, code special_case)
  else Ok (root, HEIGHT_UNCHANGED).

(** ** Find, insert, delete *)

(** The loop of [avl_find]; [nd_typ] is the type of the root, computed once. *)
Fixpoint avl_find_from {D} (compar : D -> NODE -> Z) (nd_typ : NODE) (t : tree D) : Z :=
  match t with
  | NULL_TREE => NULL
  | Node a x _ l r =>
      let cmp := compar x nd_typ in
      if truth cmp then avl_find_from compar nd_typ (if cmp <? 0 then l else r) else a
  end.

Definition avl_find {D} (compar : D -> NODE -> Z) (t : tree D) : Z :=
  avl_find_from compar (node_type t) t.

(** The end of [avl_insert]: [bal += increase], then rebalance. *)
Definition insert_rebalance {D} (root : tree D) (increase : Z) : result (tree D * Z) :=
  b ← nd_bal root;
  let b := b + increase in
  root ← set_bal root b;
  if truth increase && truth b then
    '(root, c) ← balance root;
    Ok (root, 1 - c)
  else Ok (root, HEIGHT_UNCHANGED).

(** avl_insert: the tree, the heap, what [*data] holds on return (NULL, or the buffer
    of the duplicate) and the return code.  [compar x y] is the two-argument call
    [( *compar)( *data, ( *rootp)->data)]. *)
Fixpoint avl_insert {D} (compar : D -> D -> Z) (x : D) (h : heap) (root : tree D)
    : result (tree D * heap * Z * Z) :=
  match root with
  | NULL_TREE =>
      '(n, h') ← new_node x h;
      Ok (n, h', NULL, HEIGHT_CHANGED)
  | Node a y b l r =>
      let cmp := compar x y in
      if cmp <? 0 then
        '(l', h', data, c) ← avl_insert compar x h l;
        let increase := - c in
        let root := Node a y b l' r in
        if negb (data =? NULL) then Ok (root, h', data, HEIGHT_UNCHANGED)
        else '(root, c) ← insert_rebalance root increase; Ok (root, h', data, c)
      else if 0 <? cmp then
        '(r', h', data, c) ← avl_insert compar x h r;
        let increase := c in
        let root := Node a y b l r' in
        if negb (data =? NULL) then Ok (root, h', data, HEIGHT_UNCHANGED)
        else '(root, c) ← insert_rebalance root increase; Ok (root, h', data, c)
      else Ok (root, h, a, HEIGHT_UNCHANGED)
  end.

(** avl_smallest: the buffer and the content of the leftmost node. *)
Fixpoint avl_smallest {D} (root : tree D) : result (Z * D) :=
  match root with
  | NULL_TREE => Err NullDeref
  | Node a x b l r =>
      if avl_min x (node_type root) =? 0 then Ok (a, x) else avl_smallest l
  end.

(** The end of [avl_delete]: [bal -= decrease], then rebalance. *)
Definition delete_rebalance {D} (root : tree D) (decrease : Z) : result (tree D * Z) :=
  b ← nd_bal root;
  let b := b - decrease in
  root ← set_bal root b;
  if truth decrease && truth b then balance root
  else if truth decrease && negb (truth b) then Ok (root, HEIGHT_CHANGED)
  else Ok (root, HEIGHT_UNCHANGED).

(** What [avl_delete] needs of an item: [copy_word x y] is the item [x] after as many
    bytes of [y] as a pointer has were copied over its start.  A longer item would keep
    the rest of [x]; a comment in [avl_delete] says that none is longer. *)
Class Item (D : Type) : Type := copy_word : D -> D -> D.

(** Items of one word, which the copy carries over whole: the pointers of the cache. *)
Class PointerItem (D : Type) `{Item D} : Prop :=
  copy_word_whole : forall x y : D, copy_word x y = y.

#[export] Instance pointer_item : Item Z := fun _ y => y.
#[export] Instance pointer_whole : PointerItem Z.
Proof. done. Qed.

(** An item of a word and more. *)
#[export] Instance wide_item {D E} `{Item D} : Item (D * E) :=
  fun x y => (copy_word x.1 y.1, x.2).

(** avl_delete: the tree, the heap, what [*data] holds on return (NULL, or the buffer
    the key was found in) and the return code. *)
Fixpoint avl_delete {D} `{Item D} (compar : D -> NODE -> Z) (h : heap) (root : tree D)
    : result (tree D * heap * Z * Z) :=
  match root with
  | NULL_TREE => Ok (NULL_TREE, h, NULL, HEIGHT_UNCHANGED)
  | Node a x b l r =>
      let nd_typ := node_type root in
      let cmp := compar x nd_typ in
      if cmp <? 0 then
        '(l', h', data, c) ← avl_delete compar h l;
        let decrease := - c in
        let root := Node a x b l' r in
        if data =? NULL then Ok (root, h', data, HEIGHT_UNCHANGED)
        else '(root, c) ← delete_rebalance root decrease; Ok (root, h', data, c)
      else if 0 <? cmp then
        '(r', h', data, c) ← avl_delete compar h r;
        let decrease := c in
        let root := Node a x b l r' in
        if data =? NULL then Ok (root, h', data, HEIGHT_UNCHANGED)
        else '(root, c) ← delete_rebalance root decrease; Ok (root, h', data, c)
      else
        let data := a in
        match nd_typ with
        | IS_LEAF => Ok (NULL_TREE, free_node a h, data, HEIGHT_CHANGED)
        | IS_RBRANCH => Ok (r, free_node a h, data, HEIGHT_CHANGED)
        | IS_LBRANCH => Ok (l, free_node a h, data, HEIGHT_CHANGED)
        | IS_TREE =>
            '(_, scratch_space) ← avl_smallest r;
            '(r', h', _, decrease) ← avl_delete avl_min h r;
            '(root, c) ← delete_rebalance (Node a (copy_word x scratch_space) b l r') decrease;
            Ok (root, h', data, c)
        | IS_NULL => '(root, c) ← delete_rebalance root 0; Ok (root, h, data, c)
        end
  end.

(** ** Traversals

    The action of the C code is a function of the data, the visit, the node type, the
    level and the balance on a state of the caller's. *)
Fixpoint avl_walk {D S} (t : tree D)
    (action : option (Z -> D -> VISIT -> NODE -> Z -> Z -> S -> S))
    (sibling_order : SIBLING_ORDER) (level : Z) (s : S) : S :=
  match t, action with
  | Node a x b l r, Some act =>
      let node := node_type t in
      let call order s := act a x order node level b s in
      let wl s := if is_null l then s else avl_walk l action sibling_order (level + 1) s in
      let wr s := if is_null r then s else avl_walk r action sibling_order (level + 1) s in
      match sibling_order with
      | LEFT_TO_RIGHT => call POSTORDER (wr (call INORDER (wl (call PREORDER s))))
      | RIGHT_TO_LEFT => call POSTORDER (wl (call INORDER (wr (call PREORDER s))))
      end
  | _, _ => s
  end.

(** avl_free: the action gets no balance; each node is freed after its subtrees. *)
Fixpoint avl_free {D S} (t : tree D)
    (action : option (Z -> D -> VISIT -> NODE -> Z -> S -> S))
    (sibling_order : SIBLING_ORDER) (level : Z) (s : S) (h : heap) : S * heap :=
  match t with
  | NULL_TREE => (s, h)
  | Node a x b l r =>
      let node := node_type t in
      let call order (sh : S * heap) :=
        match action with Some act => (act a x order node level sh.1, sh.2) | None => sh end in
      let fl sh := if is_null l then sh
                   else avl_free l action sibling_order (level + 1) sh.1 sh.2 in
      let fr sh := if is_null r then sh
                   else avl_free r action sibling_order (level + 1) sh.1 sh.2 in
      let sh :=
        match sibling_order with
        | LEFT_TO_RIGHT => call POSTORDER (fr (call INORDER (fl (call PREORDER (s, h)))))
        | RIGHT_TO_LEFT => call POSTORDER (fl (call INORDER (fr (call PREORDER (s, h)))))
        end in
      (sh.1, free_node a sh.2)
  end.

(** ** The public functions *)

(** AVLdescriptor.  [isize], the size of an item, is in the type [D]: insertion copies
    the item whole, deletion its first word. *)
Record AVLdescriptor (D : Type) : Type := AVL {
  root : tree D;
  compar : D -> D -> Z;
  count : Z }.
Arguments AVL {D} root compar count.
Arguments root {D} _.
Arguments compar {D} _ _ _.
Arguments count {D} _.

Definition avlinit {D} (cmp : D -> D -> Z) (h : heap) : result (AVLdescriptor D * heap) :=
  let h := Heap [] (brk h) (avail h) (freed h) (g_is_dreg_finalize h) in
  '(_, h) ← ckalloc h;
  Ok (AVL NULL_TREE cmp 0, h).

Definition avlins {D} (x : D) (tree : AVLdescriptor D) (h : heap)
    : result (Z * AVLdescriptor D * heap) :=
  '(r, h', data, _) ← avl_insert (compar tree) x h (root tree);
  let n := if data =? NULL then count tree + 1 else count tree in
  Ok (data, AVL r (compar tree) n, h').

Definition avldel {D} `{Item D} (x : D) (tree : AVLdescriptor D) (h : heap)
    : result (Z * AVLdescriptor D * heap) :=
  '(r, h', data, _) ← avl_delete (fun y _ => compar tree x y) h (root tree);
  let n := if negb (data =? NULL) then count tree - 1 else count tree in
  Ok (data, AVL r (compar tree) n, h').

Definition avlfind {D} (x : D) (tree : AVLdescriptor D) : Z :=
  avl_find (fun y _ => compar tree x y) (root tree).

(** avlfindex: with a comparison and a key of the caller's own. *)
Definition avlfindex {K D} (cmp : K -> D -> Z) (k : K) (tree : AVLdescriptor D) : Z :=
  avl_find (fun y _ => cmp k y) (root tree).

Definition avldelmin {D} `{Item D} (tree : AVLdescriptor D) (h : heap)
    : result (Z * AVLdescriptor D * heap) :=
  '(r, h', data, _) ← avl_delete avl_min h (root tree);
  let n := if negb (data =? NULL) then count tree - 1 else count tree in
  Ok (data, AVL r (compar tree) n, h').

Definition avlfindmin {D} (tree : AVLdescriptor D) : Z := avl_find avl_min (root tree).

Definition avldelmax {D} `{Item D} (tree : AVLdescriptor D) (h : heap)
    : result (Z * AVLdescriptor D * heap) :=
  '(r, h', data, _) ← avl_delete avl_max h (root tree);
  let n := if negb (data =? NULL) then count tree - 1 else count tree in
  Ok (data, AVL r (compar tree) n, h').

Definition avlfindmax {D} (tree : AVLdescriptor D) : Z := avl_find avl_max (root tree).

Definition avlcount {D} (tree : AVLdescriptor D) : Z := count tree.

Definition avlwalk {D S} (tree : AVLdescriptor D)
    (action : option (Z -> D -> VISIT -> NODE -> Z -> Z -> S -> S))
    (sibling_order : SIBLING_ORDER) (s : S) : S :=
  avl_walk (root tree) action sibling_order 1 s.

(** avldispose: the nodes of the free list go back to the allocator, the tree's own
    nodes go where [free_node] puts them, and [free] is called on [treeptr] itself. *)
Definition avldispose {D S} (treeptr : Z) (tree : AVLdescriptor D)
    (action : option (Z -> D -> VISIT -> NODE -> Z -> S -> S))
    (sibling_order : SIBLING_ORDER) (s : S) (h : heap) : S * heap :=
  let h := Heap [] (brk h) (avail h) (rev (avl_free_list h) ++ freed h)
             (g_is_dreg_finalize h) in
  let '(s, h) := avl_free (root tree) action sibling_order 1 s h in
  (s, c_free treeptr h).

(** ** What the operations mean *)

Section meaning.
Context {D : Type}.
Implicit Types (t l r : tree D) (x y : D) (h : heap).

(** The nodes in order, their items, their buffers; the height; the AVL invariant. *)
Fixpoint nodes t : list (Z * D) :=
  match t with
  | NULL_TREE => []
  | Node a x _ l r => nodes l ++ (a, x) :: nodes r
  end.

Fixpoint height t : Z :=
  match t with
  | NULL_TREE => 0
  | Node _ _ _ l r => 1 + Z.max (height l) (height r)
  end.

Fixpoint balanced t : Prop :=
  match t with
  | NULL_TREE => True
  | Node _ _ b l r => b = height r - height l /\ -1 <= b <= 1 /\ balanced l /\ balanced r
  end.

Lemma height_pos t : 0 <= height t.
Proof. induction t; cbn; lia. Qed.

Lemma height_node a x b l r : 0 < height (Node a x b l r).
Proof. cbn. pose proof (height_pos l). lia. Qed.

Lemma is_null_nodes t : is_null t = true <-> nodes t = [].
Proof. destruct t; cbn; [done|]. split; [done|]. intros H. by apply app_eq_nil in H as [_ ?]. Qed.

(** A tree too heavy on one side is not empty there. *)
Lemma heavy_node t n : n < height t -> 0 <= n ->
  exists a x b l r, t = Node a x b l r.
Proof. destruct t; cbn; [lia|]. eauto 10. Qed.

(** The case analysis both rotations need. *)
#[local] Ltac rotation_goal :=
  eexists _, _; split; [reflexivity|]; cbn; repeat (rewrite <- app_assoc; cbn);
  unfold HEIGHT_CHANGED, HEIGHT_UNCHANGED;
  repeat split; try done; try lia.

Definition rebalanced (t0 t : tree D) (c : Z) : Prop :=
  balanced t /\ nodes t = nodes t0 /\ height t = height t0 - c /\ (c = 0 \/ c = 1).

Lemma balance_left a x l r :
  balanced l -> balanced r -> height l = height r + 2 ->
  exists t c, balance (Node a x (-2) l r) = Ok (t, c) /\ rebalanced (Node a x (-2) l r) t c.
Proof.
  intros Hl Hr Hh. pose proof (height_pos r) as Hr0.
  destruct l as [|al xl bl ll lr]; cbn in Hh; [lia|]. destruct Hl as (-> & Hb & Hll & Hlr).
  unfold balance, rebalanced. cbn -[rotate_once rotate_twice].
  unfold RIGHT_HEAVY. case_zbool.
  - destruct lr as [|am xm bm ml mr]; cbn in *; [pose proof (height_pos ll); lia|].
    destruct Hlr as (-> & Hm & Hml & Hmr). rotation_goal.
  - unfold rotate_once. cbn. unfold truth.
    destruct (Z.eqb_spec (height lr - height ll) 0) as [E|]; cbn; rotation_goal.
Qed.

Lemma balance_right a x l r :
  balanced l -> balanced r -> height r = height l + 2 ->
  exists t c, balance (Node a x 2 l r) = Ok (t, c) /\ rebalanced (Node a x 2 l r) t c.
Proof.
  intros Hl Hr Hh. pose proof (height_pos l) as Hl0.
  destruct r as [|ar xr br rl rr]; cbn in Hh; [lia|]. destruct Hr as (-> & Hb & Hrl & Hrr).
  unfold balance, rebalanced. cbn -[rotate_once rotate_twice].
  unfold LEFT_HEAVY. case_zbool.
  - destruct rl as [|am xm bm ml mr]; cbn in *; [pose proof (height_pos rr); lia|].
    destruct Hrl as (-> & Hm & Hml & Hmr). rotation_goal.
  - unfold rotate_once. cbn. unfold truth.
    destruct (Z.eqb_spec (height rr - height rl) 0) as [E|]; cbn; rotation_goal.
Qed.

Lemma balance_spec a x b l r :
  balanced l -> balanced r -> b = height r - height l -> -2 <= b <= 2 ->
  exists t c, balance (Node a x b l r) = Ok (t, c) /\ rebalanced (Node a x b l r) t c.
Proof.
  intros Hl Hr -> Hb.
  destruct (decide (height r - height l = -2)) as [E|]; [rewrite E; apply balance_left; try done; lia|].
  destruct (decide (height r - height l = 2)) as [E|]; [rewrite E; apply balance_right; try done; lia|].
  exists (Node a x (height r - height l) l r), 0. unfold balance, rebalanced.
  cbn -[Z.ltb]. unfold LEFT_HEAVY, RIGHT_HEAVY.
  repeat (case_zbool; [lia|]). repeat split; try done; lia.
Qed.

(** The end of an insertion below a node: the height grows by the code returned. *)
Lemma insert_rebalance_spec a x b l r l' r' inc :
  balanced (Node a x b l r) -> balanced l' -> balanced r' ->
  (height l' = height l /\ height r' = height r + inc /\ 0 <= inc <= 1 \/
   height r' = height r /\ height l' = height l - inc /\ -1 <= inc <= 0) ->
  exists t c, insert_rebalance (Node a x b l' r') inc = Ok (t, c) /\
    balanced t /\ nodes t = nodes (Node a x b l' r') /\
    height t = height (Node a x b l r) + c /\ (c = 0 \/ c = 1).
Proof.
  intros (-> & Hb & Hl & Hr) Hl' Hr' Hh. unfold insert_rebalance. cbn -[balance nodes height].
  destruct (balance_spec a x (height r - height l + inc) l' r') as (t & c & E & Ht & Hn & Hht & Hc);
    [done|done|lia|lia|].
  unfold truth. do 2 case_zbool; cbn -[balance nodes height] in *;
    try (eexists _, _; split; [reflexivity|]; cbn; unfold HEIGHT_UNCHANGED;
         repeat split; try done; lia).
  rewrite E. cbn -[nodes height]. exists t, (1 - c). split; [done|].
  split; [done|]. rewrite Hn. split; [done|]. rewrite Hht. cbn. lia.
Qed.

(** The end of a deletion below a node: the height shrinks by the code returned. *)
Lemma delete_rebalance_spec a x a' x' b l r l' r' dec :
  balanced (Node a x b l r) -> balanced l' -> balanced r' ->
  (height l' = height l /\ height r' = height r - dec /\ 0 <= dec <= 1 \/
   height r' = height r /\ height l' = height l + dec /\ -1 <= dec <= 0) ->
  exists t c, delete_rebalance (Node a' x' b l' r') dec = Ok (t, c) /\
    balanced t /\ nodes t = nodes (Node a' x' b l' r') /\
    height t = height (Node a x b l r) - c /\ (c = 0 \/ c = 1).
Proof.
  intros (-> & Hb & Hl & Hr) Hl' Hr' Hh. unfold delete_rebalance. cbn -[balance nodes height].
  destruct (balance_spec a' x' (height r - height l - dec) l' r') as (t & c & E & Ht & Hn & Hht & Hc);
    [done|done|lia|lia|].
  unfold truth. do 2 case_zbool; cbn -[balance nodes height] in *;
    try (eexists _, _; split; [reflexivity|]; cbn; unfold HEIGHT_UNCHANGED, HEIGHT_CHANGED;
         repeat split; try done; lia).
  rewrite E. exists t, c. split; [done|].
  split; [done|]. rewrite Hn. split; [done|]. rewrite Hht. cbn. lia.
Qed.

(** The search a comparison steers: the nodes passed on the left, the node it stops at
    with its type, the nodes passed on the right. *)
Inductive search (cmp : D -> NODE -> Z) :
    tree D -> list (Z * D) -> option (Z * D * NODE) -> list (Z * D) -> Prop :=
| SearchNull : search cmp NULL_TREE [] None []
| SearchHere a x b l r :
    cmp x (node_type (Node a x b l r)) = 0 ->
    search cmp (Node a x b l r) (nodes l) (Some (a, x, node_type (Node a x b l r))) (nodes r)
| SearchLeft a x b l r n1 m n2 :
    cmp x (node_type (Node a x b l r)) < 0 -> search cmp l n1 m n2 ->
    search cmp (Node a x b l r) n1 m (n2 ++ (a, x) :: nodes r)
| SearchRight a x b l r n1 m n2 :
    0 < cmp x (node_type (Node a x b l r)) -> search cmp r n1 m n2 ->
    search cmp (Node a x b l r) (nodes l ++ (a, x) :: n1) m n2.

Definition found (m : option (Z * D * NODE)) : list (Z * D) :=
  match m with Some (n, _) => [n] | None => [] end.

Definition found_addr (m : option (Z * D * NODE)) : Z :=
  match m with Some (a, _, _) => a | None => NULL end.

Lemma search_total cmp t : exists n1 m n2, search cmp t n1 m n2.
Proof.
  induction t as [|a x b l (n1 & m & n2 & Hl) r (n1' & m' & n2' & Hr)];
    [eauto using SearchNull|].
  destruct (Z.lt_total (cmp x (node_type (Node a x b l r))) 0) as [?|[?|?]];
    eauto using SearchHere, SearchLeft, SearchRight.
Qed.

Lemma search_nodes cmp t n1 m n2 :
  search cmp t n1 m n2 -> nodes t = n1 ++ found m ++ n2.
Proof.
  induction 1 as [| |???????? _ _ IH|???????? _ _ IH]; cbn; [done|done|..].
  - rewrite IH. by rewrite <- !app_assoc.
  - rewrite IH. by rewrite <- !app_assoc.
Qed.

(** On nodes in an order the comparison respects, what is passed on the left is below
    the key, what is passed on the right above it. *)
Definition respects (c : D -> Z) (ns : list (Z * D)) : Prop :=
  StronglySorted (fun n n' => c n.2 <= 0 -> c n'.2 < 0) ns.

Lemma respects_app c n1 n2 : respects c (n1 ++ n2) ->
  respects c n1 /\ respects c n2 /\
  forall n n', n ∈ n1 -> n' ∈ n2 -> c n.2 <= 0 -> c n'.2 < 0.
Proof.
  unfold respects. induction n1 as [|n n1 IH]; cbn.
  - intros H. split; [constructor|]. split; [done|]. by intros ? ? ?%elem_of_nil.
  - intros [H HF]%StronglySorted_inv. destruct (IH H) as (H1 & H2 & H3).
    apply Forall_app in HF as [HF1 HF2].
    split; [by constructor|]. split; [done|].
    intros m m' [->|Hm]%elem_of_cons Hm'; [|eauto].
    rewrite Forall_forall in HF2. auto.
Qed.

Lemma search_signs (c : D -> Z) t n1 m n2 :
  respects c (nodes t) -> search (fun y _ => c y) t n1 m n2 ->
  Forall (fun n => 0 < c n.2) n1 /\ Forall (fun n => c n.2 = 0) (found m) /\
  Forall (fun n => c n.2 < 0) n2.
Proof.
  intros Hr Hs. induction Hs as [|a x b l r H|a x b l r n1 m n2 H Hs IH|a x b l r n1 m n2 H Hs IH];
    cbn in Hr; [done|apply respects_app in Hr as (Hl & Hxr & Hlr)..].
  - assert (Forall (fun n => c n.2 < 0) (nodes r)) as Hgt.
    { apply StronglySorted_inv in Hxr as [_ HF]. rewrite Forall_forall in HF |- *.
      intros n Hn. apply (HF n Hn). cbn. lia. }
    split; [|split; [by repeat constructor|done]].
    apply Forall_forall. intros n Hn. destruct (Z.lt_ge_cases 0 (c n.2)) as [|Hle]; [done|].
    specialize (Hlr n (a, x) Hn (list_elem_of_here _ _) Hle). cbn in Hlr. lia.
  - destruct (IH Hl) as (H1 & H2 & H3). split; [done|]. split; [done|].
    apply Forall_app. split; [done|]. constructor; [done|].
    apply StronglySorted_inv in Hxr as [_ HF]. rewrite Forall_forall in HF |- *.
    intros n Hn. apply (HF n Hn). cbn. lia.
  - apply StronglySorted_inv in Hxr as [Hxr HF]. destruct (IH Hxr) as (H1 & H2 & H3).
    split; [|done]. apply Forall_app. split; [|by constructor].
    apply Forall_forall. intros n Hn. destruct (Z.lt_ge_cases 0 (c n.2)) as [|Hle]; [done|].
    specialize (Hlr n (a, x) Hn (list_elem_of_here _ _) Hle). cbn in Hlr. lia.
Qed.

(** The ends of the tree. *)
Lemma search_min t : t <> NULL_TREE ->
  exists n ty ns, search avl_min t [] (Some (n, ty)) ns /\ ty <> IS_TREE /\
    nodes t = n :: ns /\ avl_smallest t = Ok n.
Proof.
  induction t as [|a x b l IHl r _]; [done|intros _].
  destruct l as [|a' x' b' l' r'].
  - exists (a, x), (node_type (Node a x b NULL_TREE r)), (nodes r).
    split; [change [] with (nodes (@NULL_TREE D)); constructor; by destruct r|].
    by destruct r.
  - destruct IHl as (n & ty & ns & Hs & Hty & Hn & Hsm); [done|].
    exists n, ty, (ns ++ (a, x) :: nodes r). split.
    { apply SearchLeft; [by destruct r|done]. }
    split; [done|]. cbn [nodes] in Hn |- *. rewrite Hn. split; [done|].
    rewrite <- Hsm. by destruct r.
Qed.

Lemma search_max t : t <> NULL_TREE ->
  exists n ty ns, search avl_max t ns (Some (n, ty)) [] /\ ty <> IS_TREE /\
    nodes t = ns ++ [n].
Proof.
  induction t as [|a x b l _ r IHr]; [done|intros _].
  destruct r as [|a' x' b' l' r'].
  - exists (a, x), (node_type (Node a x b l NULL_TREE)), (nodes l).
    split; [change [] with (nodes (@NULL_TREE D)); constructor; by destruct l|].
    by destruct l.
  - destruct IHr as (n & ty & ns & Hs & Hty & Hn); [done|].
    exists n, ty, (nodes l ++ (a, x) :: ns). split.
    { apply SearchRight; [by destruct l|done]. }
    split; [done|]. cbn [nodes] in Hn |- *. rewrite Hn. by rewrite <- app_assoc.
Qed.

Lemma avl_find_from_search (cmp : D -> NODE -> Z) nd t n1 m n2 :
  search (fun y _ => cmp y nd) t n1 m n2 -> avl_find_from cmp nd t = found_addr m.
Proof.
  induction 1 as [|a x b l r H|a x b l r n1 m n2 H Hs IH|a x b l r n1 m n2 H Hs IH];
    cbn; [done|..]; unfold truth.
  - by rewrite H.
  - case_zbool; [lia|]. cbn. by rewrite (proj2 (Z.ltb_lt _ _) H).
  - case_zbool; [lia|]. cbn. rewrite (proj2 (Z.ltb_ge _ _)); [done|lia].
Qed.

(** ** Insertion and deletion on the list of nodes *)

(** What an insertion does to a tree, [c] being its return code. *)
Definition grown (t t' : tree D) (c : Z) (ns : list (Z * D)) : Prop :=
  balanced t' /\ nodes t' = ns /\ height t' = height t + c /\ (c = 0 \/ c = 1).

(** What a deletion does to a tree. *)
Definition shrunk (t t' : tree D) (c : Z) (ns : list (Z * D)) : Prop :=
  balanced t' /\ nodes t' = ns /\ height t' = height t - c /\ (c = 0 \/ c = 1).

Lemma insert_found compar x h t n1 m n2 :
  search (fun y _ => compar x y) t n1 m n2 -> found_addr m <> NULL ->
  exists c, avl_insert compar x h t = Ok (t, h, found_addr m, c).
Proof.
  intros Hs Ha. induction Hs as [|a y b l r H|a y b l r n1 m n2 H Hs IH|a y b l r n1 m n2 H Hs IH];
    [done|cbn in *..].
  - rewrite H. cbn. eauto.
  - destruct (IH Ha) as [c ->]. rewrite (proj2 (Z.ltb_lt _ _) H). cbn.
    rewrite (proj2 (Z.eqb_neq _ _) Ha). cbn. eauto.
  - destruct (IH Ha) as [c ->]. rewrite (proj2 (Z.ltb_ge _ _)) by lia.
    rewrite (proj2 (Z.ltb_lt _ _) H). cbn.
    rewrite (proj2 (Z.eqb_neq _ _) Ha). cbn. eauto.
Qed.

Lemma insert_not_found compar x h t n1 n2 a h' :
  balanced t -> search (fun y _ => compar x y) t n1 None n2 ->
  new_node x h = Ok (Node a x BALANCED NULL_TREE NULL_TREE, h') ->
  exists t' c, avl_insert compar x h t = Ok (t', h', NULL, c) /\
    grown t t' c (n1 ++ (a, x) :: n2).
Proof.
  intros Hb Hs Hn. remember None as m eqn:Hm.
  induction Hs as [|a' y b l r H|a' y b l r n1 m n2 H Hs IH|a' y b l r n1 m n2 H Hs IH];
    [|done|pose proof Hb as (Eb & Hb1 & Hl & Hr)..]; cbn [avl_insert].
  - rewrite Hn. cbn. eexists _, _. split; [done|].
    unfold grown. cbn. unfold BALANCED, HEIGHT_CHANGED. repeat split; try done; lia.
  - destruct (IH Hl Hm) as (l' & c & E & Hl' & Hnl & Hh & Hc).
    rewrite (proj2 (Z.ltb_lt _ _) H), E. cbn [mbind result_bind negb].
    destruct (insert_rebalance_spec a' y b l r l' r (- c)) as (t' & c' & E' & Hb' & Hn' & Hh' & Hc');
      [done..|lia|].
    rewrite E'. exists t', c'. split; [done|]. unfold grown. split; [done|].
    rewrite Hn'. cbn. rewrite Hnl, <- app_assoc. done.
  - destruct (IH Hr Hm) as (r' & c & E & Hr' & Hnr & Hh & Hc).
    rewrite (proj2 (Z.ltb_ge _ _)), (proj2 (Z.ltb_lt _ _) H), E by lia.
    cbn [mbind result_bind negb].
    destruct (insert_rebalance_spec a' y b l r l r' c) as (t' & c' & E' & Hb' & Hn' & Hh' & Hc');
      [done..|lia|].
    rewrite E'. exists t', c'. split; [done|]. unfold grown. split; [done|].
    rewrite Hn'. cbn. by rewrite Hnr, <- app_assoc.
Qed.

Lemma insert_no_memory compar x h t n1 n2 e :
  search (fun y _ => compar x y) t n1 None n2 -> new_node x h = Err e ->
  avl_insert compar x h t = Err e.
Proof.
  intros Hs Hn. remember None as m eqn:Hm.
  induction Hs as [|a' y b l r H|a' y b l r n1 m n2 H Hs IH|a' y b l r n1 m n2 H Hs IH];
    [|done|..]; cbn [avl_insert].
  - by rewrite Hn.
  - by rewrite (proj2 (Z.ltb_lt _ _) H), (IH Hm).
  - by rewrite (proj2 (Z.ltb_ge _ _)), (proj2 (Z.ltb_lt _ _) H), (IH Hm) by lia.
Qed.

(** The nodes left by the deletion of [n], and the buffer freed: a node with two
    children keeps its buffer and takes the item of the next node, whose buffer goes. *)
Definition deleted (ty : NODE) (n1 : list (Z * D)) (n : Z * D) (n2 ns : list (Z * D))
    (f : Z) : Prop :=
  match ty with
  | IS_TREE => exists n' n2', n2 = n' :: n2' /\ ns = n1 ++ (n.1, n'.2) :: n2' /\ f = n'.1
  | _ => ns = n1 ++ n2 /\ f = n.1
  end.

Lemma deleted_left ty n1 n n2 ns f rest :
  deleted ty n1 n n2 ns f -> deleted ty n1 n (n2 ++ rest) (ns ++ rest) f.
Proof.
  destruct ty; cbn; try (intros [-> ->]; by rewrite app_assoc).
  intros (n' & n2' & -> & -> & ->). exists n', (n2' ++ rest). by rewrite <- app_assoc.
Qed.

Lemma deleted_right ty n1 n n2 ns f rest :
  deleted ty n1 n n2 ns f -> deleted ty (rest ++ n1) n n2 (rest ++ ns) f.
Proof.
  destruct ty; cbn; try (intros [-> ->]; by rewrite app_assoc).
  intros (n' & n2' & -> & -> & ->). exists n', n2'. by rewrite <- app_assoc.
Qed.

Lemma delete_found_here `{HI : Item D} `{!PointerItem D} cmp h a x b l r :
  (forall h ns0 n ty ns, balanced r -> search avl_min r ns0 (Some (n, ty)) ns -> n.1 <> NULL ->
    exists t' c ns' f, avl_delete avl_min h r = Ok (t', free_node f h, n.1, c) /\
      shrunk r t' c ns' /\ deleted ty ns0 n ns ns' f) ->
  balanced (Node a x b l r) -> Forall (fun n => n.1 <> NULL) (nodes (Node a x b l r)) ->
  cmp x (node_type (Node a x b l r)) = 0 ->
  exists t' c ns f,
    avl_delete cmp h (Node a x b l r) = Ok (t', free_node f h, a, c) /\
    shrunk (Node a x b l r) t' c ns /\
    deleted (node_type (Node a x b l r)) (nodes l) (a, x) (nodes r) ns f.
Proof.
  intros IHr Hb Hnn H. pose proof Hb as (Eb & Hb1 & Hl & Hr). cbn [avl_delete].
  rewrite H. cbn [Z.ltb Z.compare].
  destruct l as [|al xl bl ll lr], r as [|ar xr br rl rr]; cbn [node_type is_null negb andb].
  - eexists _, _, _, a. split; [done|]. unfold shrunk, deleted, HEIGHT_CHANGED. cbn.
    repeat split; try done; lia.
  - eexists _, _, _, a. split; [done|]. unfold shrunk, deleted, HEIGHT_CHANGED. cbn in *.
    repeat split; try done; try tauto; try lia. pose proof (height_pos rl). lia.
  - eexists _, _, _, a. split; [done|]. unfold shrunk, deleted, HEIGHT_CHANGED. cbn in *.
    rewrite app_nil_r. repeat split; try done; try tauto; try lia.
    pose proof (height_pos ll). lia.
  - set (l := Node al xl bl ll lr) in *. set (r := Node ar xr br rl rr) in *.
    destruct (search_min r) as (n & ty & ns & Hs & Hty & Hn & Hsm); [done|].
    assert (n.1 <> NULL) as Ha.
    { cbn [nodes] in Hnn. rewrite Hn in Hnn. apply Forall_app in Hnn as [_ Hnn].
      by inversion Hnn as [|? ? ? Hnn2]; inversion Hnn2. }
    destruct (IHr h [] n ty ns Hr Hs Ha) as (r' & c & ns' & f & E & (Hbr & Hnr & Hhr & Hc) & Hdel).
    destruct n as [a' x'].
    rewrite Hsm. cbn [mbind result_bind]. rewrite E. cbn [mbind result_bind].
    rewrite copy_word_whole.
    destruct (delete_rebalance_spec a x a x' b l r l r' c) as (t' & c' & E' & Hb' & Hn' & Hh' & Hc');
      [done..|lia|].
    rewrite E'. cbn [mbind result_bind].
    assert (ns' = ns /\ f = a') as [-> ->] by (by destruct ty).
    exists t', c', (nodes l ++ (a, x') :: ns), a'. split; [done|].
    split; [|exists (a', x'), ns; by rewrite Hn].
    split; [done|]. rewrite Hn'. cbn [nodes]. by rewrite Hnr.
Qed.

Lemma delete_found `{HI : Item D} `{!PointerItem D} cmp h t n1 n ty n2 :
  balanced t -> Forall (fun n => n.1 <> NULL) (nodes t) ->
  search cmp t n1 (Some (n, ty)) n2 ->
  exists t' c ns f, avl_delete cmp h t = Ok (t', free_node f h, n.1, c) /\
    shrunk t t' c ns /\ deleted ty n1 n n2 ns f.
Proof.
  revert cmp h n1 n ty n2.
  induction t as [|a x b l IHl r IHr]; intros cmp h n1 n ty n2 Hb Hnn Hs; [by inversion Hs|].
  pose proof Hb as (Eb & Hb1 & Hl & Hr).
  pose proof Hnn as Hnn'. cbn [nodes] in Hnn'. apply Forall_app in Hnn' as [Hnl Hnr].
  apply Forall_cons in Hnr as [Ha Hnr].
  inversion Hs as [|? ? ? ? ? H|? ? ? ? ? ? ? n2' H Hs'|? ? ? ? ? n1' ? ? H Hs']; subst.
  - cbn [fst]. apply delete_found_here; [|done..].
    intros h' ns0 n' ty' ns' _ Hs' _. by apply IHr.
  - destruct (IHl cmp h n1 n ty n2' Hl Hnl Hs') as (l' & c & ns & f & E & (Hb' & <- & Hh & Hc) & Hd).
    assert (n.1 <> NULL) as Hn.
    { apply search_nodes in Hs'. rewrite Hs' in Hnl. apply Forall_app in Hnl as [_ Hnl].
      by inversion Hnl. }
    cbn [avl_delete]. rewrite (proj2 (Z.ltb_lt _ _) H), E. cbn [mbind result_bind].
    rewrite (proj2 (Z.eqb_neq _ _) Hn).
    destruct (delete_rebalance_spec a x a x (height r - height l) l r l' r (- c)) as (t' & c' & E' & Ht);
      [done..|lia|].
    rewrite E'. exists t', c', (nodes l' ++ (a, x) :: nodes r), f. split; [done|].
    split; [exact Ht|by apply deleted_left].
  - destruct (IHr cmp h n1' n ty n2 Hr Hnr Hs') as (r' & c & ns & f & E & (Hb' & <- & Hh & Hc) & Hd).
    assert (n.1 <> NULL) as Hn.
    { apply search_nodes in Hs'. rewrite Hs' in Hnr. apply Forall_app in Hnr as [_ Hnr].
      by inversion Hnr. }
    cbn [avl_delete]. rewrite (proj2 (Z.ltb_ge _ _)), (proj2 (Z.ltb_lt _ _) H), E by lia.
    cbn [mbind result_bind]. rewrite (proj2 (Z.eqb_neq _ _) Hn).
    destruct (delete_rebalance_spec a x a x (height r - height l) l r l r' c) as (t' & c' & E' & Ht);
      [done..|lia|].
    rewrite E'. exists t', c', (nodes l ++ (a, x) :: nodes r'), f. split; [done|].
    split; [exact Ht|].
    change (nodes l ++ (a, x) :: n1') with (nodes l ++ [(a, x)] ++ n1').
    change (nodes l ++ (a, x) :: nodes r') with (nodes l ++ [(a, x)] ++ nodes r').
    rewrite !app_assoc. by apply deleted_right.
Qed.

Lemma delete_not_found `{HI : Item D} cmp h t n1 n2 :
  search cmp t n1 None n2 -> exists c, avl_delete cmp h t = Ok (t, h, NULL, c).
Proof.
  intros Hs. remember None as m eqn:Hm.
  induction Hs as [|a y b l r H|a y b l r n1 m n2 H Hs IH|a y b l r n1 m n2 H Hs IH];
    [by eexists|done|..]; cbn [avl_delete].
  - rewrite (proj2 (Z.ltb_lt _ _) H). destruct (IH Hm) as [c ->]. cbn. eauto.
  - rewrite (proj2 (Z.ltb_ge _ _)), (proj2 (Z.ltb_lt _ _) H) by lia.
    destruct (IH Hm) as [c ->]. cbn. eauto.
Qed.

End meaning.

(** ** Comparison functions and well-formed trees *)

(** What a client's comparison owes the tree. *)
Class LawfulCompare {D} (compar : D -> D -> Z) : Prop := {
  compar_flip x y : compar x y < 0 <-> 0 < compar y x;
  compar_le_lt x y z : compar x y <= 0 -> compar y z < 0 -> compar x z < 0 }.

(** Buffers in the tree, on the free list and given back are all different and were
    handed out by the allocator. *)
Definition heap_wf (h : heap) (live : list Z) : Prop :=
  NoDup (live ++ avl_free_list h ++ freed h) /\
  Forall (fun a => 0 < a < brk h) (live ++ avl_free_list h ++ freed h) /\ 0 < brk h.

Definition ordered {D} (compar : D -> D -> Z) (ns : list (Z * D)) : Prop :=
  StronglySorted (fun n n' => compar n.2 n'.2 < 0) ns.

(** A descriptor and its heap between two operations. *)
Definition avl_wf {D} (d : AVLdescriptor D) (h : heap) : Prop :=
  balanced (root d) /\ ordered (compar d) (nodes (root d)) /\
  count d = Z.of_nat (length (nodes (root d))) /\ heap_wf h (nodes (root d)).*1.

(** The items a tree holds, in order: the abstract state of the tree. *)
Definition items {D} (d : AVLdescriptor D) : list D := (nodes (root d)).*2.

Section lawful.
Context {D : Type} (cmp : D -> D -> Z) `{!LawfulCompare cmp}.
Implicit Types (ns : list (Z * D)) (h : heap).

Lemma ordered_respects x ns : ordered cmp ns -> respects (cmp x) ns.
Proof.
  unfold ordered, respects.
  induction 1 as [|n ns _ IH HF]; constructor; [done|].
  apply Forall_forall. rewrite Forall_forall in HF. intros n' Hn' Hle.
  eapply compar_le_lt; [done|by apply HF].
Qed.

Lemma ordered_app n1 n2 : ordered cmp (n1 ++ n2) <->
  ordered cmp n1 /\ ordered cmp n2 /\
  forall n n', n ∈ n1 -> n' ∈ n2 -> cmp n.2 n'.2 < 0.
Proof.
  unfold ordered. rewrite StronglySorted_app. naive_solver.
Qed.

Lemma ordered_insert x a n1 n2 :
  ordered cmp (n1 ++ n2) -> Forall (fun n => 0 < cmp x n.2) n1 ->
  Forall (fun n => cmp x n.2 < 0) n2 -> ordered cmp (n1 ++ (a, x) :: n2).
Proof.
  rewrite !ordered_app. intros (H1 & H2 & H12) F1 F2. split; [done|].
  rewrite Forall_forall in F1, F2. split.
  - constructor; [done|]. by apply Forall_forall.
  - intros n n' Hn [->|Hn']%elem_of_cons; [|auto]. cbn. apply compar_flip. auto.
Qed.

Lemma ordered_remove n1 n n2 : ordered cmp (n1 ++ n :: n2) -> ordered cmp (n1 ++ n2).
Proof.
  rewrite !ordered_app. intros (H1 & H2 & H12). split; [done|].
  apply StronglySorted_inv in H2 as [H2 _]. split; [done|].
  intros m m' Hm Hm'. apply H12; [done|]. by apply elem_of_cons; right.
Qed.

Lemma ordered_items ns ns' : ns.*2 = ns'.*2 -> ordered cmp ns -> ordered cmp ns'.
Proof.
  unfold ordered. revert ns'. induction ns as [|n ns IH]; intros [|n' ns'] He; cbn in He;
    try done. injection He as Hn He. intros [H HF]%StronglySorted_inv. constructor; [eauto|].
  assert (Forall (fun y => cmp n.2 y < 0) ns.*2) as HF2 by (by apply Forall_fmap).
  rewrite He, Hn in HF2. by apply Forall_fmap in HF2.
Qed.
End lawful.

Section heaps.
Implicit Types (h : heap) (live : list Z).

Lemma heap_wf_perm h live live' : live ≡ₚ live' -> heap_wf h live -> heap_wf h live'.
Proof. unfold heap_wf. by intros ->. Qed.

Lemma heap_wf_live h live a : heap_wf h live -> a ∈ live -> a <> NULL.
Proof.
  intros (_ & HF & _) Ha. rewrite Forall_forall in HF.
  destruct (HF a) as [? _]; [by apply elem_of_app; left|]. unfold NULL. lia.
Qed.

Lemma free_node_wf h live a : heap_wf h (a :: live) -> heap_wf (free_node a h) live.
Proof.
  unfold heap_wf, free_node. cbn. intros (Hnd & HF & Hb).
  destruct (_ =? 1); cbn; repeat rewrite <- Permutation_middle; done.
Qed.

Lemma new_node_spec {D} (x : D) h live :
  heap_wf h live ->
  (exists a h', new_node x h = Ok (Node a x BALANCED NULL_TREE NULL_TREE, h') /\
     heap_wf h' (a :: live) /\ a <> NULL) \/
  (new_node x h = Err (Exit 1) /\ avl_free_list h = [] /\ (avail h < 2)%nat).
Proof.
  destruct h as [fl br av fr g]. unfold new_node, GET_AVL_FREE_LIST, heap_wf. cbn.
  intros (Hnd & HF & Hb). destruct fl as [|a fl]; cbn -[Z.add].
  - destruct av as [|[|av]]; cbn -[Z.add]; [right; repeat split; lia..|left].
    eexists _, _. split; [done|]. cbn -[Z.add] in *. unfold NULL. split; [|lia].
    assert (br + 1 ∉ live ++ fr) as Hfresh.
    { intros Hin. rewrite Forall_forall in HF. specialize (HF _ Hin). lia. }
    split; [by constructor|]. split; [|lia].
    constructor; [lia|]. eapply Forall_impl; [exact HF|]. cbn. intros; lia.
  - left. assert (0 < a < br) as Ha.
    { rewrite Forall_forall in HF. apply HF. set_solver. }
    rewrite (proj2 (Z.eqb_neq a NULL)) by (unfold NULL; lia).
    eexists _, _. split; [done|]. cbn. unfold NULL. split; [|lia].
    cbn in Hnd, HF. by rewrite <- Permutation_middle in Hnd, HF.
Qed.
End heaps.

Lemma deleted_facts {D} ty (n1 : list (Z * D)) n n2 ns f :
  deleted ty n1 n n2 ns f ->
  ns.*2 = n1.*2 ++ n2.*2 /\ (n1 ++ n :: n2).*1 ≡ₚ f :: ns.*1 /\
  length (n1 ++ n :: n2) = S (length ns).
Proof.
  assert (forall (m : Z * D) n1 n2, (n1 ++ m :: n2).*1 ≡ₚ m.1 :: (n1 ++ n2).*1) as HP.
  { intros. rewrite !fmap_app. cbn. by rewrite <- Permutation_middle. }
  destruct ty; cbn [deleted]; try (intros [-> ->]; rewrite fmap_app, HP, !length_app; cbn;
    repeat split; try done; lia).
  intros (n' & n2' & -> & -> & ->). split; [by rewrite fmap_app|]. split.
  - rewrite HP. rewrite fmap_app, fmap_cons, fmap_app, fmap_cons. cbn.
    rewrite <- !Permutation_middle. apply perm_swap.
  - rewrite !length_app. cbn. lia.
Qed.

Lemma live_nonnull {D} (d : AVLdescriptor D) h :
  avl_wf d h -> Forall (fun n => n.1 <> NULL) (nodes (root d)).
Proof.
  intros (_ & _ & _ & Hh). apply Forall_forall. intros n Hn.
  eapply heap_wf_live; [exact Hh|]. by apply list_elem_of_fmap_2.
Qed.

(** Any deletion of a node of a well-formed tree. *)
Lemma delete_wf {D} `{HI : Item D} `{!PointerItem D} (d : AVLdescriptor D) h cmp n1 n ty n2 `{!LawfulCompare (compar d)} :
  avl_wf d h -> search cmp (root d) n1 (Some (n, ty)) n2 ->
  n.1 <> NULL /\
  exists t' c ns f, avl_delete cmp h (root d) = Ok (t', free_node f h, n.1, c) /\
    avl_wf (AVL t' (compar d) (count d - 1)) (free_node f h) /\
    deleted ty n1 n n2 ns f /\ nodes t' = ns.
Proof.
  intros Hwf Hs. pose proof (live_nonnull _ _ Hwf) as Hnn.
  destruct Hwf as (Hb & Ho & Hc & Hh). pose proof (search_nodes _ _ _ _ _ Hs) as Hn.
  cbn in Hn. split.
  { rewrite Hn in Hnn. apply Forall_app in Hnn as [_ Hnn]. by inversion Hnn. }
  destruct (delete_found cmp h _ _ _ _ _ Hb Hnn Hs) as
    (t' & c & ns & f & E & (Hb' & <- & _) & Hd).
  exists t', c, (nodes t'), f. split; [done|]. split; [|done].
  destruct (deleted_facts _ _ _ _ _ _ Hd) as (H2 & H1 & Hlen). rewrite Hn in *.
  split; [done|]. cbn [root compar count]. split; [|split; [lia|]].
  - eapply ordered_items; [symmetry; rewrite H2, <- fmap_app; done|].
    by eapply ordered_remove.
  - apply free_node_wf. by eapply heap_wf_perm.
Qed.

Lemma search_hit {D} (c : D -> Z) (t : tree D) n1 m n2 a y :
  respects c (nodes t) -> search (fun y _ => c y) t n1 m n2 ->
  (a, y) ∈ nodes t -> c y = 0 -> exists ty, m = Some (a, y, ty).
Proof.
  intros Hr Hs Hin Hy. destruct (search_signs _ _ _ _ _ Hr Hs) as (S1 & _ & S2).
  rewrite (search_nodes _ _ _ _ _ Hs) in Hin. rewrite !elem_of_app in Hin.
  rewrite Forall_forall in S1, S2. destruct Hin as [Hin|[Hin|Hin]];
    [specialize (S1 _ Hin); cbn in S1; lia| |specialize (S2 _ Hin); cbn in S2; lia].
  destruct m as [[n ty]|]; cbn in Hin; [|by apply elem_of_nil in Hin].
  apply list_elem_of_singleton in Hin as <-. by exists ty.
Qed.

Lemma search_miss {D} (c : D -> Z) (t : tree D) n1 m n2 :
  respects c (nodes t) -> search (fun y _ => c y) t n1 m n2 ->
  Forall (fun y => c y <> 0) (nodes t).*2 -> m = None.
Proof.
  intros Hr Hs Hne. destruct (search_signs _ _ _ _ _ Hr Hs) as (_ & S0 & _).
  destruct m as [[n ty]|]; [|done]. exfalso. inversion S0 as [|? ? H0]; subst.
  rewrite Forall_forall in Hne. apply (Hne n.2); [|done]. apply list_elem_of_fmap_2.
  rewrite (search_nodes _ _ _ _ _ Hs). set_solver.
Qed.

(** ** Properties *)

(** C7: Insertion refines insertion into a sorted list: a key the tree holds leaves
    everything as it was and returns its buffer; another is added in its place, the
    tree stays balanced and ordered with one more node, every buffer stays its own;
    only the allocator can stop it. *)
Theorem avlins_refines {D} (x : D) (d : AVLdescriptor D) (h : heap)
    `{!LawfulCompare (compar d)} :
  avl_wf d h ->
  (forall a y, (a, y) ∈ nodes (root d) -> compar d x y = 0 -> avlins x d h = Ok (a, d, h)) /\
  (Forall (fun y => compar d x y <> 0) (items d) ->
   (exists d' h' l1 l2, avlins x d h = Ok (NULL, d', h') /\ avl_wf d' h' /\
      compar d' = compar d /\ items d = l1 ++ l2 /\ items d' = l1 ++ x :: l2) \/
   (avlins x d h = Err (Exit 1) /\ avl_free_list h = [] /\ (avail h < 2)%nat)).
Proof.
  intros Hwf. pose proof (live_nonnull _ _ Hwf) as Hnn. destruct Hwf as (Hb & Ho & Hc & Hh).
  destruct (search_total (fun y _ => compar d x y) (root d)) as (n1 & m & n2 & Hs).
  pose proof (search_nodes _ _ _ _ _ Hs) as Hn.
  destruct (search_signs _ _ _ _ _ (ordered_respects _ x _ Ho) Hs) as (S1 & S0 & S2).
  unfold avlins, items. split.
  - intros a y Hin Hy. destruct (search_hit _ _ _ _ _ _ _ (ordered_respects _ x _ Ho) Hs Hin Hy) as [ty ->].
    assert (a <> NULL) as Ha.
    { rewrite Hn in Hnn. apply Forall_app in Hnn as [_ Hnn]. by inversion Hnn. }
    destruct (insert_found _ _ h _ _ _ _ Hs Ha) as [c E]. rewrite E. cbn.
    rewrite (proj2 (Z.eqb_neq _ _) Ha). by destruct d.
  - intros Hne. pose proof (search_miss _ _ _ _ _ (ordered_respects _ x _ Ho) Hs Hne) as ->.
    destruct (new_node_spec x h _ Hh) as [(a & h' & E & Hh' & Ha)|(E & Hfl & Hav)]; [left|right].
    + destruct (insert_not_found _ x h _ _ _ _ _ Hb Hs E) as (t' & c & E' & Hb' & Hn' & _).
      rewrite E'. cbn. eexists _, _, n1.*2, n2.*2. split; [done|]. cbn.
      rewrite Hn', Hn, !fmap_app. split; [|done]. cbn in Hn.
      split; [done|]. cbn [root compar count]. rewrite Hn'. rewrite Hn in Ho, Hc, Hh'.
      split; [by apply ordered_insert|].
      split; [rewrite Hc, !length_app; cbn; lia|].
      eapply heap_wf_perm; [|exact Hh']. rewrite !fmap_app. cbn. apply Permutation_middle.
    + by rewrite (insert_no_memory _ x h _ _ _ _ Hs E).
Qed.

(** C15: Deletion refines removal from a sorted list: a key the tree does not hold changes
    nothing and gives NULL; otherwise exactly the item with that key goes, the buffer it
    was in is returned, and the tree stays well formed with one node fewer. *)
Theorem avldel_refines {D} `{Item D} (x : D) (d : AVLdescriptor D) (h : heap)
    `{!PointerItem D, !LawfulCompare (compar d)} :
  avl_wf d h ->
  (Forall (fun y => compar d x y <> 0) (items d) -> avldel x d h = Ok (NULL, d, h)) /\
  (forall a y, (a, y) ∈ nodes (root d) -> compar d x y = 0 ->
   exists d' h' l1 l2, avldel x d h = Ok (a, d', h') /\ avl_wf d' h' /\
     compar d' = compar d /\ items d = l1 ++ y :: l2 /\ items d' = l1 ++ l2).
Proof.
  intros Hwf. pose proof Hwf as (_ & Ho & _ & _).
  destruct (search_total (fun y _ => compar d x y) (root d)) as (n1 & m & n2 & Hs).
  pose proof (search_nodes _ _ _ _ _ Hs) as Hn.
  destruct (search_signs _ _ _ _ _ (ordered_respects _ x _ Ho) Hs) as (S1 & S0 & S2).
  unfold avldel, items. split.
  - intros Hne. pose proof (search_miss _ _ _ _ _ (ordered_respects _ x _ Ho) Hs Hne) as ->.
    destruct (delete_not_found _ h _ _ _ Hs) as [c E]. rewrite E. by destruct d.
  - intros a y Hin Hy. destruct (search_hit _ _ _ _ _ _ _ (ordered_respects _ x _ Ho) Hs Hin Hy) as [ty ->].
    destruct (delete_wf d h _ _ _ _ _ Hwf Hs) as (Ha & t' & c & ns & f & E & Hwf' & Hd & Hn').
    rewrite E. cbn in Ha |- *. rewrite (proj2 (Z.eqb_neq _ _) Ha). cbn.
    eexists _, _, n1.*2, n2.*2. split; [done|]. split; [done|]. split; [done|].
    cbn. rewrite Hn', Hn. destruct (deleted_facts _ _ _ _ _ _ Hd) as (-> & _).
    by rewrite fmap_app.
Qed.

(** Where the deleted node has two children the buffer returned is not the deleted
    item's any more: it is back in the tree, holding the next item. *)
Theorem avldel_returns_successor {D} `{Item D} (x : D) (d : AVLdescriptor D) (h : heap)
    n1 a y n2 `{!PointerItem D, !LawfulCompare (compar d)} :
  avl_wf d h -> search (fun z _ => compar d x z) (root d) n1 (Some (a, y, IS_TREE)) n2 ->
  exists d' h' z, avldel x d h = Ok (a, d', h') /\ z ∈ n2.*2 /\ (a, z) ∈ nodes (root d').
Proof.
  intros Hwf Hs.
  destruct (delete_wf d h _ _ _ _ _ Hwf Hs) as (Ha & t' & c & ns & f & E & _ & Hd & Hn).
  unfold avldel. rewrite E. cbn [mbind result_bind].
  destruct Hd as (n' & n2' & -> & -> & ->). eexists _, _, n'.2. split; [done|].
  cbn [root]. rewrite Hn. split; [apply list_elem_of_fmap_2|]; set_solver.
Qed.

(** A search with any key and comparison that respects the order finds the one item
    the comparison calls equal, or NULL when there is none. *)
Theorem avlfindex_finds {D K} (cmp : K -> D -> Z) (k : K) (d : AVLdescriptor D) :
  respects (cmp k) (nodes (root d)) ->
  (forall a y, (a, y) ∈ nodes (root d) -> cmp k y = 0 -> avlfindex cmp k d = a) /\
  (Forall (fun y => cmp k y <> 0) (items d) -> avlfindex cmp k d = NULL).
Proof.
  intros Hr. destruct (search_total (fun y _ => cmp k y) (root d)) as (n1 & m & n2 & Hs).
  unfold avlfindex, avl_find.
  rewrite (avl_find_from_search (fun y _ => cmp k y) _ _ _ _ _ Hs). split.
  - intros a y Hin Hy. by destruct (search_hit _ _ _ _ _ _ _ Hr Hs Hin Hy) as [ty ->].
  - intros Hne. by rewrite (search_miss _ _ _ _ _ Hr Hs Hne).
Qed.

(** [avldelmin] removes the first node and [avldelmax] the last; of an empty tree they
    return NULL although their key is not initialised. *)
Theorem avldel_ends {D} `{Item D} (d : AVLdescriptor D) (h : heap)
    `{!PointerItem D, !LawfulCompare (compar d)} :
  avl_wf d h ->
  (nodes (root d) = [] ->
     avldelmin d h = Ok (NULL, d, h) /\ avldelmax d h = Ok (NULL, d, h)) /\
  (forall n ns, nodes (root d) = n :: ns ->
     exists d', avldelmin d h = Ok (n.1, d', free_node n.1 h) /\
       avl_wf d' (free_node n.1 h) /\ nodes (root d') = ns) /\
  (forall n ns, nodes (root d) = ns ++ [n] ->
     exists d', avldelmax d h = Ok (n.1, d', free_node n.1 h) /\
       avl_wf d' (free_node n.1 h) /\ nodes (root d') = ns).
Proof.
  intros Hwf. unfold avldelmin, avldelmax. split; [|split].
  - intros Hn%is_null_nodes. destruct d as [[|] ? ?]; done.
  - intros n ns Hn. destruct (search_min (root d)) as (n' & ty & ns' & Hs & Hty & Hn' & _).
    { by destruct (root d). }
    rewrite Hn' in Hn. injection Hn as -> ->.
    destruct (delete_wf d h _ _ _ _ _ Hwf Hs) as (Ha & t' & c & ns' & f & E & Hwf' & Hd & Hnt).
    assert (ns' = ns /\ f = n.1) as [-> ->] by (by destruct ty).
    rewrite E. cbn. rewrite (proj2 (Z.eqb_neq _ _) Ha). by eexists.
  - intros n ns Hn. destruct (search_max (root d)) as (n' & ty & ns' & Hs & Hty & Hn').
    { destruct (root d); [by destruct ns|done]. }
    rewrite Hn' in Hn. apply app_inj_tail in Hn as [-> ->].
    destruct (delete_wf d h _ _ _ _ _ Hwf Hs) as (Ha & t' & c & ns' & f & E & Hwf' & Hd & Hnt).
    assert (ns' = ns /\ f = n.1) as [-> ->].
    { rewrite app_nil_r in Hd || idtac. destruct ty; cbn in Hd; rewrite ?app_nil_r in Hd; done. }
    rewrite E. cbn. rewrite (proj2 (Z.eqb_neq _ _) Ha). by eexists.
Qed.

Lemma find_min_stale {D} (t : tree D) nd : nd <> IS_RBRANCH -> nd <> IS_LEAF ->
  avl_find_from avl_min nd t = NULL.
Proof. intros H1 H2. induction t as [|a x b l IHl r _]; [done|]. by destruct nd. Qed.

Lemma find_max_stale {D} (t : tree D) nd : nd <> IS_LBRANCH -> nd <> IS_LEAF ->
  avl_find_from avl_max nd t = NULL.
Proof. intros H1 H2. induction t as [|a x b l _ r IHr]; [done|]. by destruct nd. Qed.

(** [avl_find] computes the type of the root only, so [avlfindmin] finds the minimum
    only where it is the root; in every other tree it returns NULL.  [avlfindmax] does
    the same on the other side. *)
Theorem avlfindmin_stale {D} (d : AVLdescriptor D) :
  (forall a x b l r, root d = Node a x b l r ->
     avlfindmin d = (if is_null l then a else NULL) /\
     avlfindmax d = (if is_null r then a else NULL)).
Proof.
  intros a x b l r Hd. unfold avlfindmin, avlfindmax, avl_find. rewrite Hd.
  destruct l as [|], r as [|]; cbn [is_null]; split; try done;
    solve [apply find_min_stale; done|apply find_max_stale; done].
Qed.

(** A tree of [n] items has height at most [2 log2 (n + 1)]: the loop of [avl_find] and
    the recursions are logarithmic. *)
Theorem avl_height_bound {D} (d : AVLdescriptor D) (h : heap) :
  avl_wf d h -> 2 ^ height (root d) <= (avlcount d + 1) ^ 2.
Proof.
  intros (Hb & _ & Hc & _). unfold avlcount. rewrite Hc. clear Hc.
  induction (root d) as [|a x b l IHl r IHr]; [cbn; lia|].
  destruct Hb as (-> & Hb & Hl & Hr). specialize (IHl Hl). specialize (IHr Hr).
  cbn [height nodes]. rewrite length_app. cbn [length].
  set (nl := Z.of_nat (length (nodes l))) in *. set (nr := Z.of_nat (length (nodes r))) in *.
  replace (Z.of_nat (length (nodes l) + S (length (nodes r))) + 1) with ((nl + 1) + (nr + 1)) by lia.
  assert (0 <= nl /\ 0 <= nr) as [Hnl Hnr] by lia.
  pose proof (height_pos l). pose proof (height_pos r).
  set (k := Z.max (height l) (height r) - 1).
  assert (k <= height l /\ k <= height r) as [Hkl Hkr] by lia.
  replace (1 + Z.max (height l) (height r)) with (2 + k) by lia.
  destruct (Z.le_gt_cases 0 k) as [Hk|Hk].
  - rewrite Z.pow_add_r by lia.
    pose proof (Z.pow_le_mono_r 2 _ _ ltac:(lia) Hkl). pose proof (Z.pow_le_mono_r 2 _ _ ltac:(lia) Hkr).
    assert (2 ^ k <= (nl + 1) * (nr + 1)) by nia. nia.
  - assert (2 + k = 1) as -> by lia. nia.
Qed.

(** The action of a walk that only looks at in-order visits. *)
Definition inorder {D S} (f : S -> Z * D -> S) :
    Z -> D -> VISIT -> NODE -> Z -> Z -> S -> S :=
  fun a x order _ _ _ s => match order with INORDER => f s (a, x) | _ => s end.

Lemma avl_walk_inorder {D S} (f : S -> Z * D -> S) (t : tree D) level s :
  avl_walk t (Some (inorder f)) LEFT_TO_RIGHT level s = fold_left f (nodes t) s /\
  avl_walk t (Some (inorder f)) RIGHT_TO_LEFT level s = fold_left f (rev (nodes t)) s.
Proof.
  revert level s. induction t as [|a x b l IHl r IHr]; intros level s; [done|].
  assert (forall (t : tree D) (w : S -> S) k, (forall s, w s = fold_left f k s) ->
    (is_null t = true -> k = []) -> forall s, (if is_null t then s else w s) = fold_left f k s)
    as Hif.
  { intros t w k Hw Hnil s'. destruct (is_null t); [by rewrite Hnil|done]. }
  assert (forall l : tree D, is_null l = true -> rev (nodes l) = []) as Hrev.
  { intros l0 H%is_null_nodes. by rewrite H. }
  cbn [avl_walk nodes inorder]. rewrite rev_app_distr. cbn [rev].
  rewrite <- app_assoc, !fold_left_app. cbn [fold_left app]. split.
  - erewrite Hif; [|intros; apply IHr|apply is_null_nodes].
    by erewrite Hif; [|intros; apply IHl|apply is_null_nodes].
  - erewrite Hif; [|intros; apply IHl|apply Hrev].
    by erewrite Hif; [|intros; apply IHr|apply Hrev].
Qed.

(** [avlwalk] visits the items in order, or in reverse, each once. *)
Theorem avlwalk_in_order {D S} (f : S -> Z * D -> S) (d : AVLdescriptor D) (s : S) :
  avlwalk d (Some (inorder f)) LEFT_TO_RIGHT s = fold_left f (nodes (root d)) s /\
  avlwalk d (Some (inorder f)) RIGHT_TO_LEFT s = fold_left f (rev (nodes (root d))) s.
Proof. apply avl_walk_inorder. Qed.

(** What [free_node] on every buffer of [l] does to the heap. *)
Definition released (l : list Z) (h h' : heap) : Prop :=
  avl_free_list h' ++ freed h' ≡ₚ l ++ avl_free_list h ++ freed h /\
  brk h' = brk h /\ g_is_dreg_finalize h' = g_is_dreg_finalize h /\
  (g_is_dreg_finalize h = 1 -> avl_free_list h' = avl_free_list h) /\
  (g_is_dreg_finalize h <> 1 -> freed h' = freed h).

Lemma released_nil h : released [] h h.
Proof. done. Qed.

Lemma released_trans l1 l2 h1 h2 h3 :
  released l1 h1 h2 -> released l2 h2 h3 -> released (l1 ++ l2) h1 h3.
Proof.
  intros (P1 & B1 & G1 & F1 & N1) (P2 & B2 & G2 & F2 & N2). unfold released.
  rewrite P2, P1, B2, G2. split; [|split; [done|split; [done|split]]].
  - rewrite !(app_assoc l2). rewrite (Permutation_app_comm l2). by rewrite <- !app_assoc.
  - intros Hg. rewrite F2 by congruence. auto.
  - intros Hg. rewrite N2 by congruence. auto.
Qed.

Lemma released_node a h : released [a] h (free_node a h).
Proof.
  unfold released, free_node. destruct (Z.eqb_spec (g_is_dreg_finalize h) 1); cbn;
    repeat split; try done; try lia. by rewrite <- Permutation_middle.
Qed.

Lemma released_perm l l' h h' : l ≡ₚ l' -> released l h h' -> released l' h h'.
Proof. unfold released. by intros ->. Qed.

Lemma released_wf l h h' live :
  released l h h' -> heap_wf h (l ++ live) -> heap_wf h' live.
Proof.
  intros (P & B & _) (Hnd & HF & Hb). unfold heap_wf. rewrite B, P.
  rewrite (app_assoc live l), (Permutation_app_comm live l). by rewrite <- app_assoc in Hnd, HF |- *.
Qed.

Lemma avl_free_released {D S} (t : tree D) (act : option (Z -> D -> VISIT -> NODE -> Z -> S -> S))
    ord level s h : released (nodes t).*1 h (avl_free t act ord level s h).2.
Proof.
  revert level s h. induction t as [|a x b l IHl r IHr]; intros level s h; [done|].
  assert (forall order node (sh : S * heap) k, released k h sh.2 -> released k h (match act with
    | Some act => (act a x order node level sh.1, sh.2) | None => sh end).2) as Hcall.
  { intros. by destruct act. }
  assert (forall (t : tree D) lv (sh : S * heap) k,
    (forall level s h, released (nodes t).*1 h (avl_free t act ord level s h).2) ->
    released k h sh.2 -> released (k ++ (nodes t).*1) h
      (if is_null t then sh else avl_free t act ord lv sh.1 sh.2).2) as Hif.
  { intros t0 lv sh k IH H. destruct (is_null t0) eqn:E.
    - by rewrite (proj1 (is_null_nodes _) E), app_nil_r.
    - by eapply released_trans. }
  assert (forall n1 n2, n1 ++ n2 ≡ₚ nodes l ++ nodes r ->
    (([] ++ n1.*1) ++ n2.*1) ++ [a] ≡ₚ (nodes (Node a x b l r)).*1) as Hp.
  { intros n1 n2 H. cbn [app]. rewrite <- fmap_app, H. cbn. rewrite !fmap_app, fmap_cons. cbn.
    rewrite <- app_assoc. apply Permutation_app_head. by rewrite Permutation_app_comm. }
  destruct ord; (eapply released_perm; [|cbn [avl_free snd];
    eapply released_trans; [|apply released_node];
    apply Hcall, Hif; [done|]; apply Hcall, Hif; [done|]; apply Hcall, released_nil]); apply Hp;
      [done|apply Permutation_app_comm].
Qed.

(** [avldispose] gives back every node exactly once: the nodes waiting on the free list
    go to the allocator, those of the tree through [free_node], so that during the
    finalisation of the cache nothing stays on the free list; and its last call frees
    the pointer it was given, not the descriptor. *)
Theorem avldispose_frees {D S} (d : AVLdescriptor D) (h : heap) (treeptr : Z)
    (act : option (Z -> D -> VISIT -> NODE -> Z -> S -> S)) (ord : SIBLING_ORDER) (s : S) :
  avl_wf d h ->
  exists h0, (avldispose treeptr d act ord s h).2 = c_free treeptr h0 /\ heap_wf h0 [] /\
    (g_is_dreg_finalize h = 1 -> avl_free_list h0 = [] /\
       freed h0 ≡ₚ (nodes (root d)).*1 ++ avl_free_list h ++ freed h) /\
    (g_is_dreg_finalize h <> 1 -> avl_free_list h0 ≡ₚ (nodes (root d)).*1 /\
       freed h0 = rev (avl_free_list h) ++ freed h).
Proof.
  intros (_ & _ & _ & Hh). unfold avldispose.
  set (h1 := Heap [] _ _ _ _).
  assert (heap_wf h1 ((nodes (root d)).*1 ++ [])) as Hh1.
  { rewrite app_nil_r. unfold heap_wf in *. cbn. by rewrite <- (Permutation_rev (avl_free_list h)). }
  pose proof (avl_free_released (root d) act ord 1 s h1) as Hr.
  destruct (avl_free _ _ _ _ _ _) as [s' h0]. cbn [snd] in *. exists h0.
  split; [done|]. split; [by eapply released_wf|].
  destruct Hr as (P & _ & _ & F & N). cbn in P, F, N. split; intros Hg.
  - rewrite (F Hg) in *. split; [done|]. cbn in P. rewrite P.
    by rewrite <- (Permutation_rev (avl_free_list h)).
  - rewrite (N Hg) in *. split; [|done]. by apply Permutation_app_inv_r in P.
Qed.

Lemma avlinit_wf {D} (cmp : D -> D -> Z) (h : heap) d h' :
  heap_wf h [] -> avlinit cmp h = Ok (d, h') -> avl_wf d h' /\ items d = [] /\ compar d = cmp.
Proof.
  unfold avlinit, ckalloc. cbn -[Z.add]. destruct (avail h) as [|n]; [done|].
  cbn -[Z.add]. intros (Hnd & HF & Hb) [= <- <-]. repeat split; cbn -[Z.add]; try constructor.
  - apply NoDup_app in Hnd as (_ & _ & Hnd). by apply NoDup_app in Hnd as (_ & _ & ?).
  - apply Forall_app in HF as [_ HF]. apply Forall_app in HF as [_ HF].
    eapply Forall_impl; [exact HF|]. cbn. lia.
  - lia.
Qed.

(** ** Witnesses: a tree of integers *)

#[export] Instance Z_sub_lawful : LawfulCompare Z.sub.
Proof. constructor; lia. Qed.

Definition demo_heap : heap := Heap [] 1 100 [] 0.

(** The tree with the keys of [l] inserted one after the other. *)
Fixpoint demo_inserts (l : list Z) (d : AVLdescriptor Z) (h : heap)
    : result (AVLdescriptor Z * heap) :=
  match l with
  | [] => Ok (d, h)
  | x :: l => '(_, d, h) ← avlins x d h; demo_inserts l d h
  end.

Definition demo_made : result (AVLdescriptor Z * heap) :=
  '(d, h) ← avlinit Z.sub demo_heap;
  demo_inserts [10; 20; 30; 40; 50; 25] d h.

Definition demo_leaf (a x : Z) : tree Z := Node a x 0 NULL_TREE NULL_TREE.
Definition demo_tree : tree Z :=
  Node 7 30 0 (Node 5 20 0 (demo_leaf 3 10) (demo_leaf 13 25))
    (Node 9 40 1 NULL_TREE (demo_leaf 11 50)).
Definition demo_avl : AVLdescriptor Z := AVL demo_tree Z.sub 6.
Definition demo_avl_heap : heap := Heap [] 14 87 [] 0.

Lemma demo_made_eq : demo_made = Ok (demo_avl, demo_avl_heap).
Proof. vm_compute. reflexivity. Qed.

Lemma demo_avl_wf : avl_wf demo_avl demo_avl_heap.
Proof.
  split; [cbn; lia|]. split; [cbn; repeat constructor; cbn; lia|].
  split; [done|]. split; [|split; [|cbn; lia]]; cbn.
  - repeat (constructor; [set_solver by lia|]). constructor.
  - repeat constructor; lia.
Qed.

#[export] Instance demo_avl_lawful : LawfulCompare (compar demo_avl) := Z_sub_lawful.

Lemma avlins_refines_witness :
  avlins 25 demo_avl demo_avl_heap = Ok (13, demo_avl, demo_avl_heap) /\
  exists d' h', avlins 27 demo_avl demo_avl_heap = Ok (NULL, d', h') /\
    avl_wf d' h' /\ items d' = [10; 20; 25; 27; 30; 40; 50].
Proof.
  destruct (avlins_refines 25 demo_avl demo_avl_heap demo_avl_wf) as [H _].
  destruct (avlins_refines 27 demo_avl demo_avl_heap demo_avl_wf) as [_ H'].
  split; [apply (H 13 25); [cbn; set_solver|reflexivity]|].
  destruct H' as [(d' & h' & l1 & l2 & E & Hwf & _)|(E & _)].
  - repeat constructor; done.
  - exists d', h'. split; [exact E|]. split; [exact Hwf|].
    injection E as <- _. reflexivity.
  - discriminate E.
Defined.

Lemma avldel_refines_witness :
  avldel 35 demo_avl demo_avl_heap = Ok (NULL, demo_avl, demo_avl_heap) /\
  exists d' h', avldel 20 demo_avl demo_avl_heap = Ok (5, d', h') /\ avl_wf d' h' /\
    items d' = [10; 25; 30; 40; 50].
Proof.
  destruct (avldel_refines 35 demo_avl demo_avl_heap demo_avl_wf) as [H _].
  destruct (avldel_refines 20 demo_avl demo_avl_heap demo_avl_wf) as [_ H'].
  split; [apply H; repeat constructor; done|].
  destruct (H' 5 20) as (d' & h' & l1 & l2 & E & Hwf & _); [cbn; set_solver|reflexivity|].
  exists d', h'. split; [exact E|]. split; [exact Hwf|]. injection E as <- _. reflexivity.
Defined.

(** What that limit is for: with items of two words (which [avlinit] does not refuse) the
    copy in [avl_delete] leaves the second word behind.  The node that held (20, 2) then
    holds (30, 2), an item nobody inserted, and (30, 3) is gone. *)
Definition wide_avl : AVLdescriptor (Z * Z) :=
  AVL (Node 5 (20, 2) 0 (Node 3 (10, 1) 0 NULL_TREE NULL_TREE)
         (Node 7 (30, 3) 0 NULL_TREE NULL_TREE)) (fun x y => x.1 - y.1) 3.

Lemma wide_items_mixed :
  items wide_avl = [(10, 1); (20, 2); (30, 3)] /\
  (res ← avldel (20, 0) wide_avl demo_avl_heap; Ok (items res.1.2)) = Ok [(10, 1); (30, 2)].
Proof. split; vm_compute; reflexivity. Qed.

Lemma avldel_returns_successor_witness :
  exists d' h' z, avldel 30 demo_avl demo_avl_heap = Ok (7, d', h') /\
    z ∈ [40; 50] /\ (7, z) ∈ nodes (root d').
Proof.
  refine (avldel_returns_successor 30 demo_avl demo_avl_heap _ 7 30 [(9, 40); (11, 50)]
    demo_avl_wf _).
  exact (SearchHere (fun z _ => compar demo_avl 30 z) 7 30 0 _ _ eq_refl).
Defined.

Lemma avlfindex_finds_witness :
  avlfindex (fun k y => k - y / 10) 4 demo_avl = 9 /\
  avlfindex (fun k y => k - y) 26 demo_avl = NULL.
Proof.
  assert (forall k, respects (fun y => k - y) (nodes (root demo_avl))) as Hr.
  { intros k. apply (ordered_respects Z.sub). exact (proj1 (proj2 demo_avl_wf)). }
  split.
  - refine (proj1 (avlfindex_finds (fun k y => k - y / 10) 4 demo_avl _) 9 40 _ _);
      [|cbn; set_solver|reflexivity].
    unfold respects. cbn [root demo_avl demo_tree demo_leaf nodes app].
    repeat first [apply SSorted_nil | apply SSorted_cons | apply Forall_nil_2 | apply Forall_cons_2];
      vm_compute; intros; congruence.
  - refine (proj2 (avlfindex_finds (fun k y => k - y) 26 demo_avl (Hr 26)) _).
    repeat constructor; done.
Defined.

Lemma avldel_ends_witness :
  exists d', avldelmin demo_avl demo_avl_heap = Ok (3, d', free_node 3 demo_avl_heap) /\
    items d' = [20; 25; 30; 40; 50].
Proof.
  destruct (proj1 (proj2 (avldel_ends demo_avl demo_avl_heap demo_avl_wf)) (3, 10) _ eq_refl)
    as (d' & E & _ & Hn).
  exists d'. split; [exact E|]. unfold items. by rewrite Hn.
Defined.

Lemma avlfindmin_stale_witness : avlfindmin demo_avl = NULL /\ avlfindmax demo_avl = NULL.
Proof. exact (avlfindmin_stale demo_avl 7 30 0 _ _ eq_refl). Defined.

Lemma avl_height_bound_witness : 2 ^ 3 <= (6 + 1) ^ 2.
Proof. exact (avl_height_bound demo_avl demo_avl_heap demo_avl_wf). Defined.

Lemma avldispose_frees_witness :
  exists h0, (avldispose 99 demo_avl (@None (Z -> Z -> VISIT -> NODE -> Z -> unit -> unit))
    LEFT_TO_RIGHT tt demo_avl_heap).2 = c_free 99 h0 /\ heap_wf h0 [].
Proof.
  destruct (avldispose_frees demo_avl demo_avl_heap 99
    (@None (Z -> Z -> VISIT -> NODE -> Z -> unit -> unit)) LEFT_TO_RIGHT tt demo_avl_wf)
    as (h0 & E & H & _).
  exists h0. split; [exact E|exact H].
Defined.
