(* ===== verification/Vma.v ===== *)
(** * The page database of the registration cache (dreg/dreg.c, first half)

    Areas of pages (vma_t) form a circular doubly linked list through the static
    [vma_list] and are indexed by the AVL tree of Avl.v; each has the list of the
    registrations that cover it. *)
From stdpp Require Import gmap.
From S2P Require Import Prelude Avl.

(** ** Data *)

(** struct dreg_entry (MAX_NUM_HCAS is 1). *)
Record dreg_entry : Type := Dreg {
  pagenum : Z; memhandle : Z; refcount : Z; npages : Z;
  d_next : Z; next_unused : Z; prev_unused : Z; d_server : Z; is_valid : Z }.

Definition DREG_BEGIN (r : dreg_entry) : Z := pagenum r.
Definition DREG_END (r : dreg_entry) : Z := u64 (pagenum r + npages r - 1).

(** vma_t; the list of entry_t is the list of its cells' addresses and [reg] fields. *)
Record vma_t : Type := Vma {
  v_start : Z; v_end : Z; v_list : list (Z * Z); list_count : Z; v_next : Z; v_prev : Z }.

Definition v_set_end x v := Vma (v_start v) x (v_list v) (list_count v) (v_next v) (v_prev v).
Definition v_set_next x v := Vma (v_start v) (v_end v) (v_list v) (list_count v) x (v_prev v).
Definition v_set_prev x v := Vma (v_start v) (v_end v) (v_list v) (list_count v) (v_next v) x.
Definition v_set_list l n v := Vma (v_start v) (v_end v) l n (v_next v) (v_prev v).

(** The static [vma_list]. *)
Definition vma_list : Z := 8.

(** The database: the areas by address, the tree of their addresses, the allocator with the
    nodes of the tree, the two free lists. *)
Record vma_db : Type := Db {
  vmas : gmap Z vma_t; vma_tree : AVLdescriptor Z; hp : heap;
  g_pinned_pages_count : Z; vma_free_list : list Z; entry_free_list : list Z }.

Definition db_set_vmas f s := Db (f (vmas s)) (vma_tree s) (hp s) (g_pinned_pages_count s)
  (vma_free_list s) (entry_free_list s).
Definition db_set_tree t h s := Db (vmas s) t h (g_pinned_pages_count s)
  (vma_free_list s) (entry_free_list s).
Definition db_set_pinned n s := Db (vmas s) (vma_tree s) (hp s) n
  (vma_free_list s) (entry_free_list s).
Definition db_set_free h vl el s := Db (vmas s) (vma_tree s) h (g_pinned_pages_count s) vl el.

(** The configuration of the source: no limit on the pages that are registered. *)
Definition rdma_dreg_cache_limit : Z := 0.

Definition get_vma (a : Z) : ST vma_db vma_t := fun s =>
  st_lift (get_or NullDeref (vmas s !! a)) s.
Definition put_vma (a : Z) (v : vma_t) : ST vma_db unit :=
  st_set (db_set_vmas (fun m => <[a := v]> m)).
Definition upd_vma (a : Z) (f : vma_t -> vma_t) : ST vma_db unit :=
  v ← get_vma a; put_vma a (f v).

(** ** Comparisons *)

(** A field of the area at [a], as the comparisons read it; 0 outside the areas. *)
Definition field (s : vma_db) (f : vma_t -> Z) (a : Z) : Z := from_option f 0 (vmas s !! a).

Definition vma_compare (s : vma_db) (a b : Z) : Z :=
  i64 (u64 (field s v_start a - field s v_start b)).

Definition vma_compare_search (s : vma_db) (addr vma : Z) : Z :=
  if field s v_end vma <? addr then 1
  else if field s v_start vma <=? addr then 0 else -1.

Definition vma_compare_closest (s : vma_db) (addr vma : Z) : Z :=
  if field s v_end vma <? addr then 1
  else if (field s v_start vma <=? addr) || (field s v_end (field s v_prev vma) <? addr)
  then 0 else -1.

(** The item in the data buffer [node], which [avlfindex] returned. *)
Definition avl_item (node : Z) (t : AVLdescriptor Z) : result Z :=
  match list_find (fun n => n.1 = node) (nodes (root t)) with
  | Some (_, (_, x)) => Ok x
  | None => Err NullDeref
  end.

Definition vma_search (addr : Z) : ST vma_db Z := fun s =>
  let node := avlfindex (vma_compare_search s) addr (vma_tree s) in
  if node =? NULL then Ok (NULL, s) else st_lift (avl_item node (vma_tree s)) s.

(** ** Memory *)

Definition malloc : ST vma_db Z := fun s =>
  match avail (hp s) with
  | O => Ok (NULL, s)
  | S n => Ok (brk (hp s), db_set_free
      (Heap (avl_free_list (hp s)) (brk (hp s) + 1) n (freed (hp s)) (g_is_dreg_finalize (hp s)))
      (vma_free_list s) (entry_free_list s) s)
  end.

(** malloc and the memset that follows it, before the result is compared with NULL. *)
Definition malloc_zeroed : ST vma_db Z :=
  a ← malloc;
  if a =? NULL then st_fail NullDeref else mret a.

(** GET_FREE_LIST(&vma_free_list, &vma) *)
Definition GET_VMA_FREE_LIST : ST vma_db Z := fun s =>
  match vma_free_list s with
  | [] => Ok (NULL, s)
  | a :: l => Ok (a, db_set_free (hp s) l (entry_free_list s) s)
  end.
Definition GET_ENTRY_FREE_LIST : ST vma_db Z := fun s =>
  match entry_free_list s with
  | [] => Ok (NULL, s)
  | a :: l => Ok (a, db_set_free (hp s) (vma_free_list s) l s)
  end.

Definition vma_alloc : ST vma_db Z :=
  a ← GET_VMA_FREE_LIST; if a =? NULL then malloc_zeroed else mret a.
Definition entry_alloc : ST vma_db Z :=
  a ← GET_ENTRY_FREE_LIST; if a =? NULL then malloc_zeroed else mret a.

(** A cell of entry_t goes to its free list, or to free() during finalization. *)
Definition entry_release (e : Z) : ST vma_db unit := st_set (fun s =>
  if g_is_dreg_finalize (hp s) =? 1
  then db_set_free (c_free e (hp s)) (vma_free_list s) (entry_free_list s) s
  else db_set_free (hp s) (vma_free_list s) (e :: entry_free_list s) s).

(** ** Areas *)

(** The tree with the order the areas have now. *)
Definition tree_now (s : vma_db) : AVLdescriptor Z :=
  AVL (root (vma_tree s)) (vma_compare s) (count (vma_tree s)).

Definition vma_avlins (vma : Z) : ST vma_db unit := fun s =>
  match avlins vma (tree_now s) (hp s) with
  | Ok (_, t, h) => Ok (tt, db_set_tree t h s)
  | Err f => Err f
  end.
Definition vma_avldel (vma : Z) : ST vma_db unit := fun s =>
  match avldel vma (tree_now s) (hp s) with
  | Ok (_, t, h) => Ok (tt, db_set_tree t h s)
  | Err f => Err f
  end.

Definition vma_new (start end_ : Z) : ST vma_db Z := fun s =>
  if truth rdma_dreg_cache_limit &&
     (rdma_dreg_cache_limit <? u64 (g_pinned_pages_count s + u64 (end_ - start + 1)))
  then Ok (NULL, s)
  else (
    vma ← vma_alloc;
    _ ← put_vma vma (Vma start end_ [] 0 NULL NULL);
    _ ← vma_avlins vma;
    n ← st_get g_pinned_pages_count;
    _ ← st_set (db_set_pinned (u64 (n + (end_ - start + 1))));
    mret vma) s.

Definition vma_remove (vma : Z) : ST vma_db unit :=
  _ ← vma_avldel vma;
  v ← get_vma vma;
  n ← st_get g_pinned_pages_count;
  st_set (db_set_pinned (u64 (n - (v_end v - v_start v + 1)))).

Fixpoint release_entries (l : list (Z * Z)) : ST vma_db unit :=
  match l with
  | [] => mret tt
  | (e, _) :: l => _ ← entry_release e; release_entries l
  end.

Definition vma_destroy (vma : Z) : ST vma_db unit :=
  v ← get_vma vma;
  _ ← release_entries (v_list v);
  st_set (fun s =>
    let s := db_set_vmas (fun m => delete vma m) s in
    if g_is_dreg_finalize (hp s) =? 1
    then db_set_free (c_free vma (hp s)) (vma_free_list s) (entry_free_list s) s
    else db_set_free (hp s) (vma :: vma_free_list s) (entry_free_list s) s).

(** ** The registrations of an area, sorted by their last page, greatest first *)

Section regs.
Context (regs : gmap Z dreg_entry).

Definition reg_end (r : Z) : Z := from_option DREG_END 0 (regs !! r).

Definition compare_dregs (r1 r2 : Z) : Z :=
  if negb (reg_end r1 =? reg_end r2) then i64 (u64 (reg_end r1 - reg_end r2))
  else i64 (u64 (r1 - r2)).

(** The position of the new cell: behind the cells that compare greater. *)
Fixpoint insert_sorted (e r : Z) (l : list (Z * Z)) : list (Z * Z) :=
  match l with
  | [] => [(e, r)]
  | c :: l' => if 0 <? compare_dregs c.2 r then c :: insert_sorted e r l' else (e, r) :: l
  end.

Definition add_entry (vma r : Z) : ST vma_db unit :=
  e ← entry_alloc;
  v ← get_vma vma;
  put_vma vma (v_set_list (insert_sorted e r (v_list v)) (u64 (list_count v + 1)) v).

(** The first cell of [r], and the list without it. *)
Fixpoint unlink (r : Z) (l : list (Z * Z)) : option (Z * list (Z * Z)) :=
  match l with
  | [] => None
  | c :: l' => if c.2 =? r then Some (c.1, l') else
      match unlink r l' with Some (e, l'') => Some (e, c :: l'') | None => None end
  end.

Definition remove_entry (vma r : Z) : ST vma_db unit :=
  v ← get_vma vma;
  match unlink r (v_list v) with
  | None => mret tt
  | Some (e, l) =>
      _ ← put_vma vma (v_set_list l (list_count v) v);
      _ ← entry_release e;
      upd_vma vma (fun v => v_set_list (v_list v) (u64 (list_count v - 1)) v)
  end.

Fixpoint copy_cells (l : list (Z * Z)) : ST vma_db (list (Z * Z)) :=
  match l with
  | [] => mret []
  | (_, r) :: l => e ← entry_alloc; l ← copy_cells l; mret ((e, r) :: l)
  end.

(** [copy_list] is called with a new area: its list is replaced. *)
Definition copy_list (to from : Z) : ST vma_db unit :=
  f ← get_vma from;
  l ← copy_cells (v_list f);
  upd_vma to (v_set_list l (list_count f)).

(** The loop of [compare_lists]: until one of the lists ends. *)
Fixpoint same_regs (l1 l2 : list (Z * Z)) : bool :=
  match l1, l2 with
  | c1 :: l1, c2 :: l2 => (c1.2 =? c2.2) && same_regs l1 l2
  | _, _ => true
  end.

Definition compare_lists (vma1 vma2 : Z) : ST vma_db bool :=
  v1 ← get_vma vma1;
  v2 ← get_vma vma2;
  mret ((list_count v1 =? list_count v2) && same_regs (v_list v1) (v_list v2)).

(** ** Removing a registration *)

(** [vma->prev] and [vma->next] when [t] is merged into [vma], its neighbour before. *)
Definition merge_into (vma t : Z) : ST vma_db unit :=
  tv ← get_vma t;
  _ ← upd_vma vma (v_set_end (v_end tv));
  _ ← upd_vma vma (v_set_next (v_next tv));
  _ ← upd_vma (v_next tv) (v_set_prev vma);
  _ ← vma_remove t;
  vma_destroy t.

Definition merge_prev (vma : Z) : ST vma_db (Z * bool) :=
  v ← get_vma vma;
  p ← get_vma (v_prev v);
  if v_start v =? u64 (v_end p + 1) then
    compare_lists vma (v_prev v) ≫= fun b : bool =>
      if b then _ ← merge_into (v_prev v) vma; mret (v_prev v, true) else mret (vma, false)
  else mret (vma, false).

Definition merge_next (vma : Z) : ST vma_db bool :=
  v ← get_vma vma;
  n ← get_vma (v_next v);
  if u64 (v_end v + 1) =? v_start n then
    compare_lists vma (v_next v) ≫= fun b : bool =>
      if b then _ ← merge_into vma (v_next v); mret true else mret false
  else mret false.

(** do ... while (merged) *)
Fixpoint merge_loop (fuel : nat) (vma : Z) : ST vma_db Z :=
  match fuel with
  | O => st_fail Spin
  | S fuel =>
      '(vma, m1) ← merge_prev vma;
      m2 ← merge_next vma;
      if m1 || m2 : bool then merge_loop fuel vma else mret vma
  end.

(** [vma] leaves the list and the tree. *)
Definition vma_unlink (vma : Z) : ST vma_db unit :=
  _ ← vma_remove vma;
  v ← get_vma vma;
  _ ← upd_vma (v_prev v) (v_set_next (v_next v));
  v ← get_vma vma;
  upd_vma (v_next v) (v_set_prev (v_prev v)).

Fixpoint remove_loop (fuel : nat) (r last vma : Z) : ST vma_db unit :=
  if vma =? vma_list then mret tt
  else
    v ← get_vma vma;
    if v_start v <=? last then
      match fuel with
      | O => st_fail Spin
      | S fuel =>
          _ ← remove_entry vma r;
          v ← get_vma vma;
          match v_list v with
          | [] =>
              let next := v_next v in
              _ ← vma_unlink vma;
              _ ← vma_destroy vma;
              remove_loop fuel r last next
          | _ =>
              vma ← merge_loop fuel vma;
              v ← get_vma vma;
              remove_loop fuel r last (v_next v)
          end
      end
    else mret tt.

Definition get_reg (r : Z) : ST vma_db dreg_entry := st_lift (get_or NullDeref (regs !! r)).

Definition dreg_remove (fuel : nat) (r : Z) : ST vma_db Z :=
  d ← get_reg r;
  vma ← vma_search (DREG_BEGIN d);
  if vma =? NULL then mret (-1)
  else _ ← remove_loop fuel r (DREG_END d) vma; mret 0.

(** ** Inserting a registration *)

(** [vma] goes into the list in front of [i]. *)
Definition link_before (vma i : Z) : ST vma_db unit :=
  _ ← upd_vma vma (v_set_next i);
  iv ← get_vma i;
  _ ← upd_vma vma (v_set_prev (v_prev iv));
  _ ← upd_vma (v_prev iv) (v_set_next vma);
  upd_vma i (v_set_prev vma).

(** [vma] goes into the list behind [i]. *)
Definition link_after (vma i : Z) : ST vma_db unit :=
  iv ← get_vma i;
  _ ← upd_vma vma (v_set_next (v_next iv));
  _ ← upd_vma vma (v_set_prev i);
  _ ← upd_vma (v_next iv) (v_set_prev vma);
  upd_vma i (v_set_next vma).

(** One round of the loop of [dreg_insert]: the new [begin] and [i]; [None] is the goto. *)
Definition insert_round (r begin end_ i : Z) : ST vma_db (option (Z * Z)) :=
  if i =? vma_list then
    vma ← vma_new begin end_;
    if vma =? NULL then mret None
    else
      _ ← link_before vma i;
      _ ← add_entry vma r;
      mret (Some (u64 (end_ + 1), i))
  else
    iv ← get_vma i;
    if begin <? v_start iv then
      let last := if v_start iv <=? end_ then u64 (v_start iv - 1) else end_ in
      vma ← vma_new begin last;
      if vma =? NULL then mret None
      else
        _ ← link_before vma i;
        _ ← add_entry vma r;
        mret (Some (u64 (last + 1), vma))
    else if v_start iv =? begin then
      if end_ <? v_end iv then
        vma ← vma_new (u64 (end_ + 1)) (v_end iv);
        if vma =? NULL then mret None
        else
          _ ← upd_vma i (v_set_end end_);
          _ ← copy_list vma i;
          _ ← link_after vma i;
          _ ← add_entry i r;
          mret (Some (u64 (end_ + 1), i))
      else
        _ ← add_entry i r;
        mret (Some (u64 (v_end iv + 1), i))
    else
      vma ← vma_new begin (v_end iv);
      if vma =? NULL then mret None
      else
        _ ← upd_vma i (v_set_end (u64 (begin - 1)));
        _ ← copy_list vma i;
        _ ← link_after vma i;
        mret (Some (begin, i)).

Fixpoint insert_loop (fuel : nat) (r begin end_ i : Z) : ST vma_db bool :=
  if begin <=? end_ then
    match fuel with
    | O => st_fail Spin
    | S fuel =>
        o ← insert_round r begin end_ i;
        match o with
        | None => mret false
        | Some (begin, i) => iv ← get_vma i; insert_loop fuel r begin end_ (v_next iv)
        end
    end
  else mret true.

(** Where the loop starts. *)
Definition closest (begin : Z) : ST vma_db Z := fun s =>
  let node := avlfindex (vma_compare_closest s) begin (vma_tree s) in
  if node =? NULL then Ok (vma_list, s) else st_lift (avl_item node (vma_tree s)) s.

Definition dreg_insert (fuel : nat) (r : Z) : ST vma_db Z :=
  d ← get_reg r;
  i ← closest (DREG_BEGIN d);
  insert_loop fuel r (DREG_BEGIN d) (DREG_END d) i ≫= fun b : bool =>
    if b then mret 0 else _ ← dreg_remove fuel r; mret (-1).

(** ** Looking a range of pages up *)

Definition dreg_lookup (begin end_ : Z) : ST vma_db Z :=
  vma ← vma_search begin;
  if vma =? NULL then mret NULL
  else
    v ← get_vma vma;
    match v_list v with
    | [] => mret NULL
    | (_, reg) :: _ =>
        d ← get_reg reg;
        mret (if end_ <=? DREG_END d then reg else NULL)
    end.

End regs.

(** [vma_db_init]: the static area links to itself. *)
Definition vma_db_init : ST vma_db unit := fun s =>
  match avlinit (vma_compare s) (hp s) with
  | Ok (t, h) =>
      let v := from_option id (Vma 0 0 [] 0 NULL NULL) (vmas s !! vma_list) in
      Ok (tt, db_set_tree t h (db_set_vmas (fun m =>
        <[vma_list := Vma (v_start v) (v_end v) [] 0 vma_list vma_list]> m) s))
  | Err f => Err f
  end.
