(* ===== verification/VmaMem.v ===== *)
(** * The memory of the page database (about Vma.v)

    How the assignments, the allocator, the links of the circular list and the tree of the
    areas behave, apart from what the areas mean. *)
From stdpp Require Import gmap sorting.
From S2P Require Import Prelude Avl Vma.

(** ** Runs of the assignments *)

Definition updf (a : Z) (f : vma_t -> vma_t) : vma_db -> vma_db := db_set_vmas (alter f a).
Definition present (s : vma_db) (a : Z) : Prop := is_Some (vmas s !! a).

Lemma run_get_vma s a v : vmas s !! a = Some v -> get_vma a s = Ok (v, s).
Proof. intros E. unfold get_vma. by rewrite E. Qed.

Lemma run_upd_vma s a f : present s a -> upd_vma a f s = Ok (tt, updf a f s).
Proof.
  intros [v E]. unfold upd_vma. rewrite (st_bind_run _ _ _ _ _ (run_get_vma _ _ _ E)).
  unfold put_vma, st_set, updf, db_set_vmas. do 3 f_equal.
  apply map_eq. intros b. destruct (decide (a = b)) as [->|Hne].
  - by rewrite lookup_insert_eq, lookup_alter_eq, E.
  - by rewrite lookup_insert_ne, lookup_alter_ne.
Qed.

Lemma present_updf s a f b : present (updf a f s) b <-> present s b.
Proof.
  unfold present, updf. cbn [vmas db_set_vmas]. destruct (decide (a = b)) as [->|].
  - by rewrite lookup_alter_eq, fmap_is_Some.
  - by rewrite lookup_alter_ne.
Qed.

Lemma field_updf_eq s a f g : present s a ->
  exists v, vmas s !! a = Some v /\ field (updf a f s) g a = g (f v).
Proof.
  intros [v E]. exists v. split; [done|]. unfold field, updf. cbn [vmas db_set_vmas].
  by rewrite lookup_alter_eq, E.
Qed.

Lemma field_updf_ne s a f g b : a <> b -> field (updf a f s) g b = field s g b.
Proof. intros Hne. unfold field, updf. cbn [vmas db_set_vmas]. by rewrite lookup_alter_ne. Qed.

(** An assignment to another field. *)
Lemma field_updf_other s a f g b : (forall v, g (f v) = g v) ->
  field (updf a f s) g b = field s g b.
Proof.
  intros H. unfold field, updf. cbn [vmas db_set_vmas]. destruct (decide (a = b)) as [->|].
  - rewrite lookup_alter_eq. destruct (vmas s !! b); cbn; auto.
  - by rewrite lookup_alter_ne.
Qed.

(** The fields of an area that are not links. *)
Definition body (v : vma_t) : Z * Z * list (Z * Z) * Z :=
  (v_start v, v_end v, v_list v, list_count v).

Definition body_at (s : vma_db) (a : Z) : option (Z * Z * list (Z * Z) * Z) := body <$> vmas s !! a.

Lemma body_updf_link s a f b : (forall v, body (f v) = body v) -> body_at (updf a f s) b = body_at s b.
Proof.
  intros H. unfold body_at, updf. cbn [vmas db_set_vmas]. destruct (decide (a = b)) as [->|].
  - rewrite lookup_alter_eq. destruct (vmas s !! b); cbn; by rewrite ?H.
  - by rewrite lookup_alter_ne.
Qed.

Lemma body_updf_ne s a f b : a <> b -> body_at (updf a f s) b = body_at s b.
Proof. intros H. unfold body_at, updf. cbn [vmas db_set_vmas]. by rewrite lookup_alter_ne. Qed.

(** ** The circular list

    Its edges, from [p] through [l] to [q]: each is a next and a prev link. *)

Fixpoint edges (p : Z) (l : list Z) (q : Z) : list (Z * Z) :=
  match l with
  | [] => [(p, q)]
  | a :: l => (p, a) :: edges a l q
  end.

Definition edge (s : vma_db) (e : Z * Z) : Prop :=
  field s v_next e.1 = e.2 /\ field s v_prev e.2 = e.1.

Definition path (s : vma_db) (p : Z) (l : list Z) (q : Z) : Prop := Forall (edge s) (edges p l q).

Lemma last_cons {A} (a d : A) l : List.last (a :: l) d = List.last l a.
Proof.
  destruct l as [|b l]; [done|]. cbn [List.last]. revert b.
  induction l as [|c l IH]; intros b; [done|]. cbn [List.last]. apply IH.
Qed.

Lemma edges_sources p l q : (edges p l q).*1 = p :: l.
Proof. revert p. induction l as [|a l IH]; intros p; [done|]. cbn. by rewrite IH. Qed.

Lemma edges_targets p l q : (edges p l q).*2 = l ++ [q].
Proof. revert p. induction l as [|a l IH]; intros p; [done|]. cbn. by rewrite IH. Qed.

Lemma edges_split p l1 l2 q : exists e1 e2,
  edges p (l1 ++ l2) q = e1 ++ (List.last l1 p, hd q l2) :: e2 /\
  forall x, edges p (l1 ++ x :: l2) q = e1 ++ (List.last l1 p, x) :: (x, hd q l2) :: e2.
Proof.
  revert p. induction l1 as [|a l1 IH]; intros p.
  - exists []. destruct l2 as [|b l2]; [by exists []|by exists (edges b l2 q)].
  - destruct (IH a) as (e1 & e2 & E & Ex). exists ((p, a) :: e1), e2.
    rewrite last_cons. cbn. rewrite E. split; [done|]. intros x. by rewrite Ex.
Qed.

Lemma path_next s p l1 l2 q : path s p (l1 ++ l2) q ->
  field s v_next (List.last l1 p) = hd q l2 /\ field s v_prev (hd q l2) = List.last l1 p.
Proof.
  unfold path. destruct (edges_split p l1 l2 q) as (e1 & e2 & -> & _).
  rewrite Forall_app, Forall_cons. by intros (_ & H & _).
Qed.

Lemma path_frame s s' p l q :
  (forall a, a ∈ p :: l -> field s' v_next a = field s v_next a) ->
  (forall a, a ∈ l ++ [q] -> field s' v_prev a = field s v_prev a) ->
  path s p l q -> path s' p l q.
Proof.
  intros Hn Hp. unfold path. rewrite !Forall_forall. intros H e He.
  destruct (H e He) as [H1 H2]. split.
  - rewrite Hn; [done|]. rewrite <- (edges_sources p l q). by apply list_elem_of_fmap_2.
  - rewrite Hp; [done|]. rewrite <- (edges_targets p l q). by apply list_elem_of_fmap_2.
Qed.

(** The ends of the edges at both sides of a place of the ring are their own. *)
Lemma ring_split c l1 l2 : NoDup (c :: l1 ++ l2) -> exists e1 e2,
  edges c (l1 ++ l2) c = e1 ++ (List.last l1 c, hd c l2) :: e2 /\
  (forall x, edges c (l1 ++ x :: l2) c = e1 ++ (List.last l1 c, x) :: (x, hd c l2) :: e2) /\
  Forall (fun e => e.1 <> List.last l1 c /\ e.2 <> hd c l2 /\
                   e.1 ∈ c :: l1 ++ l2 /\ e.2 ∈ c :: l1 ++ l2) (e1 ++ e2).
Proof.
  intros Hnd. destruct (edges_split c l1 l2 c) as (e1 & e2 & E & Ex). exists e1, e2.
  split; [done|]. split; [done|].
  assert (NoDup (edges c (l1 ++ l2) c).*1) as N1 by (by rewrite edges_sources).
  assert (NoDup (edges c (l1 ++ l2) c).*2) as N2.
  { rewrite edges_targets. by rewrite <- Permutation_cons_append. }
  apply Forall_forall. intros e He.
  assert (e ∈ edges c (l1 ++ l2) c) as Hin by (rewrite E; set_solver).
  pose proof (list_elem_of_fmap_2 fst _ _ Hin) as H1. rewrite edges_sources in H1.
  pose proof (list_elem_of_fmap_2 snd _ _ Hin) as H2. rewrite edges_targets in H2.
  rewrite E, fmap_app, fmap_cons in N1, N2. cbn [fst snd] in N1, N2.
  rewrite <- Permutation_middle in N1, N2.
  apply NoDup_cons in N1 as [N1 _], N2 as [N2 _]. rewrite <- fmap_app in N1, N2.
  split; [intros Ee; apply N1; rewrite <- Ee; by apply list_elem_of_fmap_2|].
  split; [intros Ee; apply N2; rewrite <- Ee; by apply list_elem_of_fmap_2|].
  split; [done|]. set_solver.
Qed.

(** Changing the links at one place, and those of an element outside, keeps other edges. *)
Lemma edges_kept s s' c l1 x l2 es : x ∉ c :: l1 ++ l2 ->
  (forall a, a <> x -> a <> List.last l1 c -> field s' v_next a = field s v_next a) ->
  (forall a, a <> x -> a <> hd c l2 -> field s' v_prev a = field s v_prev a) ->
  Forall (fun e => e.1 <> List.last l1 c /\ e.2 <> hd c l2 /\
                   e.1 ∈ c :: l1 ++ l2 /\ e.2 ∈ c :: l1 ++ l2) es ->
  Forall (edge s) es -> Forall (edge s') es.
Proof.
  intros Hx Hn Hp HF HE. rewrite Forall_forall in HF, HE |- *. intros e He.
  destruct (HF e He) as (? & ? & ? & ?), (HE e He) as [? ?].
  split; [rewrite Hn|rewrite Hp]; try done; intros Eq; apply Hx; by rewrite <- Eq.
Qed.

(** [x] goes into the ring, or leaves it. *)
Lemma ring_link s s' c l1 x l2 : NoDup (c :: l1 ++ l2) -> x ∉ c :: l1 ++ l2 ->
  (forall a, a <> x -> a <> List.last l1 c -> field s' v_next a = field s v_next a) ->
  (forall a, a <> x -> a <> hd c l2 -> field s' v_prev a = field s v_prev a) ->
  edge s' (List.last l1 c, x) -> edge s' (x, hd c l2) ->
  path s c (l1 ++ l2) c -> path s' c (l1 ++ x :: l2) c.
Proof.
  intros Hnd Hx Hn Hp H1 H2. unfold path.
  destruct (ring_split c l1 l2 Hnd) as (e1 & e2 & -> & -> & HF).
  apply Forall_app in HF as [F1 F2]. rewrite !Forall_app, !Forall_cons.
  intros (P1 & _ & P2). split; [|split; [done|split; [done|]]]; by eapply edges_kept.
Qed.

Lemma ring_unlink s s' c l1 x l2 : NoDup (c :: l1 ++ l2) -> x ∉ c :: l1 ++ l2 ->
  (forall a, a <> x -> a <> List.last l1 c -> field s' v_next a = field s v_next a) ->
  (forall a, a <> x -> a <> hd c l2 -> field s' v_prev a = field s v_prev a) ->
  edge s' (List.last l1 c, hd c l2) ->
  path s c (l1 ++ x :: l2) c -> path s' c (l1 ++ l2) c.
Proof.
  intros Hnd Hx Hn Hp H1. unfold path.
  destruct (ring_split c l1 l2 Hnd) as (e1 & e2 & -> & -> & HF).
  apply Forall_app in HF as [F1 F2]. rewrite !Forall_app, !Forall_cons.
  intros (P1 & _ & _ & P2). split; [|split; [done|]]; by eapply edges_kept.
Qed.

(** ** The tree of the areas *)

(** A page number: starts and ends are far from wrapping around. *)
Definition page (p : Z) : Prop := 0 <= p < 2 ^ 62.

Record tree_rep (s : vma_db) (l : list Z) : Prop := {
  tr_items : items (vma_tree s) = l;
  tr_balanced : balanced (root (vma_tree s));
  tr_count : avlcount (vma_tree s) = Z.of_nat (length l);
  tr_heap : heap_wf (hp s) (nodes (root (vma_tree s))).*1;
  tr_run : g_is_dreg_finalize (hp s) <> 1 }.

Lemma sorted_fmap {A B} (f : A -> B) (R : B -> B -> Prop) l :
  StronglySorted R (f <$> l) <-> StronglySorted (fun x y => R (f x) (f y)) l.
Proof.
  induction l as [|x l IH]; cbn; [split; constructor|]. split.
  - intros [H HF]%StronglySorted_inv. constructor; [by apply IH|by rewrite Forall_fmap in HF].
  - intros [H HF]%StronglySorted_inv. constructor; [by apply IH|by rewrite Forall_fmap].
Qed.

Lemma respects_items (c : Z -> Z) (t : tree Z) l : (nodes t).*2 = l ->
  StronglySorted (fun x y => c x <= 0 -> c y < 0) l -> respects c (nodes t).
Proof. intros <- H. by apply sorted_fmap in H. Qed.

(** A search whose comparison respects the order of the areas. *)
Lemma tree_search s l c : tree_rep s l -> StronglySorted (fun x y => c x <= 0 -> c y < 0) l ->
  (exists node y, avl_find (fun y _ => c y) (root (vma_tree s)) = node /\ node <> NULL /\
     avl_item node (vma_tree s) = Ok y /\ y ∈ l /\ c y = 0) \/
  (avl_find (fun y _ => c y) (root (vma_tree s)) = NULL /\ Forall (fun y => c y <> 0) l).
Proof.
  intros [Hi Hb _ Hh _] Hs. unfold items in Hi.
  pose proof (respects_items c _ _ Hi Hs) as Hr.
  destruct (search_total (fun y _ => c y) (root (vma_tree s))) as (n1 & m & n2 & Hse).
  destruct (search_signs _ _ _ _ _ Hr Hse) as (S1 & S0 & S2).
  pose proof (search_nodes _ _ _ _ _ Hse) as Hn. unfold avl_find.
  rewrite (avl_find_from_search (fun y _ => c y) _ _ n1 m n2) by exact Hse.
  destruct m as [[[a y] ty]|]; [left|right]; cbn [found_addr found] in *.
  - exists a, y. split; [done|]. split.
    { eapply heap_wf_live; [exact Hh|]. rewrite Hn, !fmap_app. set_solver. }
    split; [|split; [rewrite <- Hi, Hn, !fmap_app; set_solver|by inversion S0]].
    unfold avl_item. rewrite Hn.
    assert (a ∉ n1.*1) as Ha.
    { destruct Hh as (Hnd & _). rewrite Hn, !fmap_app in Hnd. cbn in Hnd.
      apply NoDup_app in Hnd as [Hnd _]. apply NoDup_app in Hnd as (_ & Hnd & _).
      intros Hin. apply (Hnd a Hin). by left. }
    enough (list_find (fun n => n.1 = a) (n1 ++ (a, y) :: n2) = Some (length n1, (a, y))) as E by (cbn [app]; by rewrite E).
    apply list_find_Some. split; [by rewrite list_lookup_middle|]. split; [done|].
    intros j n Hj Hlt. rewrite lookup_app_l in Hj by done. intros Ea. apply Ha.
    rewrite <- Ea. apply list_elem_of_fmap_2. by eapply list_elem_of_lookup_2.
  - split; [done|]. rewrite <- Hi, Hn, !fmap_app. cbn.
    apply Forall_app. split; apply Forall_fmap; (eapply Forall_impl; [eassumption|]); cbn; intros; lia.
Qed.

Lemma split_signs (c : Z -> Z) n1 n2 l1 l2 : n1 ++ n2 = l1 ++ l2 ->
  Forall (fun x => 0 < c x) n1 -> Forall (fun x => c x <= 0) n2 ->
  Forall (fun x => 0 < c x) l1 -> Forall (fun x => c x <= 0) l2 -> n1 = l1 /\ n2 = l2.
Proof.
  revert l1. induction n1 as [|x n1 IH]; intros [|y l1] E N1 N2 L1 L2; cbn in E; subst; try done.
  - apply Forall_cons in N2 as [? _], L1 as [? _]. lia.
  - apply Forall_cons in N1 as [? _], L2 as [? _]. lia.
  - injection E as -> E. apply Forall_cons in N1 as [_ N1], L1 as [_ L1].
    destruct (IH l1 E N1 N2 L1 L2) as [-> ->]. done.
Qed.

Definition starts (s : vma_db) (l : list Z) : Prop :=
  StronglySorted (fun a b => field s v_start a < field s v_start b) l /\
  Forall (fun a => page (field s v_start a)) l.

Lemma i64_page a b : page a -> page b -> i64 (u64 (a - b)) = a - b.
Proof.
  unfold page, i64, u64. intros Ha Hb.
  rewrite Zplus_mod_idemp_l, Z.mod_small by lia. lia.
Qed.

Lemma starts_split s l1 x l2 : starts s (l1 ++ x :: l2) ->
  starts s (l1 ++ l2) /\ page (field s v_start x) /\
  Forall (fun a => field s v_start a < field s v_start x) l1 /\
  Forall (fun a => field s v_start x < field s v_start a) l2.
Proof.
  intros [Hs Hp]. apply Forall_app in Hp as [P1 P2]. apply Forall_cons in P2 as [Px P2].
  apply StronglySorted_app in Hs as (H12 & S1 & S2). apply StronglySorted_inv in S2 as [S2 F2].
  split; [split|split; [done|split; [|done]]].
  - apply StronglySorted_app. split; [|done]. intros a b Ha Hb. apply H12; [done|by right].
  - by apply Forall_app.
  - apply Forall_forall. intros a Ha. apply H12; [done|by left].
Qed.

(** The comparison the tree runs with, for a key among the areas. *)
Lemma starts_respect s x l : starts s l -> page (field s v_start x) ->
  StronglySorted (fun a b => vma_compare s x a <= 0 -> vma_compare s x b < 0) l /\
  Forall (fun a => vma_compare s x a = field s v_start x - field s v_start a) l.
Proof.
  intros [Hs Hp] Px. assert (Forall (fun a => vma_compare s x a = field s v_start x - field s v_start a) l) as HF.
  { eapply Forall_impl; [exact Hp|]. intros a Pa. by apply i64_page. }
  split; [|done]. induction Hs as [|a l Hs IH Ha]; constructor.
  - apply Forall_cons in Hp as [_ ?], HF as [_ ?]. by apply IH.
  - apply Forall_cons in HF as [Ea HF]. rewrite Forall_forall in Ha, HF |- *.
    intros b Hb. rewrite Ea, (HF b Hb). specialize (Ha b Hb). lia.
Qed.

Lemma compare_signs s x l : Forall (fun a => vma_compare s x a = field s v_start x - field s v_start a) l ->
  (Forall (fun a => 0 < vma_compare s x a) l <-> Forall (fun a => field s v_start a < field s v_start x) l) /\
  (Forall (fun a => vma_compare s x a < 0) l <-> Forall (fun a => field s v_start x < field s v_start a) l).
Proof.
  rewrite !Forall_forall. intros HF. split; split; intros H a Ha; specialize (HF a Ha);
    specialize (H a Ha); lia.
Qed.

Lemma avlins_tree s l1 x l2 : tree_rep s (l1 ++ l2) -> starts s (l1 ++ l2) ->
  page (field s v_start x) -> Forall (fun a => field s v_start a < field s v_start x) l1 ->
  Forall (fun a => field s v_start x < field s v_start a) l2 -> (2 <= avail (hp s))%nat ->
  exists t h, vma_avlins x s = Ok (tt, db_set_tree t h s) /\
    tree_rep (db_set_tree t h s) (l1 ++ x :: l2) /\
    (avail (hp s) <= avail h + 2)%nat /\ brk (hp s) <= brk h.
Proof.
  intros [Hi Hb Hc Hh Hg] Hst Hpx L1 L2 Hav. unfold items in Hi.
  destruct (starts_respect s x _ Hst Hpx) as [Hrs HF].
  pose proof (respects_items (vma_compare s x) _ _ Hi Hrs) as Hr.
  destruct (search_total (fun y _ => vma_compare s x y) (root (vma_tree s))) as (n1 & m & n2 & Hse).
  apply Forall_app in HF as [F1 F2].
  apply (compare_signs s x l1 F1) in L1. apply (compare_signs s x l2 F2) in L2.
  assert (m = None) as ->.
  { eapply search_miss; [exact Hr|exact Hse|]. rewrite Hi. apply Forall_app.
    split; [eapply Forall_impl; [exact L1|]|eapply Forall_impl; [exact L2|]]; cbn; intros; lia. }
  destruct (search_signs _ _ _ _ _ Hr Hse) as (S1 & _ & S2).
  pose proof (search_nodes _ _ _ _ _ Hse) as Hn. cbn [found app] in Hn.
  assert (n1.*2 = l1 /\ n2.*2 = l2) as [<- <-].
  { apply (split_signs (vma_compare s x)); try done.
    - by rewrite <- fmap_app, <- Hn.
    - by apply Forall_fmap.
    - apply Forall_fmap. eapply Forall_impl; [exact S2|]. cbn. intros; lia.
    - eapply Forall_impl; [exact L2|]. cbn. intros; lia. }
  destruct (new_node_spec x (hp s) _ Hh) as [(a & h & E & Hh' & Ha)|(_ & _ & ?)]; [|lia].
  destruct (insert_not_found (vma_compare s) x (hp s) _ _ _ _ _ Hb Hse E) as
    (t' & c & E' & Hb' & Hn' & _).
  unfold vma_avlins, avlins, tree_now. cbn [root compar count]. rewrite E'.
  cbn [mbind result_bind]. eexists _, _. split; [done|].
  assert ((avail (hp s) <= avail h + 2)%nat /\ brk (hp s) <= brk h /\
          g_is_dreg_finalize h = g_is_dreg_finalize (hp s)) as (? & ? & Hg').
  { clear -E. unfold new_node, GET_AVL_FREE_LIST in E. destruct (hp s) as [fl br av fr g].
    cbn in E. destruct fl as [|b fl]; cbn in E.
    - unfold ckalloc in E. cbn [avail] in E. destruct av as [|[|av]]; try discriminate.
      injection E as _ <-. cbn. lia.
    - destruct (b =? NULL); [|injection E as _ <-; cbn; lia].
      unfold ckalloc in E. cbn [avail] in E. destruct av as [|[|av]]; try discriminate.
      injection E as _ <-. cbn. lia. }
  split; [|done]. split; cbn [vma_tree hp db_set_tree root compar count avlcount items].
  - unfold items. cbn [root]. rewrite Hn'. by rewrite fmap_app.
  - done.
  - unfold avlcount in Hc. cbn. rewrite Hc, !length_app. cbn. lia.
  - rewrite Hn', fmap_app. cbn. rewrite Hn, fmap_app in Hh'.
    eapply heap_wf_perm; [|exact Hh']. apply Permutation_middle.
  - congruence.
Qed.

Lemma avldel_tree s l1 x l2 : tree_rep s (l1 ++ x :: l2) -> starts s (l1 ++ x :: l2) ->
  exists t h, vma_avldel x s = Ok (tt, db_set_tree t h s) /\
    tree_rep (db_set_tree t h s) (l1 ++ l2) /\ avail h = avail (hp s) /\ brk h = brk (hp s).
Proof.
  intros [Hi Hb Hc Hh Hg] Hst. unfold items in Hi.
  destruct (starts_split _ _ _ _ Hst) as (_ & Px & L1 & L2).
  destruct (starts_respect s x _ Hst Px) as [Hrs HF].
  pose proof (respects_items (vma_compare s x) _ _ Hi Hrs) as Hr.
  destruct (search_total (fun y _ => vma_compare s x y) (root (vma_tree s))) as (n1 & m & n2 & Hse).
  apply Forall_app in HF as [F1 F2]. apply Forall_cons in F2 as [Fx F2].
  apply (compare_signs s x l1 F1) in L1. apply (compare_signs s x l2 F2) in L2.
  assert (x ∈ (nodes (root (vma_tree s))).*2) as Hx by (rewrite Hi; set_solver).
  apply list_elem_of_fmap in Hx as ([a x'] & Ex & Hx). cbn [snd] in Ex. subst x'.
  destruct (search_hit _ _ _ _ _ _ _ Hr Hse Hx ltac:(lia)) as [ty ->].
  destruct (search_signs _ _ _ _ _ Hr Hse) as (S1 & _ & S2).
  pose proof (search_nodes _ _ _ _ _ Hse) as Hn. cbn [found app] in Hn.
  assert (n1.*2 = l1 /\ n2.*2 = l2) as [<- <-].
  { rewrite Hn, fmap_app in Hi. cbn in Hi.
    destruct (split_signs (vma_compare s x) n1.*2 (x :: n2.*2) l1 (x :: l2)) as [E1 E2];
      [done|by apply Forall_fmap| |done| |by injection E2 as E2];
      (constructor; [lia|]).
    - apply Forall_fmap. eapply Forall_impl; [exact S2|]. cbn. intros; lia.
    - eapply Forall_impl; [exact L2|]. cbn. intros; lia. }
  destruct (delete_found (fun y _ => vma_compare s x y) (hp s) (root (vma_tree s)) n1 (a, x) ty n2 Hb)
    as (t' & c & ns & f & E & (Hb' & <- & _) & Hd); [|exact Hse|].
  { apply Forall_forall. intros n Hin. eapply heap_wf_live; [exact Hh|]. by apply list_elem_of_fmap_2. }
  destruct (deleted_facts _ _ _ _ _ _ Hd) as (D2 & D1 & Dl).
  assert (a <> NULL) as Ha.
  { eapply heap_wf_live; [exact Hh|]. rewrite Hn, fmap_app. set_solver. }
  unfold vma_avldel, avldel, tree_now. cbn [root compar count]. rewrite E.
  cbn [mbind result_bind fst]. rewrite (proj2 (Z.eqb_neq _ _) Ha). cbn [negb].
  eexists _, _. split; [done|].
  assert (avail (free_node f (hp s)) = avail (hp s) /\ brk (free_node f (hp s)) = brk (hp s) /\
    g_is_dreg_finalize (free_node f (hp s)) = g_is_dreg_finalize (hp s)) as (-> & -> & Eg).
  { unfold free_node. by destruct (_ =? 1). }
  split; [|done]. split; cbn [vma_tree hp db_set_tree root compar count avlcount items].
  - unfold items. cbn [root]. by rewrite D2.
  - done.
  - unfold avlcount in Hc. cbn. rewrite Hc, !length_app. cbn. lia.
  - apply free_node_wf. eapply heap_wf_perm; [|exact Hh]. by rewrite Hn.
  - congruence.
Qed.

(** ** Memory *)

(** [s'] is [s] after at most [k] mallocs and any number of frees of list cells. *)
Record mem_step (s s' : vma_db) (k : nat) : Prop := {
  ms_vmas : vmas s' = vmas s;
  ms_tree : vma_tree s' = vma_tree s;
  ms_free : vma_free_list s' = vma_free_list s;
  ms_avl : avl_free_list (hp s') = avl_free_list (hp s);
  ms_freed : freed (hp s') = freed (hp s);
  ms_run : g_is_dreg_finalize (hp s') = g_is_dreg_finalize (hp s);
  ms_brk : brk (hp s) <= brk (hp s');
  ms_avail : (avail (hp s) <= avail (hp s') + k)%nat }.

Lemma mem_step_refl s : mem_step s s 0.
Proof. split; try done; lia. Qed.

Lemma mem_step_trans s1 s2 s3 j k : mem_step s1 s2 j -> mem_step s2 s3 k -> mem_step s1 s3 (j + k).
Proof. intros [] []. split; try congruence; lia. Qed.

Lemma heap_wf_mono h h' live : avl_free_list h' = avl_free_list h -> freed h' = freed h ->
  brk h <= brk h' -> heap_wf h live -> heap_wf h' live.
Proof.
  unfold heap_wf. intros -> -> Hb (Hnd & HF & H0). split; [done|]. split; [|lia].
  eapply Forall_impl; [exact HF|]. cbn. intros; lia.
Qed.

Lemma tree_rep_step s s' k l : mem_step s s' k -> tree_rep s l -> tree_rep s' l.
Proof.
  intros [] []. split; rewrite ?ms_tree0; try done; [|congruence]. by eapply heap_wf_mono.
Qed.

(** Areas, free ones included, are different pieces of memory. *)
Definition alloc_ok (s : vma_db) (l : list Z) : Prop :=
  NoDup (vma_list :: l ++ vma_free_list s) /\
  Forall (fun a => 0 < a < brk (hp s)) (vma_list :: l ++ vma_free_list s).

Lemma alloc_ok_perm s l l' : l ≡ₚ l' -> alloc_ok s l -> alloc_ok s l'.
Proof. unfold alloc_ok. by intros ->. Qed.

Lemma alloc_ok_step s s' k l : mem_step s s' k -> alloc_ok s l -> alloc_ok s' l.
Proof.
  intros [] [Hnd HF]. unfold alloc_ok. rewrite ms_free0. split; [done|].
  eapply Forall_impl; [exact HF|]. cbn. intros; lia.
Qed.

Lemma alloc_nodup s l : alloc_ok s l -> NoDup (vma_list :: l).
Proof. intros [Hnd _]. rewrite app_comm_cons in Hnd. by apply NoDup_app in Hnd as [? _]. Qed.

Lemma run_malloc s : (1 <= avail (hp s))%nat -> exists s',
  malloc_zeroed s = Ok (brk (hp s), s') /\ brk (hp s') = brk (hp s) + 1 /\ mem_step s s' 1 \/
  brk (hp s) = NULL.
Proof.
  intros Ha. destruct (decide (brk (hp s) = NULL)) as [E|E]; [by exists s; right|].
  destruct (avail (hp s)) as [|n] eqn:En; [lia|]. eexists. left.
  unfold malloc_zeroed. rewrite (st_bind_run malloc _ s (brk (hp s))
    (db_set_free (Heap (avl_free_list (hp s)) (brk (hp s) + 1) n (freed (hp s))
      (g_is_dreg_finalize (hp s))) (vma_free_list s) (entry_free_list s) s)).
  2: { unfold malloc. by rewrite En. }
  rewrite (proj2 (Z.eqb_neq _ _) E). split; [done|]. split; [done|].
  split; cbn; try done; lia.
Qed.

Lemma run_entry_alloc s : 0 < brk (hp s) -> (1 <= avail (hp s))%nat ->
  exists e s', entry_alloc s = Ok (e, s') /\ mem_step s s' 1.
Proof.
  intros Hb Ha. unfold entry_alloc.
  assert (forall s1, mem_step s s1 0 -> exists e s', malloc_zeroed s1 = Ok (e, s') /\ mem_step s s' 1) as Hm.
  { intros s1 H1. pose proof (ms_avail _ _ _ H1). pose proof (ms_brk _ _ _ H1).
    destruct (run_malloc s1) as [s' [(E & _ & H2)|E]]; [lia| |unfold NULL in E; lia].
    eexists _, _. split; [exact E|]. exact (mem_step_trans _ _ _ _ _ H1 H2). }
  destruct (entry_free_list s) as [|e l] eqn:El.
  - rewrite (st_bind_run _ _ s NULL s) by (unfold GET_ENTRY_FREE_LIST; by rewrite El). cbn [Z.eqb NULL].
    destruct (Hm s (mem_step_refl s)) as (e & s' & E & H). eauto.
  - rewrite (st_bind_run _ _ s e (db_set_free (hp s) (vma_free_list s) l s))
      by (unfold GET_ENTRY_FREE_LIST; by rewrite El).
    assert (mem_step s (db_set_free (hp s) (vma_free_list s) l s) 0) as H1 by (split; cbn; try done; lia).
    destruct (e =? NULL); [by apply Hm|]. eexists _, _. split; [done|].
    apply (mem_step_trans _ _ _ _ 1 H1). split; try done; lia.
Qed.

Lemma run_vma_alloc s l : alloc_ok s l -> tree_rep s l -> (1 <= avail (hp s))%nat ->
  exists x s', vma_alloc s = Ok (x, s') /\ x <> NULL /\ x ∉ vma_list :: l /\
    vmas s' = vmas s /\ vma_tree s' = vma_tree s /\ tree_rep s' l /\ alloc_ok s' (x :: l) /\
    (avail (hp s) <= avail (hp s') + 1)%nat.
Proof.
  intros [Hnd HF] Ht Ha. unfold vma_alloc.
  destruct (vma_free_list s) as [|x fl] eqn:El.
  - rewrite (st_bind_run _ _ s NULL s) by (unfold GET_VMA_FREE_LIST; by rewrite El). cbn [Z.eqb NULL].
    assert (0 < brk (hp s)) as Hb by (apply Forall_cons in HF as [? _]; lia).
    destruct (run_malloc s Ha) as [s' [(E & Eb & H1)|E]]; [|unfold NULL in E; lia].
    eexists _, _. split; [exact E|]. split; [unfold NULL; lia|].
    assert (brk (hp s) ∉ vma_list :: l) as Hx.
    { intros Hin. rewrite Forall_forall in HF.
      pose proof (HF (brk (hp s)) ltac:(by rewrite app_nil_r)). lia. }
    split; [done|]. split; [by destruct H1|]. split; [by destruct H1|].
    split; [by eapply tree_rep_step|]. split; [|by destruct H1].
    unfold alloc_ok. rewrite (ms_free _ _ _ H1), El, app_nil_r in *.
    apply not_elem_of_cons in Hx as [Hx1 Hx2]. apply NoDup_cons in Hnd as [Hn1 Hn2]. split.
    + apply NoDup_cons. split; [|by apply NoDup_cons]. by apply not_elem_of_cons.
    + rewrite Eb. apply Forall_cons in HF as [HF0 HF].
      repeat (apply Forall_cons; split); [lia|lia|].
      eapply Forall_impl; [exact HF|]. cbn. intros; lia.
  - assert (0 < x) as Hx.
    { rewrite Forall_forall in HF. apply (HF x). set_solver. }
    rewrite (st_bind_run _ _ s x (db_set_free (hp s) fl (entry_free_list s) s))
      by (unfold GET_VMA_FREE_LIST; by rewrite El).
    rewrite (proj2 (Z.eqb_neq _ _)) by (unfold NULL; lia).
    eexists _, _. split; [done|]. split; [unfold NULL; lia|]. split.
    { rewrite app_comm_cons in Hnd. apply NoDup_app in Hnd as (_ & Hd & _).
      intros Hin. apply (Hd x Hin). by left. }
    split; [done|]. split; [done|]. split; [by destruct Ht|].
    split; [|cbn; lia]. unfold alloc_ok. cbn [vma_free_list db_set_free hp].
    by rewrite <- Permutation_middle in Hnd, HF.
Qed.

Lemma starts_insert s x v l : x ∉ l -> starts s l ->
  starts (db_set_vmas (fun m => <[x := v]> m) s) l.
Proof.
  intros Hx [Hs Hp].
  assert (forall a, a ∈ l -> field (db_set_vmas (fun m => <[x := v]> m) s) v_start a = field s v_start a) as Hf.
  { intros a Ha. unfold field. cbn [vmas db_set_vmas]. rewrite lookup_insert_ne; [done|]. by intros ->. }
  split.
  - clear Hx Hp. induction Hs as [|a l Hs IH HF]; constructor.
    + apply IH. intros b Hb. apply Hf. by right.
    + rewrite Forall_forall in HF |- *. intros b Hb. rewrite !Hf by set_solver. by apply HF.
  - rewrite Forall_forall in Hp |- *. intros a Ha. rewrite Hf by done. by apply Hp.
Qed.

Lemma run_vma_new s l1 l2 start end_ : tree_rep s (l1 ++ l2) -> alloc_ok s (l1 ++ l2) ->
  starts s (l1 ++ l2) -> page start -> Forall (fun a => field s v_start a < start) l1 ->
  Forall (fun a => start < field s v_start a) l2 -> (3 <= avail (hp s))%nat ->
  exists x s', vma_new start end_ s = Ok (x, s') /\ x <> NULL /\ x ∉ vma_list :: l1 ++ l2 /\
    vmas s' = <[x := Vma start end_ [] 0 NULL NULL]> (vmas s) /\
    tree_rep s' (l1 ++ x :: l2) /\ alloc_ok s' (l1 ++ x :: l2) /\
    (avail (hp s) <= avail (hp s') + 3)%nat.
Proof.
  intros Ht Hal Hst Hpg L1 L2 Hav. unfold vma_new. cbn [andb truth rdma_dreg_cache_limit].
  change (truth rdma_dreg_cache_limit) with false. cbn [andb].
  destruct (run_vma_alloc s _ Hal Ht) as (x & s1 & E1 & Hx0 & Hx & Hv1 & Et1 & Ht1 & Hal1 & Ha1); [lia|].
  rewrite (st_bind_run _ _ _ _ _ E1). set (v := Vma start end_ [] 0 NULL NULL).
  set (s2 := db_set_vmas (fun m => <[x := v]> m) s1).
  rewrite (st_bind_run _ _ s1 tt s2) by done.
  apply not_elem_of_cons in Hx as [Hx1 Hx2].
  assert (starts s2 (l1 ++ l2)) as Hst2.
  { apply starts_insert; [done|]. unfold starts, field in Hst |- *. by rewrite Hv1. }
  assert (forall a, a ∈ l1 ++ l2 -> field s2 v_start a = field s v_start a) as Hf.
  { intros a Ha. unfold field. cbn [s2 vmas db_set_vmas]. rewrite Hv1, lookup_insert_ne; [done|].
    by intros ->. }
  assert (field s2 v_start x = start) as Hfx.
  { unfold field. cbn [s2 vmas db_set_vmas]. by rewrite lookup_insert_eq. }
  destruct (avlins_tree s2 l1 x l2) as (t & h & E2 & Ht2 & Ha2 & Hb2); [by destruct Ht1|done|..].
  { by rewrite Hfx. }
  { rewrite Hfx. rewrite Forall_forall in L1 |- *. intros a Ha. rewrite Hf by set_solver. by apply L1. }
  { rewrite Hfx. rewrite Forall_forall in L2 |- *. intros a Ha. rewrite Hf by set_solver. by apply L2. }
  { cbn [s2 hp db_set_vmas]. lia. }
  rewrite (st_bind_run _ _ _ _ _ E2). eexists x, _.
  split; [by unfold st_get, st_set, mbind, ST_bind|]. split; [done|]. split; [set_solver|].
  cbn [vmas db_set_pinned db_set_tree s2 db_set_vmas]. split; [by rewrite Hv1|].
  split; [by destruct Ht2|]. split; [|cbn [hp db_set_pinned db_set_tree s2 db_set_vmas] in *; lia].
  apply (alloc_ok_perm _ (x :: l1 ++ l2)); [apply Permutation_middle|].
  unfold alloc_ok in *. cbn [vma_free_list db_set_pinned db_set_tree s2 db_set_vmas hp] in *.
  destruct Hal1 as [Hnd HF]. split; [done|]. eapply Forall_impl; [exact HF|]. cbn. intros; lia.
Qed.

(** ** Linking *)

(** [s'] is [s] with links of areas changed. *)
Record relink (s s' : vma_db) : Prop := {
  rl_body : forall a, body_at s' a = body_at s a;
  rl_rest : s' = db_set_vmas (fun _ => vmas s') s }.

Lemma relink_updf s a f : (forall v, body (f v) = body v) -> relink s (updf a f s).
Proof. intros H. split; [intros b; by apply body_updf_link|done]. Qed.

Lemma relink_refl s : relink s s.
Proof. split; [done|]. by destruct s. Qed.

Lemma relink_trans s1 s2 s3 : relink s1 s2 -> relink s2 s3 -> relink s1 s3.
Proof. intros [H1 H2] [H3 H4]. split; [intros; congruence|]. rewrite H4, H2. done. Qed.

Lemma body_present s a b : body_at s a = Some b -> present s a.
Proof. unfold body_at, present. destruct (vmas s !! a); by eauto. Qed.

Lemma field_set_next s a x : present s a -> field (updf a (v_set_next x) s) v_next a = x.
Proof. intros H. by destruct (field_updf_eq s a (v_set_next x) v_next H) as (v & _ & ->). Qed.
Lemma field_set_prev s a x : present s a -> field (updf a (v_set_prev x) s) v_prev a = x.
Proof. intros H. by destruct (field_updf_eq s a (v_set_prev x) v_prev H) as (v & _ & ->). Qed.

Lemma run_field {A} s a (k : vma_t -> ST vma_db A) : present s a ->
  exists v, vmas s !! a = Some v /\ (get_vma a ≫= k) s = k v s.
Proof. intros [v E]. exists v. split; [done|]. by rewrite (st_bind_run _ _ _ _ _ (run_get_vma _ _ _ E)). Qed.

Lemma field_eq s a v f : vmas s !! a = Some v -> f v = field s f a.
Proof. unfold field. by intros ->. Qed.

Ltac fields :=
  repeat first
    [ rewrite field_set_next by (rewrite ?present_updf; done)
    | rewrite field_set_prev by (rewrite ?present_updf; done)
    | rewrite (field_updf_other _ _ (v_set_next _) v_prev) by done
    | rewrite (field_updf_other _ _ (v_set_prev _) v_next) by done
    | rewrite (field_updf_other _ _ (v_set_end _)) by done
    | rewrite field_updf_ne by congruence ].

Ltac run_upds :=
  repeat (erewrite st_bind_run by (apply run_upd_vma; rewrite ?present_updf; done));
  rewrite ?run_upd_vma by (rewrite ?present_updf; done).

Lemma ring_present c l1 l2 s : (forall a, a ∈ c :: l1 ++ l2 -> present s a) ->
  present s (List.last l1 c) /\ present s (hd c l2).
Proof.
  intros H. split.
  - destruct l1 as [|a l1] using rev_ind; [by apply H; left|]. rewrite List.last_last. apply H. set_solver.
  - destruct l2; apply H; set_solver.
Qed.

Lemma ring_in (c : Z) l1 l2 : List.last l1 c ∈ c :: l1 ++ l2 /\ hd c l2 ∈ c :: l1 ++ l2.
Proof.
  split; [|destruct l2; set_solver].
  destruct l1 as [|a l1] using rev_ind; [by left|]. rewrite List.last_last. set_solver.
Qed.

Lemma run_link_before s c l1 l2 x : NoDup (c :: l1 ++ l2) -> x ∉ c :: l1 ++ l2 ->
  (forall a, a ∈ c :: l1 ++ l2 -> present s a) -> present s x -> path s c (l1 ++ l2) c ->
  exists s', link_before x (hd c l2) s = Ok (tt, s') /\ relink s s' /\ path s' c (l1 ++ x :: l2) c.
Proof.
  intros Hnd Hx Hpr Hpx Hpath. destruct (ring_present _ _ _ _ Hpr) as [Pp Pq].
  destruct (path_next _ _ _ _ _ Hpath) as [Hn Hp]. destruct (ring_in c l1 l2) as [Ip Iq].
  assert (x <> List.last l1 c) as Xp by (by intros ->).
  assert (x <> hd c l2) as Xq by (by intros ->).
  unfold link_before. set (q := hd c l2) in *. set (p := List.last l1 c) in *.
  rewrite (st_bind_run _ _ _ _ _ (run_upd_vma s x _ Hpx)).
  destruct (run_field (updf x (v_set_next q) s) q (fun iv => (_ ← upd_vma x (v_set_prev (v_prev iv));
    _ ← upd_vma (v_prev iv) (v_set_next x); upd_vma q (v_set_prev x)))) as (iv & Eiv & ->).
  { by apply present_updf. }
  rewrite (field_eq _ _ _ v_prev Eiv).
  assert (field (updf x (v_set_next q) s) v_prev q = p) as -> by (fields; done).
  run_upds.
  eexists. split; [done|]. split.
  { repeat (eapply relink_trans; [|by apply relink_updf]). apply relink_refl. }
  apply (ring_link s _ c l1 x l2 Hnd Hx); fold p q.
  - intros a Ha1 Ha2. fields. done.
  - intros a Ha1 Ha2. fields. done.
  - split; cbn [fst snd]; fields; done.
  - split; cbn [fst snd]; fields; done.
  - done.
Qed.

Lemma run_link_after s c l1 l2 x : NoDup (c :: l1 ++ l2) -> x ∉ c :: l1 ++ l2 ->
  (forall a, a ∈ c :: l1 ++ l2 -> present s a) -> present s x -> path s c (l1 ++ l2) c ->
  exists s', link_after x (List.last l1 c) s = Ok (tt, s') /\ relink s s' /\
    path s' c (l1 ++ x :: l2) c.
Proof.
  intros Hnd Hx Hpr Hpx Hpath. destruct (ring_present _ _ _ _ Hpr) as [Pp Pq].
  destruct (path_next _ _ _ _ _ Hpath) as [Hn Hp]. destruct (ring_in c l1 l2) as [Ip Iq].
  assert (x <> List.last l1 c) as Xp by (by intros ->).
  assert (x <> hd c l2) as Xq by (by intros ->).
  unfold link_after. set (q := hd c l2) in *. set (p := List.last l1 c) in *.
  destruct (run_field s p (fun iv => (_ ← upd_vma x (v_set_next (v_next iv));
    _ ← upd_vma x (v_set_prev p); _ ← upd_vma (v_next iv) (v_set_prev x);
    upd_vma p (v_set_next x))) Pp) as (iv & Eiv & ->).
  rewrite (field_eq _ _ _ v_next Eiv), Hn.
  run_upds.
  eexists. split; [done|]. split.
  { repeat (eapply relink_trans; [|by apply relink_updf]). apply relink_refl. }
  apply (ring_link s _ c l1 x l2 Hnd Hx); fold p q.
  - intros a Ha1 Ha2. fields. done.
  - intros a Ha1 Ha2. fields. done.
  - split; cbn [fst snd]; fields; done.
  - split; cbn [fst snd]; fields; done.
  - done.
Qed.
