(* ===== verification/VmaRep.v ===== *)
(** * The areas the page database holds (about Vma.v)

    A state of the page database represents a list of areas in the order of their pages.
    What the steps of dreg_insert and dreg_remove do to the list: an area gets or loses a
    registration, a new one is made, one is split, dropped or merged with the next. *)
From stdpp Require Import gmap sorting.
From S2P Require Import Prelude Avl Vma VmaMem.

(** ** Areas *)

Record area : Type := Area { a_addr : Z; a_start : Z; a_end : Z; a_regs : list Z }.

Definition addrs (l : list area) : list Z := a_addr <$> l.
Definition with_regs (rs : list Z) (ar : area) := Area (a_addr ar) (a_start ar) (a_end ar) rs.
Definition with_end (e : Z) (ar : area) := Area (a_addr ar) (a_start ar) e (a_regs ar).

Definition holds (s : vma_db) (ar : area) : Prop := exists cells,
  body_at s (a_addr ar) = Some (a_start ar, a_end ar, cells, Z.of_nat (length cells)) /\
  cells.*2 = a_regs ar.

Definition area_pages (ar : area) : Prop := 1 <= a_start ar <= a_end ar /\ a_end ar < 2 ^ 62.

Definition in_order (l : list area) : Prop :=
  StronglySorted (fun a b => a_end a < a_start b) l /\ Forall area_pages l.

Record db_rep (s : vma_db) (l : list area) : Prop := {
  r_tree : tree_rep s (addrs l);
  r_alloc : alloc_ok s (addrs l);
  r_ring : path s vma_list (addrs l) vma_list;
  r_sentinel : body_at s vma_list = Some (0, 0, [], 0);
  r_holds : Forall (holds s) l;
  r_order : in_order l }.

Lemma addrs_app l1 l2 : addrs (l1 ++ l2) = addrs l1 ++ addrs l2.
Proof. apply fmap_app. Qed.

Lemma in_order_app l1 l2 : in_order (l1 ++ l2) <->
  in_order l1 /\ in_order l2 /\ forall a b, a ∈ l1 -> b ∈ l2 -> a_end a < a_start b.
Proof. unfold in_order. rewrite StronglySorted_app, Forall_app. naive_solver. Qed.

Lemma in_order_cons a l : in_order (a :: l) <->
  area_pages a /\ in_order l /\ forall b, b ∈ l -> a_end a < a_start b.
Proof.
  unfold in_order. rewrite Forall_cons. split.
  - intros [[Hs HF]%StronglySorted_inv ?]. rewrite Forall_forall in HF. naive_solver.
  - intros (? & [? ?] & ?). split; [|done]. constructor; [done|]. by apply Forall_forall.
Qed.

(** What the structure of an area at an address says of its fields. *)
Lemma body_fields s a st en c n : body_at s a = Some (st, en, c, n) ->
  exists v, vmas s !! a = Some v /\ v_start v = st /\ v_end v = en /\ v_list v = c /\
    list_count v = n /\ field s v_start a = st /\ field s v_end a = en.
Proof.
  unfold body_at, field, body. destruct (vmas s !! a) as [v|]; [|done]. cbn.
  intros [= <- <- <- <-]. by exists v.
Qed.

Lemma holds_fields s ar : holds s ar -> exists v, vmas s !! a_addr ar = Some v /\
  v_start v = a_start ar /\ v_end v = a_end ar /\ (v_list v).*2 = a_regs ar /\
  list_count v = Z.of_nat (length (a_regs ar)) /\
  field s v_start (a_addr ar) = a_start ar /\ field s v_end (a_addr ar) = a_end ar.
Proof.
  intros (cells & E & Hc). destruct (body_fields _ _ _ _ _ _ E) as (v & Ev & ? & ? & Hl & ? & ? & ?).
  exists v. rewrite Hl. split; [done|]. rewrite <- Hc, length_fmap. done.
Qed.

Lemma rep_present s l : db_rep s l -> forall a, a ∈ vma_list :: addrs l -> present s a.
Proof.
  intros [_ _ _ Hs Hh _] a [->|Ha]%elem_of_cons; [by eapply body_present|].
  apply list_elem_of_fmap in Ha as (ar & -> & Har). rewrite Forall_forall in Hh.
  destruct (Hh ar Har) as (c & E & _). by eapply body_present.
Qed.

Lemma starts_of s l : Forall (holds s) l -> in_order l -> starts s (addrs l).
Proof.
  intros Hh [Hs Hp]. split.
  - apply sorted_fmap. clear -Hh Hs Hp. induction Hs as [|a l Hs IH HF]; constructor.
    + apply Forall_cons in Hh as [_ ?], Hp as [_ ?]. by apply IH.
    + apply Forall_cons in Hh as [Ha Hh], Hp as [Pa _]. rewrite Forall_forall in HF, Hh |- *.
      intros b Hb. destruct (holds_fields _ _ Ha) as (_ & _ & _ & _ & _ & _ & -> & _).
      destruct (holds_fields _ _ (Hh b Hb)) as (_ & _ & _ & _ & _ & _ & -> & _).
      specialize (HF b Hb). destruct Pa. lia.
  - apply Forall_fmap. rewrite Forall_forall in Hh, Hp |- *. intros a Ha. cbn.
    destruct (holds_fields _ _ (Hh a Ha)) as (_ & _ & _ & _ & _ & _ & -> & _).
    destruct (Hp a Ha). unfold page. lia.
Qed.

Lemma rep_starts s l : db_rep s l -> starts s (addrs l).
Proof. intros []. by apply starts_of. Qed.

Lemma rep_nodup s l : db_rep s l -> NoDup (vma_list :: addrs l).
Proof. intros []. by eapply alloc_nodup. Qed.

(** Steps that change neither the areas nor the tree. *)
Lemma rep_step s s' k l : mem_step s s' k -> db_rep s l -> db_rep s' l.
Proof.
  intros Hm [Ht Ha Hr Hs Hh Ho]. pose proof (ms_vmas _ _ _ Hm) as Ev.
  assert (forall a, body_at s' a = body_at s a) as Hb by (intros a; unfold body_at; by rewrite Ev).
  split; [by eapply tree_rep_step|by eapply alloc_ok_step| |by rewrite Hb| |done].
  - eapply path_frame; [..|exact Hr]; intros a _; unfold field; by rewrite Ev.
  - eapply Forall_impl; [exact Hh|]. intros ar (c & E & Hc). exists c. by rewrite Hb.
Qed.

Lemma tree_rep_updf s a f l : tree_rep s l -> tree_rep (updf a f s) l.
Proof. by intros []. Qed.

Lemma tree_rep_ext s s' l : vma_tree s' = vma_tree s -> hp s' = hp s -> tree_rep s l -> tree_rep s' l.
Proof. intros E1 E2 []. split; by rewrite ?E1, ?E2. Qed.

Lemma alloc_ok_ext s s' l : vma_free_list s' = vma_free_list s -> hp s' = hp s ->
  alloc_ok s l -> alloc_ok s' l.
Proof. unfold alloc_ok. by intros -> ->. Qed.

(** An area gets another body. *)
Lemma rep_update s l1 ar l2 f ar' : db_rep s (l1 ++ ar :: l2) -> a_addr ar' = a_addr ar ->
  (forall v, v_next (f v) = v_next v /\ v_prev (f v) = v_prev v) ->
  holds (updf (a_addr ar) f s) ar' -> in_order (l1 ++ ar' :: l2) ->
  db_rep (updf (a_addr ar) f s) (l1 ++ ar' :: l2).
Proof.
  intros Hrep Ea Hf Hh' Ho'. pose proof (rep_nodup _ _ Hrep) as Hnd.
  destruct Hrep as [Ht Ha Hr Hs Hh Ho].
  assert (addrs (l1 ++ ar' :: l2) = addrs (l1 ++ ar :: l2)) as Eas.
  { rewrite !addrs_app. cbn. by rewrite Ea. }
  assert (forall a, a <> a_addr ar -> body_at (updf (a_addr ar) f s) a = body_at s a) as Hb.
  { intros a Hne. by apply body_updf_ne. }
  rewrite addrs_app in Hnd. change (addrs (ar :: l2)) with (a_addr ar :: addrs l2) in Hnd.
  apply NoDup_cons in Hnd as [Hc Hnd]. rewrite <- Permutation_middle in Hnd.
  apply NoDup_cons in Hnd as [Har _].
  assert (forall b, b ∈ l1 ++ l2 -> holds s b -> holds (updf (a_addr ar) f s) b) as Hk.
  { intros b Hb' (c & E & Hcs). exists c. rewrite Hb; [done|]. intros E'.
    apply Har. rewrite <- E', <- addrs_app. by apply list_elem_of_fmap_2. }
  split; rewrite ?Eas; try done.
  - by apply tree_rep_updf.
  - eapply path_frame; [..|exact Hr]; intros a _; apply field_updf_other; intros v; apply Hf.
  - rewrite Hb; [done|]. intros E. apply Hc. rewrite E. set_solver.
  - apply Forall_app in Hh as [H1 H2]. apply Forall_cons in H2 as [_ H2].
    rewrite Forall_forall in H1, H2. apply Forall_app. split; [|constructor; [done|]];
      apply Forall_forall; intros b Hin; (apply Hk; [set_solver|]); auto.
Qed.

Lemma run_put_vma s a v f : vmas s !! a = Some v -> put_vma a (f v) s = Ok (tt, updf a f s).
Proof.
  intros E. pose proof (run_upd_vma s a f (ex_intro _ _ E)) as H. unfold upd_vma in H.
  by rewrite (st_bind_run _ _ _ _ _ (run_get_vma _ _ _ E)) in H.
Qed.

Lemma holds_at s l1 ar l2 : db_rep s (l1 ++ ar :: l2) -> holds s ar.
Proof. intros []. apply Forall_app in r_holds0 as [_ H]. by apply Forall_cons in H as [? _]. Qed.

Lemma body_updf_eq s a v f : vmas s !! a = Some v -> body_at (updf a f s) a = Some (body (f v)).
Proof. intros E. unfold body_at, updf. cbn [vmas db_set_vmas]. by rewrite lookup_alter_eq, E. Qed.

Lemma in_order_same l1 ar ar' l2 : a_start ar' = a_start ar -> a_end ar' = a_end ar ->
  in_order (l1 ++ ar :: l2) -> in_order (l1 ++ ar' :: l2).
Proof.
  intros E1 E2. rewrite !in_order_app, !in_order_cons. unfold area_pages. rewrite E1, E2.
  intros (H1 & H2 & H5). split; [done|]. split; [done|].
  intros a b Ha Hb. apply elem_of_cons in Hb as [->|Hb].
  - rewrite E1. apply H5; [done|by left].
  - apply H5; [done|by right].
Qed.

(** ** Lists of registrations *)

Section regs.
Context (regs : gmap Z dreg_entry).

Fixpoint ins (r : Z) (l : list Z) : list Z :=
  match l with
  | [] => [r]
  | c :: l' => if 0 <? compare_dregs regs c r then c :: ins r l' else r :: l
  end.

Fixpoint del (r : Z) (l : list Z) : list Z :=
  match l with
  | [] => []
  | c :: l' => if c =? r then l' else c :: del r l'
  end.

Lemma insert_sorted_regs e r l : (insert_sorted regs e r l).*2 = ins r l.*2.
Proof.
  induction l as [|c l IH]; [done|]. cbn. destruct (0 <? _); [|done]. cbn. by rewrite IH.
Qed.

Lemma length_insert_sorted e r l : length (insert_sorted regs e r l) = S (length l).
Proof. induction l as [|c l IH]; [done|]. cbn. destruct (0 <? _); cbn; by rewrite ?IH. Qed.

Lemma unlink_regs r l : match unlink r l with
  | Some (e, l') => r ∈ l.*2 /\ l'.*2 = del r l.*2 /\ S (length l') = length l
  | None => r ∉ l.*2 /\ del r l.*2 = l.*2
  end.
Proof.
  induction l as [|c l IH]; [cbn; split; [apply not_elem_of_nil|done]|].
  cbn [unlink fmap list_fmap]. cbn [del].
  destruct (Z.eqb_spec c.2 r) as [->|Hne]; [split; [by left|done]|].
  destruct (unlink r l) as [[e l']|]; cbn [fmap list_fmap length].
  - destruct IH as (H & -> & <-). split; [by right|done].
  - destruct IH as (H & ->). split; [|done]. apply not_elem_of_cons. by split.
Qed.

(** The area at [ar] gets the registration [r]. *)
Lemma run_add_entry s l1 ar l2 r : db_rep s (l1 ++ ar :: l2) ->
  Z.of_nat (length (a_regs ar)) + 1 < 2 ^ 64 -> (1 <= avail (hp s))%nat ->
  exists s', add_entry regs (a_addr ar) r s = Ok (tt, s') /\
    db_rep s' (l1 ++ with_regs (ins r (a_regs ar)) ar :: l2) /\
    (avail (hp s) <= avail (hp s') + 1)%nat.
Proof.
  intros Hrep Hlen Hav. unfold add_entry.
  assert (0 < brk (hp s)) as Hb.
  { destruct (r_alloc _ _ Hrep) as [_ HF]. apply Forall_cons in HF as [? _]. lia. }
  destruct (run_entry_alloc s Hb Hav) as (e & s1 & E1 & Hm).
  rewrite (st_bind_run _ _ _ _ _ E1). pose proof (rep_step _ _ _ _ Hm Hrep) as Hrep1.
  destruct (holds_fields _ _ (holds_at _ _ _ _ Hrep1)) as (v & Ev & Hst & Hen & Hl & Hn & _).
  rewrite (st_bind_run _ _ _ _ _ (run_get_vma _ _ _ Ev)).
  rewrite (run_put_vma s1 _ v (fun v => v_set_list (insert_sorted regs e r (v_list v))
    (u64 (list_count v + 1)) v) Ev).
  eexists. split; [done|]. split; [|exact (ms_avail _ _ _ Hm)].
  eapply rep_update; [exact Hrep1|done|by intros []| |].
  - eexists. cbn [a_addr with_regs]. rewrite (body_updf_eq _ _ _ _ Ev).
    unfold body. cbn [v_set_list v_start v_end v_list list_count a_start a_end a_regs with_regs].
    rewrite Hst, Hen, Hn, u64_small, length_insert_sorted, insert_sorted_regs, Hl by lia.
    rewrite <- Hl, length_fmap. split; [|done]. do 2 f_equal. lia.
  - eapply in_order_same; [..|by destruct Hrep]; done.
Qed.

Lemma run_entry_release e s : g_is_dreg_finalize (hp s) <> 1 ->
  exists s', entry_release e s = Ok (tt, s') /\ mem_step s s' 0 /\ avail (hp s') = avail (hp s).
Proof.
  intros Hg. unfold entry_release, st_set. eexists. split; [done|].
  rewrite (proj2 (Z.eqb_neq _ _) Hg). split; [split; cbn; try done; lia|done].
Qed.

(** The area at [ar] loses it. *)
Lemma run_remove_entry s l1 ar l2 r : db_rep s (l1 ++ ar :: l2) ->
  Z.of_nat (length (a_regs ar)) < 2 ^ 64 ->
  exists s', remove_entry (a_addr ar) r s = Ok (tt, s') /\
    db_rep s' (l1 ++ with_regs (del r (a_regs ar)) ar :: l2).
Proof.
  intros Hrep Hlen. unfold remove_entry.
  destruct (holds_fields _ _ (holds_at _ _ _ _ Hrep)) as (v & Ev & Hst & Hen & Hl & Hn & _).
  rewrite (st_bind_run _ _ _ _ _ (run_get_vma _ _ _ Ev)).
  pose proof (unlink_regs r (v_list v)) as Hu. rewrite Hl in Hu.
  destruct (unlink r (v_list v)) as [[e l]|].
  - destruct Hu as (Hin & Hd & Hll).
    erewrite st_bind_run by (by apply (run_put_vma s _ v (fun w => v_set_list l (list_count v) w))).
    set (f1 := fun w => v_set_list l (list_count v) w). set (s1 := updf _ f1 s).
    destruct (run_entry_release e s1) as (s2 & E2 & Hm & _); [apply Hrep|].
    rewrite (st_bind_run _ _ _ _ _ E2).
    set (f2 := fun w => v_set_list (v_list w) (u64 (list_count w - 1)) w).
    assert (present s1 (a_addr ar)) as Hp1 by (apply present_updf; by exists v).
    rewrite run_upd_vma by (unfold present; by rewrite (ms_vmas _ _ _ Hm)).
    eexists. split; [done|].
    assert (db_rep (updf (a_addr ar) (f2 ∘ f1) s) (l1 ++ with_regs (del r (a_regs ar)) ar :: l2)) as HR.
    { eapply rep_update; [exact Hrep|done|by intros []| |].
      - exists l. cbn [a_addr with_regs]. rewrite (body_updf_eq _ _ _ _ Ev). unfold body, f1, f2.
        cbn [compose v_set_list v_start v_end v_list list_count a_start a_end a_regs with_regs].
        rewrite Hst, Hen, Hn. split; [|done]. do 2 f_equal.
        rewrite <- Hl, length_fmap, <- Hll. rewrite u64_small; [lia|].
        rewrite <- Hl, length_fmap in Hlen. lia.
      - eapply in_order_same; [..|by destruct Hrep]; done. }
    eapply (rep_step (updf (a_addr ar) (f2 ∘ f1) s) _ 0); [|exact HR].
    destruct Hm as [M1 M2 M3 M4 M5 M6 M7 M8].
    split; try assumption. change (alter f2 (a_addr ar) (vmas s2) =
      alter (f2 ∘ f1) (a_addr ar) (vmas s)). rewrite M1.
    change (vmas s1) with (alter f1 (a_addr ar) (vmas s)). by rewrite alter_alter_eq.
  - destruct Hu as (_ & Hd). eexists. split; [done|]. rewrite Hd. by destruct ar.
Qed.

(** ** Areas come and go *)

Lemma in_order_insert l1 n l2 : in_order (l1 ++ l2) -> area_pages n ->
  (forall a, a ∈ l1 -> a_end a < a_start n) -> (forall b, b ∈ l2 -> a_end n < a_start b) ->
  in_order (l1 ++ n :: l2).
Proof.
  rewrite !in_order_app, in_order_cons. intros (H1 & H2 & H3) Hn Ha Hb.
  split; [done|]. split; [done|]. intros a b Hin [->|Hb']%elem_of_cons; auto.
Qed.

Lemma in_order_drop l1 n l2 : in_order (l1 ++ n :: l2) -> in_order (l1 ++ l2).
Proof.
  rewrite !in_order_app, in_order_cons. intros (H1 & (H2 & H3 & H4) & H5).
  split; [done|]. split; [done|]. intros a b Hin Hb. apply H5; [done|by right].
Qed.

(** A state that differs from a represented one in the links and in an area [x] outside. *)
Lemma rep_body s s' l x v : db_rep s l -> x ∉ vma_list :: addrs l ->
  vmas s' = <[x := v]> (vmas s) ->
  (forall a, a ∈ vma_list :: addrs l -> body_at s' a = body_at s a) /\
  (forall a f, a ∈ vma_list :: addrs l -> field s' f a = field s f a) /\ body_at s' x = Some (body v).
Proof.
  intros Hrep Hx Ev. unfold body_at, field. rewrite Ev.
  split; [|split; [|by rewrite lookup_insert_eq]]; intros a; intros;
    rewrite lookup_insert_ne; try done; by intros ->.
Qed.

Lemma holds_ext s s' l : (forall a, a ∈ addrs l -> body_at s' a = body_at s a) ->
  Forall (holds s) l -> Forall (holds s') l.
Proof.
  rewrite !Forall_forall. intros Hb H ar Har. destruct (H ar Har) as (c & E & Hc). exists c.
  rewrite Hb; [done|]. by apply list_elem_of_fmap_2.
Qed.

(** A fresh area [x], linked in at its place. *)
Lemma rep_linked s s1 s2 l1 l2 x start end_ : db_rep s (l1 ++ l2) ->
  x ∉ vma_list :: addrs (l1 ++ l2) -> vmas s1 = <[x := Vma start end_ [] 0 NULL NULL]> (vmas s) ->
  tree_rep s1 (addrs l1 ++ x :: addrs l2) -> alloc_ok s1 (addrs l1 ++ x :: addrs l2) ->
  relink s1 s2 -> path s2 vma_list (addrs l1 ++ x :: addrs l2) vma_list ->
  in_order (l1 ++ Area x start end_ [] :: l2) -> db_rep s2 (l1 ++ Area x start end_ [] :: l2).
Proof.
  intros Hrep Hx Ev Ht Ha [Rb Rr] Hp Ho.
  destruct (rep_body _ _ _ _ _ Hrep Hx Ev) as (Hb & _ & Hbx).
  assert (addrs (l1 ++ Area x start end_ [] :: l2) = addrs l1 ++ x :: addrs l2) as Ea
    by apply addrs_app.
  split; rewrite ?Ea; try done.
  - rewrite Rr. by destruct Ht.
  - by rewrite Rr.
  - rewrite Rb, Hb by (by left). by destruct Hrep.
  - assert (forall a, a ∈ addrs (l1 ++ l2) -> body_at s2 a = body_at s a) as Hb2.
    { intros a Ha'. rewrite Rb. apply Hb. by right. }
    pose proof (holds_ext _ _ _ Hb2 (r_holds _ _ Hrep)) as [H1 H2]%Forall_app.
    apply Forall_app. split; [done|]. constructor; [|done].
    exists []. cbn [a_addr a_start a_end a_regs]. by rewrite Rb, Hbx.
Qed.

(** An area is made and put in the tree, not yet in the list. *)
Lemma run_new_detached s l1 l2 start end_ : db_rep s (l1 ++ l2) -> page start ->
  (forall a, a ∈ l1 -> a_start a < start) -> (forall b, b ∈ l2 -> start < a_start b) ->
  (3 <= avail (hp s))%nat ->
  exists x s1, vma_new start end_ s = Ok (x, s1) /\ x <> NULL /\ x ∉ vma_list :: addrs (l1 ++ l2) /\
    vmas s1 = <[x := Vma start end_ [] 0 NULL NULL]> (vmas s) /\
    tree_rep s1 (addrs l1 ++ x :: addrs l2) /\ alloc_ok s1 (addrs l1 ++ x :: addrs l2) /\
    path s1 vma_list (addrs (l1 ++ l2)) vma_list /\ (avail (hp s) <= avail (hp s1) + 3)%nat.
Proof.
  intros Hrep Hs H1 H2 Hav.
  assert (forall a, a ∈ l1 ++ l2 -> field s v_start (a_addr a) = a_start a) as Hf.
  { intros a Ha. pose proof (r_holds _ _ Hrep) as Hh. rewrite Forall_forall in Hh.
    by destruct (holds_fields _ _ (Hh a Ha)) as (_ & _ & _ & _ & _ & _ & ? & _). }
  pose proof (rep_starts _ _ Hrep) as Hst. rewrite addrs_app in Hst.
  destruct (run_vma_new s (addrs l1) (addrs l2) start end_) as
    (x & s1 & E1 & Hx0 & Hx & Ev & Ht & Ha & Hav1);
    [by rewrite <- addrs_app; destruct Hrep..|done|done| | |done|].
  { apply Forall_fmap, Forall_forall. intros a Ha. cbn. rewrite Hf by set_solver. by apply H1. }
  { apply Forall_fmap, Forall_forall. intros a Ha. cbn. rewrite Hf by set_solver. by apply H2. }
  rewrite <- addrs_app in Hx. exists x, s1. split_and!; try done.
  destruct (rep_body _ _ _ _ _ Hrep Hx Ev) as (_ & Hfl & _).
  eapply path_frame; [..|apply Hrep]; intros a Ha'; apply Hfl; set_solver.
Qed.

(** The area for pages no registration covered. *)
Lemma run_new_area s l1 l2 start end_ i : db_rep s (l1 ++ l2) -> i = hd vma_list (addrs l2) ->
  1 <= start <= end_ -> end_ < 2 ^ 62 -> (forall a, a ∈ l1 -> a_end a < start) ->
  (forall b, b ∈ l2 -> end_ < a_start b) -> (3 <= avail (hp s))%nat ->
  exists x s1 s2, vma_new start end_ s = Ok (x, s1) /\ x <> NULL /\
    link_before x i s1 = Ok (tt, s2) /\ db_rep s2 (l1 ++ Area x start end_ [] :: l2) /\
    (avail (hp s) <= avail (hp s2) + 3)%nat.
Proof.
  intros Hrep -> Hse He H1 H2 Hav.
  pose proof (rep_nodup _ _ Hrep) as Hnd. pose proof (rep_present _ _ Hrep) as Hpr.
  pose proof (r_order _ _ Hrep) as Ho.
  destruct (run_new_detached s l1 l2 start end_) as
    (x & s1 & E1 & Hx0 & Hx & Ev & Ht & Ha & Hp & Hav1); [done|unfold page; lia| | |done|].
  { intros a Ha. apply in_order_app in Ho as ([_ Hp] & _). rewrite Forall_forall in Hp.
    destruct (Hp a Ha). specialize (H1 a Ha). lia. }
  { intros a Ha. specialize (H2 a Ha). lia. }
  destruct (rep_body _ _ _ _ _ Hrep Hx Ev) as (Hb & Hfl & Hbx). rewrite !addrs_app in *.
  destruct (run_link_before s1 vma_list (addrs l1) (addrs l2) x) as (s2 & E2 & Hrl & Hp2);
    [done|done| |by eapply body_present|done|].
  { intros a Ha'. destruct (Hpr a Ha') as [w Ew]. eapply body_present. rewrite Hb by done.
    unfold body_at. by rewrite Ew. }
  exists x, s1, s2. split; [done|]. split; [done|]. split; [done|]. split.
  - eapply rep_linked; try done; [by rewrite addrs_app|by apply in_order_insert].
  - destruct Hrl as [_ ->]. done.
Qed.

Lemma run_copy_cells l : forall s, 0 < brk (hp s) -> (length l <= avail (hp s))%nat ->
  exists l' s', copy_cells l s = Ok (l', s') /\ l'.*2 = l.*2 /\ mem_step s s' (length l).
Proof.
  induction l as [|[c r] l IH]; intros s Hb Ha; cbn [copy_cells length] in *.
  - exists [], s. split; [done|]. split; [done|]. apply mem_step_refl.
  - destruct (run_entry_alloc s Hb) as (e & s1 & E1 & H1); [lia|].
    rewrite (st_bind_run _ _ _ _ _ E1).
    pose proof (ms_brk _ _ _ H1). pose proof (ms_avail _ _ _ H1).
    destruct (IH s1) as (l' & s2 & E2 & Hl & H2); [lia..|].
    rewrite (st_bind_run _ _ _ _ _ E2). eexists _, _. split; [done|].
    split; [cbn; by rewrite Hl|]. exact (mem_step_trans _ _ _ _ _ H1 H2).
Qed.

Lemma run_copy_list s x i cells st en n : x <> i -> body_at s i = Some (st, en, cells, n) ->
  present s x -> 0 < brk (hp s) -> (length cells <= avail (hp s))%nat ->
  exists l' s', copy_list x i s = Ok (tt, updf x (v_set_list l' n) s') /\ l'.*2 = cells.*2 /\
    mem_step s s' (length cells).
Proof.
  intros Hne Hb Hx Hbrk Hav. destruct (body_fields _ _ _ _ _ _ Hb) as (v & Ev & _ & _ & Hl & Hn & _).
  unfold copy_list. rewrite (st_bind_run _ _ _ _ _ (run_get_vma _ _ _ Ev)), Hl, Hn.
  destruct (run_copy_cells cells s Hbrk Hav) as (l' & s' & E & Hl' & Hm).
  rewrite (st_bind_run _ _ _ _ _ E). exists l', s'. split; [|done].
  apply run_upd_vma. unfold present. by rewrite (ms_vmas _ _ _ Hm).
Qed.

(** The last steps of a split link the new area. *)
Lemma split_linked s s1 s3 l1 ar l2 x e n l' k v :
  db_rep s ((l1 ++ [ar]) ++ l2) -> x ∉ vma_list :: addrs ((l1 ++ [ar]) ++ l2) ->
  vmas s1 = <[x := v]> (vmas s) -> path s1 vma_list (addrs ((l1 ++ [ar]) ++ l2)) vma_list ->
  mem_step (updf (a_addr ar) (v_set_end e) s1) s3 k ->
  exists s4, link_after x (a_addr ar) (updf x (v_set_list l' n) s3) = Ok (tt, s4) /\
    relink (updf x (v_set_list l' n) s3) s4 /\
    path s4 vma_list (addrs (l1 ++ [ar]) ++ x :: addrs l2) vma_list.
Proof.
  intros Hrep Hx Ev Hp Hm. pose proof (rep_nodup _ _ Hrep) as Hnd.
  pose proof (rep_present _ _ Hrep) as Hpr. destruct (rep_body _ _ _ _ _ Hrep Hx Ev) as (Hb & _ & Hbx).
  assert (forall a, present s1 a -> present (updf x (v_set_list l' n) s3) a) as Hp3.
  { intros a Ha. apply present_updf. unfold present. rewrite (ms_vmas _ _ _ Hm). by apply present_updf. }
  assert (List.last (addrs (l1 ++ [ar])) vma_list = a_addr ar) as Elast.
  { rewrite addrs_app. apply List.last_last. }
  rewrite (addrs_app (l1 ++ [ar])) in *. rewrite <- Elast.
  apply run_link_after; [done|done| |by eapply Hp3, body_present|].
  - intros a Ha. apply Hp3. destruct (Hpr a Ha) as [w Ew]. eapply body_present.
    rewrite Hb by done. unfold body_at. by rewrite Ew.
  - eapply path_frame; [..|exact Hp]; intros a _; rewrite field_updf_other by done;
      unfold field; rewrite (ms_vmas _ _ _ Hm); apply field_updf_other; done.
Qed.

(** The pages of [ar] from [cut] on become an area of their own. *)
Lemma run_split s l1 ar l2 cut : db_rep s (l1 ++ ar :: l2) -> a_start ar < cut <= a_end ar ->
  (3 + length (a_regs ar) <= avail (hp s))%nat ->
  exists x s1 s3 s4, vma_new cut (a_end ar) s = Ok (x, s1) /\ x <> NULL /\
    present s1 (a_addr ar) /\
    copy_list x (a_addr ar) (updf (a_addr ar) (v_set_end (cut - 1)) s1) = Ok (tt, s3) /\
    link_after x (a_addr ar) s3 = Ok (tt, s4) /\
    db_rep s4 (l1 ++ with_end (cut - 1) ar :: Area x cut (a_end ar) (a_regs ar) :: l2) /\
    (avail (hp s) <= avail (hp s4) + 3 + length (a_regs ar))%nat.
Proof.
  intros Hrep Hcut Hav. pose proof (r_order _ _ Hrep) as Ho.
  destruct (holds_at _ _ _ _ Hrep) as (cells & Ebody & Hcells).
  assert (length cells = length (a_regs ar)) as Hlc by (by rewrite <- Hcells, length_fmap).
  pose proof Ho as Ho'. rewrite in_order_app, in_order_cons in Ho'.
  destruct Ho' as (Ho1 & ([Har1 Har2] & Ho2 & Ho3) & Ho4).
  assert (l1 ++ ar :: l2 = (l1 ++ [ar]) ++ l2) as El by (by rewrite <- app_assoc).
  assert (addrs (l1 ++ [ar]) = addrs l1 ++ [a_addr ar]) as Ea by (by rewrite addrs_app).
  pose proof Hrep as Hrep'. rewrite El in Hrep'.
  destruct (run_new_detached s (l1 ++ [ar]) l2 cut (a_end ar)) as
    (x & s1 & E1 & Hx0 & Hx & Ev & Ht & Ha & Hp & Hav1); [done|unfold page; lia| | |lia|].
  { intros a [Ha| ->%list_elem_of_singleton]%elem_of_app; [|lia].
    destruct Ho1 as [_ Hp]. rewrite Forall_forall in Hp.
    destruct (Hp a Ha). specialize (Ho4 a ar Ha ltac:(by left)). lia. }
  { intros a Ha. specialize (Ho3 a Ha). lia. }
  destruct (rep_body _ _ _ _ _ Hrep' Hx Ev) as (Hb & _ & Hbx).
  assert (a_addr ar ∈ vma_list :: addrs ((l1 ++ [ar]) ++ l2)) as Hin by (rewrite addrs_app, Ea; set_solver).
  assert (x <> a_addr ar) as Hxa by (by intros ->).
  destruct (body_fields s1 (a_addr ar) (a_start ar) (a_end ar) cells (Z.of_nat (length cells)))
    as (w & Ew & Hw1 & Hw2 & Hw3 & Hw4 & _); [by rewrite Hb|].
  set (s2 := updf (a_addr ar) (v_set_end (cut - 1)) s1).
  assert (body_at s2 (a_addr ar) = Some (a_start ar, cut - 1, cells, Z.of_nat (length cells))) as Eb2.
  { unfold s2. rewrite (body_updf_eq _ _ _ _ Ew). unfold body. cbn. by rewrite Hw1, Hw3, Hw4. }
  destruct (run_copy_list s2 x (a_addr ar) cells _ _ _ Hxa Eb2) as (l' & s3 & E3 & Hl' & Hm).
  { unfold s2. apply present_updf. by eapply body_present. }
  { destruct Ha as [_ HF]. apply Forall_cons in HF as [? _]. cbn. lia. }
  { cbn. lia. }
  destruct (split_linked s s1 s3 l1 ar l2 x (cut - 1) (Z.of_nat (length cells)) l' _ _
    Hrep' Hx Ev Hp Hm) as (s4 & E4 & [Rb Rr] & Hp4).
  exists x, s1, (updf x (v_set_list l' (Z.of_nat (length cells))) s3), s4.
  split; [done|]. split; [done|]. split; [by exists w|].
  split; [exact E3|]. split; [exact E4|].
  set (n := Area x cut (a_end ar) (a_regs ar)).
  assert (addrs (l1 ++ with_end (cut - 1) ar :: n :: l2) = addrs (l1 ++ [ar]) ++ x :: addrs l2) as Ea'.
  { rewrite Ea, addrs_app, <- app_assoc. done. }
  assert (forall a, a <> x -> body_at s4 a = body_at s2 a) as Hb4.
  { intros a Hne. rewrite Rb, body_updf_ne by done. unfold body_at. by rewrite (ms_vmas _ _ _ Hm). }
  assert (forall a, a ∈ vma_list :: addrs ((l1 ++ [ar]) ++ l2) -> a <> a_addr ar ->
    body_at s4 a = body_at s a) as Hbo.
  { intros a Ha' Hne. rewrite Hb4 by (by intros ->). unfold s2. rewrite body_updf_ne by done.
    by apply Hb. }
  pose proof (ms_avail _ _ _ Hm) as Hav3.
  pose proof (rep_nodup _ _ Hrep') as Hnd. rewrite addrs_app, Ea in Hnd.
  split; [split; rewrite ?Ea'; try done|].
  - apply (tree_rep_ext s3); [by rewrite Rr..|]. eapply tree_rep_step; [exact Hm|].
    by apply tree_rep_updf.
  - apply (alloc_ok_ext s3); [by rewrite Rr..|]. by eapply alloc_ok_step.
  - rewrite Hbo; [by destruct Hrep|by left|]. intros E. rewrite E in Hnd.
    apply NoDup_cons in Hnd as [Hnd _]. apply Hnd. set_solver.
  - pose proof (r_holds _ _ Hrep) as [Hh1 Hh2]%Forall_app. apply Forall_cons in Hh2 as [_ Hh2].
    assert (forall a, a ∈ addrs l1 \/ a ∈ addrs l2 -> body_at s4 a = body_at s a) as Hl.
    { intros a Ha'. apply Hbo; [rewrite addrs_app, Ea; set_solver|]. intros ->.
      apply NoDup_cons in Hnd as [_ Hnd]. rewrite <- app_assoc in Hnd. cbn [app] in Hnd.
      rewrite <- Permutation_middle in Hnd. apply NoDup_cons in Hnd as [Hnd _].
      apply Hnd, elem_of_app, Ha'. }
    apply Forall_app. split; [eapply holds_ext; [|exact Hh1]; eauto|].
    constructor; [|constructor; [|eapply holds_ext; [|exact Hh2]; eauto]].
    + exists cells. cbn [a_addr with_end a_start a_end a_regs]. by rewrite Hb4.
    + exists l'. cbn [n a_addr a_start a_end a_regs]. rewrite Rb, Hl', Hcells. split; [|done].
      assert (vmas s3 !! x = Some (Vma cut (a_end ar) [] 0 NULL NULL)) as Ex.
      { rewrite (ms_vmas _ _ _ Hm). unfold s2, updf. cbn [vmas db_set_vmas].
        by rewrite lookup_alter_ne, Ev, lookup_insert_eq. }
      rewrite (body_updf_eq _ _ _ _ Ex). unfold body. cbn.
      apply (f_equal length) in Hl'. rewrite !length_fmap in Hl'. by rewrite Hl'.
  - apply in_order_app. split; [done|]. split.
    + apply in_order_cons. split; [unfold area_pages; cbn; lia|]. split.
      * apply in_order_cons. split; [unfold area_pages; cbn; lia|]. split; [done|]. exact Ho3.
      * intros b [->|Hb']%elem_of_cons; [unfold n; cbn; lia|]. specialize (Ho3 b Hb'). cbn. lia.
    + intros a b Ha' Hb'. specialize (Ho4 a ar Ha' ltac:(by left)).
      apply elem_of_cons in Hb' as [->|Hb']; [done|].
      apply elem_of_cons in Hb' as [->|Hb']; [unfold n; cbn; lia|]. specialize (Ho3 b Hb'). lia.
  - assert (hp s4 = hp s3) as -> by (by rewrite Rr). change (hp s2) with (hp s1) in Hav3. lia.
Qed.

Lemma starts_ext s s' l : (forall a, field s' v_start a = field s v_start a) -> starts s l -> starts s' l.
Proof.
  intros Hf [H1 H2]. split.
  - induction H1 as [|a l H1 IH HF]; constructor; [apply IH; by inversion H2|].
    eapply Forall_impl; [exact HF|]. cbn. intros b. by rewrite !Hf.
  - eapply Forall_impl; [exact H2|]. cbn. intros a. by rewrite Hf.
Qed.

Lemma run_vma_remove s l1 x l2 : tree_rep s (l1 ++ x :: l2) -> starts s (l1 ++ x :: l2) ->
  alloc_ok s (l1 ++ x :: l2) -> present s x ->
  exists s', vma_remove x s = Ok (tt, s') /\ vmas s' = vmas s /\ tree_rep s' (l1 ++ l2) /\
    alloc_ok s' (l1 ++ x :: l2).
Proof.
  intros Ht Hst Ha Hx. destruct (avldel_tree s l1 x l2 Ht Hst) as (t & h & E & Ht' & _ & Hb).
  unfold vma_remove. rewrite (st_bind_run _ _ _ _ _ E). destruct Hx as [v Ev].
  rewrite (st_bind_run _ _ (db_set_tree t h s) v (db_set_tree t h s)) by (by apply run_get_vma).
  eexists. split; [by unfold st_get, st_set, mbind, ST_bind|]. split; [done|].
  split; [by destruct Ht'|]. unfold alloc_ok in *. cbn. by rewrite Hb.
Qed.

Lemma run_release_entries l : forall s, g_is_dreg_finalize (hp s) <> 1 ->
  exists s', release_entries l s = Ok (tt, s') /\ mem_step s s' 0.
Proof.
  induction l as [|[e r] l IH]; intros s Hg; cbn [release_entries].
  - exists s. split; [done|]. apply mem_step_refl.
  - destruct (run_entry_release e s Hg) as (s1 & E1 & H1 & _). rewrite (st_bind_run _ _ _ _ _ E1).
    destruct (IH s1) as (s2 & E2 & H2); [by rewrite (ms_run _ _ _ H1)|].
    exists s2. split; [done|]. exact (mem_step_trans _ _ _ _ _ H1 H2).
Qed.

(** An area that is out of the tree and of the list goes back to the free areas. *)
Lemma run_vma_destroy s l1 x l2 : tree_rep s (addrs (l1 ++ l2)) ->
  alloc_ok s (addrs l1 ++ x :: addrs l2) -> path s vma_list (addrs (l1 ++ l2)) vma_list ->
  body_at s vma_list = Some (0, 0, [], 0) -> Forall (holds s) (l1 ++ l2) -> in_order (l1 ++ l2) ->
  present s x -> exists s', vma_destroy x s = Ok (tt, s') /\ db_rep s' (l1 ++ l2).
Proof.
  intros Ht Ha Hp Hs Hh Ho [v Ev]. unfold vma_destroy.
  rewrite (st_bind_run _ _ _ _ _ (run_get_vma _ _ _ Ev)).
  destruct (run_release_entries (v_list v) s) as (s1 & E1 & Hm); [by destruct Ht|].
  rewrite (st_bind_run _ _ _ _ _ E1). unfold st_set. eexists. split; [done|].
  cbn [hp db_set_vmas vma_free_list entry_free_list].
  rewrite (proj2 (Z.eqb_neq _ _)) by (rewrite (ms_run _ _ _ Hm); by destruct Ht).
  set (s2 := db_set_free _ _ _ _).
  assert (NoDup (vma_list :: addrs (l1 ++ l2)) /\ x ∉ vma_list :: addrs (l1 ++ l2)) as [Hnd Hx].
  { apply alloc_nodup in Ha. rewrite <- Permutation_middle, addrs_app in *.
    rewrite Permutation_swap in Ha. apply NoDup_cons in Ha as [? ?]. done. }
  assert (forall a, a <> x -> vmas s2 !! a = vmas s !! a) as Hv.
  { intros a Hne. unfold s2. cbn [vmas db_set_free db_set_vmas]. rewrite lookup_delete_ne by done.
    by rewrite (ms_vmas _ _ _ Hm). }
  assert (forall a, a ∈ vma_list :: addrs (l1 ++ l2) -> vmas s2 !! a = vmas s !! a) as Hv'.
  { intros a Ha'. apply Hv. by intros ->. }
  split; try done.
  - apply (tree_rep_ext s1); [done..|]. by eapply tree_rep_step.
  - eapply (alloc_ok_step s s1) in Ha; [|exact Hm]. unfold alloc_ok in *. rewrite addrs_app.
    unfold s2. cbn [vma_free_list db_set_free db_set_vmas hp]. revert Ha.
    rewrite <- (app_assoc (addrs l1)). cbn [app]. rewrite <- !Permutation_middle, <- !app_assoc. done.
  - eapply path_frame; [..|exact Hp]; intros a Ha'; unfold field; rewrite Hv'; try done; set_solver.
  - unfold body_at. rewrite Hv' by (by left). done.
  - eapply holds_ext; [|exact Hh]. intros a Ha'. unfold body_at. rewrite Hv'; [done|]. by right.
Qed.

Lemma rep_ring s l1 ar l2 : db_rep s (l1 ++ ar :: l2) ->
  NoDup (vma_list :: addrs l1 ++ addrs l2) /\ a_addr ar ∉ vma_list :: addrs l1 ++ addrs l2 /\
  path s vma_list (addrs l1 ++ a_addr ar :: addrs l2) vma_list.
Proof.
  intros Hrep. pose proof (rep_nodup _ _ Hrep) as Hnd. pose proof (r_ring _ _ Hrep) as Hr.
  rewrite addrs_app in *. change (addrs (ar :: l2)) with (a_addr ar :: addrs l2) in *.
  rewrite <- Permutation_middle, Permutation_swap in Hnd. by apply NoDup_cons in Hnd as [? ?].
Qed.

(** The neighbours of an area. *)
Lemma rep_links s l1 ar l2 : db_rep s (l1 ++ ar :: l2) ->
  field s v_next (a_addr ar) = hd vma_list (addrs l2) /\
  field s v_prev (a_addr ar) = List.last (addrs l1) vma_list /\
  present s (hd vma_list (addrs l2)) /\ present s (List.last (addrs l1) vma_list).
Proof.
  intros Hrep. destruct (rep_ring _ _ _ _ Hrep) as (_ & _ & Hp).
  destruct (path_next _ _ _ _ _ Hp) as [_ H1]. cbn [hd] in H1.
  replace (addrs l1 ++ a_addr ar :: addrs l2) with ((addrs l1 ++ [a_addr ar]) ++ addrs l2) in Hp
    by (by rewrite <- app_assoc).
  destruct (path_next _ _ _ _ _ Hp) as [H2 _]. rewrite List.last_last in H2.
  pose proof (rep_present _ _ Hrep) as Hpr. rewrite addrs_app in Hpr.
  destruct (ring_in vma_list (addrs l1) (a_addr ar :: addrs l2)) as [I1 _].
  destruct (ring_in vma_list (addrs l1 ++ [a_addr ar]) (addrs l2)) as [_ I2].
  rewrite <- app_assoc in I2. auto.
Qed.

Lemma field_get s a v f : vmas s !! a = Some v -> f v = field s f a.
Proof. unfold field. by intros ->. Qed.

(** An area without registrations leaves the database. *)
Lemma run_drop s l1 ar l2 : db_rep s (l1 ++ ar :: l2) ->
  exists s1 s2, vma_unlink (a_addr ar) s = Ok (tt, s1) /\ vma_destroy (a_addr ar) s1 = Ok (tt, s2) /\
    db_rep s2 (l1 ++ l2).
Proof.
  intros Hrep. destruct (rep_links _ _ _ _ Hrep) as (Hn & Hp & Pn & Pp).
  destruct (rep_ring _ _ _ _ Hrep) as (Hnd & Hx & Hpath).
  pose proof (rep_starts _ _ Hrep) as Hst. pose proof (r_tree _ _ Hrep) as Ht.
  pose proof (r_alloc _ _ Hrep) as Hal.
  rewrite addrs_app in Hst, Ht, Hal. change (addrs (ar :: l2)) with (a_addr ar :: addrs l2) in *.
  set (x := a_addr ar) in *. set (n := hd vma_list (addrs l2)) in *.
  set (p := List.last (addrs l1) vma_list) in *.
  assert (present s x) as Px.
  { apply (rep_present _ _ Hrep). rewrite addrs_app. set_solver. }
  assert (x <> p /\ x <> n) as [Xp Xn].
  { destruct (ring_in vma_list (addrs l1) (addrs l2)) as [I1 I2].
    split; intros E; apply Hx; by rewrite E. }
  destruct (run_vma_remove s (addrs l1) x (addrs l2) Ht Hst Hal Px) as (s1 & E1 & Ev & Ht1 & Ha1).
  assert (forall f a, field s1 f a = field s f a) as Hf by (intros f a; unfold field; by rewrite Ev).
  assert (forall a, present s1 a <-> present s a) as Hpr1 by (intros a; unfold present; by rewrite Ev).
  set (s2 := updf n (v_set_prev p) (updf p (v_set_next n) s1)).
  assert (vma_unlink x s = Ok (tt, s2)) as E2.
  { unfold vma_unlink. rewrite (st_bind_run _ _ _ _ _ E1).
    destruct (proj2 (Hpr1 x) Px) as [v Ex]. rewrite (st_bind_run _ _ _ _ _ (run_get_vma _ _ _ Ex)).
    rewrite (field_get _ _ _ v_prev Ex), (field_get _ _ _ v_next Ex), !Hf, Hn, Hp.
    rewrite (st_bind_run _ _ _ _ _ (run_upd_vma s1 p _ (proj2 (Hpr1 p) Pp))).
    destruct (run_field (updf p (v_set_next n) s1) x (fun v => upd_vma (v_next v) (v_set_prev (v_prev v))))
      as (w & Ew & ->); [by apply present_updf, Hpr1|].
    rewrite (field_get _ _ _ v_prev Ew), (field_get _ _ _ v_next Ew). fields. rewrite !Hf, Hn, Hp.
    rewrite run_upd_vma; [done|]. by apply present_updf, Hpr1. }
  assert (forall a, body_at s2 a = body_at s a) as Hb2.
  { intros a. unfold s2. rewrite !body_updf_link by done. unfold body_at. by rewrite Ev. }
  destruct (run_vma_destroy s2 l1 x l2) as (s3 & E3 & Hrep3).
  - rewrite addrs_app. by apply (tree_rep_ext s1).
  - by apply (alloc_ok_ext s1).
  - rewrite addrs_app. apply (ring_unlink s s2 vma_list (addrs l1) x (addrs l2) Hnd Hx); fold p n; [..|done].
    + intros a _ Ha. unfold s2. fields. apply Hf.
    + intros a _ Ha. unfold s2. fields. apply Hf.
    + assert (present s1 p /\ present s1 n) as [Pp1 Pn1] by (by rewrite !Hpr1).
      split; cbn [fst snd]; unfold s2; fields; done.
  - rewrite Hb2. by destruct Hrep.
  - apply (holds_ext s); [intros; apply Hb2|]. pose proof (r_holds _ _ Hrep) as [? H2]%Forall_app.
    apply Forall_cons in H2 as [_ ?]. by apply Forall_app.
  - eapply in_order_drop. by destruct Hrep.
  - unfold s2. by rewrite !present_updf, Hpr1.
  - exists s2, s3. done.
Qed.

(** Two areas side by side become one, with the registrations of the first. *)
Lemma run_merge s l1 p t l2 : db_rep s (l1 ++ p :: t :: l2) ->
  exists s', merge_into (a_addr p) (a_addr t) s = Ok (tt, s') /\
    db_rep s' (l1 ++ with_end (a_end t) p :: l2).
Proof.
  intros Hrep. assert (l1 ++ p :: t :: l2 = (l1 ++ [p]) ++ t :: l2) as El by (by rewrite <- app_assoc).
  pose proof Hrep as Hrep'. rewrite El in Hrep'.
  destruct (rep_links _ _ _ _ Hrep') as (Hn & Hp & Pn & Pp).
  destruct (rep_ring _ _ _ _ Hrep') as (Hnd & Hx & Hpath).
  pose proof (rep_starts _ _ Hrep') as Hst. pose proof (r_tree _ _ Hrep') as Ht.
  pose proof (r_alloc _ _ Hrep') as Hal.
  rewrite addrs_app in Hst, Ht, Hal. change (addrs (t :: l2)) with (a_addr t :: addrs l2) in *.
  assert (List.last (addrs (l1 ++ [p])) vma_list = a_addr p) as El1 by (rewrite addrs_app; apply List.last_last).
  rewrite El1 in Hp, Pp. set (x := a_addr t) in *. set (n := hd vma_list (addrs l2)) in *.
  set (a0 := a_addr p) in *.
  assert (present s x) as Px.
  { apply (rep_present _ _ Hrep'). rewrite addrs_app. set_solver. }
  assert (x <> a0 /\ x <> n) as [Xp Xn].
  { destruct (ring_in vma_list (addrs (l1 ++ [p])) (addrs l2)) as [I1 I2]. rewrite El1 in I1.
    split; intros E; apply Hx; by rewrite E. }
  destruct (holds_fields _ _ (holds_at _ _ _ _ Hrep')) as (tv & Etv & _ & Htv & _).
  set (s1 := updf n (v_set_prev a0) (updf a0 (v_set_next n) (updf a0 (v_set_end (a_end t)) s))).
  assert (forall a, present s1 a <-> present s a) as Hpr1.
  { intros a. unfold s1. by rewrite !present_updf. }
  assert (forall a, field s1 v_start a = field s v_start a) as Hfs.
  { intros a. unfold s1. by rewrite !field_updf_other. }
  destruct (run_vma_remove s1 (addrs (l1 ++ [p])) x (addrs l2)) as (s2 & E2 & Ev & Ht2 & Ha2);
    [by apply (tree_rep_ext s)|by apply (starts_ext s)|by apply (alloc_ok_ext s)|by apply Hpr1|].
  assert (forall b, body_at s2 b = body_at (updf a0 (v_set_end (a_end t)) s) b) as Hb2.
  { intros b. unfold body_at. rewrite Ev. fold (body_at s1 b).
    fold (body_at (updf a0 (v_set_end (a_end t)) s) b). unfold s1.
    rewrite (body_updf_link _ n), (body_updf_link _ a0 (v_set_next n)) by done. done. }
  assert (addrs ((l1 ++ [with_end (a_end t) p]) ++ l2) = addrs (l1 ++ [p]) ++ addrs l2) as Ea.
  { by rewrite !addrs_app. }
  destruct (holds_at _ _ _ _ Hrep) as (cells & Eb & Hcells). fold a0 in Eb.
  destruct (body_fields _ _ _ _ _ _ Eb) as (w & Ew & Hw1 & _ & Hw3 & Hw4 & _).
  destruct (run_vma_destroy s2 (l1 ++ [with_end (a_end t) p]) x l2) as (s3 & E3 & Hrep3).
  - by rewrite Ea.
  - by rewrite addrs_app in *.
  - rewrite Ea. apply (ring_unlink s s2 vma_list (addrs (l1 ++ [p])) x (addrs l2) Hnd Hx); rewrite ?El1; fold n; [..|done].
    + intros a _ Ha. unfold field. rewrite Ev. fold (field s1 v_next a). unfold s1. by fields.
    + intros a _ Ha. unfold field. rewrite Ev. fold (field s1 v_prev a). unfold s1. by fields.
    + split; cbn [fst snd]; unfold field; rewrite Ev;
        [fold (field s1 v_next a0)|fold (field s1 v_prev n)]; unfold s1; by fields.
  - rewrite Hb2, body_updf_ne; [by destruct Hrep|]. intros E. clear - Hrep E.
    pose proof (rep_nodup _ _ Hrep) as Hnd. rewrite addrs_app in Hnd.
    apply NoDup_cons in Hnd as [Hnd _]. apply Hnd. rewrite <- E. unfold a0. set_solver.
  - pose proof (r_holds _ _ Hrep) as [Hh1 Hh2]%Forall_app.
    apply Forall_cons in Hh2 as [_ Hh2]. apply Forall_cons in Hh2 as [_ Hh2].
    assert (forall a, a ∈ addrs l1 \/ a ∈ addrs l2 -> body_at s2 a = body_at s a) as Hl.
    { intros a Ha. rewrite Hb2, body_updf_ne; [done|]. intros <-.
      rewrite addrs_app, <- app_assoc in Hnd. apply NoDup_cons in Hnd as [_ Hnd].
      change (addrs [p] ++ addrs l2) with (a0 :: addrs l2) in Hnd. rewrite <- Permutation_middle in Hnd.
      apply NoDup_cons in Hnd as [Hnd _]. by apply Hnd, elem_of_app. }
    rewrite <- app_assoc. apply Forall_app. split; [eapply holds_ext; [|exact Hh1]; eauto|].
    constructor; [|eapply holds_ext; [|exact Hh2]; eauto].
    exists cells. cbn [a_addr with_end a_start a_end a_regs]. fold a0. rewrite Hb2.
    rewrite (body_updf_eq _ _ _ _ Ew). unfold body. cbn. by rewrite Hw1, Hw3, Hw4.
  - pose proof (r_order _ _ Hrep) as Ho. rewrite <- app_assoc. cbn [app].
    rewrite in_order_app, !in_order_cons in *. unfold area_pages in *.
    destruct Ho as (O1 & (P1 & (P2 & O2 & O3) & O4) & O5). specialize (O4 t ltac:(by left)).
    cbn [a_start a_end with_end]. split; [done|]. split; [split; [lia|by split]|].
    intros a b Ha [->|Hb]%elem_of_cons.
    + apply (O5 a p); [done|by left].
    + apply (O5 a b); [done|]. by do 2 right.
  - by apply Hpr1 in Px as [v Ex]; exists v; rewrite Ev.
  - exists s3. rewrite <- app_assoc in Hrep3. split; [|done]. unfold merge_into.
    rewrite (st_bind_run _ _ _ _ _ (run_get_vma _ _ _ Etv)), Htv, (field_get _ _ _ v_next Etv).
    fold a0 x. rewrite Hn. run_upds. fold s1. by rewrite (st_bind_run _ _ _ _ _ E2).
Qed.
End regs.
