(* ===== verification/VmaSpec.v ===== *)
(** * The page database keeps the registrations it was given (about Vma.v)

    The areas represent the set of the registrations inserted and not removed: dreg_insert
    and dreg_remove refine the insertion and the removal of an element, dreg_lookup answers
    from the set. *)
From stdpp Require Import gmap sorting.
From S2P Require Import Prelude Avl Vma VmaMem VmaRep.

Section regs.
Context (regs : gmap Z dreg_entry).

(** ** Registrations *)

(** An entry in memory with pages, none of them page 0, far from the end of the memory. *)
Definition reg_ok (r : Z) : Prop := 0 < r < 2 ^ 62 /\ exists d, regs !! r = Some d /\
  1 <= pagenum d /\ 1 <= npages d /\ pagenum d + npages d <= 2 ^ 62.

Definition covers (r p : Z) : Prop := exists d, regs !! r = Some d /\
  DREG_BEGIN d <= p <= DREG_END d.

Lemma reg_ok_end r : reg_ok r -> exists d, regs !! r = Some d /\ reg_end regs r = DREG_END d /\
  1 <= DREG_BEGIN d <= DREG_END d /\ DREG_END d < 2 ^ 62.
Proof.
  intros (_ & d & E & H1 & H2 & H3). exists d. split; [done|]. unfold reg_end, DREG_BEGIN.
  rewrite E. split; [done|]. unfold DREG_END. rewrite u64_small by lia. lia.
Qed.

(** The order of an area's list. *)
Definition before (a b : Z) : Prop :=
  reg_end regs b < reg_end regs a \/ reg_end regs a = reg_end regs b /\ b < a.

Lemma compare_before a b : reg_ok a -> reg_ok b -> (0 <? compare_dregs regs a b) = true <-> before a b.
Proof.
  intros Ha Hb. destruct (reg_ok_end a Ha) as (da & _ & Ea & ?), (reg_ok_end b Hb) as (db & _ & Eb & ?).
  destruct Ha as [Ha _], Hb as [Hb _]. rewrite Z.ltb_lt. unfold compare_dregs, before.
  rewrite Ea, Eb in *. destruct (Z.eqb_spec (DREG_END da) (DREG_END db)); cbn [negb];
    rewrite i64_page by (unfold page; lia); lia.
Qed.

Definition sorted (l : list Z) : Prop := StronglySorted before l /\ Forall reg_ok l.

Lemma sorted_one r : reg_ok r -> sorted [r].
Proof. intros H. split; [by repeat constructor|]. constructor; [done|constructor]. Qed.

Lemma before_total a b : before a b \/ a = b \/ before b a.
Proof. unfold before. lia. Qed.

Lemma sorted_nodup l : sorted l -> NoDup l.
Proof.
  intros [H _]. induction H as [|a l H IH HF]; constructor; [|done].
  intros Hin. rewrite Forall_forall in HF. specialize (HF a Hin). unfold before in HF. lia.
Qed.

Lemma sorted_length l : sorted l -> Z.of_nat (length l) <= 2 ^ 62.
Proof.
  intros Hs. pose proof (sorted_nodup l Hs) as Hnd. destruct Hs as [_ HF].
  assert (l ⊆+ seqZ 0 (2 ^ 62)) as Hsub.
  { apply NoDup_submseteq; [done|]. intros x Hx. rewrite Forall_forall in HF.
    apply elem_of_seqZ. destruct (HF x Hx). lia. }
  apply submseteq_length in Hsub. rewrite length_seqZ in Hsub. lia.
Qed.

Lemma ins_perm r l : ins regs r l ≡ₚ r :: l.
Proof.
  induction l as [|c l IH]; [done|]. cbn. destruct (0 <? _); [|done].
  rewrite IH. apply perm_swap.
Qed.

Lemma ins_sorted r l : reg_ok r -> r ∉ l -> sorted l -> sorted (ins regs r l).
Proof.
  intros Hr Hn [H HF]. split; [|by rewrite ins_perm; constructor].
  induction H as [|c l H IH Hc]; [by repeat constructor|].
  apply not_elem_of_cons in Hn as [Hne Hn]. apply Forall_cons in HF as [Ec HF]. cbn.
  destruct (0 <? compare_dregs regs c r) eqn:E.
  - apply compare_before in E; [|done..]. constructor; [by apply IH|].
    rewrite ins_perm. by constructor.
  - assert (before r c) as Hb.
    { destruct (before_total r c) as [?|[?|Hcr]]; [done|done|].
      apply compare_before in Hcr; [congruence|done..]. }
    constructor; [by constructor|]. constructor; [done|].
    eapply Forall_impl; [exact Hc|]. unfold before in *. cbn. intros; lia.
Qed.

Lemma del_elem r x l : NoDup l -> x ∈ del r l <-> x ∈ l /\ x <> r.
Proof.
  induction 1 as [|c l Hc Hnd IH]; [set_solver|]. cbn. destruct (Z.eqb_spec c r) as [->|Hne].
  - split; [intros Hx; split; [by right|by intros ->]|]. intros [[->|?]%elem_of_cons ?]; done.
  - rewrite !elem_of_cons, IH. naive_solver.
Qed.

Lemma del_sorted r l : sorted l -> sorted (del r l).
Proof.
  intros [H HF]. split.
  - induction H as [|c l H IH Hc]; [constructor|]. apply Forall_cons in HF as [_ HF]. cbn.
    destruct (c =? r); [done|]. constructor; [by apply IH|]. clear -Hc.
    induction l as [|b l IH]; [constructor|]. apply Forall_cons in Hc as [? Hc]. cbn.
    destruct (b =? r); [done|]. constructor; auto.
  - clear H. induction l as [|c l IH]; [constructor|]. apply Forall_cons in HF as [? HF]. cbn.
    destruct (c =? r); [done|]. constructor; auto.
Qed.

(** ** Which registrations own a page

    [own p r] says that the registration [r] covers the page [p]; [U] bounds the
    registrations there are. *)
Context (U : gset Z).
Implicit Types (own : Z -> Z -> Prop) (l : list area).

Definition owned own (ar : area) : Prop := sorted (a_regs ar) /\ a_regs ar <> [] /\
  forall p, a_start ar <= p <= a_end ar -> forall r, r ∈ a_regs ar <-> own p r.

Record db_own (s : vma_db) l own : Prop := {
  o_rep : db_rep s l;
  o_owned : Forall (owned own) l;
  o_cover : forall p r, own p r -> exists ar, ar ∈ l /\ a_start ar <= p <= a_end ar;
  o_known : forall p r, own p r -> r ∈ U }.

(** [own] with [r] on the pages from [b] to [e - 1]. *)
Definition plus own (r b e : Z) : Z -> Z -> Prop := fun p x => own p x \/ (x = r /\ b <= p < e).

Lemma db_own_ext s l own own' : (forall p r, own p r <-> own' p r) -> db_own s l own -> db_own s l own'.
Proof.
  intros He [H1 H2 H3 H4]. split; [done| | |].
  - eapply Forall_impl; [exact H2|]. intros ar (? & ? & H). split; [done|]. split; [done|].
    intros p Hp r. by rewrite <- He, H.
  - intros p r H%He. eauto.
  - intros p r H%He. eauto.
Qed.

Lemma own_area s l own ar : db_own s l own -> ar ∈ l -> owned own ar /\ area_pages ar.
Proof.
  intros [[_ _ _ _ _ [_ Hp]] Ho _ _] Hin. rewrite Forall_forall in Ho, Hp. auto.
Qed.

Lemma regs_bound s l own ar : db_own s l own -> ar ∈ l ->
  (length (a_regs ar) <= size U)%nat /\ Z.of_nat (length (a_regs ar)) <= 2 ^ 62.
Proof.
  intros Hd Hin. destruct (own_area _ _ _ _ Hd Hin) as [(Hs & _ & Ho) [Hp _]].
  split; [|by apply sorted_length].
  pose proof (sorted_nodup _ Hs) as Hnd. rewrite <- (size_list_to_set (C := gset Z)) by done.
  apply subseteq_size. intros r Hr%elem_of_list_to_set.
  apply (o_known _ _ _ Hd (a_start ar)). apply Ho; [lia|done].
Qed.

(** Areas that do not meet the pages where the owners change stay owned. *)
Lemma owned_plus own r b e ar : owned own ar -> a_end ar < b \/ e <= a_start ar ->
  owned (plus own r b e) ar.
Proof.
  intros (H1 & H2 & H3) Hd. split; [done|]. split; [done|].
  intros p Hp x. rewrite H3 by done. unfold plus. intuition lia.
Qed.

Lemma forall_owned_plus own r b e l : Forall (owned own) l ->
  (forall a, a ∈ l -> a_end a < b \/ e <= a_start a) -> Forall (owned (plus own r b e)) l.
Proof.
  rewrite !Forall_forall. intros H Hd a Ha. apply owned_plus; auto.
Qed.

(** A new area owned by [r] alone. *)
Lemma own_gap s s' l1 l2 own r x begin last : db_own s (l1 ++ l2) own -> reg_ok r -> r ∈ U ->
  begin <= last -> (forall a, a ∈ l1 -> a_end a < begin) -> (forall a, a ∈ l2 -> last < a_start a) ->
  db_rep s' (l1 ++ Area x begin last [r] :: l2) ->
  db_own s' (l1 ++ Area x begin last [r] :: l2) (plus own r begin (last + 1)).
Proof.
  intros [H1 H2 H3 H4] Hr Hu Hle Ha1 Ha2 Hrep. apply Forall_app in H2 as [O1 O2]. split; [done| | |].
  - apply Forall_app. split; [|constructor].
    + apply forall_owned_plus; [done|]. intros a Ha. left. auto.
    + split; [by apply sorted_one|]. split; [done|]. cbn. intros p Hp y.
      rewrite list_elem_of_singleton. unfold plus. split; [intros ->; right; lia|].
      intros [Hy|[? _]]; [|done]. destruct (H3 p y Hy) as (a & [Ha|Ha]%elem_of_app & Hpa).
      * specialize (Ha1 a Ha). lia.
      * specialize (Ha2 a Ha). lia.
    + apply forall_owned_plus; [done|]. intros a Ha. right. specialize (Ha2 a Ha). lia.
  - intros p y [Hy|[-> Hp]].
    + destruct (H3 p y Hy) as (a & Ha & Hpa). exists a. split; [|done]. set_solver.
    + eexists. split; [apply elem_of_app; right; by left|]. cbn. lia.
  - intros p y [Hy|[-> _]]; eauto.
Qed.

(** An area cut in two. *)
Lemma own_split s s' l1 ar l2 own x cut : db_own s (l1 ++ ar :: l2) own ->
  a_start ar < cut <= a_end ar ->
  db_rep s' (l1 ++ with_end (cut - 1) ar :: Area x cut (a_end ar) (a_regs ar) :: l2) ->
  db_own s' (l1 ++ with_end (cut - 1) ar :: Area x cut (a_end ar) (a_regs ar) :: l2) own.
Proof.
  intros [H1 H2 H3 H4] Hcut Hrep. apply Forall_app in H2 as [O1 O2].
  apply Forall_cons in O2 as [(S & N & O) O2]. split; [done| | |done].
  - apply Forall_app. split; [done|]. constructor; [|constructor; [|done]];
      (split; [done|split; [done|]]); cbn; intros p Hp; apply O; lia.
  - intros p y Hy. destruct (H3 p y Hy) as (a & Ha & Hpa).
    apply elem_of_app in Ha as [Ha|[->|Ha]%elem_of_cons].
    + exists a. set_solver.
    + destruct (Z.lt_ge_cases p cut).
      * exists (with_end (cut - 1) ar). cbn. split; [set_solver|lia].
      * exists (Area x cut (a_end ar) (a_regs ar)). cbn. split; [set_solver|lia].
    + exists a. set_solver.
Qed.

(** An area that [r] comes to own as a whole. *)
Lemma own_add s s' l1 ar l2 own r : db_own s (l1 ++ ar :: l2) own -> reg_ok r -> r ∈ U ->
  (forall p, a_start ar <= p <= a_end ar -> ~ own p r) ->
  db_rep s' (l1 ++ with_regs (ins regs r (a_regs ar)) ar :: l2) ->
  db_own s' (l1 ++ with_regs (ins regs r (a_regs ar)) ar :: l2)
    (plus own r (a_start ar) (a_end ar + 1)).
Proof.
  intros [H1 H2 H3 H4] Hr Hu Hn Hrep. apply Forall_app in H2 as [O1 O2].
  apply Forall_cons in O2 as [(S & N & O) O2]. pose proof (r_order _ _ H1) as Ho.
  rewrite in_order_app, in_order_cons in Ho. destruct Ho as (_ & ([Hp _] & _ & Hg) & Hl).
  assert (r ∉ a_regs ar) as Hnr by (rewrite (O (a_start ar)) by lia; apply Hn; lia).
  split; [done| | |].
  - apply Forall_app. split; [|constructor].
    + apply forall_owned_plus; [done|]. intros a Ha. left. apply Hl; [done|by left].
    + split; [by apply ins_sorted|]. cbn. split.
      { intros E. pose proof (ins_perm r (a_regs ar)) as P. rewrite E in P. by apply Permutation_nil_cons in P. }
      intros p Hp' y. rewrite ins_perm, elem_of_cons, (O p) by done. unfold plus. intuition lia.
    + apply forall_owned_plus; [done|]. intros a Ha. right. specialize (Hg a Ha). lia.
  - intros p y [Hy|[-> Hp']].
    + destruct (H3 p y Hy) as (a & Ha & Hpa). apply elem_of_app in Ha as [Ha|[->|Ha]%elem_of_cons].
      * exists a. set_solver.
      * eexists. split; [apply elem_of_app; right; by left|done].
      * exists a. set_solver.
    + eexists. split; [apply elem_of_app; right; by left|]. cbn. lia.
  - intros p y [Hy|[-> _]]; eauto.
Qed.

Lemma next_of s l1 ar l2 : db_rep s (l1 ++ ar :: l2) ->
  present s (a_addr ar) /\ field s v_next (a_addr ar) = hd vma_list (addrs l2).
Proof.
  intros Hrep. split; [|by destruct (rep_links _ _ _ _ Hrep)].
  apply (rep_present _ _ Hrep). rewrite addrs_app. set_solver.
Qed.

Lemma addr_ne s l1 ar l2 : db_rep s (l1 ++ ar :: l2) -> (a_addr ar =? vma_list) = false.
Proof.
  intros Hrep. apply Z.eqb_neq. intros E. pose proof (rep_nodup _ _ Hrep) as Hnd.
  rewrite addrs_app in Hnd. apply NoDup_cons in Hnd as [Hnd _]. apply Hnd. rewrite <- E. set_solver.
Qed.

(** ** The rounds of dreg_insert *)

Section insert.
Context (r : Z) (Hr : reg_ok r) (Hu : r ∈ U).

(** The mallocs of a round. *)
Definition need : nat := size U + 4.

Lemma run_new_owned {A} s l1 l2 own begin last i (k : Z -> ST vma_db (option A)) :
  db_own s (l1 ++ l2) own -> i = hd vma_list (addrs l2) -> 1 <= begin <= last -> last < 2 ^ 62 ->
  (forall a, a ∈ l1 -> a_end a < begin) -> (forall a, a ∈ l2 -> last < a_start a) ->
  (need <= avail (hp s))%nat ->
  exists x s', (vma ← vma_new begin last;
      if vma =? NULL then mret None
      else (_ ← link_before vma i; _ ← add_entry regs vma r; k vma)) s = k x s' /\
    db_own s' (l1 ++ Area x begin last [r] :: l2) (plus own r begin (last + 1)) /\
    (avail (hp s) <= avail (hp s') + need)%nat.
Proof.
  unfold need. intros Hd Hi Hb Hl H1 H2 Hav.
  destruct (run_new_area s l1 l2 begin last i) as (x & s1 & s2 & E1 & Hx & E2 & Hrep & Ha2);
    try done; [by destruct Hd|lia|].
  destruct (run_add_entry regs s2 l1 _ l2 r Hrep) as (s3 & E3 & Hrep3 & Ha3); [cbn; lia|lia|].
  exists x, s3. rewrite (st_bind_run _ _ _ _ _ E1), (proj2 (Z.eqb_neq _ _)) by done.
  rewrite (st_bind_run _ _ _ _ _ E2), (st_bind_run _ _ _ _ _ E3). split; [done|].
  split; [|lia]. eapply own_gap; try done. lia.
Qed.

Lemma run_split_owned {A} s l1 ar l2 own cut e (k : Z -> ST vma_db (option A)) :
  db_own s (l1 ++ ar :: l2) own -> a_start ar < cut <= a_end ar -> e = cut - 1 ->
  (need <= avail (hp s))%nat ->
  exists x s', (vma ← vma_new cut (a_end ar);
      if vma =? NULL then mret None
      else (_ ← upd_vma (a_addr ar) (v_set_end e); _ ← copy_list vma (a_addr ar);
            _ ← link_after vma (a_addr ar); k vma)) s = k x s' /\
    db_own s' (l1 ++ with_end e ar :: Area x cut (a_end ar) (a_regs ar) :: l2) own /\
    (avail (hp s) <= avail (hp s') + 3 + length (a_regs ar))%nat.
Proof.
  unfold need. intros Hd Hcut -> Hav.
  destruct (regs_bound _ _ _ ar Hd) as [Hlen _]; [set_solver|].
  destruct (run_split s l1 ar l2 cut) as (x & s1 & s3 & s4 & E1 & Hx & Hp & E3 & E4 & Hrep & Ha4);
    [by destruct Hd|done|lia|].
  exists x, s4. rewrite (st_bind_run _ _ _ _ _ E1), (proj2 (Z.eqb_neq _ _)) by done.
  rewrite (st_bind_run _ _ _ _ _ (run_upd_vma _ _ _ Hp)), (st_bind_run _ _ _ _ _ E3),
    (st_bind_run _ _ _ _ _ E4). split; [done|]. split; [|done]. by eapply own_split.
Qed.

Lemma run_add_owned s l1 ar l2 own : db_own s (l1 ++ ar :: l2) own ->
  (forall p, a_start ar <= p <= a_end ar -> ~ own p r) -> (1 <= avail (hp s))%nat ->
  exists s', add_entry regs (a_addr ar) r s = Ok (tt, s') /\
    db_own s' (l1 ++ with_regs (ins regs r (a_regs ar)) ar :: l2)
      (plus own r (a_start ar) (a_end ar + 1)) /\
    (avail (hp s) <= avail (hp s') + 1)%nat.
Proof.
  intros Hd Hn Hav. destruct (regs_bound _ _ _ ar Hd) as [_ Hlen]; [set_solver|].
  destruct (run_add_entry regs s l1 ar l2 r) as (s' & E & Hrep & Ha); [by destruct Hd|lia|done|].
  exists s'. split; [done|]. split; [|done]. by eapply own_add.
Qed.

(** How many rounds are left. *)
Definition rounds (begin : Z) (l2 : list area) : nat :=
  2 * length l2 + match l2 with ar :: _ => if a_start ar =? begin then 0 else 1 | [] => 1 end.

(** What a round of the loop leaves: [r] owns the pages up to [b']. *)
Definition round_post s begin end_ own l2 (s' : vma_db) (b' i' : Z) : Prop := exists l1' l2',
  begin <= b' <= end_ + 1 /\ db_own s' (l1' ++ l2') (plus own r begin b') /\
  (avail (hp s) <= avail (hp s') + need)%nat /\ present s' i' /\
  (b' <= end_ -> (forall a, a ∈ l1' -> a_end a < b') /\ (forall a, a ∈ l2' -> b' <= a_end a) /\
     field s' v_next i' = hd vma_list (addrs l2') /\ (rounds b' l2' < rounds begin l2)%nat).

(** The areas in front of and behind the page a round starts at. *)
Record at_page s l1 l2 own begin end_ : Prop := {
  ap_own : db_own s (l1 ++ l2) own;
  ap_begin : 1 <= begin <= end_;
  ap_end : end_ < 2 ^ 62;
  ap_free : forall p, begin <= p <= end_ -> ~ own p r;
  ap_1 : forall a, a ∈ l1 -> a_end a < begin;
  ap_2 : forall a, a ∈ l2 -> begin <= a_end a;
  ap_mem : (need <= avail (hp s))%nat }.

(** Behind the last area. *)
Lemma round_tail s l1 own begin end_ : at_page s l1 [] own begin end_ ->
  exists b' i' s', insert_round regs r begin end_ vma_list s = Ok (Some (b', i'), s') /\
    round_post s begin end_ own [] s' b' i'.
Proof.
  intros [Ho Hb He Hf H1 H2 Hm]. unfold insert_round. rewrite Z.eqb_refl.
  destruct (run_new_owned s l1 [] own begin end_ vma_list
    (fun _ => mret (Some (u64 (end_ + 1), vma_list)))) as (x & s' & -> & Ho' & Ha');
    try done; [intros a Ha; by apply elem_of_nil in Ha|].
  rewrite u64_small by lia. eexists _, _, s'. split; [done|].
  exists (l1 ++ [Area x begin end_ [r]]), []. rewrite app_nil_r.
  split; [lia|]. split; [done|]. split; [done|]. split; [|lia].
  apply (rep_present _ _ (o_rep _ _ _ Ho')). by left.
Qed.

(** In front of an area. *)
Lemma round_gap s l1 ar l2 own begin end_ : at_page s l1 (ar :: l2) own begin end_ ->
  begin < a_start ar ->
  exists b' i' s', insert_round regs r begin end_ (a_addr ar) s = Ok (Some (b', i'), s') /\
    round_post s begin end_ own (ar :: l2) s' b' i'.
Proof.
  intros [Ho Hb He Hf H1 H2 Hm] Hlt. pose proof (o_rep _ _ _ Ho) as Hrep. unfold insert_round.
  rewrite (addr_ne _ _ _ _ Hrep).
  destruct (holds_fields _ _ (holds_at _ _ _ _ Hrep)) as (v & Ev & Hst & _).
  rewrite (st_bind_run _ _ _ _ _ (run_get_vma _ _ _ Ev)), Hst, (proj2 (Z.ltb_lt _ _)) by done.
  pose proof (r_order _ _ Hrep) as Hor. rewrite in_order_app, in_order_cons in Hor.
  destruct Hor as (_ & ([Hs1 Hs2] & _ & Hg) & _).
  set (last := if a_start ar <=? end_ then u64 (a_start ar - 1) else end_).
  assert (last = Z.min (a_start ar - 1) end_) as Hlast.
  { unfold last. case_zbool; [rewrite u64_small|]; lia. }
  destruct (run_new_owned s l1 (ar :: l2) own begin last (a_addr ar)
    (fun vma => mret (Some (u64 (last + 1), vma)))) as (x & s' & -> & Ho' & Ha'); try done; try lia.
  { intros a [->|Ha]%elem_of_cons; [lia|]. specialize (Hg a Ha). lia. }
  rewrite u64_small by lia. eexists _, _, s'. split; [done|].
  exists (l1 ++ [Area x begin last [r]]), (ar :: l2). rewrite <- app_assoc.
  split; [lia|]. split; [done|]. split; [done|].
  destruct (next_of _ _ _ _ (o_rep _ _ _ Ho')) as [Hp Hn]. split; [done|]. intros Hle.
  assert (last + 1 = a_start ar) as El by lia.
  split; [|split; [|split; [done|]]].
  - intros a [Ha|Ha%list_elem_of_singleton]%elem_of_app; [specialize (H1 a Ha); lia|].
    subst a. cbn. lia.
  - intros a Ha. apply elem_of_cons in Ha as [->|Ha]; [lia|]. specialize (Hg a Ha).
    destruct (own_area _ _ _ a Ho) as [_ [? _]]; [set_solver|]. lia.
  - unfold rounds. rewrite El, Z.eqb_refl. rewrite (proj2 (Z.eqb_neq _ _)) by lia. lia.
Qed.

(** An area that starts at the page and ends behind the registration: only its first part. *)
Lemma round_cut s l1 ar l2 own begin end_ : at_page s l1 (ar :: l2) own begin end_ ->
  a_start ar = begin -> end_ < a_end ar ->
  exists b' i' s', insert_round regs r begin end_ (a_addr ar) s = Ok (Some (b', i'), s') /\
    round_post s begin end_ own (ar :: l2) s' b' i'.
Proof.
  intros [Ho Hb He Hf H1 H2 Hm] Heq Hlt. pose proof (o_rep _ _ _ Ho) as Hrep. unfold insert_round.
  rewrite (addr_ne _ _ _ _ Hrep).
  destruct (holds_fields _ _ (holds_at _ _ _ _ Hrep)) as (v & Ev & Hst & Hen & _).
  rewrite (st_bind_run _ _ _ _ _ (run_get_vma _ _ _ Ev)), Hst, Hen.
  rewrite (proj2 (Z.ltb_ge _ _)), (proj2 (Z.eqb_eq _ _)), (proj2 (Z.ltb_lt _ _)) by lia.
  destruct (own_area _ _ _ ar Ho) as [_ [_ Hp]]; [set_solver|]. rewrite u64_small by lia.
  destruct (regs_bound _ _ _ ar Ho) as [Hlen _]; [set_solver|].
  destruct (run_split_owned s l1 ar l2 own (end_ + 1) end_
    (fun vma => (_ ← add_entry regs (a_addr ar) r; mret (Some (end_ + 1, a_addr ar)))))
    as (x & s1 & -> & Ho1 & Ha1); try done; try lia.
  destruct (run_add_owned s1 l1 (with_end end_ ar) (Area x (end_ + 1) (a_end ar) (a_regs ar) :: l2) own)
    as (s2 & E2 & Ho2 & Ha2); [done|intros p Hp'; apply Hf; cbn in *; lia|unfold need in *; lia|].
  cbn [a_addr with_end] in E2. rewrite (st_bind_run _ _ _ _ _ E2).
  eexists _, _, s2. split; [done|]. eexists l1, _. split; [lia|].
  split; [cbn [a_start a_end with_end] in Ho2; by rewrite Heq in Ho2|]. split; [unfold need; lia|]. split; [|lia].
  by destruct (next_of _ _ _ _ (o_rep _ _ _ Ho2)).
Qed.

(** An area that starts at the page and lies in the registration. *)
Lemma round_whole s l1 ar l2 own begin end_ : at_page s l1 (ar :: l2) own begin end_ ->
  a_start ar = begin -> a_end ar <= end_ ->
  exists b' i' s', insert_round regs r begin end_ (a_addr ar) s = Ok (Some (b', i'), s') /\
    round_post s begin end_ own (ar :: l2) s' b' i'.
Proof.
  intros [Ho Hb He Hf H1 H2 Hm] Heq Hle. pose proof (o_rep _ _ _ Ho) as Hrep. unfold insert_round.
  rewrite (addr_ne _ _ _ _ Hrep).
  destruct (holds_fields _ _ (holds_at _ _ _ _ Hrep)) as (v & Ev & Hst & Hen & _).
  rewrite (st_bind_run _ _ _ _ _ (run_get_vma _ _ _ Ev)), Hst, Hen.
  rewrite (proj2 (Z.ltb_ge begin _)), (proj2 (Z.eqb_eq _ _)), (proj2 (Z.ltb_ge end_ _)) by lia.
  destruct (own_area _ _ _ ar Ho) as [_ [Hp1 Hp2]]; [set_solver|]. rewrite u64_small by lia.
  destruct (run_add_owned s l1 ar l2 own) as (s1 & E1 & Ho1 & Ha1);
    [done|intros p Hp'; apply Hf; lia|unfold need in *; lia|].
  rewrite (st_bind_run _ _ _ _ _ E1). eexists _, _, s1. split; [done|].
  exists (l1 ++ [with_regs (ins regs r (a_regs ar)) ar]), l2. rewrite <- app_assoc.
  split; [lia|]. split; [by rewrite Heq in Ho1|]. split; [unfold need; lia|].
  destruct (next_of _ _ _ _ (o_rep _ _ _ Ho1)) as [Hp Hn]. split; [done|]. intros Hle'.
  pose proof (r_order _ _ Hrep) as Hor. rewrite in_order_app, in_order_cons in Hor.
  destruct Hor as (_ & (_ & _ & Hg) & _).
  split; [|split; [|split; [done|]]].
  - intros a [Ha|Ha%list_elem_of_singleton]%elem_of_app; [specialize (H1 a Ha); lia|].
    subst a. cbn. lia.
  - intros a Ha. specialize (Hg a Ha).
    destruct (own_area _ _ _ a Ho) as [_ [? _]]; [set_solver|]. lia.
  - unfold rounds. cbn [length]. destruct l2 as [|b l2]; [lia|].
    destruct (a_start b =? a_end ar + 1); lia.
Qed.

(** An area that starts in front of the page. *)
Lemma round_mid s l1 ar l2 own begin end_ : at_page s l1 (ar :: l2) own begin end_ ->
  a_start ar < begin ->
  exists b' i' s', insert_round regs r begin end_ (a_addr ar) s = Ok (Some (b', i'), s') /\
    round_post s begin end_ own (ar :: l2) s' b' i'.
Proof.
  intros [Ho Hb He Hf H1 H2 Hm] Hlt. pose proof (o_rep _ _ _ Ho) as Hrep. unfold insert_round.
  rewrite (addr_ne _ _ _ _ Hrep).
  destruct (holds_fields _ _ (holds_at _ _ _ _ Hrep)) as (v & Ev & Hst & Hen & _).
  rewrite (st_bind_run _ _ _ _ _ (run_get_vma _ _ _ Ev)), Hst, Hen.
  rewrite (proj2 (Z.ltb_ge begin _)), (proj2 (Z.eqb_neq _ begin)) by lia.
  rewrite u64_small by lia. pose proof (H2 ar ltac:(by left)) as Hin.
  destruct (regs_bound _ _ _ ar Ho) as [Hlen _]; [set_solver|].
  destruct (run_split_owned s l1 ar l2 own begin (begin - 1)
    (fun _ => mret (Some (begin, a_addr ar)))) as (x & s1 & -> & Ho1 & Ha1); try done.
  eexists _, _, s1. split; [done|].
  exists (l1 ++ [with_end (begin - 1) ar]), (Area x begin (a_end ar) (a_regs ar) :: l2).
  rewrite <- app_assoc. split; [lia|]. split.
  { eapply db_own_ext; [|exact Ho1]. intros p y. unfold plus. intuition lia. }
  split; [unfold need; lia|].
  destruct (next_of _ _ _ _ (o_rep _ _ _ Ho1)) as [Hp Hn]. split; [done|]. intros _.
  split; [|split; [|split; [done|]]].
  - intros a [Ha|Ha%list_elem_of_singleton]%elem_of_app; [auto|]. subst a. cbn. lia.
  - intros a [->|Ha]%elem_of_cons; [done|]. apply H2. by right.
  - unfold rounds. cbn [length a_start]. rewrite Z.eqb_refl, (proj2 (Z.eqb_neq _ _)) by lia. lia.
Qed.

Lemma insert_round_spec s l1 l2 own begin end_ : at_page s l1 l2 own begin end_ ->
  exists b' i' s', insert_round regs r begin end_ (hd vma_list (addrs l2)) s = Ok (Some (b', i'), s') /\
    round_post s begin end_ own l2 s' b' i'.
Proof.
  intros Hat. destruct l2 as [|ar l2]; [by eapply round_tail|]. cbn [addrs fmap list_fmap hd].
  destruct (Z.lt_total begin (a_start ar)) as [?|[E|?]]; [by eapply round_gap| |by eapply round_mid].
  destruct (Z.lt_ge_cases end_ (a_end ar)); [by eapply round_cut|by eapply round_whole].
Qed.

(** The loop ends after at most [rounds] rounds, and [r] owns its pages. *)
Lemma insert_loop_spec fuel : forall s l1 l2 own begin end_, at_page s l1 l2 own begin end_ ->
  (rounds begin l2 <= fuel)%nat -> (rounds begin l2 * need <= avail (hp s))%nat ->
  exists s' l', insert_loop regs fuel r begin end_ (hd vma_list (addrs l2)) s = Ok (true, s') /\
    db_own s' l' (plus own r begin (end_ + 1)).
Proof.
  induction fuel as [|fuel IH]; intros s l1 l2 own begin end_ Hat Hf Hm.
  { unfold rounds in Hf. destruct l2; cbn [length] in Hf; lia. }
  destruct (insert_round_spec s l1 l2 own begin end_ Hat) as
    (b' & i' & s1 & E & l1' & l2' & Hb & Ho & Hav & Hpr & Hrest).
  destruct Hat as [_ Hb0 He Hfree _ _ _]. cbn [insert_loop].
  rewrite (proj2 (Z.leb_le _ _)) by lia. rewrite (st_bind_run _ _ _ _ _ E).
  destruct (run_field s1 i' (fun iv => insert_loop regs fuel r b' end_ (v_next iv)) Hpr) as (iv & Eiv & ->).
  rewrite (field_get _ _ _ v_next Eiv).
  destruct (decide (b' <= end_)) as [Hle|Hle].
  - destruct (Hrest Hle) as (H1 & H2 & -> & Hlt).
    assert (1 <= rounds b' l2')%nat as Hr1 by (unfold rounds; destruct l2'; cbn [length]; lia).
    assert (rounds b' l2' * need + need <= avail (hp s))%nat as Hm' by nia.
    destruct (IH s1 l1' l2' (plus own r begin b') b' end_) as (s' & l' & E' & Ho').
    + split; try done; try lia; [|nia].
      intros p Hp [Hp'|[_ Hp']]; [|lia]. by apply (Hfree p); [lia|].
    + lia.
    + lia.
    + exists s', l'. split; [done|]. eapply db_own_ext; [|exact Ho'].
      intros p y. unfold plus. intuition lia.
  - assert (b' = end_ + 1) as -> by lia. exists s1, (l1' ++ l2').
    split; [|done]. destruct fuel; cbn [insert_loop]; by rewrite (proj2 (Z.leb_gt _ _)) by lia.
Qed.
End insert.

(** ** The searches *)

Lemma split_at (l : list area) (p : Z) : in_order l -> exists l1 l2, l = l1 ++ l2 /\
  (forall a, a ∈ l1 -> a_end a < p) /\ (forall a, a ∈ l2 -> p <= a_end a).
Proof.
  induction l as [|a l IH]; intros Ho.
  - exists [], []. split; [done|]. split; intros a Ha; by apply elem_of_nil in Ha.
  - apply in_order_cons in Ho as (Hp & Ho & Hg). destruct (Z.lt_ge_cases (a_end a) p) as [Hlt|Hge].
    + destruct (IH Ho) as (l1 & l2 & -> & H1 & H2). exists (a :: l1), l2. split; [done|].
      split; [|done]. intros b [->|Hb]%elem_of_cons; auto.
    + exists [], (a :: l). split; [done|]. split; [intros b Hb; by apply elem_of_nil in Hb|].
      intros b [->|Hb]%elem_of_cons; [done|]. specialize (Hg b Hb).
      destruct Ho as [_ Hps]. rewrite Forall_forall in Hps. destruct (Hps b Hb). lia.
Qed.

Lemma signs_sorted (c : Z -> Z) (l1 l2 : list Z) : Forall (fun x => 0 < c x) l1 ->
  match l2 with [] => True | x :: l => c x <= 0 /\ Forall (fun y => c y < 0) l end ->
  StronglySorted (fun x y => c x <= 0 -> c y < 0) (l1 ++ l2).
Proof.
  intros H1 H2. apply StronglySorted_app. split_and!.
  - intros x y Hx _ Hc. rewrite Forall_forall in H1. specialize (H1 x Hx). lia.
  - induction H1 as [|x l Hx H1 IH]; constructor; [done|]. apply Forall_forall. intros; lia.
  - destruct l2 as [|x l2]; [constructor|]. destruct H2 as [_ H2]. constructor.
    + induction H2 as [|y l Hy H2 IH]; constructor; [done|]. eapply Forall_impl; [exact H2|]. done.
    + eapply Forall_impl; [exact H2|]. done.
Qed.

(** The areas' ends and starts, as the comparisons read them. *)
Lemma rep_fields s l : db_rep s l -> forall a, a ∈ l ->
  field s v_start (a_addr a) = a_start a /\ field s v_end (a_addr a) = a_end a.
Proof.
  intros Hrep a Ha. pose proof (r_holds _ _ Hrep) as Hh. rewrite Forall_forall in Hh.
  by destruct (holds_fields _ _ (Hh a Ha)) as (_ & _ & _ & _ & _ & _ & ? & ?).
Qed.

(** The item a search finds is the first of [l2], or there is none. *)
Lemma search_item s l1 l2 (c : Z -> Z) : db_rep s (l1 ++ l2) ->
  Forall (fun a => 0 < c (a_addr a)) l1 ->
  match l2 with [] => True | ar :: l => c (a_addr ar) <= 0 /\ Forall (fun a => c (a_addr a) < 0) l end ->
  let node := avl_find (fun y _ => c y) (root (vma_tree s)) in
  (exists ar l, l2 = ar :: l /\ c (a_addr ar) = 0 /\ node <> NULL /\
     avl_item node (vma_tree s) = Ok (a_addr ar)) \/
  (node = NULL /\ match l2 with [] => True | ar :: _ => c (a_addr ar) <> 0 end).
Proof.
  intros Hrep H1 H2 node. subst node.
  destruct (tree_search s (addrs (l1 ++ l2)) c) as [(node & y & -> & Hn & Hy & Hin & Hc)|[E HF]].
  - by destruct Hrep.
  - rewrite addrs_app. apply signs_sorted; [by apply Forall_fmap|].
    destruct l2 as [|ar l2]; [done|]. destruct H2 as [? H2]. split; [done|]. by apply Forall_fmap.
  - left. apply list_elem_of_fmap in Hin as (ar & -> & Hin).
    rewrite Forall_forall in H1. apply elem_of_app in Hin as [Hin|Hin].
    { specialize (H1 ar Hin). lia. }
    destruct l2 as [|b l2]; [by apply elem_of_nil in Hin|]. destruct H2 as [H2 H3].
    apply elem_of_cons in Hin as [->|Hin]; [by exists b, l2|].
    rewrite Forall_forall in H3. specialize (H3 ar Hin). lia.
  - right. split; [done|]. destruct l2 as [|ar l2]; [done|]. rewrite Forall_forall in HF.
    apply HF. rewrite addrs_app. set_solver.
Qed.

(** vma_search: the area with the page. *)
Lemma run_search s l1 l2 p : db_rep s (l1 ++ l2) -> (forall a, a ∈ l1 -> a_end a < p) ->
  (forall a, a ∈ l2 -> p <= a_end a) ->
  vma_search p s = Ok (match l2 with
    | ar :: _ => if a_start ar <=? p then a_addr ar else NULL
    | [] => NULL
    end, s).
Proof.
  intros Hrep H1 H2. pose proof (rep_fields _ _ Hrep) as Hf.
  pose proof (r_order _ _ Hrep) as Ho. rewrite in_order_app in Ho. destruct Ho as (_ & Ho2 & _).
  assert (forall a, a ∈ l2 -> vma_compare_search s p (a_addr a) =
    if a_start a <=? p then 0 else -1) as Hc2.
  { intros a Ha. destruct (Hf a ltac:(set_solver)) as [Es Ee]. unfold vma_compare_search.
    specialize (H2 a Ha). by rewrite Es, Ee, (proj2 (Z.ltb_ge _ _)). }
  unfold vma_search, avlfindex.
  destruct (search_item s l1 l2 (vma_compare_search s p) Hrep) as
    [(ar & l & -> & Hc & Hn & Hi)|[Hn Hc]].
  - apply Forall_forall. intros a Ha. destruct (Hf a ltac:(set_solver)) as [Es Ee].
    unfold vma_compare_search. specialize (H1 a Ha). by rewrite Ee, (proj2 (Z.ltb_lt _ _)).
  - destruct l2 as [|ar l2]; [done|]. apply in_order_cons in Ho2 as (_ & _ & Hg). split.
    + rewrite Hc2 by (by left). by destruct (a_start ar <=? p).
    + apply Forall_forall. intros a Ha. rewrite Hc2 by (by right). specialize (Hg a Ha).
      specialize (H2 ar ltac:(by left)). by rewrite (proj2 (Z.leb_gt _ _)) by lia.
  - rewrite (proj2 (Z.eqb_neq _ _) Hn), Hi. rewrite Hc2 in Hc by (by left).
    by destruct (a_start ar <=? p).
  - rewrite Hn. cbn [Z.eqb NULL]. destruct l2 as [|ar l2]; [done|].
    rewrite Hc2 in Hc by (by left). by destruct (a_start ar <=? p).
Qed.

(** The search for the place of an insertion: the first area that ends behind the page. *)
Lemma run_closest s l1 l2 p : db_rep s (l1 ++ l2) -> 1 <= p -> (forall a, a ∈ l1 -> a_end a < p) ->
  (forall a, a ∈ l2 -> p <= a_end a) -> closest p s = Ok (hd vma_list (addrs l2), s).
Proof.
  intros Hrep Hp H1 H2. pose proof (rep_fields _ _ Hrep) as Hf.
  pose proof (r_order _ _ Hrep) as Ho. rewrite in_order_app in Ho. destruct Ho as (_ & Ho2 & _).
  unfold closest, avlfindex.
  assert (match l2 with [] => True | ar :: l => vma_compare_closest s p (a_addr ar) = 0 /\
    Forall (fun a => vma_compare_closest s p (a_addr a) < 0) l end) as Hc2.
  { destruct l2 as [|ar l2]; [done|]. split.
    - destruct (Hf ar ltac:(set_solver)) as [Es Ee]. destruct (rep_links _ _ _ _ Hrep) as (_ & Hprev & _).
      unfold vma_compare_closest. pose proof (H2 ar ltac:(by left)).
      rewrite Ee, Es, Hprev, (proj2 (Z.ltb_ge _ _)) by done.
      enough (field s v_end (List.last (addrs l1) vma_list) < p) as Hlt
        by (by rewrite (proj2 (Z.ltb_lt _ _) Hlt), orb_true_r).
      destruct l1 as [|b l1 _] using rev_ind.
      + cbn. destruct (body_fields _ _ _ _ _ _ (r_sentinel _ _ Hrep)) as (_ & _ & _ & _ & _ & _ & _ & ->). lia.
      + rewrite addrs_app. cbn [addrs fmap list_fmap]. rewrite List.last_last.
        destruct (Hf b ltac:(set_solver)) as [_ ->]. apply H1. set_solver.
    - apply Forall_forall. intros a Ha. apply list_elem_of_split in Ha as (m1 & m2 & ->).
      apply in_order_cons in Ho2 as (_ & Ho2 & Hg).
      assert (l1 ++ ar :: m1 ++ a :: m2 = (l1 ++ ar :: m1) ++ a :: m2) as El by (by rewrite <- app_assoc).
      pose proof Hrep as Hrep'. rewrite El in Hrep'. destruct (rep_links _ _ _ _ Hrep') as (_ & Hprev & _).
      destruct (Hf a ltac:(set_solver)) as [Es Ee]. unfold vma_compare_closest.
      pose proof (H2 a ltac:(set_solver)). pose proof (H2 ar ltac:(by left)).
      specialize (Hg a ltac:(set_solver)). 
      rewrite Ee, Es, Hprev, (proj2 (Z.ltb_ge _ _)), (proj2 (Z.leb_gt _ _)) by lia.
      enough (p <= field s v_end (List.last (addrs (l1 ++ ar :: m1)) vma_list)) as Hle
        by (by rewrite (proj2 (Z.ltb_ge _ _) Hle)).
      destruct m1 as [|b m1 _] using rev_ind.
      + rewrite addrs_app. cbn [addrs fmap list_fmap]. rewrite List.last_last.
        by destruct (Hf ar ltac:(set_solver)) as [_ ->].
      + rewrite app_comm_cons, app_assoc, addrs_app. cbn [addrs fmap list_fmap]. rewrite List.last_last.
        destruct (Hf b ltac:(set_solver)) as [_ ->]. apply H2. set_solver. }
  destruct (search_item s l1 l2 (vma_compare_closest s p) Hrep) as
    [(ar & l & -> & Hc & Hn & Hi)|[Hn Hc]].
  - apply Forall_forall. intros a Ha. destruct (Hf a ltac:(set_solver)) as [Es Ee].
    unfold vma_compare_closest. specialize (H1 a Ha). by rewrite Ee, (proj2 (Z.ltb_lt _ _)).
  - destruct l2; [done|]. destruct Hc2 as [-> ?]. done.
  - by rewrite (proj2 (Z.eqb_neq _ _) Hn), Hi.
  - rewrite Hn. cbn [Z.eqb NULL]. destruct l2 as [|ar l2]; [done|]. by destruct Hc2.
Qed.

(** ** The rounds of dreg_remove *)

Lemma same_regs_eq c1 c2 : length c1 = length c2 -> same_regs c1 c2 = true <-> c1.*2 = c2.*2.
Proof.
  revert c2. induction c1 as [|[e1 r1] c1 IH]; intros [|[e2 r2] c2] Hl; try done.
  cbn [same_regs fmap list_fmap snd]. rewrite andb_true_iff, Z.eqb_eq, IH by (cbn in Hl; lia).
  split; [intros [-> E]|intros [= -> E]]; [by f_equal|done].
Qed.

Lemma run_compare_lists s ar br : holds s ar -> holds s br ->
  compare_lists (a_addr ar) (a_addr br) s = Ok (bool_decide (a_regs ar = a_regs br), s).
Proof.
  intros Ha Hb. destruct (holds_fields _ _ Ha) as (v & Ev & _ & _ & Lv & Nv & _).
  destruct (holds_fields _ _ Hb) as (w & Ew & _ & _ & Lw & Nw & _). unfold compare_lists.
  rewrite (st_bind_run _ _ _ _ _ (run_get_vma _ _ _ Ev)), (st_bind_run _ _ _ _ _ (run_get_vma _ _ _ Ew)).
  rewrite Nv, Nw. unfold mret, ST_ret. do 2 f_equal. apply eq_true_iff_eq.
  rewrite bool_decide_eq_true, andb_true_iff, Z.eqb_eq, <- Lv, <- Lw, !length_fmap.
  split; [|intros E; split; [apply (f_equal length) in E; rewrite !length_fmap in E; lia|]].
  - intros [E1 E2]. apply same_regs_eq; [lia|done].
  - apply same_regs_eq; [|done]. apply (f_equal length) in E. by rewrite !length_fmap in E.
Qed.

Lemma own_merge s s' l1 p t l2 own : db_own s (l1 ++ p :: t :: l2) own -> a_regs p = a_regs t ->
  a_start t = a_end p + 1 -> db_rep s' (l1 ++ with_end (a_end t) p :: l2) ->
  db_own s' (l1 ++ with_end (a_end t) p :: l2) own.
Proof.
  intros [H1 H2 H3 H4] Er Es Hrep. apply Forall_app in H2 as [O1 O2].
  apply Forall_cons in O2 as [(S & N & O) O2]. apply Forall_cons in O2 as [(_ & _ & O') O2].
  pose proof (r_order _ _ H1) as Ho. rewrite in_order_app, !in_order_cons in Ho.
  destruct Ho as (_ & ([? _] & ([? _] & _) & _) & _). split; [done| | |done].
  - apply Forall_app. split; [done|]. constructor; [|done]. split; [done|]. split; [done|].
    cbn. intros q Hq y. destruct (Z.le_gt_cases q (a_end p)); [apply O; lia|].
    rewrite Er. apply O'. lia.
  - intros q y Hy. destruct (H3 q y Hy) as (a & Ha & Hq).
    apply elem_of_app in Ha as [Ha|[->|[->|Ha]%elem_of_cons]%elem_of_cons].
    1, 4: exists a; set_solver.
    all: exists (with_end (a_end t) p); cbn; split; [set_solver|lia].
Qed.

Section remove.
Context (r : Z).

(** What merging leaves: [ar] may have grown over its neighbours. *)
Definition merged_to own (l1 l2 : list area) (ar : area) (s' : vma_db) (l1' l2' : list area) (ar' : area) : Prop :=
  db_own s' (l1' ++ ar' :: l2') own /\ a_regs ar' = a_regs ar /\ (forall a, a ∈ l1' -> a ∈ l1) /\
  (length l1' <= length l1)%nat /\ (length l2' <= length l2)%nat.

Lemma merge_prev_spec s l1 ar l2 own : db_own s (l1 ++ ar :: l2) own ->
  exists s' l1' ar' b, merge_prev (a_addr ar) s = Ok ((a_addr ar', b), s') /\
    merged_to own l1 l2 ar s' l1' l2 ar' /\ (b = true -> length l1' < length l1)%nat.
Proof.
  intros Ho. pose proof (o_rep _ _ _ Ho) as Hrep. destruct (rep_links _ _ _ _ Hrep) as (_ & Hp & _ & Pp).
  pose proof (holds_at _ _ _ _ Hrep) as Hh. destruct (holds_fields _ _ Hh) as (v & Ev & Hs & _ & _ & Hn & _).
  assert (merged_to own l1 l2 ar s l1 l2 ar) as Hsame by (split_and!; try done; lia).
  unfold merge_prev. rewrite (st_bind_run _ _ _ _ _ (run_get_vma _ _ _ Ev)).
  rewrite (field_get _ _ _ v_prev Ev), Hp, Hs.
  destruct l1 as [|p l1 _] using rev_ind.
  - cbn [addrs fmap list_fmap List.last]. destruct (body_fields _ _ _ _ _ _ (r_sentinel _ _ Hrep)) as
      (w & Ew & _ & Hen & Hlw & Hnw & _). rewrite (st_bind_run _ _ _ _ _ (run_get_vma _ _ _ Ew)), Hen.
    exists s, [], ar, false. split; [|done]. destruct (_ =? _); [|done].
    unfold compare_lists. rewrite (st_bind_run _ _ _ false s); [done|].
    rewrite (st_bind_run _ _ _ _ _ (run_get_vma _ _ _ Ev)), (st_bind_run _ _ _ _ _ (run_get_vma _ _ _ Ew)).
    rewrite Hn, Hnw. destruct (own_area _ _ _ ar Ho) as [(_ & Hne & _) _]; [set_solver|].
    destruct (a_regs ar); [done|]. done.
  - rewrite addrs_app. cbn [addrs fmap list_fmap]. rewrite List.last_last.
    assert ((l1 ++ [p]) ++ ar :: l2 = l1 ++ p :: ar :: l2) as El by (by rewrite <- app_assoc).
    rewrite El in *. pose proof (holds_at _ _ _ _ Hrep) as Hhp.
    destruct (holds_fields _ _ Hhp) as (w & Ew & _ & Hen & _).
    rewrite (st_bind_run _ _ _ _ _ (run_get_vma _ _ _ Ew)), Hen.
    destruct (own_area _ _ _ p Ho) as [_ [? ?]]; [set_solver|]. rewrite u64_small by lia.
    destruct (Z.eqb_spec (a_start ar) (a_end p + 1)) as [Es|]; [|by exists s, (l1 ++ [p]), ar, false].
    rewrite (st_bind_run _ _ _ _ _ (run_compare_lists _ _ _ Hh Hhp)).
    case_bool_decide as Er; [|by exists s, (l1 ++ [p]), ar, false].
    destruct (run_merge s l1 p ar l2 Hrep) as (s' & E & Hrep').
    rewrite (st_bind_run _ _ _ _ _ E). exists s', l1, (with_end (a_end ar) p), true.
    split; [done|]. split; [|intros _; rewrite length_app; cbn; lia].
    split; [by eapply own_merge|]. split; [done|]. split; [set_solver|].
    rewrite length_app. cbn. lia.
Qed.

Lemma merge_next_spec s l1 ar l2 own : db_own s (l1 ++ ar :: l2) own ->
  exists s' l2' ar' b, merge_next (a_addr ar) s = Ok (b, s') /\ a_addr ar' = a_addr ar /\
    merged_to own l1 l2 ar s' l1 l2' ar' /\ (b = true -> length l2' < length l2)%nat.
Proof.
  intros Ho. pose proof (o_rep _ _ _ Ho) as Hrep. destruct (rep_links _ _ _ _ Hrep) as (Hnx & _ & Pn & _).
  pose proof (holds_at _ _ _ _ Hrep) as Hh. destruct (holds_fields _ _ Hh) as (v & Ev & _ & Hs & _ & Hn & _).
  assert (merged_to own l1 l2 ar s l1 l2 ar) as Hsame by (split_and!; try done; lia).
  destruct (own_area _ _ _ ar Ho) as [_ [? ?]]; [set_solver|].
  unfold merge_next. rewrite (st_bind_run _ _ _ _ _ (run_get_vma _ _ _ Ev)).
  rewrite (field_get _ _ _ v_next Ev), Hnx, Hs, u64_small by lia.
  destruct l2 as [|t l2]; cbn [addrs fmap list_fmap hd].
  - destruct (body_fields _ _ _ _ _ _ (r_sentinel _ _ Hrep)) as (w & Ew & Hst & _).
    rewrite (st_bind_run _ _ _ _ _ (run_get_vma _ _ _ Ew)), Hst, (proj2 (Z.eqb_neq _ _)) by lia.
    by exists s, [], ar, false.
  - assert (l1 ++ ar :: t :: l2 = (l1 ++ [ar]) ++ t :: l2) as El by (by rewrite <- app_assoc).
    pose proof Hrep as Hrep'. rewrite El in Hrep'. pose proof (holds_at _ _ _ _ Hrep') as Hht.
    destruct (holds_fields _ _ Hht) as (w & Ew & Hst & _).
    rewrite (st_bind_run _ _ _ _ _ (run_get_vma _ _ _ Ew)), Hst.
    destruct (Z.eqb_spec (a_end ar + 1) (a_start t)) as [Es|]; [|by exists s, (t :: l2), ar, false].
    rewrite (st_bind_run _ _ _ _ _ (run_compare_lists _ _ _ Hh Hht)).
    case_bool_decide as Er; [|by exists s, (t :: l2), ar, false].
    destruct (run_merge s l1 ar t l2 Hrep) as (s' & E & Hrep2).
    rewrite (st_bind_run _ _ _ _ _ E). exists s', l2, (with_end (a_end t) ar), true.
    split; [done|]. split; [done|]. split; [|intros _; cbn; lia].
    split; [by eapply own_merge|]. split; [done|]. split; [done|]. cbn. lia.
Qed.

(** The merging loop ends: every round but the last removes an area. *)
Lemma merge_loop_spec fuel : forall s l1 ar l2 own, db_own s (l1 ++ ar :: l2) own ->
  (length l1 + length l2 < fuel)%nat ->
  exists s' l1' l2' ar', merge_loop fuel (a_addr ar) s = Ok (a_addr ar', s') /\
    merged_to own l1 l2 ar s' l1' l2' ar'.
Proof.
  induction fuel as [|fuel IH]; intros s l1 ar l2 own Ho Hf; [lia|]. cbn [merge_loop].
  destruct (merge_prev_spec s l1 ar l2 own Ho) as (s1 & l1a & ar1 & b1 & E1 & (Ho1 & Er1 & Hin1 & Hl1 & _) & Hb1).
  rewrite (st_bind_run _ _ _ _ _ E1).
  destruct (merge_next_spec s1 l1a ar1 l2 own Ho1) as (s2 & l2a & ar2 & b2 & E2 & Ea & (Ho2 & Er2 & _ & _ & Hl2) & Hb2).
  rewrite (st_bind_run _ _ _ _ _ E2), <- Ea.
  destruct (b1 || b2) eqn:Eb.
  - destruct (IH s2 l1a ar2 l2a own Ho2) as (s3 & l1b & l2b & ar3 & E3 & (Ho3 & Er3 & Hin3 & Hl3 & Hl4)).
    { apply orb_true_iff in Eb as [->| ->]; [specialize (Hb1 eq_refl)|specialize (Hb2 eq_refl)]; lia. }
    exists s3, l1b, l2b, ar3. split; [done|].
    split; [done|]. split; [congruence|]. split; [auto|]. lia.
  - exists s2, l1a, l2a, ar2. split; [done|].
    split; [done|]. split; [congruence|]. split; [done|]. lia.
Qed.
(** [own] without [r]. *)
Definition minus own : Z -> Z -> Prop := fun p x => own p x /\ x <> r.

(** [own] without [r] on the pages of an area. *)
Definition minus_at own (ar : area) : Z -> Z -> Prop := fun p x =>
  own p x /\ ~ (x = r /\ a_start ar <= p <= a_end ar).

Lemma owned_minus_at own ar a : owned own a -> a_end a < a_start ar \/ a_end ar < a_start a ->
  owned (minus_at own ar) a.
Proof.
  intros (H1 & H2 & H3) Hd. split; [done|]. split; [done|]. intros p Hp x. rewrite H3 by done.
  unfold minus_at. split; [intros Hx; split; [done|lia]|by intros [? _]].
Qed.

Lemma others_minus_at s l1 ar l2 own : db_own s (l1 ++ ar :: l2) own ->
  Forall (owned (minus_at own ar)) l1 /\ Forall (owned (minus_at own ar)) l2.
Proof.
  intros [H1 H2 _ _]. pose proof (r_order _ _ H1) as Ho. rewrite in_order_app, in_order_cons in Ho.
  destruct Ho as (_ & (_ & _ & Hg) & Hl). rewrite Forall_forall in H2.
  split; apply Forall_forall; intros a Ha; (apply owned_minus_at; [apply H2; set_solver|]).
  - left. apply Hl; [done|by left].
  - right. by apply Hg.
Qed.

(** The area of the page loses [r], or goes when nobody else owns it. *)
Lemma own_delete s s' l1 ar l2 own : db_own s (l1 ++ ar :: l2) own -> del r (a_regs ar) <> [] ->
  db_rep s' (l1 ++ with_regs (del r (a_regs ar)) ar :: l2) ->
  db_own s' (l1 ++ with_regs (del r (a_regs ar)) ar :: l2) (minus_at own ar).
Proof.
  intros Ho Hne Hrep. destruct (others_minus_at _ _ _ _ _ Ho) as [F1 F2]. destruct Ho as [H1 H2 H3 H4].
  apply Forall_app in H2 as [O1 O2]. apply Forall_cons in O2 as [(S & N & O) O2]. split; [done| | |].
  - apply Forall_app. split; [done|]. constructor; [|done]. split; [by apply del_sorted|].
    split; [done|]. cbn. intros p Hp x. rewrite del_elem by (by eapply sorted_nodup).
    rewrite (O p) by done. unfold minus_at. naive_solver.
  - intros p x [Hx _]. destruct (H3 p x Hx) as (a & Ha & Hpa).
    apply elem_of_app in Ha as [Ha|[->|Ha]%elem_of_cons]; [exists a; set_solver| |exists a; set_solver].
    eexists. split; [apply elem_of_app; right; by left|done].
  - intros p x [Hx _]. eauto.
Qed.

Lemma own_drop s s' l1 ar l2 own : db_own s (l1 ++ ar :: l2) own -> del r (a_regs ar) = [] ->
  db_rep s' (l1 ++ l2) -> db_own s' (l1 ++ l2) (minus_at own ar).
Proof.
  intros Ho He Hrep. destruct (others_minus_at _ _ _ _ _ Ho) as [F1 F2]. destruct Ho as [H1 H2 H3 H4].
  apply Forall_app in H2 as [O1 O2]. apply Forall_cons in O2 as [(S & N & O) O2]. split; [done| | |].
  - by apply Forall_app.
  - intros p x [Hx Hnr]. destruct (H3 p x Hx) as (a & Ha & Hpa).
    apply elem_of_app in Ha as [Ha|[->|Ha]%elem_of_cons]; [exists a; set_solver| |exists a; set_solver].
    assert (x ∈ del r (a_regs ar)) as Hin.
    { apply del_elem; [by eapply sorted_nodup|]. rewrite (O p) by done. split; [done|]. by intros ->; apply Hnr. }
    rewrite He in Hin. by apply elem_of_nil in Hin.
  - intros p x [Hx _]. eauto.
Qed.

(** The loop ends, and [r] owns nothing. *)
Lemma remove_loop_spec fuel last : forall s l1 l2 own, db_own s (l1 ++ l2) own ->
  (forall p, own p r -> p <= last) -> (forall a, a ∈ l1 -> r ∉ a_regs a) ->
  (length l2 + length (l1 ++ l2) < fuel)%nat ->
  exists s' l', remove_loop fuel r last (hd vma_list (addrs l2)) s = Ok (tt, s') /\
    db_own s' l' (minus own).
Proof.
  induction fuel as [|fuel IH]; intros s l1 l2 own Ho Hlast Hl1 Hf; [lia|].
  pose proof (o_rep _ _ _ Ho) as Hrep. pose proof (r_order _ _ Hrep) as Hor.
  rewrite in_order_app in Hor. destruct Hor as (_ & Hor & _).
  assert ((forall a, a ∈ l2 -> forall p, a_start a <= p <= a_end a -> ~ own p r) ->
    db_own s (l1 ++ l2) (minus own)) as Hdone.
  { intros H2. eapply db_own_ext; [|exact Ho]. intros p x. unfold minus. split; [|tauto].
    intros Hx. split; [done|]. intros ->. destruct (o_cover _ _ _ Ho p r Hx) as (a & Ha & Hp).
    destruct (own_area _ _ _ _ Ho Ha) as [(_ & _ & O) _].
    apply elem_of_app in Ha as [Ha|Ha]; [|by eapply H2].
    apply (Hl1 a Ha). by apply (O p). }
  destruct l2 as [|ar l2]; cbn [remove_loop].
  { cbn [addrs fmap list_fmap hd]. rewrite Z.eqb_refl. exists s, (l1 ++ []). split; [done|].
    apply Hdone. intros a Ha. by apply elem_of_nil in Ha. }
  cbn [addrs fmap list_fmap hd]. rewrite (addr_ne _ _ _ _ Hrep).
  destruct (holds_fields _ _ (holds_at _ _ _ _ Hrep)) as (v & Ev & Hst & _).
  rewrite (st_bind_run _ _ _ _ _ (run_get_vma _ _ _ Ev)), Hst.
  destruct (Z.leb_spec (a_start ar) last) as [Hle|Hgt].
  2: { exists s, (l1 ++ ar :: l2). split; [done|]. apply Hdone.
       apply in_order_cons in Hor as (_ & _ & Hg). intros a Ha p Hp Hpr. specialize (Hlast p Hpr).
       apply elem_of_cons in Ha as [->|Ha]; [lia|]. specialize (Hg a Ha).
       destruct (own_area _ _ _ ar Ho) as [_ [? _]]; [set_solver|]. lia. }
  destruct (regs_bound _ _ _ ar Ho) as [_ Hlen]; [set_solver|].
  destruct (own_area _ _ _ ar Ho) as [(Sar & Nar & Oar) [Par _]]; [set_solver|].
  destruct (run_remove_entry s l1 ar l2 r Hrep ltac:(lia)) as (s1 & E1 & Hrep1).
  rewrite (st_bind_run _ _ _ _ _ E1).
  destruct (holds_fields _ _ (holds_at _ _ _ _ Hrep1)) as (w & Ew & _ & _ & Lw & _).
  cbn [a_addr with_regs] in Ew. rewrite (st_bind_run _ _ _ _ _ (run_get_vma _ _ _ Ew)).
  cbn [a_regs with_regs] in Lw. rewrite length_app in Hf. cbn [length] in Hf.
  assert (forall p x, minus (minus_at own ar) p x <-> minus own p x) as Hme.
  { intros p x. unfold minus, minus_at. intuition. }
  destruct (v_list w) as [|c cs]; cbn [fmap list_fmap] in Lw.
  - destruct (rep_links _ _ _ _ Hrep1) as (Hn & _). cbn [a_addr with_regs] in Hn.
    rewrite (field_get _ _ _ v_next Ew), Hn.
    destruct (run_drop s1 l1 _ l2 Hrep1) as (s2 & s3 & E2 & E3 & Hrep3). cbn [a_addr with_regs] in E2, E3.
    rewrite (st_bind_run _ _ _ _ _ E2), (st_bind_run _ _ _ _ _ E3).
    destruct (IH s3 l1 l2 (minus_at own ar)) as (s4 & l4 & E4 & Ho4).
    + by eapply own_drop.
    + intros p [Hp _]. auto.
    + done.
    + rewrite length_app. lia.
    + exists s4, l4. split; [done|]. by eapply db_own_ext.
  - assert (db_own s1 (l1 ++ with_regs (del r (a_regs ar)) ar :: l2) (minus_at own ar)) as Ho1.
    { eapply own_delete; [done| |done]. by rewrite <- Lw. }
    destruct (merge_loop_spec fuel s1 l1 _ l2 _ Ho1) as
      (s2 & l1' & l2' & ar' & E2 & (Ho2 & Er2 & Hin2 & Hl2 & Hl2')); [lia|].
    cbn [a_addr with_regs] in E2. rewrite (st_bind_run _ _ _ _ _ E2).
    pose proof (o_rep _ _ _ Ho2) as Hrep2. destruct (next_of _ _ _ _ Hrep2) as [Hp Hn].
    destruct (run_field s2 (a_addr ar') (fun v => remove_loop fuel r last (v_next v)) Hp) as (u & Eu & ->).
    rewrite (field_get _ _ _ v_next Eu), Hn.
    destruct (IH s2 (l1' ++ [ar']) l2' (minus_at own ar)) as (s4 & l4 & E4 & Ho4).
    + by rewrite <- app_assoc.
    + intros p [Hp' _]. auto.
    + intros a [Ha|Ha%list_elem_of_singleton]%elem_of_app; [auto|]. subst a. rewrite Er2. cbn.
      rewrite del_elem by (by eapply sorted_nodup). tauto.
    + rewrite !length_app. cbn. lia.
    + exists s4, l4. split; [done|]. by eapply db_own_ext.
Qed.
End remove.
End regs.

(** ** The database and the set it represents *)

Definition covering (regs : gmap Z dreg_entry) (R : gset Z) (p r : Z) : Prop :=
  r ∈ R /\ covers regs r p.

(** The database holds exactly the registrations of [R]. *)
Definition db_inv (regs : gmap Z dreg_entry) (s : vma_db) (R : gset Z) : Prop :=
  (forall r, r ∈ R -> reg_ok regs r) /\ exists l, db_own regs R s l (covering regs R).

Lemma db_own_known regs U U' s l own : (forall p r, own p r -> r ∈ U') ->
  db_own regs U s l own -> db_own regs U' s l own.
Proof. intros Hk [H1 H2 H3 _]. by split. Qed.

Lemma own_count regs U s l own : db_own regs U s l own -> avlcount (vma_tree s) = Z.of_nat (length l).
Proof.
  intros [H _ _ _]. destruct H as [[_ _ -> _ _] _ _ _ _ _]. unfold addrs. by rewrite length_fmap.
Qed.

Lemma dreg_insert_run regs s R l r fuel : (forall x, x ∈ R -> reg_ok regs x) ->
  db_own regs R s l (covering regs R) -> reg_ok regs r -> r ∉ R ->
  (2 * length l + 1 <= fuel)%nat -> ((2 * length l + 1) * (size R + 5) <= avail (hp s))%nat ->
  exists s', dreg_insert regs fuel r s = Ok (0, s') /\ db_inv regs s' ({[r]} ∪ R).
Proof.
  intros HR Ho Hr Hnr Hf Hm. destruct (reg_ok_end regs r Hr) as (d & Ed & _ & Hd1 & Hd2).
  apply (db_own_known _ _ ({[r]} ∪ R)) in Ho; [|unfold covering; set_solver].
  pose proof (o_rep _ _ _ _ _ Ho) as Hrep.
  destruct (split_at l (DREG_BEGIN d) (r_order _ _ Hrep)) as (l1 & l2 & -> & H1 & H2).
  assert (size ({[r]} ∪ R) = S (size R)) as Hsize.
  { rewrite size_union, size_singleton by set_solver. done. }
  rewrite length_app in Hf, Hm.
  assert (rounds (DREG_BEGIN d) l2 <= 2 * length l2 + 1)%nat as Hrounds.
  { unfold rounds. destruct l2 as [|ar l2]; [lia|]. destruct (_ =? _); lia. }
  assert (rounds (DREG_BEGIN d) l2 * need ({[r]} ∪ R) <= avail (hp s))%nat as Hmem.
  { unfold need. rewrite Hsize. nia. }
  unfold dreg_insert. assert (get_reg regs r s = Ok (d, s)) as Eg by (unfold get_reg; by rewrite Ed).
  rewrite (st_bind_run _ _ _ _ _ Eg), (st_bind_run _ _ _ _ _ (run_closest s l1 l2 (DREG_BEGIN d) Hrep ltac:(lia) H1 H2)).
  destruct (insert_loop_spec regs ({[r]} ∪ R) r Hr ltac:(set_solver) fuel s l1 l2
    (covering regs R) (DREG_BEGIN d) (DREG_END d)) as (s' & l' & E & Ho'); [|lia|done|].
  - split; try done; try lia; [|unfold need; rewrite Hsize; nia].
    intros p _ [Hin _]. done.
  - rewrite (st_bind_run _ _ _ _ _ E). exists s'. split; [done|]. split.
    { intros x [->%elem_of_singleton|Hx]%elem_of_union; auto. }
    exists l'. eapply db_own_ext; [|exact Ho']. intros p x. unfold covering, plus, covers. split.
    + intros [[Hx Hc]|[-> Hp]]; [split; [set_solver|done]|]. split; [set_solver|]. exists d. split; [done|lia].
    + intros [[->%elem_of_singleton|Hx]%elem_of_union (d' & Ed' & Hp)]; [right|left; eauto].
      rewrite Ed in Ed'. injection Ed' as <-. split; [done|lia].
Qed.

(** C8: dreg_insert refines the insertion into a set: with memory for the areas and cells it can
    need, its loop ends and the database represents the set with the registration added,
    whatever overlaps, gaps and splits the pages meet. *)
Theorem dreg_insert_adds regs s R r fuel :
  db_inv regs s R -> reg_ok regs r -> r ∉ R ->
  2 * avlcount (vma_tree s) + 1 <= Z.of_nat fuel ->
  (2 * avlcount (vma_tree s) + 1) * (Z.of_nat (size R) + 5) <= Z.of_nat (avail (hp s)) ->
  exists s', dreg_insert regs fuel r s = Ok (0, s') /\ db_inv regs s' ({[r]} ∪ R).
Proof.
  intros [HR (l & Ho)] Hr Hnr Hf Hm. rewrite (own_count _ _ _ _ _ Ho) in Hf, Hm.
  apply (dreg_insert_run regs s R l r fuel); try done; lia.
Qed.

(** C9: dreg_remove refines the removal from a set: its loops end, areas nobody owns any more are
    given back, neighbours with the same owners are merged, and the database represents the
    set without the registration.  It reports -1 and changes nothing when no registration
    covers the first page. *)
Theorem dreg_remove_removes regs s R r fuel :
  db_inv regs s R -> reg_ok regs r ->
  (r ∈ R -> 2 * avlcount (vma_tree s) < Z.of_nat fuel ->
   exists s', dreg_remove regs fuel r s = Ok (0, s') /\ db_inv regs s' (R ∖ {[r]})) /\
  (forall d, regs !! r = Some d -> (forall x, x ∈ R -> ~ covers regs x (DREG_BEGIN d)) ->
   dreg_remove regs fuel r s = Ok (-1, s)).
Proof.
  intros [HR (l & Ho)] Hr. destruct (reg_ok_end regs r Hr) as (d & Ed & _ & Hd1 & Hd2).
  pose proof (o_rep _ _ _ _ _ Ho) as Hrep.
  destruct (split_at l (DREG_BEGIN d) (r_order _ _ Hrep)) as (l1 & l2 & -> & H1 & H2).
  assert (get_reg regs r s = Ok (d, s)) as Eg by (unfold get_reg; by rewrite Ed).
  pose proof (run_search s l1 l2 _ Hrep H1 H2) as Es. unfold dreg_remove. split.
  - intros Hin Hf. rewrite (own_count _ _ _ _ _ Ho), length_app in Hf.
    destruct (o_cover _ _ _ _ _ Ho (DREG_BEGIN d) r) as (ar & Har & Hp).
    { split; [done|]. exists d. split; [done|lia]. }
    destruct l2 as [|a2 l2].
    { exfalso. rewrite app_nil_r in Har. specialize (H1 ar Har). lia. }
    assert (a_start a2 <= DREG_BEGIN d) as Hle.
    { apply elem_of_app in Har as [Har|[->|Har]%elem_of_cons]; [specialize (H1 ar Har); lia|lia|].
      pose proof (r_order _ _ Hrep) as Hor. rewrite in_order_app, in_order_cons in Hor.
      destruct Hor as (_ & ([? _] & _ & Hg) & _). specialize (Hg ar Har). lia. }
    rewrite (proj2 (Z.leb_le _ _) Hle) in Es.
    assert (a_addr a2 <> NULL) as Hnn.
    { destruct (r_alloc _ _ Hrep) as [_ HF]. rewrite Forall_forall in HF.
      unfold NULL. destruct (HF (a_addr a2)); [rewrite addrs_app; set_solver|lia]. }
    rewrite (st_bind_run _ _ _ _ _ Eg), (st_bind_run _ _ _ _ _ Es), (proj2 (Z.eqb_neq _ _) Hnn).
    destruct (remove_loop_spec regs R r fuel (DREG_END d) s l1 (a2 :: l2) (covering regs R) Ho) as
      (s' & l' & E & Ho').
    + intros p [_ (d' & Ed' & Hp')]. rewrite Ed in Ed'. injection Ed' as <-. lia.
    + intros a Ha Hra. destruct (own_area _ _ _ _ _ a Ho) as [(_ & _ & O) [? _]]; [set_solver|].
      destruct (O (a_start a) ltac:(lia) r) as [Hc _]. destruct (Hc Hra) as [_ (d' & Ed' & Hp')].
      rewrite Ed in Ed'. injection Ed' as <-. specialize (H1 a Ha). lia.
    + rewrite length_app. cbn [length] in *. lia.
    + cbn [addrs fmap list_fmap hd] in E. rewrite (st_bind_run _ _ _ _ _ E). exists s'.
      split; [done|]. split; [set_solver|]. exists l'.
      apply (db_own_known _ R); [unfold covering; set_solver|].
      eapply db_own_ext; [|exact Ho']. intros p x. unfold minus, covering. set_solver.
  - intros d' Ed' Hno. rewrite Ed in Ed'. injection Ed' as <-.
    rewrite (st_bind_run _ _ _ _ _ Eg), (st_bind_run _ _ _ _ _ Es).
    destruct l2 as [|a2 l2]; [done|]. destruct (Z.leb_spec (a_start a2) (DREG_BEGIN d)); [|done].
    exfalso. destruct (own_area _ _ _ _ _ a2 Ho) as [(_ & Hne & O) _]; [set_solver|].
    destruct (a_regs a2) as [|x xs] eqn:Er; [done|]. specialize (H2 a2 ltac:(by left)).
    destruct (O (DREG_BEGIN d) ltac:(lia) x) as [Hc _]. destruct (Hc ltac:(by left)) as [Hx Hcx].
    by apply (Hno x).
Qed.

(** C10: dreg_lookup answers from the set: it returns a registration that covers the whole range,
    the one of those at the first page that reaches furthest, exactly when there is one, and
    changes nothing. *)
Theorem dreg_lookup_finds regs s R begin end_ :
  db_inv regs s R -> begin <= end_ ->
  exists r, dreg_lookup regs begin end_ s = Ok (r, s) /\
    (r <> NULL -> r ∈ R /\ covers regs r begin /\ covers regs r end_ /\
       forall x, x ∈ R -> covers regs x begin -> reg_end regs x <= reg_end regs r) /\
    (r = NULL -> forall x, x ∈ R -> ~ (covers regs x begin /\ covers regs x end_)).
Proof.
  intros [HR (l & Ho)] Hbe. pose proof (o_rep _ _ _ _ _ Ho) as Hrep.
  destruct (split_at l begin (r_order _ _ Hrep)) as (l1 & l2 & -> & H1 & H2).
  unfold dreg_lookup. rewrite (st_bind_run _ _ _ _ _ (run_search s l1 l2 _ Hrep H1 H2)).
  assert ((match l2 with [] => True | ar :: _ => begin < a_start ar end) ->
    forall x, x ∈ R -> ~ covers regs x begin) as Hnone.
  { intros Hgap x Hx Hc. destruct (o_cover _ _ _ _ _ Ho begin x) as (a & Ha & Hp); [by split|].
    apply elem_of_app in Ha as [Ha|Ha]; [specialize (H1 a Ha); lia|].
    destruct l2 as [|a2 l2]; [by apply elem_of_nil in Ha|].
    pose proof (r_order _ _ Hrep) as Hor. rewrite in_order_app, in_order_cons in Hor.
    destruct Hor as (_ & ([? _] & _ & Hg) & _).
    apply elem_of_cons in Ha as [->|Ha]; [lia|]. specialize (Hg a Ha). lia. }
  destruct l2 as [|a2 l2].
  { exists NULL. split; [done|]. split; [done|]. intros _ x Hx [Hc _]. by eapply Hnone. }
  destruct (Z.leb_spec (a_start a2) begin) as [Hle|Hgt].
  2: { exists NULL. split; [done|]. split; [done|]. intros _ x Hx [Hc _]. by eapply Hnone. }
  assert (a_addr a2 <> NULL) as Hnn.
  { destruct (r_alloc _ _ Hrep) as [_ HF]. rewrite Forall_forall in HF.
    unfold NULL. destruct (HF (a_addr a2)); [rewrite addrs_app; set_solver|lia]. }
  rewrite (proj2 (Z.eqb_neq _ _) Hnn).
  destruct (holds_fields _ _ (holds_at _ _ _ _ Hrep)) as (v & Ev & _ & _ & Lv & _).
  rewrite (st_bind_run _ _ _ _ _ (run_get_vma _ _ _ Ev)).
  destruct (own_area _ _ _ _ _ a2 Ho) as [([S SF] & Hne & O) _]; [set_solver|].
  specialize (H2 a2 ltac:(by left)). destruct (v_list v) as [|[e r] cs]; cbn [fmap list_fmap snd] in Lv.
  { by rewrite <- Lv in Hne. }
  rewrite <- Lv in S, SF, O. apply Forall_cons in SF as [Hr SF].
  destruct (proj1 (O begin ltac:(lia) r) ltac:(by left)) as [HrR Hrc].
  assert (forall x, x ∈ R -> covers regs x begin -> reg_end regs x <= reg_end regs r) as Hmax.
  { intros x Hx Hc. assert (x ∈ r :: cs.*2) as Hin by (apply (O begin); [lia|by split]).
    apply elem_of_cons in Hin as [->|Hin]; [lia|]. apply StronglySorted_inv in S as [_ HF].
    rewrite Forall_forall in HF. specialize (HF x Hin). unfold before in HF. lia. }
  destruct (reg_ok_end regs r Hr) as (d & Ed & Eend & Hd).
  assert (get_reg regs r s = Ok (d, s)) as Eg by (unfold get_reg; by rewrite Ed).
  rewrite (st_bind_run _ _ _ _ _ Eg). eexists. split; [done|].
  destruct Hrc as (d' & Ed' & Hp). rewrite Ed in Ed'. injection Ed' as <-.
  destruct (Z.leb_spec end_ (DREG_END d)) as [Hin|Hout].
  - split; [|intros E; destruct Hr; unfold NULL in E; lia]. intros _. split; [done|].
    split; [by exists d|]. split; [|done]. exists d. split; [done|lia].
  - split; [done|]. intros _ x Hx [Hc (dx & Edx & Hpx)]. specialize (Hmax x Hx Hc).
    destruct (reg_ok_end regs x (HR x Hx)) as (d2 & Ed2 & Eend2 & _).
    rewrite Edx in Ed2. injection Ed2 as <-. lia.
Qed.

(** The database as it is before vma_db_init: the static area is zero, nothing is freed. *)
Definition db_start (s : vma_db) : Prop :=
  vmas s !! vma_list = None /\ vma_free_list s = [] /\ freed (hp s) = [] /\
  vma_list < brk (hp s) /\ (1 <= avail (hp s))%nat /\ g_is_dreg_finalize (hp s) <> 1.

Lemma vma_db_init_run regs s : db_start s ->
  exists s', vma_db_init s = Ok (tt, s') /\ db_own regs ∅ s' [] (covering regs ∅) /\
    (avail (hp s) <= avail (hp s') + 1)%nat.
Proof.
  intros (Ev & Ef & Efr & Hb & Ha & Hg). unfold vma_list in Hb. unfold vma_db_init, avlinit, ckalloc.
  cbn [avail]. destruct (avail (hp s)) as [|n] eqn:En; [lia|]. cbn [mbind result_bind].
  rewrite Ev. cbn [from_option]. eexists. split; [done|].
  split; [|cbn [hp db_set_tree avail brk]; lia]. split.
  - split; cbn [addrs fmap list_fmap vmas vma_tree hp vma_free_list db_set_tree db_set_vmas].
    + split; cbn [vma_tree db_set_tree]; try done. cbn. rewrite Efr.
      unfold heap_wf. cbn. split; [constructor|]. split; [constructor|]. lia.
    + unfold alloc_ok. cbn [vma_free_list db_set_tree db_set_vmas hp brk app]. rewrite Ef.
      split; [repeat constructor; apply not_elem_of_nil|]. constructor; [unfold vma_list; lia|constructor].
    + constructor; [|constructor]. unfold edge, field. cbn [fst snd vmas db_set_tree db_set_vmas].
      by rewrite !lookup_insert_eq.
    + unfold body_at. cbn [vmas db_set_tree db_set_vmas]. by rewrite lookup_insert_eq.
    + constructor.
    + split; constructor.
  - constructor.
  - intros p r [Hr _]. set_solver.
  - intros p r [Hr _]. done.
Qed.

(** Two registrations that overlap: pages 10 to 13 and 12 to 20. *)
Definition demo_regs : gmap Z dreg_entry :=
  <[4096 := Dreg 10 1 1 4 0 0 0 0 1]> {[8192 := Dreg 12 1 1 9 0 0 0 0 1]}.
Definition demo_start : vma_db :=
  Db ∅ (AVL NULL_TREE (fun _ _ => 0) 0) (Heap [] 64 100 [] 0) 0 [] [].

Lemma demo_reg_ok r : r = 4096 \/ r = 8192 -> reg_ok demo_regs r.
Proof.
  intros [->| ->]; (split; [lia|]).
  - exists (Dreg 10 1 1 4 0 0 0 0 1). split; [by apply lookup_insert_eq|]. cbn. lia.
  - exists (Dreg 12 1 1 9 0 0 0 0 1). split; [done|]. cbn. lia.
Qed.

(** The empty database, and one with the first registration. *)
Lemma demo_empty : exists s, vma_db_init demo_start = Ok (tt, s) /\
  db_inv demo_regs s ∅ /\ avlcount (vma_tree s) = 0 /\ (99 <= avail (hp s))%nat.
Proof.
  destruct (vma_db_init_run demo_regs demo_start) as (s & E & Ho & Ha).
  { repeat split; try done. cbn. lia. }
  exists s. split; [done|]. split; [split; [set_solver|eauto]|].
  split; [by rewrite (own_count _ _ _ _ _ Ho)|]. cbn [hp demo_start avail] in Ha. lia.
Qed.

Lemma demo_count : match (vma_db_init ≫= fun _ => dreg_insert demo_regs 5 4096) demo_start with
  | Ok (_, s) => avlcount (vma_tree s) | Err _ => 0 end = 1.
Proof. by vm_compute. Qed.

Lemma demo_one : exists s0 s, vma_db_init demo_start = Ok (tt, s0) /\
  dreg_insert demo_regs 5 4096 s0 = Ok (0, s) /\ db_inv demo_regs s {[4096]} /\
  avlcount (vma_tree s) = 1.
Proof.
  destruct (vma_db_init_run demo_regs demo_start) as (s0 & E0 & Ho & Ha).
  { repeat split; try done. cbn. lia. }
  cbn [hp demo_start avail] in Ha.
  destruct (dreg_insert_run demo_regs s0 ∅ [] 4096 5) as (s & E & Hinv); try done.
  - apply demo_reg_ok. by left.
  - cbn. lia.
  - rewrite size_empty. cbn. lia.
  - exists s0, s. split; [done|]. split; [done|]. rewrite union_empty_r_L in Hinv. split; [done|].
    pose proof demo_count as Hc. by rewrite (st_bind_run _ _ _ _ _ E0), E in Hc.
Qed.

Lemma dreg_insert_adds_witness : exists s s', vma_db_init demo_start = Ok (tt, s) /\
  dreg_insert demo_regs 5 4096 s = Ok (0, s') /\ db_inv demo_regs s' ({[4096]} ∪ ∅).
Proof.
  destruct demo_empty as (s & E & Hinv & Hc & Ha).
  destruct (dreg_insert_adds demo_regs s ∅ 4096 5 Hinv) as (s' & E' & Hinv').
  - apply demo_reg_ok. by left.
  - set_solver.
  - rewrite Hc. lia.
  - rewrite Hc, size_empty. lia.
  - exists s, s'. done.
Defined.

Lemma dreg_remove_removes_witness : exists s0 s s', vma_db_init demo_start = Ok (tt, s0) /\
  dreg_insert demo_regs 5 4096 s0 = Ok (0, s) /\
  dreg_remove demo_regs 5 4096 s = Ok (0, s') /\ db_inv demo_regs s' ({[4096]} ∖ {[4096]}).
Proof.
  destruct demo_one as (s0 & s & E0 & E & Hinv & Hc). exists s0, s.
  destruct (proj1 (dreg_remove_removes demo_regs s {[4096]} 4096 5 Hinv ltac:(apply demo_reg_ok; by left)))
    as (s' & E' & Hinv').
  - set_solver.
  - rewrite Hc. lia.
  - exists s'. done.
Defined.

Lemma dreg_lookup_finds_witness : exists s0 s, vma_db_init demo_start = Ok (tt, s0) /\
  dreg_insert demo_regs 5 4096 s0 = Ok (0, s) /\ exists r, dreg_lookup demo_regs 11 13 s = Ok (r, s) /\
  (r <> NULL -> r ∈ ({[4096]} : gset Z) /\ covers demo_regs r 11 /\ covers demo_regs r 13).
Proof.
  destruct demo_one as (s0 & s & E0 & E & Hinv & Hc). exists s0, s. split; [done|]. split; [done|].
  destruct (dreg_lookup_finds demo_regs s {[4096]} 11 13 Hinv ltac:(lia)) as (r & Er & H & _).
  exists r. split; [done|]. intros Hr. destruct (H Hr) as (? & ? & ? & _). done.
Defined.
