(* ===== verification/Dreg.v ===== *)
(** * The registration cache (dreg/dreg.c, second half, and the macros of dreg/dreg.h)

    Entries of one array are on the free list, or in use; those in use that no
    registration refers to are on the doubly linked unused list, most recently used first. *)
From stdpp Require Import gmap.
From S2P Require Import Prelude Avl Vma.

Definition DREG_PAGESIZE : Z := 4096.
Definition DREG_PAGEBITS : Z := 12.
Definition DREG_PAGEMASK : Z := DREG_PAGESIZE - 1.
Definition rdma_ndreg_entries : Z := 8192.
Definition sizeof_dreg_entry : Z := 72.

(** The calls of get_dma_mem and free_dma_mem, which the network server defines. *)
Inductive dma_event : Type :=
| DmaGet (server buf size : Z)
| DmaFree (mem : Z).

(** What get_dma_mem returns after the calls so far. *)
Class Dma := { get_dma_mem : list dma_event -> Z -> Z -> Z -> Z }.

(** The variables of dreg.c.  The locks hold 1 when taken; [self] is the running thread. *)
Record dreg_state : Type := DregState {
  db : vma_db; dregs : gmap Z dreg_entry;
  dreg_free_list : Z; dreg_unused_list : Z; dreg_unused_tail : Z; dreg_all_list : Z;
  dreg_inuse_count : Z; dreg_max_use_count : Z; g_is_dreg_initialized : Z;
  dreg_lock : Z; dereg_lock : Z; th_id_of_lock : Z; th_id_of_dereg_lock : Z; self : Z;
  deregister_mr_array : list Z; n_dereg_mr : Z;
  delayed_buf_region : list (Z * Z); buf_reg_count : Z;
  dma : list dma_event }.

Notation DM := (ST dreg_state).

Definition ds_db x s := DregState x (dregs s) (dreg_free_list s) (dreg_unused_list s)
  (dreg_unused_tail s) (dreg_all_list s) (dreg_inuse_count s) (dreg_max_use_count s)
  (g_is_dreg_initialized s) (dreg_lock s) (dereg_lock s) (th_id_of_lock s)
  (th_id_of_dereg_lock s) (self s) (deregister_mr_array s) (n_dereg_mr s)
  (delayed_buf_region s) (buf_reg_count s) (dma s).
Definition ds_dregs x s := DregState (db s) x (dreg_free_list s) (dreg_unused_list s)
  (dreg_unused_tail s) (dreg_all_list s) (dreg_inuse_count s) (dreg_max_use_count s)
  (g_is_dreg_initialized s) (dreg_lock s) (dereg_lock s) (th_id_of_lock s)
  (th_id_of_dereg_lock s) (self s) (deregister_mr_array s) (n_dereg_mr s)
  (delayed_buf_region s) (buf_reg_count s) (dma s).
Definition ds_free l n m s := DregState (db s) (dregs s) l (dreg_unused_list s)
  (dreg_unused_tail s) (dreg_all_list s) n m
  (g_is_dreg_initialized s) (dreg_lock s) (dereg_lock s) (th_id_of_lock s)
  (th_id_of_dereg_lock s) (self s) (deregister_mr_array s) (n_dereg_mr s)
  (delayed_buf_region s) (buf_reg_count s) (dma s).
Definition ds_unused l t s := DregState (db s) (dregs s) (dreg_free_list s) l t
  (dreg_all_list s) (dreg_inuse_count s) (dreg_max_use_count s)
  (g_is_dreg_initialized s) (dreg_lock s) (dereg_lock s) (th_id_of_lock s)
  (th_id_of_dereg_lock s) (self s) (deregister_mr_array s) (n_dereg_mr s)
  (delayed_buf_region s) (buf_reg_count s) (dma s).
Definition ds_init l a b s := DregState (db s) (dregs s) l NULL NULL l (dreg_inuse_count s)
  (dreg_max_use_count s) 1 0 0 (th_id_of_lock s) (th_id_of_dereg_lock s) (self s) a 0 b 0
  (dma s).
Definition ds_lock x t s := DregState (db s) (dregs s) (dreg_free_list s) (dreg_unused_list s)
  (dreg_unused_tail s) (dreg_all_list s) (dreg_inuse_count s) (dreg_max_use_count s)
  (g_is_dreg_initialized s) x (dereg_lock s) t (th_id_of_dereg_lock s) (self s)
  (deregister_mr_array s) (n_dereg_mr s) (delayed_buf_region s) (buf_reg_count s) (dma s).
Definition ds_dereg_lock x t s := DregState (db s) (dregs s) (dreg_free_list s)
  (dreg_unused_list s) (dreg_unused_tail s) (dreg_all_list s) (dreg_inuse_count s)
  (dreg_max_use_count s) (g_is_dreg_initialized s) (dreg_lock s) x (th_id_of_lock s) t (self s)
  (deregister_mr_array s) (n_dereg_mr s) (delayed_buf_region s) (buf_reg_count s) (dma s).
Definition ds_mr a n s := DregState (db s) (dregs s) (dreg_free_list s) (dreg_unused_list s)
  (dreg_unused_tail s) (dreg_all_list s) (dreg_inuse_count s) (dreg_max_use_count s)
  (g_is_dreg_initialized s) (dreg_lock s) (dereg_lock s) (th_id_of_lock s)
  (th_id_of_dereg_lock s) (self s) a n (delayed_buf_region s) (buf_reg_count s) (dma s).
Definition ds_delayed b n s := DregState (db s) (dregs s) (dreg_free_list s)
  (dreg_unused_list s) (dreg_unused_tail s) (dreg_all_list s) (dreg_inuse_count s)
  (dreg_max_use_count s) (g_is_dreg_initialized s) (dreg_lock s) (dereg_lock s)
  (th_id_of_lock s) (th_id_of_dereg_lock s) (self s) (deregister_mr_array s) (n_dereg_mr s)
  b n (dma s).
Definition ds_dma x s := DregState (db s) (dregs s) (dreg_free_list s) (dreg_unused_list s)
  (dreg_unused_tail s) (dreg_all_list s) (dreg_inuse_count s) (dreg_max_use_count s)
  (g_is_dreg_initialized s) (dreg_lock s) (dereg_lock s) (th_id_of_lock s)
  (th_id_of_dereg_lock s) (self s) (deregister_mr_array s) (n_dereg_mr s)
  (delayed_buf_region s) (buf_reg_count s) x.

(** Fields of an entry. *)
Definition d_set_range p n d := Dreg p (memhandle d) (refcount d) n (d_next d) (next_unused d) (prev_unused d) (d_server d) (is_valid d).
Definition d_set_mem x h d := Dreg (pagenum d) h (refcount d) (npages d) (d_next d) (next_unused d) (prev_unused d) x (is_valid d).
Definition d_set_refcount x d := Dreg (pagenum d) (memhandle d) x (npages d) (d_next d) (next_unused d) (prev_unused d) (d_server d) (is_valid d).
Definition d_set_next x d := Dreg (pagenum d) (memhandle d) (refcount d) (npages d) x (next_unused d) (prev_unused d) (d_server d) (is_valid d).
Definition d_set_next_unused x d := Dreg (pagenum d) (memhandle d) (refcount d) (npages d) (d_next d) x (prev_unused d) (d_server d) (is_valid d).
Definition d_set_prev_unused x d := Dreg (pagenum d) (memhandle d) (refcount d) (npages d) (d_next d) (next_unused d) x (d_server d) (is_valid d).
Definition d_set_valid x d := Dreg (pagenum d) (memhandle d) (refcount d) (npages d) (d_next d) (next_unused d) (prev_unused d) (d_server d) x.

Definition get_dreg (a : Z) : DM dreg_entry := fun s =>
  st_lift (get_or NullDeref (dregs s !! a)) s.
Definition put_dreg (a : Z) (d : dreg_entry) : DM unit :=
  st_set (fun s => ds_dregs (<[a := d]> (dregs s)) s).
Definition upd_dreg (a : Z) (f : dreg_entry -> dreg_entry) : DM unit :=
  d ← get_dreg a; put_dreg a (f d).

(** An operation of the page database, which reads the entries. *)
Definition in_db {A} (m : gmap Z dreg_entry -> ST vma_db A) : DM A := fun s =>
  match m (dregs s) (db s) with
  | Ok (a, x) => Ok (a, ds_db x s)
  | Err f => Err f
  end.

(** ** The lists *)

Definition DREG_REMOVE_FROM_UNUSED_LIST (d : Z) : DM unit :=
  e ← get_dreg d;
  let prev := prev_unused e in
  let next := next_unused e in
  _ ← upd_dreg d (d_set_next_unused NULL);
  _ ← upd_dreg d (d_set_prev_unused NULL);
  _ ← st_when (negb (prev =? NULL)) (upd_dreg prev (d_set_next_unused next));
  _ ← st_when (negb (next =? NULL)) (upd_dreg next (d_set_prev_unused prev));
  _ ← st_set (fun s =>
        if dreg_unused_list s =? d then ds_unused next (dreg_unused_tail s) s else s);
  st_set (fun s => if dreg_unused_tail s =? d then ds_unused (dreg_unused_list s) prev s else s).

Definition DREG_ADD_TO_UNUSED_LIST (d : Z) : DM unit :=
  l ← st_get dreg_unused_list;
  _ ← upd_dreg d (d_set_next_unused l);
  _ ← upd_dreg d (d_set_prev_unused NULL);
  _ ← st_when (negb (l =? NULL)) (upd_dreg l (d_set_prev_unused d));
  _ ← st_set (fun s => ds_unused d (dreg_unused_tail s) s);
  st_set (fun s => if NULL =? dreg_unused_tail s then ds_unused (dreg_unused_list s) d s else s).

Definition DREG_GET_FROM_FREE_LIST : DM Z :=
  d ← st_get dreg_free_list;
  if d =? NULL then mret d
  else
    e ← get_dreg d;
    _ ← st_set (fun s =>
          let n := i32 (dreg_inuse_count s + 1) in
          ds_free (d_next e) n
            (if dreg_max_use_count s <? n then n else dreg_max_use_count s) s);
    mret d.

Definition DREG_ADD_TO_FREE_LIST (d : Z) : DM unit :=
  l ← st_get dreg_free_list;
  _ ← upd_dreg d (d_set_next l);
  st_set (fun s => ds_free d (i32 (dreg_inuse_count s - 1)) (dreg_max_use_count s) s).

Definition dreg_get : DM Z :=
  d ← DREG_GET_FROM_FREE_LIST;
  if d =? NULL then mret d
  else
    _ ← upd_dreg d (d_set_refcount 0);
    _ ← upd_dreg d (d_set_next_unused NULL);
    _ ← upd_dreg d (d_set_prev_unused NULL);
    _ ← upd_dreg d (d_set_next NULL);
    mret d.

Definition dreg_release (d : Z) : DM unit :=
  l ← st_get dreg_free_list;
  _ ← upd_dreg d (d_set_next l);
  st_set (fun s => ds_free d (dreg_inuse_count s) (dreg_max_use_count s) s).

Definition dreg_decr_refcount (d : Z) : DM unit :=
  e ← get_dreg d;
  _ ← st_lift (c_assert (0 <? refcount e));
  _ ← upd_dreg d (d_set_refcount (refcount e - 1));
  st_when (refcount e - 1 =? 0) (DREG_ADD_TO_UNUSED_LIST d).

Definition dreg_incr_refcount (d : Z) : DM unit :=
  _ ← st_lift (c_assert (negb (d =? NULL)));
  e ← get_dreg d;
  _ ← st_when (refcount e =? 0) (DREG_REMOVE_FROM_UNUSED_LIST d);
  upd_dreg d (fun e => d_set_refcount (i32 (refcount e + 1)) e).

(** ** Locks *)

(** pthread_spin_trylock in a loop: a lock that another holds is waited for. *)
Definition lock_dreg : DM unit :=
  l ← st_get dreg_lock;
  if truth l then st_fail Spin else st_set (fun s => ds_lock 1 (self s) s).
Definition unlock_dreg : DM unit := st_set (ds_lock 0 (-1)).
Definition lock_dereg : DM unit :=
  l ← st_get dereg_lock;
  if truth l then st_fail Spin else st_set (fun s => ds_dereg_lock 1 (self s) s).
Definition unlock_dereg : DM unit := st_set (ds_dereg_lock 0 (-1)).
Definition have_dreg : DM bool := st_get (fun s => th_id_of_lock s =? self s).
Definition have_dereg : DM bool := st_get (fun s => th_id_of_dereg_lock s =? self s).

(** [try_lock_dreg] gives up when the lock is held all the while. *)
Definition try_lock_dreg : DM bool :=
  l ← st_get dreg_lock;
  if truth l then mret false else _ ← st_set (fun s => ds_lock 1 (self s) s); mret true.

(** ** Operations *)

Section dreg.
Context `{Dma} (fuel : nat).

Definition call_get_dma_mem (server buf size : Z) : DM Z := fun s =>
  Ok (get_dma_mem (dma s) server buf size, ds_dma (dma s ++ [DmaGet server buf size]) s).
Definition call_free_dma_mem (mem : Z) : DM unit :=
  st_set (fun s => ds_dma (dma s ++ [DmaFree mem]) s).

Definition page_of (a : Z) : Z := Z.shiftr a DREG_PAGEBITS.
Definition pagebase (a : Z) : Z := Z.land a (u64 (Z.lnot DREG_PAGEMASK)).

Definition dreg_find (buf len : Z) : DM Z := fun s =>
  if truth (g_is_dreg_initialized s)
  then in_db (fun m => dreg_lookup m (page_of buf) (page_of (u64 (buf + len - 1)))) s
  else Ok (NULL, s).

(** Register pages [d] holds with the server, or give [d] back. *)
Definition dreg_pin (d server base nbytes : Z) : DM Z :=
  h ← call_get_dma_mem server base nbytes;
  _ ← upd_dreg d (d_set_mem server h);
  if h =? NULL then
    _ ← in_db (fun m => dreg_remove m fuel d);
    _ ← dreg_release d;
    mret NULL
  else _ ← upd_dreg d (d_set_valid 1); mret d.

Definition dreg_new_entry (server buf len : Z) : DM Z :=
  d ← dreg_get;
  if d =? NULL then mret d
  else
    let user_high_a := u64 (buf + len - 1) in
    let pagenum_low := page_of (pagebase buf) in
    let pagenum_high := page_of (pagebase user_high_a) in
    let npages := u64 (1 + (pagenum_high - pagenum_low)) in
    if negb (rdma_dreg_cache_limit =? 0) then mret NULL
    else
      _ ← upd_dreg d (d_set_range pagenum_low npages);
      r ← in_db (fun m => dreg_insert m fuel d);
      if r <? 0 then _ ← dreg_release d; mret NULL
      else dreg_pin d server (pagebase buf) (u64 (npages * DREG_PAGESIZE)).

Definition dreg_evict : DM bool :=
  d ← st_get dreg_unused_tail;
  if d =? NULL then mret false
  else
    _ ← DREG_REMOVE_FROM_UNUSED_LIST d;
    e ← get_dreg d;
    _ ← st_lift (c_assert (refcount e =? 0));
    _ ← st_when (truth (memhandle e))
          (_ ← upd_dreg d (d_set_valid 0); call_free_dma_mem (memhandle e));
    _ ← in_db (fun m => dreg_remove m fuel d);
    _ ← DREG_ADD_TO_FREE_LIST d;
    mret true.

(** while ((d = dreg_new_entry(...)) == NULL): [n] bounds the evictions. *)
Fixpoint register_loop (n : nat) (server buf len : Z) : DM Z :=
  d ← dreg_new_entry server buf len;
  if negb (d =? NULL) then mret d
  else
    dreg_evict ≫= fun rc : bool =>
    if rc then match n with O => st_fail Spin | S n => register_loop n server buf len end
    else mret NULL.

Definition dreg_register (server buf len : Z) : DM Z :=
  _ ← lock_dreg;
  d ← dreg_find buf len;
  if negb (d =? NULL) then
    _ ← dreg_incr_refcount d; _ ← unlock_dreg; mret d
  else
    d ← register_loop (Z.to_nat rdma_ndreg_entries) server buf len;
    if d =? NULL then _ ← unlock_dreg; mret NULL
    else _ ← dreg_incr_refcount d; _ ← unlock_dreg; mret d.

Definition dreg_unregister (d : Z) : DM unit :=
  _ ← lock_dreg;
  _ ← dreg_decr_refcount d;
  unlock_dreg.

(** ** The hook of the allocator: pages [buf], ..., [buf + len - 1] go away *)

(** [deregister_mr_array[n_dereg_mr++] = d] *)
Definition push_mr (d : Z) : DM unit := fun s =>
  match aset (deregister_mr_array s) (n_dereg_mr s) d with
  | Ok a => Ok (tt, ds_mr a (n_dereg_mr s) s)
  | Err f => Err f
  end.

(** The while over the registrations of one page. *)
Fixpoint free_page (n : nat) (page : Z) : DM unit :=
  d ← in_db (fun m => dreg_lookup m page page);
  if d =? NULL then mret tt
  else
    e ← get_dreg d;
    if truth (refcount e) || (is_valid e =? 0) then mret tt
    else match n with
    | O => st_fail Spin
    | S n =>
        _ ← push_mr d;
        _ ← upd_dreg d (d_set_valid 0);
        _ ← in_db (fun m => dreg_remove m fuel d);
        _ ← st_set (fun s => ds_mr (deregister_mr_array s) (u32 (n_dereg_mr s + 1)) s);
        free_page n page
    end.

Fixpoint free_pages (n : nat) (page : Z) : DM unit :=
  match n with
  | O => mret tt
  | S n => _ ← free_page (Z.to_nat rdma_ndreg_entries) page; free_pages n (page + 1)
  end.

Definition free_range (r : Z * Z) : DM unit :=
  let pagenum_low := page_of (pagebase r.1) in
  let pagenum_high := page_of (pagebase (u64 (r.1 + r.2 - 1))) in
  free_pages (Z.to_nat (u64 (1 + (pagenum_high - pagenum_low)))) pagenum_low.

(** The ranges that were delayed, in their order. *)
Fixpoint free_delayed (l : list (Z * Z)) : DM unit :=
  match l with
  | [] => mret tt
  | r :: l => _ ← free_range r; free_delayed l
  end.

(** [delayed_buf_region[buf_reg_count++] = {buf, len}] *)
Definition delay (r : Z * Z) : DM unit := fun s =>
  match aset (delayed_buf_region s) (buf_reg_count s) r with
  | Ok b => Ok (tt, ds_delayed b (u32 (buf_reg_count s + 1)) s)
  | Err f => Err f
  end.

Definition find_and_free_dregs_inside (buf len : Z) : DM unit :=
  i ← st_get g_is_dreg_initialized;
  if negb (truth i) then mret tt
  else
    have_dereg ≫= fun b1 : bool => have_dreg ≫= fun b2 : bool =>
    if b1 || b2 then mret tt
    else try_lock_dreg ≫= fun b : bool =>
      if negb b then delay (buf, len)
      else
        _ ← lock_dereg;
        _ ← free_range (buf, len);
        l ← st_get (fun s => take (Z.to_nat (buf_reg_count s)) (delayed_buf_region s));
        _ ← free_delayed l;
        _ ← st_set (fun s => ds_delayed (delayed_buf_region s) 0 s);
        _ ← unlock_dereg;
        unlock_dreg.

(** ** Initialization and finalization *)

(** The entries of the array at [base], each linked to the next. *)
Definition init_entries (base : Z) : gmap Z dreg_entry :=
  list_to_map ((fun i =>
    (base + i * sizeof_dreg_entry,
     Dreg 0 0 0 0 (if i =? rdma_ndreg_entries - 1 then NULL
                   else base + (i + 1) * sizeof_dreg_entry) NULL NULL 0 0))
    <$> seqZ 0 rdma_ndreg_entries).

(** [base] is what malloc gives for the array. *)
Definition dreg_init (base : Z) : DM Z :=
  _ ← in_db (fun _ => st_set (db_set_pinned 0));
  _ ← in_db (fun _ => vma_db_init);
  if base =? NULL then st_fail (Exit 1)
  else
    _ ← st_set (ds_dregs (init_entries base));
    _ ← st_set (ds_init base (replicate (Z.to_nat rdma_ndreg_entries) NULL)
                  (replicate (Z.to_nat rdma_ndreg_entries) (0, 0)));
    _ ← in_db (fun _ => st_set (fun s => db_set_free (hp s) [] [] s));
    mret 0.

(** while (dreg_evict()) *)
Fixpoint evict_all (n : nat) : DM unit :=
  dreg_evict ≫= fun b : bool =>
  if b then match n with O => st_fail Spin | S n => evict_all n end else mret tt.

Definition clean_dreg_list_entries : ST vma_db unit := st_set (fun s =>
  db_set_free (fold_left (fun h a => c_free a h) (vma_free_list s ++ entry_free_list s) (hp s))
    [] [] s).

(** [avldispose] is called with [free] as its action: it is applied to the data buffers. *)
Definition dreg_finalize (treeptr : Z) : DM Z :=
  _ ← in_db (fun _ => st_set (fun s => db_set_free
        (Heap (avl_free_list (hp s)) (brk (hp s)) (avail (hp s)) (freed (hp s)) 1)
        (vma_free_list s) (entry_free_list s) s));
  _ ← lock_dreg;
  _ ← evict_all (Z.to_nat rdma_ndreg_entries);
  _ ← in_db (fun _ => st_set (fun s =>
        let '(l, h) := avldispose treeptr (vma_tree s) (Some (fun a _ _ _ _ l => a :: l))
                         LEFT_TO_RIGHT [] (hp s) in
        db_set_tree (vma_tree s) (fold_left (fun h a => c_free a h) (rev l) h) s));
  _ ← in_db (fun _ => clean_dreg_list_entries);
  _ ← unlock_dreg;
  mret 0.

End dreg.
