(* ===== verification/DregSpec.v ===== *)
(** * The lists of the registration cache (about Dreg.v) *)
From stdpp Require Import gmap.
From S2P Require Import Prelude Avl Vma Dreg.

(** ** Doubly linked lists *)

(** [ul] in order, linked both ways, between [prev] and [next]. *)
Fixpoint dseg (m : gmap Z dreg_entry) (prev : Z) (ul : list Z) (next : Z) : Prop :=
  match ul with
  | [] => True
  | a :: l => (exists e, m !! a = Some e /\ prev_unused e = prev /\ next_unused e = hd next l) /\
      dseg m a l next
  end.

Definition last_of (ul : list Z) : Z := List.last ul NULL.

Record unused_wf (s : dreg_state) (ul : list Z) : Prop := {
  u_seg : dseg (dregs s) NULL ul NULL;
  u_head : dreg_unused_list s = hd NULL ul;
  u_tail : dreg_unused_tail s = last_of ul;
  u_nodup : NoDup ul;
  u_nonnull : NULL ∉ ul }.

(** An entry without its links in the unused list. *)
Definition strip (e : dreg_entry) : dreg_entry :=
  d_set_next_unused NULL (d_set_prev_unused NULL e).

(** [s'] is [s] with links and ends of the unused list changed. *)
Definition relinked (s s' : dreg_state) : Prop :=
  strip <$> dregs s' = strip <$> dregs s /\
  s' = ds_unused (dreg_unused_list s') (dreg_unused_tail s') (ds_dregs (dregs s') s).

Lemma relinked_refl s : relinked s s.
Proof. split; [done|]. by destruct s. Qed.

Lemma relinked_trans s1 s2 s3 : relinked s1 s2 -> relinked s2 s3 -> relinked s1 s3.
Proof.
  intros [H1 H2] [H3 H4]. split; [congruence|]. rewrite H4 at 1. rewrite H2. by destruct s1.
Qed.

Lemma relinked_entry s s' a e : relinked s s' -> dregs s !! a = Some e ->
  exists e', dregs s' !! a = Some e' /\ strip e' = strip e.
Proof.
  intros [H _] Ha. assert ((strip <$> dregs s') !! a = Some (strip e)) as Hs.
  { by rewrite H, lookup_fmap, Ha. }
  rewrite lookup_fmap in Hs. destruct (dregs s' !! a) as [e'|]; [|done].
  exists e'. split; [done|]. cbn in Hs. congruence.
Qed.

Lemma strip_eq e e' : strip e' = strip e ->
  refcount e' = refcount e /\ memhandle e' = memhandle e /\ pagenum e' = pagenum e /\
  npages e' = npages e /\ d_next e' = d_next e /\ is_valid e' = is_valid e /\
  d_server e' = d_server e.
Proof. destruct e, e'. cbn. intros E. injection E. intros; subst. repeat split. Qed.

(** ** Runs of the field assignments *)

Lemma run_get_dreg s d e : dregs s !! d = Some e -> get_dreg d s = Ok (e, s).
Proof. intros E. unfold get_dreg. by rewrite E. Qed.

Lemma run_upd_dreg s d e f : dregs s !! d = Some e ->
  upd_dreg d f s = Ok (tt, ds_dregs (<[d := f e]> (dregs s)) s).
Proof.
  intros E. unfold upd_dreg. erewrite st_bind_run by (by apply run_get_dreg). done.
Qed.

Lemma run_when {S} (b : bool) (m : ST S unit) s :
  st_when b m s = if b then m s else Ok (tt, s).
Proof. by destruct b. Qed.

(** Assigning the links of an entry keeps everything else. *)
Lemma relinked_upd s d e f : dregs s !! d = Some e -> (forall e, strip (f e) = strip e) ->
  relinked s (ds_dregs (<[d := f e]> (dregs s)) s).
Proof.
  intros E Hf. split; [|by destruct s]. cbn [dregs ds_dregs].
  rewrite fmap_insert, Hf. apply map_eq. intros a. destruct (decide (a = d)) as [->|].
  - by rewrite lookup_insert_eq, lookup_fmap, E.
  - by rewrite lookup_insert_ne by congruence.
Qed.

Lemma relinked_unused s l t : relinked s (ds_unused l t s).
Proof. split; [done|]. by destruct s. Qed.

(** ** Segments *)

Lemma dseg_insert m prev ul next a e : a ∉ ul -> dseg m prev ul next ->
  dseg (<[a := e]> m) prev ul next.
Proof.
  revert prev. induction ul as [|b ul IH]; intros prev Ha Hd; [done|].
  apply not_elem_of_cons in Ha as [Hne Ha]. destruct Hd as [(e' & E & Hp & Hn) Hd].
  split; [|by apply IH]. exists e'. by rewrite lookup_insert_ne by congruence.
Qed.

Lemma dseg_app m prev l1 l2 next :
  dseg m prev (l1 ++ l2) next <-> dseg m prev l1 (hd next l2) /\ dseg m (List.last l1 prev) l2 next.
Proof.
  revert prev. induction l1 as [|a l1 IH]; intros prev; cbn [app dseg].
  { cbn. naive_solver. }
  rewrite IH. assert (hd next (l1 ++ l2) = hd (hd next l2) l1) as -> by (by destruct l1).
  assert (List.last (a :: l1) prev = List.last l1 a) as ->.
  { destruct l1 as [|b l1]; [done|]. cbn [List.last]. clear.
    revert b. induction l1 as [|c l1 IH]; intros b; [done|]. cbn. apply IH. }
  naive_solver.
Qed.

(** A new successor for the last of a segment, a new predecessor for the first. *)
Lemma dseg_set_next m prev l p next next' e : p ∉ l -> m !! p = Some e ->
  dseg m prev (l ++ [p]) next ->
  dseg (<[p := d_set_next_unused next' e]> m) prev (l ++ [p]) next'.
Proof.
  intros Hp E Hd. apply dseg_app in Hd as [H1 [(e' & E' & Hpr & _) _]].
  apply dseg_app. split; [by apply dseg_insert|]. split; [|done].
  eexists. split; [apply lookup_insert_eq|]. cbn. split; [congruence|done].
Qed.

Lemma dseg_set_prev m prev prev' n l next e : n ∉ l -> m !! n = Some e ->
  dseg m prev (n :: l) next ->
  dseg (<[n := d_set_prev_unused prev' e]> m) prev' (n :: l) next.
Proof.
  intros Hn E [(e' & E' & _ & Hx) Hd]. split; [|by apply dseg_insert].
  eexists. split; [apply lookup_insert_eq|]. cbn. split; [done|congruence].
Qed.

Lemma dseg_elem m prev ul next a : dseg m prev ul next -> a ∈ ul -> exists e, m !! a = Some e.
Proof.
  revert prev. induction ul as [|b ul IH]; intros prev Hd Ha; [by apply elem_of_nil in Ha|].
  destruct Hd as [(e & E & _) Hd]. apply elem_of_cons in Ha as [->|Ha]; eauto.
Qed.

Lemma last_snoc {A} (l : list A) x d : List.last (l ++ [x]) d = x.
Proof. apply List.last_last. Qed.

Lemma list_end {A} (l : list A) : l = [] \/ exists l' x, l = l' ++ [x].
Proof. induction l as [|x l _] using rev_ind; [by left|right; eauto]. Qed.

(** ** The macros *)

(** A new head. *)
Lemma add_unused s ul d e : unused_wf s ul -> dregs s !! d = Some e -> d ∉ ul -> d <> NULL ->
  exists s', DREG_ADD_TO_UNUSED_LIST d s = Ok (tt, s') /\ unused_wf s' (d :: ul) /\
    relinked s s'.
Proof.
  intros [Hseg Hhd Htl Hnd Hnn] E Hd Hnull. unfold DREG_ADD_TO_UNUSED_LIST.
  rewrite (st_bind_run _ _ s (dreg_unused_list s) s) by done.
  erewrite st_bind_run by (by apply run_upd_dreg).
  set (e1 := d_set_next_unused _ e). set (s1 := ds_dregs _ s).
  assert (dregs s1 !! d = Some e1) as E1 by apply lookup_insert_eq.
  erewrite st_bind_run by (by apply run_upd_dreg).
  set (e2 := d_set_prev_unused NULL e1). set (s2 := ds_dregs _ s1).
  assert (relinked s s2) as R2.
  { eapply relinked_trans; [by apply (relinked_upd s d e (d_set_next_unused (dreg_unused_list s)))|].
    by apply (relinked_upd s1 d e1 (d_set_prev_unused NULL)). }
  assert (dseg (dregs s2) NULL ul NULL) as S2 by (apply dseg_insert; [done|]; by apply dseg_insert).
  assert (dregs s2 !! d = Some e2) as E2 by apply lookup_insert_eq.
  assert (exists s3, st_when (negb (dreg_unused_list s =? NULL))
      (upd_dreg (dreg_unused_list s) (d_set_prev_unused d)) s2 = Ok (tt, s3) /\
    relinked s s3 /\ dseg (dregs s3) NULL (d :: ul) NULL /\
    dreg_unused_tail s3 = dreg_unused_tail s) as (s3 & E3 & R3 & S3 & T3).
  { rewrite run_when, Hhd. destruct ul as [|a ul]; cbn [hd].
    - exists s2. split; [done|]. split; [done|]. split; [|done]. split; [|done].
      exists e2. split; [exact E2|]. split; [done|exact Hhd].
    - apply not_elem_of_cons in Hnn as [Hna Hnn]. apply not_elem_of_cons in Hd as [Hda Hd].
      rewrite (proj2 (Z.eqb_neq _ _)) by congruence. cbn [negb].
      destruct (dseg_elem _ _ _ _ a S2 ltac:(left)) as [ea Ea].
      rewrite (run_upd_dreg _ _ _ _ Ea). eexists. split; [done|]. split.
      { eapply relinked_trans; [exact R2|]. by apply relinked_upd. }
      split; [|done]. apply NoDup_cons in Hnd as [Hau _]. split; [|by apply (dseg_set_prev _ NULL)].
      exists e2. cbn [dregs ds_dregs]. rewrite lookup_insert_ne by congruence.
      split; [done|]. split; [done|exact Hhd]. }
  rewrite (st_bind_run _ _ _ _ _ E3). set (s4 := ds_unused d (dreg_unused_tail s3) s3).
  rewrite (st_bind_run _ _ s3 tt s4) by done.
  eexists. split; [done|].
  assert (relinked s s4) as R4 by (eapply relinked_trans; [exact R3|apply relinked_unused]).
  assert (forall t, unused_wf (ds_unused d t s4) (d :: ul) <-> t = last_of (d :: ul)) as Hwf.
  { intros t. split; [by intros [_ _ Ht _ _]|]. intros ->. split; try done.
    - by apply NoDup_cons.
    - by apply not_elem_of_cons. }
  destruct (NULL =? dreg_unused_tail s4) eqn:Et; apply Z.eqb_eq in Et || apply Z.eqb_neq in Et;
    change (dreg_unused_tail s4) with (dreg_unused_tail s3) in Et; rewrite T3, Htl in Et.
  - split; [|eapply relinked_trans; [exact R4|apply relinked_unused]].
    apply Hwf. destruct (list_end ul) as [->|(ul' & x & ->)]; [done|].
    unfold last_of in Et. rewrite last_snoc in Et. exfalso. apply Hnn. set_solver.
  - split; [|done]. replace s4 with (ds_unused d (dreg_unused_tail s4) s4) by done.
    apply Hwf. change (dreg_unused_tail s4) with (dreg_unused_tail s3). rewrite T3, Htl.
    destruct (list_end ul) as [->|(ul' & x & ->)]; [done|].
    unfold last_of. by rewrite app_comm_cons, !last_snoc.
Qed.

(** Both links of [d] cleared. *)
Lemma clear_links s d e : dregs s !! d = Some e ->
  exists s', (upd_dreg d (d_set_next_unused NULL) ≫= fun _ => upd_dreg d (d_set_prev_unused NULL)) s =
      Ok (tt, s') /\ relinked s s' /\ dregs s' = <[d := strip e]> (dregs s) /\
    dreg_unused_list s' = dreg_unused_list s /\ dreg_unused_tail s' = dreg_unused_tail s.
Proof.
  intros E. erewrite st_bind_run by (by apply run_upd_dreg).
  set (s1 := ds_dregs _ s). assert (dregs s1 !! d = Some (d_set_next_unused NULL e)) as E1
    by apply lookup_insert_eq.
  rewrite (run_upd_dreg _ _ _ _ E1). eexists. split; [done|]. split.
  { eapply relinked_trans; [by apply (relinked_upd s d e (d_set_next_unused NULL))|].
    by apply (relinked_upd s1 d _ (d_set_prev_unused NULL)). }
  split; [|done]. cbn [dregs ds_dregs s1]. by rewrite insert_insert_eq.
Qed.

(** The neighbour in front, when there is one, gets the next entry. *)
Lemma bypass_prev s l1 next next' : dseg (dregs s) NULL l1 next -> NoDup l1 -> NULL ∉ l1 ->
  exists s', st_when (negb (last_of l1 =? NULL)) (upd_dreg (last_of l1) (d_set_next_unused next')) s =
      Ok (tt, s') /\ relinked s s' /\ dseg (dregs s') NULL l1 next' /\
    dreg_unused_list s' = dreg_unused_list s /\ dreg_unused_tail s' = dreg_unused_tail s /\
    (forall l p n, (forall a, a ∈ l1 -> a ∉ l) -> dseg (dregs s) p l n -> dseg (dregs s') p l n).
Proof.
  intros Hs Hnd Hnn. rewrite run_when. destruct (list_end l1) as [->|(l & p & ->)].
  { exists s. split; [done|]. split; [apply relinked_refl|]. split; [done|]. done. }
  unfold last_of. rewrite last_snoc. rewrite (proj2 (Z.eqb_neq p NULL)) by set_solver.
  cbn [negb]. destruct (dseg_elem _ _ _ _ p Hs ltac:(set_solver)) as [e E].
  rewrite (run_upd_dreg _ _ _ _ E). eexists. split; [done|]. split; [by apply relinked_upd|].
  split; [eapply dseg_set_next; eauto; apply NoDup_app in Hnd; set_solver|].
  do 2 (split; [done|]). intros l' p' n Hl Hd. apply dseg_insert; [|done]. apply Hl. set_solver.
Qed.

Lemma bypass_next s l2 prev prev' : dseg (dregs s) prev l2 NULL -> NoDup l2 -> NULL ∉ l2 ->
  exists s', st_when (negb (hd NULL l2 =? NULL)) (upd_dreg (hd NULL l2) (d_set_prev_unused prev')) s =
      Ok (tt, s') /\ relinked s s' /\ dseg (dregs s') prev' l2 NULL /\
    dreg_unused_list s' = dreg_unused_list s /\ dreg_unused_tail s' = dreg_unused_tail s /\
    (forall l p n, (forall a, a ∈ l2 -> a ∉ l) -> dseg (dregs s) p l n -> dseg (dregs s') p l n).
Proof.
  intros Hs Hnd Hnn. rewrite run_when. destruct l2 as [|n l2]; cbn [hd].
  { exists s. split; [done|]. split; [apply relinked_refl|]. split; [done|]. done. }
  rewrite (proj2 (Z.eqb_neq n NULL)) by set_solver. cbn [negb].
  destruct (dseg_elem _ _ _ _ n Hs ltac:(left)) as [e E].
  rewrite (run_upd_dreg _ _ _ _ E). eexists. split; [done|]. split; [by apply relinked_upd|].
  apply NoDup_cons in Hnd as [Hn _]. split; [by apply (dseg_set_prev _ prev)|].
  do 2 (split; [done|]). intros l' p' n' Hl Hd. apply dseg_insert; [|done]. apply Hl. left.
Qed.

Lemma st_bind_assoc {S A B C} (m : ST S A) (k : A -> ST S B) (k' : B -> ST S C) s :
  ((m ≫= k) ≫= k') s = (m ≫= (fun a => k a ≫= k')) s.
Proof. unfold mbind, ST_bind. by destruct (m s) as [[a s']|]. Qed.

Lemma head_removed l1 d l2 : d ∉ l1 ->
  hd NULL (l1 ++ l2) = if hd NULL (l1 ++ d :: l2) =? d then hd NULL l2 else hd NULL (l1 ++ d :: l2).
Proof.
  intros Hd. destruct l1 as [|a l1]; cbn; [by rewrite Z.eqb_refl|].
  by rewrite (proj2 (Z.eqb_neq a d)) by set_solver.
Qed.

Lemma last_removed l1 d l2 : d ∉ l2 ->
  last_of (l1 ++ l2) = if last_of (l1 ++ d :: l2) =? d then last_of l1 else last_of (l1 ++ d :: l2).
Proof.
  intros Hd. unfold last_of. destruct (list_end l2) as [->|(l & x & ->)].
  - by rewrite last_snoc, app_nil_r, Z.eqb_refl.
  - rewrite app_comm_cons, !app_assoc, !last_snoc.
    by rewrite (proj2 (Z.eqb_neq x d)) by set_solver.
Qed.

(** The ends of the list after an entry between [l1] and [l2] is bypassed. *)
Lemma fix_ends s l1 d l2 : d ∉ l1 -> d ∉ l2 ->
  dreg_unused_list s = hd NULL (l1 ++ d :: l2) -> dreg_unused_tail s = last_of (l1 ++ d :: l2) ->
  exists s', (st_set (fun s => if dreg_unused_list s =? d
        then ds_unused (hd NULL l2) (dreg_unused_tail s) s else s) ≫= fun _ =>
      st_set (fun s => if dreg_unused_tail s =? d
        then ds_unused (dreg_unused_list s) (last_of l1) s else s)) s = Ok (tt, s') /\
    relinked s s' /\ dregs s' = dregs s /\
    dreg_unused_list s' = hd NULL (l1 ++ l2) /\ dreg_unused_tail s' = last_of (l1 ++ l2).
Proof.
  intros H1 H2 Hh Ht. rewrite (head_removed l1 d l2 H1), (last_removed l1 d l2 H2), <- Hh, <- Ht.
  unfold mbind, ST_bind, st_set. eexists. split; [reflexivity|].
  destruct (dreg_unused_list s =? d); cbn [dreg_unused_tail dreg_unused_list ds_unused];
    destruct (dreg_unused_tail s =? d); cbn [dreg_unused_tail dreg_unused_list ds_unused dregs];
    (split; [|done]); try apply relinked_refl; try apply (relinked_unused s).
Qed.

Lemma remove_unused s l1 d l2 : unused_wf s (l1 ++ d :: l2) ->
  exists s', DREG_REMOVE_FROM_UNUSED_LIST d s = Ok (tt, s') /\ unused_wf s' (l1 ++ l2) /\
    relinked s s'.
Proof.
  intros [Hseg Hhd Htl Hnd Hnn]. unfold DREG_REMOVE_FROM_UNUSED_LIST.
  apply NoDup_app in Hnd as (Hnd1 & Hdisj & Hnd2). apply NoDup_cons in Hnd2 as [Hd2 Hnd2].
  assert (d ∉ l1) as Hd1 by (intros H; apply (Hdisj d H); left).
  apply dseg_app in Hseg as [S1 [(e & E & Hp & Hn) S2]]. cbn [hd] in S1.
  erewrite st_bind_run by (by apply run_get_dreg). rewrite Hp, Hn. fold (last_of l1).
  rewrite <- st_bind_assoc.
  destruct (clear_links s d e E) as (s1 & E1 & R1 & D1 & L1 & T1).
  rewrite (st_bind_run _ _ _ _ _ E1).
  destruct (bypass_prev s1 l1 d (hd NULL l2)) as (s2 & E2 & R2 & G1 & L2 & T2 & F2);
    [rewrite D1; by apply dseg_insert|done|set_solver|].
  rewrite (st_bind_run _ _ _ _ _ E2).
  destruct (bypass_next s2 l2 d (last_of l1)) as (s3 & E3 & R3 & G2 & L3 & T3 & F3).
  { apply F2; [set_solver|]. rewrite D1. by apply dseg_insert. }
  { done. } { set_solver. }
  rewrite (st_bind_run _ _ _ _ _ E3).
  destruct (fix_ends s3 l1 d l2) as (s4 & E4 & R4 & D4 & L4 & T4); [done|done| | |].
  { by rewrite L3, L2, L1. } { by rewrite T3, T2, T1. }
  rewrite E4. exists s4. split; [done|]. split.
  - split; [|done|done| |set_solver].
    + rewrite D4. apply dseg_app. split; [|done]. apply F3; [set_solver|done].
    + apply NoDup_app. split; [done|]. split; [set_solver|done].
  - eauto using relinked_trans.
Qed.

(** An entry that is not on the list and whose links are clear. *)
Lemma remove_absent s ul d e : unused_wf s ul -> d ∉ ul -> d <> NULL ->
  dregs s !! d = Some e -> strip e = e ->
  exists s', DREG_REMOVE_FROM_UNUSED_LIST d s = Ok (tt, s') /\ unused_wf s' ul /\ relinked s s'.
Proof.
  intros [Hseg Hhd Htl Hnd Hnn] Hd Hnull E Hst. unfold DREG_REMOVE_FROM_UNUSED_LIST.
  erewrite st_bind_run by (by apply run_get_dreg). rewrite <- st_bind_assoc.
  destruct (clear_links s d e E) as (s1 & E1 & R1 & D1 & L1 & T1).
  rewrite (st_bind_run _ _ _ _ _ E1).
  assert (prev_unused e = NULL /\ next_unused e = NULL) as [-> ->] by (by rewrite <- Hst).
  rewrite !Z.eqb_refl. cbn [negb st_when].
  assert (dreg_unused_list s1 <> d) as Hl.
  { rewrite L1, Hhd. destruct ul as [|u ul]; cbn; [done|]. set_solver. }
  assert (dreg_unused_tail s1 <> d) as Ht.
  { rewrite T1, Htl. destruct (list_end ul) as [->|(l & x & ->)]; [done|].
    unfold last_of. rewrite last_snoc. set_solver. }
  exists s1. split; [|split; [|done]].
  - unfold mbind, ST_bind, mret, ST_ret, st_set.
    rewrite (proj2 (Z.eqb_neq _ _) Hl). cbv beta. rewrite (proj2 (Z.eqb_neq _ _) Ht). done.
  - split; [rewrite D1; by apply dseg_insert|by rewrite L1|by rewrite T1|done|done].
Qed.

(** ** The invariant of the cache *)

(** The free list, through the [next] fields. *)
Fixpoint fseg (m : gmap Z dreg_entry) (fl : list Z) : Prop :=
  match fl with
  | [] => True
  | a :: l => (exists e, m !! a = Some e /\ d_next e = hd NULL l) /\ fseg m l
  end.

(** [ul] is the unused list and [fl] the free list; an entry that is not free is unused
    exactly when nothing refers to it. *)
Record cache_inv (s : dreg_state) (ul fl : list Z) : Prop := {
  c_unused : unused_wf s ul;
  c_free : fseg (dregs s) fl;
  c_free_head : dreg_free_list s = hd NULL fl;
  c_free_nodup : NoDup fl;
  c_disjoint : forall a, a ∈ ul -> a ∉ fl;
  c_entry : forall a e, dregs s !! a = Some e -> a <> NULL /\
    (a ∉ fl -> 0 <= refcount e < 2 ^ 31 /\ (refcount e = 0 <-> a ∈ ul)) }.

(** [d]'s reference count, seen through the links. *)
Definition counted (s s' : dreg_state) (d c : Z) : Prop :=
  (forall a e, dregs s !! a = Some e -> exists e', dregs s' !! a = Some e' /\
     d_next e' = d_next e /\ refcount e' = (if a =? d then c else refcount e)) /\
  (forall a e', dregs s' !! a = Some e' -> exists e, dregs s !! a = Some e) /\
  dreg_free_list s' = dreg_free_list s.

Lemma fseg_counted s s' d c fl : counted s s' d c -> fseg (dregs s) fl -> fseg (dregs s') fl.
Proof.
  intros [Hc _]. induction fl as [|a fl IH]; [done|]. intros [(e & E & En) Hf].
  destruct (Hc a e E) as (e' & E' & En' & _). split; [|auto]. exists e'. by rewrite En'.
Qed.

Lemma relinked_counted s s' d e : relinked s s' -> dregs s !! d = Some e ->
  counted s s' d (refcount e).
Proof.
  intros Hr Hd. split; [|split].
  - intros a ea Ha. destruct (relinked_entry s s' a ea Hr Ha) as (e' & E' & Es).
    apply strip_eq in Es as (? & _ & _ & _ & ? & _). exists e'. split; [done|]. split; [done|].
    destruct (Z.eqb_spec a d); congruence.
  - intros a e' Ha. destruct Hr as [Hr _]. assert ((strip <$> dregs s) !! a = Some (strip e')) as H.
    { by rewrite <- Hr, lookup_fmap, Ha. }
    rewrite lookup_fmap in H. destruct (dregs s !! a); [eauto|done].
  - destruct Hr as [_ ->]. done.
Qed.

(** A new count for [d], the lists following it. *)
Lemma cache_recount s s' ul ul' fl d e c :
  cache_inv s ul fl -> dregs s !! d = Some e -> d ∉ fl -> counted s s' d c ->
  unused_wf s' ul' -> 0 <= c < 2 ^ 31 -> (forall a, a <> d -> a ∈ ul' <-> a ∈ ul) ->
  (c = 0 <-> d ∈ ul') -> cache_inv s' ul' fl.
Proof.
  intros [Hu Hf Hfh Hfn Hdj He] Hd Hdf Hc Hu' Hcr Hul Hcd. split; try done.
  - by eapply fseg_counted.
  - destruct Hc as (_ & _ & ->). done.
  - intros a Ha. destruct (decide (a = d)) as [->|Hne]; [done|]. apply Hdj. by apply Hul.
  - intros a e' Ha. destruct Hc as (Hc1 & Hc2 & _). destruct (Hc2 a e' Ha) as [ea Ea].
    destruct (Hc1 a ea Ea) as (e'' & E'' & _ & Hrc). assert (e'' = e') as -> by congruence.
    destruct (He a ea Ea) as [Hn Ha']. split; [done|]. intros Haf. rewrite Hrc.
    destruct (Z.eqb_spec a d) as [->|Hne]; [done|]. specialize (Ha' Haf). by rewrite Hul.
Qed.

Lemma dseg_upd m prev ul next d e e' : m !! d = Some e ->
  next_unused e' = next_unused e -> prev_unused e' = prev_unused e ->
  dseg m prev ul next -> dseg (<[d := e']> m) prev ul next.
Proof.
  intros E Hn Hp. revert prev. induction ul as [|a ul IH]; intros prev; [done|].
  intros [(ea & Ea & Hpa & Hna) Hd]. split; [|by apply IH].
  destruct (decide (a = d)) as [->|Hne].
  - exists e'. rewrite lookup_insert_eq. split; [done|]. assert (ea = e) as -> by congruence.
    by rewrite Hp, Hn.
  - exists ea. by rewrite lookup_insert_ne by congruence.
Qed.

(** Assigning fields that are no links. *)
Lemma set_entry s ul d e e' : unused_wf s ul -> dregs s !! d = Some e ->
  next_unused e' = next_unused e -> prev_unused e' = prev_unused e -> d_next e' = d_next e ->
  let s' := ds_dregs (<[d := e']> (dregs s)) s in
  unused_wf s' ul /\ counted s s' d (refcount e') /\ dregs s' !! d = Some e'.
Proof.
  intros [Hseg Hh Ht Hnd Hnn] E Hn Hp Hx s'. split; [|split].
  - split; try done. by eapply dseg_upd.
  - split; [|split; [|done]].
    + intros a ea Ea. cbn [s' dregs ds_dregs]. destruct (Z.eqb_spec a d) as [->|Hne].
      * exists e'. rewrite lookup_insert_eq. split; [done|]. split; [congruence|done].
      * exists ea. by rewrite lookup_insert_ne by congruence.
    + intros a ea Ea. cbn [s' dregs ds_dregs] in Ea. destruct (decide (a = d)) as [->|]; [eauto|].
      rewrite lookup_insert_ne in Ea by congruence. eauto.
  - apply lookup_insert_eq.
Qed.

Lemma set_refcount s ul d e c : unused_wf s ul -> dregs s !! d = Some e ->
  let s' := ds_dregs (<[d := d_set_refcount c e]> (dregs s)) s in
  unused_wf s' ul /\ counted s s' d c /\ dregs s' !! d = Some (d_set_refcount c e).
Proof. intros Hu E. by apply (set_entry s ul d e (d_set_refcount c e)). Qed.

Lemma counted_trans s1 s2 s3 d c c' : counted s1 s2 d c -> counted s2 s3 d c' ->
  counted s1 s3 d c'.
Proof.
  intros (H1 & H2 & H3) (G1 & G2 & G3). split; [|split; [|congruence]].
  - intros a e Ha. destruct (H1 a e Ha) as (e' & E' & En & Er).
    destruct (G1 a e' E') as (e'' & E'' & En' & Er'). exists e''. split; [done|].
    split; [congruence|]. rewrite Er', Er. by destruct (a =? d).
  - intros a e Ha. destruct (G2 a e Ha) as [e' E']. by eapply H2.
Qed.

Lemma counted_entry s s' d e c : counted s s' d c -> dregs s !! d = Some e ->
  exists e', dregs s' !! d = Some e' /\ refcount e' = c.
Proof.
  intros [Hc _] E. destruct (Hc d e E) as (e' & E' & _ & Er). exists e'. split; [done|].
  by rewrite Z.eqb_refl in Er.
Qed.

(** The whole cache as it was, with the count [c] for [d] and the unused list linked anew. *)
Definition recounted (s s' : dreg_state) (d : Z) (e : dreg_entry) (c : Z) : Prop :=
  relinked (ds_dregs (<[d := d_set_refcount c e]> (dregs s)) s) s'.

(** What follows of the entries: [d] has the count, the others theirs. *)
Lemma recounted_entries s s' d e c : recounted s s' d e c ->
  (exists e', dregs s' !! d = Some e' /\ refcount e' = c) /\
  (forall a ea, a <> d -> dregs s !! a = Some ea ->
     exists ea', dregs s' !! a = Some ea' /\ refcount ea' = refcount ea /\ d_next ea' = d_next ea).
Proof.
  intros R. split.
  - destruct (relinked_entry _ _ d _ R (lookup_insert_eq _ _ _)) as (e' & E' & Es).
    apply strip_eq in Es as [Er _]. by exists e'.
  - intros a ea Hne Ha. destruct (relinked_entry _ _ a ea R) as (ea' & E' & Es).
    { cbn. by rewrite lookup_insert_ne. }
    apply strip_eq in Es as (? & _ & _ & _ & ? & _). by exists ea'.
Qed.

Lemma relinked_recount s s1 d e e1 c : relinked s s1 -> dregs s !! d = Some e -> dregs s1 !! d = Some e1 ->
  strip e1 = strip e -> recounted s (ds_dregs (<[d := d_set_refcount c e1]> (dregs s1)) s1) d e c.
Proof.
  intros [H1 H2] E E1 Es. split.
  - cbn [dregs ds_dregs]. rewrite !fmap_insert, H1. f_equal.
    destruct e, e1. unfold strip in *. cbn in *. by simplify_eq.
  - cbn [dregs ds_dregs dreg_unused_list dreg_unused_tail]. set (u := dreg_unused_list s1) in *.
    set (t := dreg_unused_tail s1) in *. set (m := dregs s1) in *. rewrite H2. by destruct s.
Qed.

Lemma decr_run s ul fl d e : cache_inv s ul fl -> dregs s !! d = Some e -> d ∉ fl ->
  0 < refcount e -> exists s', dreg_decr_refcount d s = Ok (tt, s') /\
    cache_inv s' (if refcount e =? 1 then d :: ul else ul) fl /\
    recounted s s' d e (refcount e - 1).
Proof.
  intros Hinv E Hdf Hpos. pose proof Hinv as [Hu _ _ _ _ He].
  destruct (He d e E) as [Hnull Hcnt]. specialize (Hcnt Hdf).
  unfold dreg_decr_refcount. erewrite st_bind_run by (by apply run_get_dreg).
  rewrite (proj2 (Z.ltb_lt _ _) Hpos). cbn [c_assert].
  erewrite st_bind_run by reflexivity. erewrite st_bind_run by (by apply run_upd_dreg).
  destruct (set_refcount s ul d e (refcount e - 1) Hu E) as (Hu1 & Hc1 & E1).
  set (s1 := ds_dregs _ s) in *. rewrite run_when.
  assert (d ∉ ul) as Hdu by (rewrite <- (proj2 Hcnt); lia).
  destruct (Z.eqb_spec (refcount e) 1) as [Hr|Hr].
  - rewrite (proj2 (Z.eqb_eq _ _)) by lia.
    destruct (add_unused s1 ul d _ Hu1 E1 Hdu Hnull) as (s2 & -> & Hu2 & R2).
    pose proof (counted_trans _ _ _ _ _ _ Hc1 (relinked_counted s1 s2 d _ R2 E1)) as Hc2.
    exists s2. split; [done|]. split; [|exact R2].
    eapply cache_recount; eauto; cbn [refcount d_set_refcount]; [lia| |].
    + intros a Ha. rewrite elem_of_cons. naive_solver.
    + split; [left|lia].
  - rewrite (proj2 (Z.eqb_neq _ _)) by lia. exists s1.
    split; [done|]. split; [|apply relinked_refl]. eapply cache_recount; eauto; [lia|]. split; [lia|done].
Qed.

Lemma filter_middle (d : Z) l1 l2 : NoDup (l1 ++ d :: l2) ->
  filter (fun a : Z => a <> d) (l1 ++ d :: l2) = l1 ++ l2.
Proof.
  intros Hnd. apply NoDup_app in Hnd as (_ & Hdj & Hnd). apply NoDup_cons in Hnd as [Hd _].
  assert (forall l : list Z, d ∉ l -> filter (fun a : Z => a <> d) l = l) as Hid.
  { induction l as [|a l IH]; intros H; [done|]. apply not_elem_of_cons in H as [Hne H].
    rewrite filter_cons_True by congruence. by rewrite IH. }
  rewrite filter_app, filter_cons_False by naive_solver.
  assert (d ∉ l1) as Hd1 by (intros H; apply (Hdj d H); left). by rewrite !Hid.
Qed.

Lemma incr_run s ul fl d e : cache_inv s ul fl -> dregs s !! d = Some e -> d ∉ fl ->
  refcount e < 2 ^ 31 - 1 -> exists s', dreg_incr_refcount d s = Ok (tt, s') /\
    cache_inv s' (filter (fun a : Z => a <> d) ul) fl /\ recounted s s' d e (refcount e + 1).
Proof.
  intros Hinv E Hdf Hlt. pose proof Hinv as [Hu _ _ _ _ He].
  destruct (He d e E) as [Hnull Hcnt]. destruct (Hcnt Hdf) as [Hr Hin].
  unfold dreg_incr_refcount. rewrite (proj2 (Z.eqb_neq d NULL)) by done. cbn [negb c_assert].
  erewrite st_bind_run by reflexivity. erewrite st_bind_run by (by apply run_get_dreg).
  assert (exists s1, st_when (refcount e =? 0) (DREG_REMOVE_FROM_UNUSED_LIST d) s = Ok (tt, s1) /\
    unused_wf s1 (filter (fun a : Z => a <> d) ul) /\ relinked s s1) as (s1 & E1 & Hu1 & R1).
  { rewrite run_when. destruct (Z.eqb_spec (refcount e) 0) as [H0|H0].
    - apply Hin, list_elem_of_split in H0 as (l1 & l2 & ->).
      destruct (remove_unused s l1 d l2 Hu) as (s1 & E1 & Hu1 & R1). exists s1.
      rewrite filter_middle by apply Hu. done.
    - exists s. split; [done|]. split; [|apply relinked_refl].
      assert (filter (fun a : Z => a <> d) ul = ul) as ->; [|done].
      assert (d ∉ ul) as Hn by (rewrite <- Hin; lia). clear -Hn.
      induction ul as [|a ul IH]; [done|]. apply not_elem_of_cons in Hn as [Hne Hn].
      rewrite filter_cons_True by congruence. by rewrite IH. }
  rewrite (st_bind_run _ _ _ _ _ E1).
  destruct (relinked_entry _ _ _ _ R1 E) as (e1 & Ee1 & Es). pose proof Es as Es1.
  apply strip_eq in Es1 as [Er1 _].
  rewrite (run_upd_dreg _ _ _ _ Ee1). cbn beta. rewrite Er1, i32_small by lia.
  destruct (set_refcount s1 _ d e1 (refcount e + 1) Hu1 Ee1) as (Hu2 & Hc2 & E2).
  eexists. split; [done|]. split; [|by apply relinked_recount].
  eapply (cache_recount s _ ul _ fl d e (refcount e + 1)); [done|done|done| |exact Hu2|lia| |].
  - eapply counted_trans; [by apply (relinked_counted s s1 d e)|done].
  - intros a Ha. rewrite list_elem_of_filter. naive_solver.
  - split; [lia|]. intros H. apply list_elem_of_filter in H. naive_solver.
Qed.

(** C36: Reference counts: an unregister without a register stops the process; otherwise the count
    goes down by one, and an entry nothing refers to any more becomes the first of the unused
    list; a new reference adds one and takes the entry off that list wherever it is.  Either
    way nothing else changes but the links of the unused list: the counts, pages, handles and
    free-list links of all entries, the page database, the counters, locks and delayed
    regions are what they were, and no memory is registered or deregistered. *)
Theorem dreg_refcounts s ul fl d e :
  cache_inv s ul fl -> dregs s !! d = Some e -> d ∉ fl ->
  (refcount e = 0 -> dreg_decr_refcount d s = Err AssertFail) /\
  (0 < refcount e -> exists s', dreg_decr_refcount d s = Ok (tt, s') /\
     cache_inv s' (if refcount e =? 1 then d :: ul else ul) fl /\
     recounted s s' d e (refcount e - 1) /\ db s' = db s /\ dma s' = dma s /\
     (exists e', dregs s' !! d = Some e' /\ refcount e' = refcount e - 1) /\
     (forall a ea, a <> d -> dregs s !! a = Some ea -> exists ea', dregs s' !! a = Some ea' /\
        refcount ea' = refcount ea /\ d_next ea' = d_next ea)) /\
  (refcount e < 2 ^ 31 - 1 -> exists s', dreg_incr_refcount d s = Ok (tt, s') /\
     cache_inv s' (filter (fun a : Z => a <> d) ul) fl /\
     recounted s s' d e (refcount e + 1) /\ db s' = db s /\ dma s' = dma s /\
     (exists e', dregs s' !! d = Some e' /\ refcount e' = refcount e + 1) /\
     (forall a ea, a <> d -> dregs s !! a = Some ea -> exists ea', dregs s' !! a = Some ea' /\
        refcount ea' = refcount ea /\ d_next ea' = d_next ea)).
Proof.
  assert (forall s' c, recounted s s' d e c -> db s' = db s /\ dma s' = dma s) as Hfr.
  { intros s' c [_ ->]. done. }
  intros Hinv E Hdf. split; [|split; intros Hr].
  - intros Hr. unfold dreg_decr_refcount. erewrite st_bind_run by (by apply run_get_dreg).
    by rewrite Hr.
  - destruct (decr_run _ _ _ _ _ Hinv E Hdf Hr) as (s' & E1 & Hi & R). exists s'.
    destruct (Hfr _ _ R), (recounted_entries _ _ _ _ _ R). auto 10.
  - destruct (incr_run _ _ _ _ _ Hinv E Hdf Hr) as (s' & E1 & Hi & R). exists s'.
    destruct (Hfr _ _ R), (recounted_entries _ _ _ _ _ R). auto 10.
Qed.

(** ** Eviction *)

Lemma unused_wf_ext s s' ul : dregs s' = dregs s -> dreg_unused_list s' = dreg_unused_list s ->
  dreg_unused_tail s' = dreg_unused_tail s -> unused_wf s ul -> unused_wf s' ul.
Proof. intros E1 E2 E3 [H1 H2 H3 H4 H5]. split; congruence. Qed.

(** [dreg_remove] only reads the pages of the entry it is called with. *)
Lemma dreg_remove_ext regs regs' fuel d e e' : regs !! d = Some e -> regs' !! d = Some e' ->
  pagenum e' = pagenum e -> npages e' = npages e ->
  forall s, dreg_remove regs' fuel d s = dreg_remove regs fuel d s.
Proof.
  intros E E' Hp Hn s. unfold dreg_remove, get_reg. rewrite E, E'. cbn [get_or st_lift].
  unfold mbind, ST_bind, st_lift. unfold DREG_BEGIN, DREG_END. by rewrite Hp, Hn.
Qed.

(** The entry [d], which is on no list, becomes the first of the free list. *)
Lemma add_free s ul fl d e : unused_wf s ul -> fseg (dregs s) fl ->
  dreg_free_list s = hd NULL fl -> NoDup (d :: fl) -> dregs s !! d = Some e ->
  (forall a, a ∈ ul -> a ∉ d :: fl) ->
  (forall a e, dregs s !! a = Some e -> a <> NULL /\
     (a ∉ d :: fl -> 0 <= refcount e < 2 ^ 31 /\ (refcount e = 0 <-> a ∈ ul))) ->
  exists s', DREG_ADD_TO_FREE_LIST d s = Ok (tt, s') /\ cache_inv s' ul (d :: fl) /\
    db s' = db s /\ dma s' = dma s.
Proof.
  intros Hu Hf Hh Hnd E Hdj He. unfold DREG_ADD_TO_FREE_LIST.
  rewrite (st_bind_run _ _ s (dreg_free_list s) s) by done.
  erewrite st_bind_run by (by apply run_upd_dreg).
  eexists. split; [reflexivity|]. split; [|done]. apply NoDup_cons in Hnd as [Hd Hnd].
  split; cbn [dregs ds_dregs ds_free dreg_free_list]; try done.
  - eapply unused_wf_ext; [reflexivity..|]. destruct Hu as [Hseg H2 H3 H4 H5].
    split; try done. cbn [dregs ds_dregs ds_free]. by eapply dseg_upd.
  - split; [|].
    + eexists. split; [apply lookup_insert_eq|done].
    + clear -Hf Hd. induction fl as [|a fl IH]; [done|]. destruct Hf as [(ea & Ea & Hn) Hf].
      apply not_elem_of_cons in Hd as [Hne Hd]. split; [|by apply IH].
      exists ea. by rewrite lookup_insert_ne by congruence.
  - by apply NoDup_cons.
  - intros a ea Ea. destruct (decide (a = d)) as [->|Hne].
    + split; [by apply (He d e)|]. intros Hn. exfalso. apply Hn. left.
    + rewrite lookup_insert_ne in Ea by congruence. by apply He.
Qed.

(** The deregistration in dreg_evict of an entry just taken off the unused list. *)
Lemma evict_dereg s s1 ul d e e1 : unused_wf s1 ul -> relinked s s1 -> dregs s !! d = Some e ->
  refcount e = 0 -> dregs s1 !! d = Some e1 ->
  exists s2 e2, st_when (truth (memhandle e1))
      (upd_dreg d (d_set_valid 0) ≫= fun _ => call_free_dma_mem (memhandle e1)) s1 = Ok (tt, s2) /\
    unused_wf s2 ul /\ counted s s2 d 0 /\ dregs s2 !! d = Some e2 /\ db s2 = db s /\
    pagenum e2 = pagenum e /\ npages e2 = npages e /\
    dma s2 = dma s ++ (if truth (memhandle e) then [DmaFree (memhandle e)] else []).
Proof.
  intros Hu1 R1 E Hr0 Ee1. destruct (relinked_entry _ _ _ _ R1 E) as (e1' & Ee1' & Es).
  assert (e1' = e1) as -> by congruence. apply strip_eq in Es as (Er1 & Em1 & Ep1 & En1 & _).
  pose proof (relinked_counted s s1 d e R1 E) as Hc. rewrite Hr0 in Hc.
  destruct R1 as [_ R1]. assert (db s1 = db s /\ dma s1 = dma s) as [Hdb Hdma] by (by rewrite R1).
  rewrite run_when, Em1. destruct (truth (memhandle e)).
  - destruct (set_entry s1 ul d e1 (d_set_valid 0 e1) Hu1 Ee1) as (Hu2 & Hc2 & Ee2); try done.
    erewrite st_bind_run by (by apply run_upd_dreg). eexists _, _. split; [reflexivity|].
    split; [by eapply unused_wf_ext; [| | |exact Hu2]|]. split.
    { eapply counted_trans; [exact Hc|]. cbn [refcount d_set_valid] in Hc2. by rewrite Er1, Hr0 in Hc2. }
    split; [exact Ee2|]. cbn [db dma ds_dma ds_dregs]. by rewrite Hdma.
  - exists s1, e1. rewrite app_nil_r. by repeat (split; [done|]).
Qed.

(** C37: Eviction takes the entry that was unused longest: it is removed from the page database,
    given back to the server if it was registered there, and is the first of the free list
    afterwards; with no unused entry nothing happens. *)
Theorem dreg_evict_lru s ul fl d e fuel r x :
  (cache_inv s [] fl -> dreg_evict fuel s = Ok (false, s)) /\
  (cache_inv s (ul ++ [d]) fl -> dregs s !! d = Some e ->
   dreg_remove (dregs s) fuel d (db s) = Ok (r, x) ->
   exists s', dreg_evict fuel s = Ok (true, s') /\ cache_inv s' ul (d :: fl) /\ db s' = x /\
     dma s' = dma s ++ (if truth (memhandle e) then [DmaFree (memhandle e)] else [])).
Proof.
  split.
  { intros [[_ _ Ht _ _] _ _ _ _ _]. unfold dreg_evict.
    rewrite (st_bind_run _ _ s (dreg_unused_tail s) s) by done. by rewrite Ht. }
  intros Hinv E Hrm. pose proof Hinv as [Hu Hf Hfh Hfn Hdj He].
  pose proof (u_tail _ _ Hu) as Ht. unfold last_of in Ht. rewrite last_snoc in Ht.
  pose proof (u_nodup _ _ Hu) as Hnd. pose proof (u_nonnull _ _ Hu) as Hnn.
  assert (d <> NULL /\ d ∉ ul /\ d ∉ fl) as (Hnull & Hdu & Hdf).
  { split; [set_solver|]. split; [|apply Hdj; set_solver].
    apply NoDup_app in Hnd as (_ & Hd & _). intros H. apply (Hd d H). left. }
  unfold dreg_evict. rewrite (st_bind_run _ _ s d s) by (by rewrite <- Ht).
  rewrite (proj2 (Z.eqb_neq d NULL)) by done.
  destruct (remove_unused s ul d [] Hu) as (s1 & E1 & Hu1 & R1). rewrite app_nil_r in Hu1.
  rewrite (st_bind_run _ _ _ _ _ E1).
  destruct (relinked_entry _ _ _ _ R1 E) as (e1 & Ee1 & Es).
  apply strip_eq in Es as (Er1 & Em1 & Ep1 & En1 & _).
  rewrite (st_bind_run _ _ _ _ _ (run_get_dreg _ _ _ Ee1)).
  assert (refcount e = 0) as Hr0 by (destruct (He d e E) as [_ H]; apply H; set_solver).
  rewrite Er1, Hr0. cbn [Z.eqb c_assert]. erewrite st_bind_run by reflexivity.
  destruct (evict_dereg s s1 ul d e e1 Hu1 R1 E Hr0 Ee1) as (s2 & e2 & E2 & Hu2 & Hc2 & Ee2 & Hdb2 & Ep2 & En2 & Hdma2).
  rewrite (st_bind_run _ _ _ _ _ E2).
  assert (in_db (fun m => dreg_remove m fuel d) s2 = Ok (r, ds_db x s2)) as E3.
  { unfold in_db. rewrite Hdb2, (dreg_remove_ext (dregs s) (dregs s2) fuel d e e2) by done.
    by rewrite Hrm. }
  rewrite (st_bind_run _ _ _ _ _ E3).
  destruct (add_free (ds_db x s2) ul fl d e2) as (s4 & E4 & Hinv4 & Hdb4 & Hdma4).
  - by eapply unused_wf_ext; [| | |exact Hu2].
  - by eapply (fseg_counted s).
  - destruct Hc2 as (_ & _ & H). cbn. congruence.
  - by apply NoDup_cons.
  - done.
  - intros a Ha. apply not_elem_of_cons. split; [congruence|]. apply Hdj. set_solver.
  - intros a ea Ea. destruct Hc2 as (Hc1 & Hc2 & _). destruct (Hc2 a ea Ea) as [ea0 Ea0].
    destruct (Hc1 a ea0 Ea0) as (ea' & Ea' & _ & Hrc). cbn [dregs ds_db] in Ea.
    assert (ea' = ea) as -> by congruence. destruct (He a ea0 Ea0) as [Hn Ha]. split; [done|].
    intros Hnot. apply not_elem_of_cons in Hnot as [Hne Hnf]. rewrite (proj2 (Z.eqb_neq a d)) in Hrc by done.
    rewrite Hrc. destruct (Ha Hnf) as [H1 H2]. split; [done|]. rewrite H2. set_solver.
  - rewrite (st_bind_run _ _ _ _ _ E4). exists s4. split; [done|]. split; [done|].
    split; [by rewrite Hdb4|]. rewrite Hdma4. exact Hdma2.
Qed.

(** A cache of three entries: 100 is registered at pages 5 to 7 and unused, 172 is referred
    to once, 244 is free. *)
Definition demo_dregs : gmap Z dreg_entry :=
  {[ 100 := Dreg 5 77 0 3 NULL NULL NULL 9 1; 172 := Dreg 6 78 1 1 NULL NULL NULL 9 1;
     244 := Dreg 0 0 0 0 NULL NULL NULL 0 0 ]}.
Definition demo_heap : heap := Heap [] 1000 50 [] 0.
Definition demo_db : vma_db :=
  match (vma_db_init ≫= fun _ => dreg_insert demo_dregs 10 100 ≫= fun _ =>
         dreg_insert demo_dregs 10 172)
        (Db ∅ (AVL NULL_TREE (fun _ _ => 0) 0) demo_heap 0 [] []) with
  | Ok (_, s) => s
  | Err _ => Db ∅ (AVL NULL_TREE (fun _ _ => 0) 0) demo_heap 0 [] []
  end.
Definition demo_cache : dreg_state :=
  DregState demo_db demo_dregs 244 100 100 100 2 2 1 0 0 (-1) (-1) 1 [] 0 [] 0 [].

(** Both are in the database: page 5 belongs to 100, pages 6 and 7 to both of them. *)
Example demo_db_lookups :
  (fun p => fst <$> match dreg_lookup demo_dregs p p demo_db with Ok a => Some a | _ => None end)
    <$> [4; 5; 6; 7; 8] = [Some 0; Some 100; Some 100; Some 100; Some 0].
Proof. vm_compute. reflexivity. Qed.

Lemma demo_cache_inv : cache_inv demo_cache [100] [244].
Proof.
  split; [split| | | | |]; try done.
  - split; [|done]. eexists. split; [reflexivity|done].
  - apply NoDup_singleton.
  - set_solver.
  - split; [|done]. eexists. split; [reflexivity|done].
  - apply NoDup_singleton.
  - set_solver.
  - intros a e Ha. cbn [dregs demo_cache] in Ha. unfold demo_dregs in Ha.
    apply lookup_insert_Some in Ha as [[<- <-]|[_ Ha]]; [split; [done|]; set_solver by lia|].
    apply lookup_insert_Some in Ha as [[<- <-]|[_ Ha]]; [split; [done|]; set_solver by lia|].
    apply lookup_singleton_Some in Ha as [<- <-]. split; [done|]. set_solver.
Qed.

Lemma dreg_refcounts_witness :
  (exists s' e', dreg_decr_refcount 172 demo_cache = Ok (tt, s') /\ cache_inv s' [172; 100] [244] /\
     dregs s' !! 172 = Some e' /\ refcount e' = 0 /\ dma s' = []) /\
  (exists s' e', dreg_incr_refcount 100 demo_cache = Ok (tt, s') /\ cache_inv s' [] [244] /\
     dregs s' !! 172 = Some e' /\ refcount e' = 1).
Proof.
  pose proof demo_cache_inv as Hinv. split.
  - destruct (dreg_refcounts demo_cache [100] [244] 172 (Dreg 6 78 1 1 NULL NULL NULL 9 1) Hinv)
      as (_ & H & _); [reflexivity|set_solver|].
    destruct (H ltac:(cbn; lia)) as (s' & E & Hi & _ & _ & Hd & (e' & E' & Er) & _). exists s', e'. auto.
  - destruct (dreg_refcounts demo_cache [100] [244] 100 (Dreg 5 77 0 3 NULL NULL NULL 9 1) Hinv)
      as (_ & _ & H); [reflexivity|set_solver|].
    destruct (H ltac:(cbn; lia)) as (s' & E & Hi & _ & _ & _ & _ & Ho).
    destruct (Ho 172 (Dreg 6 78 1 1 NULL NULL NULL 9 1)) as (e' & E' & Er & _); [discriminate|reflexivity|].
    exists s', e'. auto.
Defined.

Lemma dreg_evict_lru_witness : exists s', dreg_evict 10 demo_cache = Ok (true, s') /\
  cache_inv s' [] [100; 244] /\ dma s' = [DmaFree 77].
Proof.
  assert (is_ok (dreg_remove demo_dregs 10 100 demo_db) = true) as Hok by (vm_compute; reflexivity).
  destruct (dreg_remove demo_dregs 10 100 demo_db) as [[r x]|f] eqn:E; [|discriminate Hok].
  destruct (proj2 (dreg_evict_lru demo_cache [] [244] 100 (Dreg 5 77 0 3 NULL NULL NULL 9 1) 10 r x)
    demo_cache_inv eq_refl E) as (s' & H1 & H2 & _ & H3).
  exists s'. split; [exact H1|]. split; [exact H2|exact H3].
Defined.
