(* ===== verification/PmiUtil.v ===== *)
(** * Utilities of the process manager's client (pmi/simple_pmiutil.c)

    Strings are the bytes of the arrays that hold them, read up to their first zero byte;
    the printed messages are left out. *)
From S2P Require Import Prelude.

Definition MAXVALLEN : Z := 1024.
Definition MAXKEYLEN : Z := 32.
Definition PMIU_MAXLINE : Z := 1024.
Definition PMIU_IDSIZE : Z := 32.
Definition KEYVAL_TAB_SIZE : Z := 64.

Definition SPACE : Z := 32.
Definition EQUALS : Z := 61.
Definition NEWLINE : Z := 10.

(** ** Strings in arrays *)

(** The string at the start of an array; without a zero byte the reader leaves the array. *)
Fixpoint cstr (a : list Z) : result (list Z) :=
  match a with
  | [] => Err OutOfBounds
  | c :: a => if c =? 0 then Ok [] else l ← cstr a; Ok (c :: l)
  end.

(** [while ( *s_ptr && i-- > 0) *d_ptr++ = *s_ptr++]: the array, [d_ptr] and [i] after it. *)
Fixpoint copy_loop (fuel : nat) (d : list Z) (dp : Z) (s : list Z) (sp i : Z)
    : result (list Z * Z * Z) :=
  match fuel with
  | O => Err Spin
  | S fuel =>
      c ← aget s sp;
      if c =? 0 then Ok (d, dp, i)
      else if 0 <? i then d ← aset d dp c; copy_loop fuel d (dp + 1) s (sp + 1) (i - 1)
      else Ok (d, dp, i - 1)
  end.

(** MPIU_Strncpy from [&s[sp]]: the array [dest] and the result. *)
Definition MPIU_Strncpy (dest s : list Z) (sp n : Z) : result (list Z * Z) :=
  if n =? 0 then Ok (dest, 0)
  else
    '(d, dp, i) ← copy_loop (S (length s)) dest 0 s sp (i32 n);
    if 0 <? i then d ← aset d dp 0; Ok (d, 0)
    else d ← aset d (n - 1) 0; Ok (d, 1).

(** [while (i-- > 0 && *d_ptr) d_ptr++] *)
Fixpoint end_loop (fuel : nat) (d : list Z) (dp i : Z) : result (Z * Z) :=
  match fuel with
  | O => Err Spin
  | S fuel =>
      if 0 <? i then
        c ← aget d dp;
        if c =? 0 then Ok (dp, i - 1) else end_loop fuel d (dp + 1) (i - 1)
      else Ok (dp, i - 1)
  end.

Definition MPIU_Strnapp (dest s : list Z) (n : Z) : result (list Z * Z) :=
  '(dp, i) ← end_loop (S (length dest)) dest 0 (i32 n);
  if i <=? 0 then Ok (dest, 1)
  else
    '(d, dp, i) ← copy_loop (S (length s)) dest dp s 0 i;
    if 0 <=? i then d ← aset d dp 0; Ok (d, 0)
    else d ← aset d (dp - 1) 0; Ok (d, 1).

(** ** The table of keys and values *)

Record PMIU_keyval_pairs : Type := Pair { key : list Z; value : list Z }.

Record keyval_tab : Type := Tab {
  PMIU_keyval_tab : list PMIU_keyval_pairs; PMIU_keyval_tab_idx : Z }.

Definition keyval_tab0 : keyval_tab :=
  Tab (replicate (Z.to_nat KEYVAL_TAB_SIZE)
         (Pair (replicate (Z.to_nat MAXKEYLEN) 0) (replicate (Z.to_nat MAXVALLEN) 0))) 0.

(** The first position from [p] where [stop] holds. *)
Fixpoint scan (fuel : nat) (stop : Z -> bool) (st : list Z) (p : Z) : result Z :=
  match fuel with
  | O => Err Spin
  | S fuel => c ← aget st p; if stop c then Ok p else scan fuel stop st (p + 1)
  end.

Definition not_space (c : Z) : bool := negb (c =? SPACE).
Definition key_end (c : Z) : bool := (c =? SPACE) || (c =? EQUALS) || (c =? NEWLINE) || (c =? 0).
Definition value_end (c : Z) : bool := (c =? SPACE) || (c =? NEWLINE) || (c =? 0).

(** The assignments to the entry at the index, key [keystart..] and value [valstart..p]. *)
Definition store_pair (st : list Z) (keystart valstart p : Z) (t : keyval_tab)
    : result keyval_tab :=
  e ← aget (PMIU_keyval_tab t) (PMIU_keyval_tab_idx t);
  '(k, _) ← MPIU_Strncpy (key e) st keystart MAXKEYLEN;
  '(v, _) ← MPIU_Strncpy (value e) st valstart MAXVALLEN;
  v ← aset v (i32 (p - valstart)) 0;
  l ← aset (PMIU_keyval_tab t) (PMIU_keyval_tab_idx t) (Pair k v);
  Ok (Tab l (PMIU_keyval_tab_idx t + 1)).

(** The loop of PMIU_parse_keyvals from [p]: the result, [st] as it is left, the table. *)
Fixpoint parse_loop (fuel : nat) (st : list Z) (p : Z) (t : keyval_tab)
    : result (Z * list Z * keyval_tab) :=
  match fuel with
  | O => Err Spin
  | S fuel =>
      p ← scan (S (length st)) not_space st p;
      c ← aget st p;
      if c =? EQUALS then Ok (-1, st, t)
      else if (c =? NEWLINE) || (c =? 0) then Ok (0, st, t)
      else
        let keystart := p in
        p ← scan (S (length st)) key_end st p;
        c ← aget st p;
        if (c =? SPACE) || (c =? NEWLINE) || (c =? 0) then Ok (-1, st, t)
        else
          st ← aset st p 0;
          let valstart := p + 1 in
          p ← scan (S (length st)) value_end st valstart;
          t ← store_pair st keystart valstart p t;
          c ← aget st p;
          if c =? SPACE then parse_loop fuel st p t else Ok (0, st, t)
  end.

Definition PMIU_parse_keyvals (st : option (list Z)) (t : keyval_tab)
    : result (Z * list Z * keyval_tab) :=
  match st with
  | None => Ok (-1, [], t)
  | Some st => parse_loop (S (length st)) st 0 (Tab (PMIU_keyval_tab t) 0)
  end.

(** The first entry from [i] whose key is [keystr]: [n] entries are left. *)
Fixpoint find_key (n : nat) (keystr : list Z) (i : Z) (t : keyval_tab) : result (option Z) :=
  match n with
  | O => Ok None
  | S n =>
      e ← aget (PMIU_keyval_tab t) i;
      k ← cstr (key e);
      if decide (k = keystr) then Ok (Some i) else find_key n keystr (i + 1) t
  end.

(** PMIU_getval: [valstr] as it is left, and whether it is returned or NULL. *)
Definition PMIU_getval (keystr valstr : list Z) (vallen : Z) (t : keyval_tab)
    : result (list Z * bool) :=
  k ← cstr keystr;
  o ← find_key (Z.to_nat (PMIU_keyval_tab_idx t)) k 0 t;
  match o with
  | Some i =>
      e ← aget (PMIU_keyval_tab t) i;
      '(v, rc) ← MPIU_Strncpy valstr (value e) 0 vallen;
      Ok (v, rc =? 0)
  | None => v ← aset valstr 0 0; Ok (v, false)
  end.

(** PMIU_chgval changes every entry with the key. *)
Fixpoint chgval_loop (n : nat) (keystr valstr : list Z) (i : Z) (t : keyval_tab)
    : result keyval_tab :=
  match n with
  | O => Ok t
  | S n =>
      e ← aget (PMIU_keyval_tab t) i;
      k ← cstr (key e);
      t ← (if decide (k = keystr) then
             '(v, _) ← MPIU_Strncpy (value e) valstr 0 (MAXVALLEN - 1);
             v ← aset v (MAXVALLEN - 1) 0;
             l ← aset (PMIU_keyval_tab t) i (Pair (key e) v);
             Ok (Tab l (PMIU_keyval_tab_idx t))
           else Ok t);
      chgval_loop n keystr valstr (i + 1) t
  end.

Definition PMIU_chgval (keystr valstr : list Z) (t : keyval_tab) : result keyval_tab :=
  k ← cstr keystr;
  chgval_loop (Z.to_nat (PMIU_keyval_tab_idx t)) k valstr 0 t.

(** ** Lines *)

(** What read() returns, call after call. *)
Inductive read_result : Type :=
| ReadData (l : list Z)
| ReadEof
| ReadEintr
| ReadError.

(** The static variables of PMIU_readline: the bytes between nextChar and lastChar, and
    lastfd; and the reads to come. *)
Record read_state : Type := ReadState {
  unread : list Z; lastfd : Z; reads : list read_result }.

(** do { n = read(...) } while (n == -1 && errno == EINTR) *)
Fixpoint next_read (l : list read_result) : result (read_result * list read_result) :=
  match l with
  | [] => Err Spin
  | ReadEintr :: l => next_read l
  | r :: l => Ok (r, l)
  end.

(** Fills the buffer when it is used up; [None] is the byte, [Some] the new [curlen] after
    the break. *)
Definition refill (fd curlen : Z) : ST read_state (option Z) := fun s =>
  match unread s with
  | _ :: _ => Ok (None, s)
  | [] =>
      match next_read (reads s) with
      | Err f => Err f
      | Ok (ReadData (c :: l), rs) => Ok (None, ReadState (c :: l) fd rs)
      | Ok (ReadError, rs) => Ok (Some (if curlen =? 1 then 0 else curlen), ReadState [] fd rs)
      | Ok (_, rs) => Ok (Some curlen, ReadState [] fd rs)
      end
  end.

(** [ch = *nextChar++] *)
Definition next_char : ST read_state Z := fun s =>
  match unread s with
  | c :: l => Ok (c, ReadState l (lastfd s) (reads s))
  | [] => Err OutOfBounds
  end.

(** The loop with room for [n] more bytes: the array, [p] and [curlen]. *)
Fixpoint readline_loop (n : nat) (fd : Z) (buf : list Z) (p curlen : Z)
    : ST read_state (list Z * Z * Z) :=
  match n with
  | O => mret (buf, p, curlen)
  | S n =>
      o ← refill fd curlen;
      match o with
      | Some curlen => mret (buf, p, curlen)
      | None =>
          ch ← next_char;
          buf ← st_lift (aset buf p ch);
          if ch =? NEWLINE then mret (buf, p + 1, curlen + 1)
          else readline_loop n fd buf (p + 1) (curlen + 1)
      end
  end.

Definition PMIU_readline (fd : Z) (buf : list Z) (maxlen : Z) : ST read_state (list Z * Z) :=
  s ← st_get id;
  if (match unread s with [] => false | _ => true end) && negb (fd =? lastfd s)
  then mret (buf, -1)
  else
    '(buf, p, curlen) ← readline_loop (Z.to_nat (maxlen - 1)) fd buf 0 1;
    buf ← st_lift (aset buf p 0);
    mret (buf, curlen - 1).

(** What write() returns, call after call: the bytes written, or -1 with errno EINTR or not. *)
Inductive write_result : Type :=
| Wrote (n : Z)
| WriteEintr
| WriteError.

Fixpoint next_write (l : list write_result) : result (write_result * list write_result) :=
  match l with
  | [] => Err Spin
  | WriteEintr :: l => next_write l
  | r :: l => Ok (r, l)
  end.

(** PMIU_writeline: the result, [buf] as it is left, the bytes handed to write(), and the
    results of the calls to come. *)
Definition PMIU_writeline (buf : list Z) (ws : list write_result)
    : result (Z * list Z * list Z * list write_result) :=
  l ← cstr buf;
  let size := Z.of_nat (length l) in
  if PMIU_MAXLINE <? size then
    buf ← aset buf (PMIU_MAXLINE - 1) 0;
    Ok (0, buf, [], ws)
  else
    c ← aget buf (size - 1);
    if negb (c =? NEWLINE) then Ok (0, buf, [], ws)
    else
      '(w, ws) ← next_write ws;
      match w with
      | Wrote n => Ok (0, buf, take (Z.to_nat n) l, ws)
      | _ => Ok (-1, buf, [], ws)
      end.
