(* ===== verification/PmiSpec.v ===== *)
(** * Key-value messages and lines of the process manager's client (about PmiUtil.v) *)
From S2P Require Import Prelude PmiUtil.

(** Concatenations that differ in their brackets. *)
Ltac list_assoc := repeat (progress (rewrite <- ?app_assoc; cbn [app])); done.

(** ** Positions in arrays *)

Definition len (l : list Z) : Z := Z.of_nat (length l).

Lemma len_app l1 l2 : len (l1 ++ l2) = len l1 + len l2.
Proof. unfold len. rewrite length_app. lia. Qed.
Lemma len_cons c l : len (c :: l) = 1 + len l.
Proof. unfold len. cbn. lia. Qed.
Lemma len_nonneg l : 0 <= len l.
Proof. unfold len. lia. Qed.

Lemma aget_mid pre c post : aget (pre ++ c :: post) (len pre) = Ok c.
Proof.
  apply aget_ok. split; [apply len_nonneg|]. unfold len. rewrite Nat2Z.id.
  by rewrite lookup_app_r, Nat.sub_diag by lia.
Qed.

Lemma aset_mid pre c post x : aset (pre ++ c :: post) (len pre) x = Ok (pre ++ x :: post).
Proof.
  apply aset_ok. unfold len. rewrite Nat2Z.id, length_app. cbn [length]. split; [lia|].
  by rewrite insert_app_r_alt, Nat.sub_diag by lia.
Qed.

Lemma cstr_app l post : Forall (fun c => c <> 0) l -> cstr (l ++ 0 :: post) = Ok l.
Proof.
  induction 1 as [|c l Hc Hl IH]; [done|]. cbn [cstr app].
  by rewrite (proj2 (Z.eqb_neq c 0) Hc), IH.
Qed.

Lemma scan_spec stop w : forall fuel pre c post,
  Forall (fun c => stop c = false) w -> stop c = true -> (length w < fuel)%nat ->
  scan fuel stop (pre ++ w ++ c :: post) (len pre) = Ok (len pre + len w).
Proof.
  induction w as [|x w IH]; intros fuel pre c post Hw Hc Hf;
    (destruct fuel as [|fuel]; [lia|]); cbn [app scan].
  - rewrite aget_mid. cbn [mbind result_bind]. rewrite Hc. f_equal. unfold len. cbn. lia.
  - apply Forall_cons in Hw as [Hx Hw]. rewrite aget_mid. cbn [mbind result_bind]. rewrite Hx.
    specialize (IH fuel (pre ++ [x]) c post Hw Hc ltac:(cbn in Hf; lia)).
    rewrite <- app_assoc in IH. cbn [app] in IH. rewrite len_app in IH.
    change (len [x]) with 1 in IH. rewrite IH, len_cons. f_equal. lia.
Qed.

(** ** Copies *)

(** The destination as the part that is kept, written so far, and still to be written. *)
Lemma copy_spec w : forall fuel pre post done_ rest i,
  Forall (fun c => c <> 0) w -> (length w < fuel)%nat -> 0 <= i -> Z.min (len w) i <= len rest ->
  copy_loop fuel (done_ ++ rest) (len done_) (pre ++ w ++ 0 :: post) (len pre) i =
  let m := Z.min (len w) i in
  Ok (done_ ++ take (Z.to_nat m) w ++ drop (Z.to_nat m) rest, len done_ + m,
      if len w <=? i then i - len w else -1).
Proof.
  induction w as [|x w IH]; intros fuel pre post done_ rest i Hw Hf Hi Hr;
    (destruct fuel as [|fuel]; [lia|]); cbn [app copy_loop].
  - rewrite aget_mid. cbn [mbind result_bind Z.eqb]. change (len []) with 0. cbv zeta.
    rewrite Z.min_l, (proj2 (Z.leb_le _ _)) by lia. cbn. do 3 f_equal; lia.
  - apply Forall_cons in Hw as [Hx Hw]. rewrite aget_mid. cbn [mbind result_bind].
    rewrite (proj2 (Z.eqb_neq x 0) Hx). rewrite len_cons in *. pose proof (len_nonneg w).
    case_zbool; [|rewrite Z.min_r, (proj2 (Z.leb_gt _ _)) by lia; replace i with 0 by lia;
      cbn; do 3 f_equal; lia].
    destruct rest as [|y rest]; [unfold len in Hr at 2; cbn in Hr; lia|].
    rewrite aset_mid. cbn [mbind result_bind].
    specialize (IH fuel (pre ++ [x]) post (done_ ++ [x]) rest (i - 1) Hw ltac:(cbn in Hf; lia)
      ltac:(lia) ltac:(rewrite len_cons in Hr; lia)).
    rewrite <- !app_assoc in IH. cbn [app] in IH. rewrite !len_app in IH.
    change (len [x]) with 1 in IH. rewrite IH. cbv zeta.
    replace (Z.min (1 + len w) i) with (1 + Z.min (len w) (i - 1)) by lia.
    replace (Z.to_nat (1 + Z.min (len w) (i - 1))) with (S (Z.to_nat (Z.min (len w) (i - 1)))) by lia.
    cbn [take drop app].
    replace (1 + len w <=? i) with (len w <=? i - 1) by (repeat case_zbool; lia || done).
    rewrite <- app_assoc. cbn [app].
    replace (len done_ + 1 + Z.min (len w) (i - 1)) with (len done_ + (1 + Z.min (len w) (i - 1))) by lia.
    replace (i - 1 - len w) with (i - (1 + len w)) by lia. done.
Qed.

(** The first bytes of the string and a zero: all of it, or as much as fits. *)
Lemma strncpy_spec dest pre w post n :
  Forall (fun c => c <> 0) w -> 0 < n < 2 ^ 31 -> n <= len dest ->
  let m := Z.to_nat (Z.min (len w) (n - 1)) in
  MPIU_Strncpy dest (pre ++ w ++ 0 :: post) (len pre) n =
  Ok (take m w ++ 0 :: drop (S m) dest, if len w <? n then 0 else 1).
Proof.
  intros Hw Hn Hd m. unfold MPIU_Strncpy. rewrite (proj2 (Z.eqb_neq n 0)), i32_small by lia.
  pose proof (copy_spec w (S (length (pre ++ w ++ 0 :: post))) pre post [] dest n Hw) as E.
  change (len []) with 0 in E. cbn [app] in E.
  rewrite E by (rewrite ?length_app; lia). clear E. cbv zeta. cbn [mbind result_bind].
  rewrite Z.add_0_l. pose proof (len_nonneg w).
  destruct (Z.lt_ge_cases (len w) n) as [Hlt|Hge].
  - rewrite (proj2 (Z.leb_le _ _)), !(proj2 (Z.ltb_lt _ _)) by lia.
    rewrite Z.min_l by lia. unfold m. rewrite Z.min_l by lia.
    assert (take (Z.to_nat (len w)) w = w) as -> by (apply take_ge; unfold len; lia).
    destruct (drop (Z.to_nat (len w)) dest) as [|c rest] eqn:Er.
    { exfalso. pose proof (length_drop dest (Z.to_nat (len w))) as El. rewrite Er in El.
      cbn in El. unfold len in *. lia. }
    rewrite aset_mid. cbn [mbind result_bind].
    assert (drop (S (Z.to_nat (len w))) dest = rest) as ->; [|done].
    replace (S (Z.to_nat (len w))) with (Z.to_nat (len w) + 1)%nat by lia.
    by rewrite <- drop_drop, Er.
  - assert ((0 <? (if len w <=? n then n - len w else -1)) = false) as ->.
    { apply Z.ltb_ge. case_zbool; lia. }
    rewrite (proj2 (Z.ltb_ge _ _)) by lia. rewrite Z.min_r by lia. unfold m. rewrite Z.min_r by lia.
    set (k := Z.to_nat (n - 1)). replace (Z.to_nat n) with (S k) by lia.
    destruct (lookup_lt_is_Some_2 w k) as [c Hc]; [unfold len in *; lia|].
    rewrite (take_S_r _ _ _ Hc), <- app_assoc. cbn [app].
    assert (n - 1 = len (take k w)) as ->.
    { unfold len. rewrite length_take. unfold len in *. lia. }
    by rewrite aset_mid.
Qed.

(** ** Key-value messages *)

Definition no_zero (l : list Z) : Prop := Forall (fun c => c <> 0) l.
Definition key_ok (k : list Z) : Prop :=
  k <> [] /\ Forall (fun c => key_end c = false) k /\ len k < MAXKEYLEN.
Definition chars_ok (v : list Z) : Prop := Forall (fun c => value_end c = false) v.
Definition pair_ok (kv : list Z * list Z) : Prop :=
  key_ok kv.1 /\ chars_ok kv.2 /\ len kv.2 < MAXVALLEN.

(** [key=value key=value], and a newline. *)
Fixpoint message (kvs : list (list Z * list Z)) : list Z :=
  match kvs with
  | [] => [NEWLINE]
  | kv :: kvs =>
      kv.1 ++ [EQUALS] ++ kv.2 ++ match kvs with [] => [NEWLINE] | _ => SPACE :: message kvs end
  end.

Definition entry_wf (e : PMIU_keyval_pairs) : Prop :=
  len (key e) = MAXKEYLEN /\ len (value e) = MAXVALLEN.
Definition tab_wf (t : keyval_tab) : Prop :=
  length (PMIU_keyval_tab t) = Z.to_nat KEYVAL_TAB_SIZE /\ Forall entry_wf (PMIU_keyval_tab t).

(** The entry holds the pair. *)
Definition holds (e : PMIU_keyval_pairs) (kv : list Z * list Z) : Prop :=
  cstr (key e) = Ok kv.1 /\ exists post, value e = kv.2 ++ 0 :: post.

Lemma key_end_chars k : Forall (fun c => key_end c = false) k ->
  no_zero k /\ Forall (fun c => not_space c = true) k.
Proof.
  intros H. split; (eapply Forall_impl; [exact H|]); intros c Hc; unfold key_end in Hc;
    apply orb_false_iff in Hc as [Hc H0]; apply orb_false_iff in Hc as [Hc _];
    apply orb_false_iff in Hc as [Hs _].
  - by apply Z.eqb_neq.
  - unfold not_space. by rewrite Hs.
Qed.

Lemma value_end_chars v : chars_ok v -> no_zero v.
Proof.
  intros H. eapply Forall_impl; [exact H|]. intros c Hc. unfold value_end in Hc.
  apply orb_false_iff in Hc as [_ Hc]. by apply Z.eqb_neq.
Qed.

Lemma message_no_zero kvs : Forall pair_ok kvs -> no_zero (message kvs).
Proof.
  induction 1 as [|kv kvs ((_ & Hk & _) & Hv & _) Hkvs IH]; cbn [message].
  - by apply Forall_singleton.
  - apply Forall_app. split; [by apply key_end_chars|]. apply Forall_cons. split; [done|].
    apply Forall_app. split; [by apply value_end_chars|].
    destruct kvs; [by apply Forall_singleton|]. by apply Forall_cons.
Qed.

Lemma insert_after v a : take (length v) a = v -> len v < len a ->
  aset a (len v) 0 = Ok (v ++ 0 :: drop (S (length v)) a).
Proof.
  intros Ht Hl. destruct (drop (length v) a) as [|c r] eqn:Er.
  { exfalso. pose proof (length_drop a (length v)) as E. rewrite Er in E. cbn in E.
    unfold len in Hl. lia. }
  assert (a = v ++ c :: r) as -> by (rewrite <- (take_drop (length v) a), Ht, Er; done).
  rewrite aset_mid. do 2 f_equal. replace (S (length v)) with (length (v ++ [c]))
    by (rewrite length_app; cbn; lia). replace (v ++ c :: r) with ((v ++ [c]) ++ r)
    by (by rewrite <- app_assoc). by rewrite drop_app_length.
Qed.

(** One pair into the table, from the bytes [k 0 v tail 0]. *)
Lemma store_spec pre k v tail post t : tab_wf t -> no_zero k -> no_zero (v ++ tail) ->
  len k < MAXKEYLEN -> len v < MAXVALLEN ->
  0 <= PMIU_keyval_tab_idx t < KEYVAL_TAB_SIZE ->
  exists e, store_pair (pre ++ k ++ 0 :: (v ++ tail) ++ 0 :: post) (len pre) (len pre + len k + 1)
      (len pre + len k + 1 + len v) t =
    Ok (Tab (<[Z.to_nat (PMIU_keyval_tab_idx t) := e]> (PMIU_keyval_tab t))
          (PMIU_keyval_tab_idx t + 1)) /\
    entry_wf e /\ holds e (k, v).
Proof.
  intros [Hlen Hwf] Hk Hv Hkl Hvl Hi. unfold store_pair.
  destruct (aget_in (PMIU_keyval_tab t) (PMIU_keyval_tab_idx t)) as (e & Ee & Hl);
    [unfold KEYVAL_TAB_SIZE in *; lia|].
  rewrite Ee. cbn [mbind result_bind].
  destruct (proj1 (Forall_lookup _ _) Hwf _ _ Hl) as [Hek Hev].
  rewrite (strncpy_spec (key e) pre k) by (done || (rewrite ?Hek; unfold MAXKEYLEN in *; lia)).
  cbn [mbind result_bind].
  replace (pre ++ k ++ 0 :: (v ++ tail) ++ 0 :: post)
    with ((pre ++ k ++ [0]) ++ (v ++ tail) ++ 0 :: post) by (by rewrite <- !app_assoc).
  replace (len pre + len k + 1) with (len (pre ++ k ++ [0]))
    by (rewrite !len_app; change (len [0]) with 1; lia).
  rewrite (strncpy_spec (value e) (pre ++ k ++ [0]) (v ++ tail))
    by (done || (rewrite ?Hev; unfold MAXVALLEN in *; lia)).
  cbn [mbind result_bind]. set (m := Z.to_nat (Z.min (len (v ++ tail)) (MAXVALLEN - 1))).
  assert (length v <= m <= length (v ++ tail))%nat as Hm.
  { unfold m. rewrite len_app. unfold len, MAXVALLEN in *. rewrite length_app. lia. }
  assert (m < 1024)%nat as Hm' by (unfold m, MAXVALLEN; lia).
  set (a := take m (v ++ tail) ++ 0 :: drop (S m) (value e)).
  assert (len a = MAXVALLEN) as Ha.
  { unfold a, len. rewrite length_app, length_take. cbn [length]. rewrite length_drop.
    unfold len, MAXVALLEN in *. lia. }
  assert (take (length v) a = v) as Hta.
  { unfold a. rewrite take_app_le by (rewrite length_take; lia).
    rewrite take_take, Nat.min_l by lia. by rewrite take_app_length. }
  replace (len (pre ++ k ++ [0]) + len v - len (pre ++ k ++ [0])) with (len v) by lia.
  rewrite i32_small by (pose proof (len_nonneg v); unfold MAXVALLEN in *; lia).
  rewrite (insert_after v a Hta) by lia. cbn [mbind result_bind].
  rewrite aset_in by (unfold KEYVAL_TAB_SIZE in *; lia). cbn [mbind result_bind].
  eexists. split; [done|]. split; [split; cbn [key value]|split; cbn [key value fst snd]].
  - unfold len. rewrite length_app, length_take. cbn [length]. rewrite length_drop.
    unfold len, MAXKEYLEN in *. lia.
  - unfold len in *. rewrite length_app. cbn [length]. rewrite length_drop. lia.
  - rewrite take_ge by (unfold len, MAXKEYLEN in *; lia). by apply cstr_app.
  - eauto.
Qed.

(** ** The loop *)

Definition spaces (sp : list Z) : Prop := Forall (fun c => not_space c = false) sp.

Lemma scan_from stop st pre w c post p :
  st = pre ++ w ++ c :: post -> p = len pre ->
  Forall (fun c => stop c = false) w -> stop c = true ->
  scan (S (length st)) stop st p = Ok (len pre + len w).
Proof.
  intros -> -> Hw Hc. apply scan_spec; [done|done|]. rewrite length_app, length_app. cbn. lia.
Qed.

Lemma aget_from st p pre c post : st = pre ++ c :: post -> p = len pre -> aget st p = Ok c.
Proof. intros -> ->. apply aget_mid. Qed.

(** One round: the pair [k=v] followed by [c]. *)
Lemma parse_step fuel pre sp k v c tail t : spaces sp -> key_ok k -> chars_ok v ->
  value_end c = true -> c <> 0 ->
  let st' := (pre ++ sp) ++ k ++ 0 :: v ++ c :: tail in
  let start := len (pre ++ sp) in
  parse_loop (S fuel) (pre ++ sp ++ k ++ [EQUALS] ++ v ++ c :: tail) (len pre) t =
  t ← store_pair st' start (start + len k + 1) (start + len k + 1 + len v) t;
  if c =? SPACE then parse_loop fuel st' (start + len k + 1 + len v) t else Ok (0, st', t).
Proof.
  intros Hsp (Hk0 & Hk & _) Hv Hc Hc0 st' start. cbn [parse_loop].
  destruct (key_end_chars k Hk) as [Hkz Hkn].
  assert (exists c0 k0, k = c0 :: k0) as (c0 & k0 & Ek) by (destruct k; [done|eauto]).
  assert (not_space c0 = true) as Hn0 by (rewrite Ek in Hkn; by apply Forall_cons in Hkn as [? _]).
  rewrite (scan_from not_space _ pre sp c0 (k0 ++ [EQUALS] ++ v ++ c :: tail) (len pre))
    by (done || by rewrite Ek).
  cbn [mbind result_bind]. rewrite <- len_app. fold start.
  rewrite (aget_from _ start (pre ++ sp) c0 (k0 ++ [EQUALS] ++ v ++ c :: tail))
    by (done || by rewrite Ek, <- app_assoc).
  cbn [mbind result_bind].
  assert (key_end c0 = false) as Hc0e by (rewrite Ek in Hk; by apply Forall_cons in Hk as [? _]).
  unfold key_end in Hc0e. apply orb_false_iff in Hc0e as [Hc0e Hz].
  apply orb_false_iff in Hc0e as [Hc0e Hnl]. apply orb_false_iff in Hc0e as [_ Heq].
  rewrite Heq, Hnl, Hz. cbn [orb].
  rewrite (scan_from key_end _ (pre ++ sp) k EQUALS (v ++ c :: tail) start)
    by (done || by rewrite <- !app_assoc).
  cbn [mbind result_bind]. fold start.
  assert (start + len k = len ((pre ++ sp) ++ k)) as Ep by (rewrite (len_app (pre ++ sp)); done).
  rewrite (aget_from _ (start + len k) ((pre ++ sp) ++ k) EQUALS (v ++ c :: tail))
    by (done || by rewrite <- !app_assoc).
  cbn [mbind result_bind Z.eqb orb EQUALS SPACE NEWLINE Pos.eqb].
  replace (pre ++ sp ++ k ++ [EQUALS] ++ v ++ c :: tail)
    with (((pre ++ sp) ++ k) ++ EQUALS :: v ++ c :: tail) by (by rewrite <- !app_assoc).
  rewrite Ep, aset_mid. cbn [mbind result_bind].
  replace (((pre ++ sp) ++ k) ++ 0 :: v ++ c :: tail) with st'
    by (unfold st'; by rewrite <- !app_assoc).
  assert (len ((pre ++ sp) ++ k) + 1 = len (((pre ++ sp) ++ k) ++ [0])) as Ep1
    by (rewrite (len_app _ [0]); done).
  rewrite (scan_from value_end st' (((pre ++ sp) ++ k) ++ [0]) v c tail)
    by (done || (unfold st'; by rewrite <- !app_assoc)).
  cbn [mbind result_bind]. rewrite <- Ep1, <- Ep.
  destruct (store_pair st' start (start + len k + 1) (start + len k + 1 + len v) t); [|done].
  cbn [mbind result_bind].
  rewrite (aget_from st' _ ((((pre ++ sp) ++ k) ++ [0]) ++ v) c tail).
  - done.
  - unfold st'. by rewrite <- !app_assoc.
  - rewrite (len_app _ v), <- Ep1, <- Ep. lia.
Qed.

Lemma message_step fuel pre sp kv kvs post t : spaces sp -> Forall pair_ok (kv :: kvs) ->
  exists c tail,
    parse_loop (S fuel) (pre ++ sp ++ message (kv :: kvs) ++ 0 :: post) (len pre) t =
    (let st' := (pre ++ sp) ++ kv.1 ++ 0 :: (kv.2 ++ c :: tail) ++ 0 :: post in
     let start := len (pre ++ sp) in
     t ← store_pair st' start (start + len kv.1 + 1) (start + len kv.1 + 1 + len kv.2) t;
     if c =? SPACE
     then parse_loop fuel (((pre ++ sp) ++ kv.1 ++ 0 :: kv.2) ++ [SPACE] ++ message kvs ++ 0 :: post)
            (len ((pre ++ sp) ++ kv.1 ++ 0 :: kv.2)) t
     else Ok (0, st', t)) /\
    no_zero (kv.2 ++ c :: tail) /\ (c =? SPACE) = negb (bool_decide (kvs = [])).
Proof.
  intros Hsp Hall. pose proof (message_no_zero _ Hall) as Hnz.
  apply Forall_cons in Hall as [(Hk & Hv & _) Hall].
  pose proof (value_end_chars _ Hv) as Hvz.
  assert (forall c tail, value_end c = true -> c <> 0 -> no_zero (c :: tail) ->
    (c = SPACE -> tail = message kvs) -> message (kv :: kvs) = kv.1 ++ [EQUALS] ++ kv.2 ++ c :: tail ->
    parse_loop (S fuel) (pre ++ sp ++ message (kv :: kvs) ++ 0 :: post) (len pre) t =
    (let st' := (pre ++ sp) ++ kv.1 ++ 0 :: (kv.2 ++ c :: tail) ++ 0 :: post in
     let start := len (pre ++ sp) in
     t ← store_pair st' start (start + len kv.1 + 1) (start + len kv.1 + 1 + len kv.2) t;
     if c =? SPACE
     then parse_loop fuel (((pre ++ sp) ++ kv.1 ++ 0 :: kv.2) ++ [SPACE] ++ message kvs ++ 0 :: post)
            (len ((pre ++ sp) ++ kv.1 ++ 0 :: kv.2)) t
     else Ok (0, st', t))) as H.
  { intros c tail Hc Hc0 _ Ht ->.
    replace (pre ++ sp ++ (kv.1 ++ [EQUALS] ++ kv.2 ++ c :: tail) ++ 0 :: post)
      with (pre ++ sp ++ kv.1 ++ [EQUALS] ++ kv.2 ++ c :: (tail ++ 0 :: post))
      by list_assoc.
    rewrite parse_step by done. cbv zeta.
    replace ((kv.2 ++ c :: tail) ++ 0 :: post) with (kv.2 ++ c :: tail ++ 0 :: post)
      by list_assoc.
    destruct (store_pair _ _ _ _ t); [|done]. cbn [mbind result_bind].
    destruct (Z.eqb_spec c SPACE) as [->|]; [|done]. rewrite Ht by done. f_equal.
    - list_assoc.
    - rewrite (len_app (pre ++ sp) (kv.1 ++ 0 :: kv.2)), (len_app kv.1), len_cons. lia. }
  destruct kvs as [|kv' kvs'] eqn:Ek.
  - exists NEWLINE, []. split; [apply H; try done; by apply Forall_singleton|]. split; [|done].
    apply Forall_app. split; [done|]. by apply Forall_singleton.
  - rewrite <- Ek in *. exists SPACE, (message kvs).
    assert (no_zero (SPACE :: message kvs)) as Hz.
    { apply Forall_cons. split; [done|]. by apply message_no_zero. }
    split; [apply H; try done; rewrite Ek; done|]. split; [by apply Forall_app|].
    rewrite Ek. done.
Qed.

(** All pairs of the message are in the table, in order, behind those before. *)
Lemma parse_spec kvs : forall fuel pre sp post t,
  spaces sp -> Forall pair_ok kvs -> tab_wf t -> 0 <= PMIU_keyval_tab_idx t ->
  PMIU_keyval_tab_idx t + Z.of_nat (length kvs) <= KEYVAL_TAB_SIZE -> (length kvs < fuel)%nat ->
  exists st' t', parse_loop fuel (pre ++ sp ++ message kvs ++ 0 :: post) (len pre) t = Ok (0, st', t') /\
    tab_wf t' /\ PMIU_keyval_tab_idx t' = PMIU_keyval_tab_idx t + Z.of_nat (length kvs) /\
    (forall j, (j < Z.to_nat (PMIU_keyval_tab_idx t))%nat ->
       PMIU_keyval_tab t' !! j = PMIU_keyval_tab t !! j) /\
    (forall j kv, kvs !! j = Some kv ->
       exists e, PMIU_keyval_tab t' !! (Z.to_nat (PMIU_keyval_tab_idx t) + j)%nat = Some e /\ holds e kv).
Proof.
  induction kvs as [|kv kvs IH]; intros fuel pre sp post t Hsp Hall Hwf H0 Hidx Hf;
    (destruct fuel as [|fuel]; [lia|]).
  - cbn [parse_loop message]. rewrite (scan_from not_space _ pre sp NEWLINE (0 :: post)) by done.
    cbn [mbind result_bind]. rewrite <- len_app.
    rewrite (aget_from _ _ (pre ++ sp) NEWLINE (0 :: post)) by (done || by rewrite <- app_assoc).
    cbn. eexists _, t. split; [done|]. split; [done|]. split; [lia|]. done.
  - destruct (message_step fuel pre sp kv kvs post t Hsp Hall) as (c & tail & E0 & Hz & Hc).
    rewrite E0. cbv zeta. cbn [length] in Hidx, Hf.
    pose proof (proj1 (Forall_cons _ _ _) Hall) as [((_ & Hk & Hkl) & Hv & Hvl) Hall'].
    destruct (store_spec (pre ++ sp) kv.1 kv.2 (c :: tail) post t) as (e & -> & He & Hh);
      try done; [by apply key_end_chars|lia|]. cbn [mbind result_bind]. rewrite Hc.
    set (t1 := Tab _ _).
    assert (tab_wf t1) as Hwf1.
    { destruct Hwf as [Hl Hw]. split; cbn [t1 PMIU_keyval_tab]; [by rewrite length_insert|].
      by apply Forall_insert. }
    assert (Z.to_nat (PMIU_keyval_tab_idx t) < length (PMIU_keyval_tab t))%nat as Hlt.
    { destruct Hwf as [Hl _]. rewrite Hl. lia. }
    destruct (bool_decide (kvs = [])) eqn:Ekv; cbn [negb].
    + apply bool_decide_eq_true in Ekv as ->. eexists _, t1. split; [done|]. split; [done|].
      split; [cbn; lia|]. split.
      * intros j Hj. cbn. apply list_lookup_insert_ne. lia.
      * intros [|j] kv' Hkv'; [|done]. injection Hkv' as <-. exists e. split; [|by destruct kv].
        rewrite Nat.add_0_r. by apply list_lookup_insert_eq.
    + destruct (IH fuel ((pre ++ sp) ++ kv.1 ++ 0 :: kv.2) [SPACE] post t1) as
        (st' & t' & E & W & I & L & G); try done; [by apply Forall_singleton|cbn; lia|cbn; lia|lia|].
      exists st', t'. split; [exact E|]. split; [done|]. cbn [PMIU_keyval_tab_idx t1] in *.
      split; [rewrite I; cbn [length]; lia|].
      replace (Z.to_nat (PMIU_keyval_tab_idx t + 1)) with (S (Z.to_nat (PMIU_keyval_tab_idx t)))
        in L, G by lia. split.
      * intros j Hj. rewrite L by lia. cbn. apply list_lookup_insert_ne. lia.
      * intros [|j] kv' Hkv'.
        -- injection Hkv' as <-. exists e. rewrite Nat.add_0_r, L by lia.
           split; [|by destruct kv]. by apply list_lookup_insert_eq.
        -- destruct (G j kv' Hkv') as (e' & E' & H'). exists e'. split; [|done].
           rewrite <- E'. f_equal. lia.
Qed.

(** One pair too many is stored behind the table. *)
Lemma parse_overflow kvs : forall fuel pre sp post t,
  spaces sp -> Forall pair_ok kvs -> tab_wf t ->
  0 <= PMIU_keyval_tab_idx t <= KEYVAL_TAB_SIZE ->
  KEYVAL_TAB_SIZE < PMIU_keyval_tab_idx t + Z.of_nat (length kvs) -> (length kvs < fuel)%nat ->
  parse_loop fuel (pre ++ sp ++ message kvs ++ 0 :: post) (len pre) t = Err OutOfBounds.
Proof.
  induction kvs as [|kv kvs IH]; intros fuel pre sp post t Hsp Hall Hwf H0 Hidx Hf;
    (destruct fuel as [|fuel]; [cbn in Hf; lia|]); cbn [length] in Hidx, Hf; [lia|].
  destruct (message_step fuel pre sp kv kvs post t Hsp Hall) as (c & tail & E0 & Hz & Hc).
  rewrite E0. cbv zeta. pose proof (proj1 (Forall_cons _ _ _) Hall) as [((_ & Hk & Hkl) & Hv & Hvl) Hall'].
  destruct (decide (PMIU_keyval_tab_idx t = KEYVAL_TAB_SIZE)) as [Ei|].
  { unfold store_pair. rewrite aget_out; [done|]. right. destruct Hwf as [-> _]. lia. }
  destruct (store_spec (pre ++ sp) kv.1 kv.2 (c :: tail) post t) as (e & -> & He & Hh);
    try done; [by apply key_end_chars|lia|]. cbn [mbind result_bind]. rewrite Hc.
  rewrite bool_decide_eq_false_2 by (intros ->; cbn in Hidx; lia). cbn [negb].
  apply (IH fuel ((pre ++ sp) ++ kv.1 ++ 0 :: kv.2) [SPACE]); try done; cbn; [by apply Forall_singleton| |lia|lia|lia].
  destruct Hwf as [Hl Hw]. split; cbn [PMIU_keyval_tab]; [by rewrite length_insert|].
  by apply Forall_insert.
Qed.

(** ** Looking keys up *)

(** The value of the first pair with the key. *)
Fixpoint lookup_kv (k : list Z) (kvs : list (list Z * list Z)) : option (list Z) :=
  match kvs with
  | [] => None
  | kv :: kvs => if decide (kv.1 = k) then Some kv.2 else lookup_kv k kvs
  end.

Lemma find_key_spec k kvs t : forall i,
  (forall j kv, kvs !! j = Some kv ->
     exists e, PMIU_keyval_tab t !! (i + j)%nat = Some e /\ holds e kv) ->
  match lookup_kv k kvs with
  | None => find_key (length kvs) k (Z.of_nat i) t = Ok None
  | Some v => exists j e, find_key (length kvs) k (Z.of_nat i) t = Ok (Some j) /\
      aget (PMIU_keyval_tab t) j = Ok e /\ exists post, value e = v ++ 0 :: post
  end.
Proof.
  induction kvs as [|kv kvs IH]; intros i Hh; [done|]. cbn [lookup_kv length find_key].
  destruct (Hh 0%nat kv eq_refl) as (e & Ee & Hk & Hv). rewrite Nat.add_0_r in Ee.
  assert (aget (PMIU_keyval_tab t) (Z.of_nat i) = Ok e) as Ea.
  { apply aget_ok. split; [lia|]. by rewrite Nat2Z.id. }
  rewrite Ea. cbn [mbind result_bind]. rewrite Hk. cbn [mbind result_bind].
  case_decide; [eauto 10|].
  replace (Z.of_nat i + 1) with (Z.of_nat (S i)) by lia. apply IH.
  intros j kv' Hj. destruct (Hh (S j) kv' Hj) as (e' & Ee' & H'). exists e'.
  split; [|done]. rewrite <- Ee'. f_equal. lia.
Qed.

Lemma message_fuel kvs (post : list Z) : (length kvs < S (length (message kvs ++ 0%Z :: post)))%nat.
Proof.
  rewrite length_app. enough (length kvs <= length (message kvs))%nat by lia.
  induction kvs as [|kv kvs IH]; [cbn; lia|]. cbn [message length].
  rewrite !length_app. destruct kvs; cbn [length] in *; lia.
Qed.

(** The pairs are in the table for PMIU_getval: the first of each key. *)
Definition table_gives (t : keyval_tab) (kvs : list (list Z * list Z)) : Prop :=
  forall k kpost valstr vallen, no_zero k -> 0 < vallen < 2 ^ 31 -> vallen <= len valstr ->
    match lookup_kv k kvs with
    | Some v => no_zero v -> len v < vallen -> exists out,
        PMIU_getval (k ++ 0 :: kpost) valstr vallen t = Ok (out, true) /\ cstr out = Ok v /\
        len out = len valstr
    | None => exists out,
        PMIU_getval (k ++ 0 :: kpost) valstr vallen t = Ok (out, false) /\ cstr out = Ok [] /\
        len out = len valstr
    end.

Lemma parse_keyvals_run kvs post t : Forall pair_ok kvs -> tab_wf t ->
  Z.of_nat (length kvs) <= KEYVAL_TAB_SIZE ->
  exists st' t', PMIU_parse_keyvals (Some (message kvs ++ 0 :: post)) t = Ok (0, st', t') /\
    tab_wf t' /\ table_gives t' kvs.
Proof.
  intros Hall Hwf Hn. pose proof (message_fuel kvs post) as Hf.
  assert (tab_wf (Tab (PMIU_keyval_tab t) 0)) as Hwf0 by (by destruct Hwf).
  destruct (parse_spec kvs (S (length (message kvs ++ 0 :: post))) [] [] post
    (Tab (PMIU_keyval_tab t) 0)) as (st' & t' & E & W & I & _ & G);
    first [by apply Forall_nil|done|cbn [PMIU_keyval_tab_idx]; lia|idtac].
  exists st', t'. split; [exact E|]. split; [done|].
  intros k kpost valstr vallen Hk Hvl Hlen. unfold PMIU_getval.
  rewrite cstr_app by done. cbn [mbind result_bind]. cbn [PMIU_keyval_tab_idx] in I.
  rewrite Z.add_0_l in I. rewrite I, Nat2Z.id.
  pose proof (find_key_spec k kvs t' 0 G) as Hfind. change (Z.of_nat 0) with 0 in Hfind.
  destruct (lookup_kv k kvs) as [v|].
  - destruct Hfind as (j & e & -> & Ee & vpost & Ev). intros Hv Hvv. cbn [mbind result_bind].
    rewrite Ee. cbn [mbind result_bind]. rewrite Ev.
    pose proof (strncpy_spec valstr [] v vpost vallen Hv Hvl Hlen) as Es.
    change (len []) with 0 in Es. cbn [app] in Es. rewrite Es. cbn [mbind result_bind].
    rewrite (proj2 (Z.ltb_lt _ _)) by done. rewrite Z.min_l, take_ge by (unfold len in *; lia).
    eexists. split; [done|]. split; [by apply cstr_app|].
    rewrite len_app, len_cons. unfold len in *. rewrite length_drop. lia.
  - rewrite Hfind. cbn [mbind result_bind]. destruct valstr as [|c valstr].
    { unfold len in Hlen. cbn in Hlen. lia. }
    exists (0 :: valstr). pose proof (aset_mid [] c valstr 0) as Es.
    change (len []) with 0 in Es. cbn [app] in Es. rewrite Es. by rewrite !len_cons.
Qed.

(** C26: A message of at most 64 pairs is parsed into the table, and afterwards PMIU_getval gives
    for each key the value of its first pair, when the buffer has room for it, and NULL and
    an empty string for a key that is not in the message.  With more pairs the parser writes
    behind its table. *)
Theorem keyvals_roundtrip kvs post t :
  Forall pair_ok kvs -> tab_wf t ->
  (Z.of_nat (length kvs) <= KEYVAL_TAB_SIZE ->
   exists st' t', PMIU_parse_keyvals (Some (message kvs ++ 0 :: post)) t = Ok (0, st', t') /\
     tab_wf t' /\
     forall k kpost valstr vallen, no_zero k -> 0 < vallen < 2 ^ 31 -> vallen <= len valstr ->
       match lookup_kv k kvs with
       | Some v => no_zero v -> len v < vallen -> exists out,
           PMIU_getval (k ++ 0 :: kpost) valstr vallen t' = Ok (out, true) /\ cstr out = Ok v
       | None => exists out,
           PMIU_getval (k ++ 0 :: kpost) valstr vallen t' = Ok (out, false) /\ cstr out = Ok []
       end) /\
  (KEYVAL_TAB_SIZE < Z.of_nat (length kvs) ->
   PMIU_parse_keyvals (Some (message kvs ++ 0 :: post)) t = Err OutOfBounds).
Proof.
  intros Hall Hwf. split.
  - intros Hn. destruct (parse_keyvals_run kvs post t Hall Hwf Hn) as (st' & t' & E & W & G).
    exists st', t'. split; [exact E|]. split; [done|]. intros k kpost valstr vallen Hk Hvl Hlen.
    specialize (G k kpost valstr vallen Hk Hvl Hlen). destruct (lookup_kv k kvs) as [v|].
    + intros Hv Hvv. destruct (G Hv Hvv) as (out & E' & Hc & _). eauto.
    + destruct G as (out & E' & Hc & _). eauto.
  - intros Hn. pose proof (message_fuel kvs post). apply (parse_overflow kvs _ [] [] post);
      first [by apply Forall_nil|done|cbn; lia|by destruct Hwf].
Qed.

(** "cmd=put x=" and the table the library starts with. *)
Definition demo_kvs : list (list Z * list Z) :=
  [([99; 109; 100], [112; 117; 116]); ([120], []); ([99; 109; 100], [121])].

Lemma keyvals_roundtrip_witness :
  exists st' t', PMIU_parse_keyvals (Some (message demo_kvs ++ [0])) keyval_tab0 = Ok (0, st', t') /\
    (exists out, PMIU_getval [99; 109; 100; 0] (replicate 8 7) 8 t' = Ok (out, true) /\
       cstr out = Ok [112; 117; 116]) /\
    (exists out, PMIU_getval [121; 0] (replicate 8 7) 8 t' = Ok (out, false) /\ cstr out = Ok []).
Proof.
  assert (Forall pair_ok demo_kvs) as Hall.
  { unfold demo_kvs, pair_ok, key_ok, chars_ok.
    repeat (apply Forall_cons; split); try apply Forall_nil; cbn [fst snd];
      repeat split; try done; repeat (apply Forall_cons; split); try apply Forall_nil; try done. }
  assert (tab_wf keyval_tab0) as Hwf.
  { split; [done|]. apply Forall_replicate. split; reflexivity. }
  destruct (proj1 (keyvals_roundtrip demo_kvs [] keyval_tab0 Hall Hwf)) as (st' & t' & E & _ & G);
    [unfold KEYVAL_TAB_SIZE; cbn; lia|].
  exists st', t'. split; [exact E|]. split.
  - apply (G [99; 109; 100] [] (replicate 8 7) 8); try (unfold len; cbn; lia);
      unfold no_zero; repeat (apply Forall_cons; split); try apply Forall_nil; done.
  - apply (G [121] [] (replicate 8 7) 8); try (unfold len; cbn; lia).
    unfold no_zero; repeat (apply Forall_cons; split); try apply Forall_nil; done.
Defined.

(** ** Lines *)

(** The bytes the reads deliver before the first one that has none. *)
Fixpoint data_of (rs : list read_result) : list Z :=
  match rs with
  | ReadData (c :: l) :: rs => (c :: l) ++ data_of rs
  | ReadEintr :: rs => data_of rs
  | _ => []
  end.
Definition bytes (s : read_state) : list Z := unread s ++ data_of (reads s).

Lemma next_read_data rs c l : data_of rs = c :: l ->
  exists l1 rs', next_read rs = Ok (ReadData (c :: l1), rs') /\ c :: l = (c :: l1) ++ data_of rs'.
Proof.
  induction rs as [|r rs IH]; [done|]. destruct r as [[|c' l1]| | |]; try done.
  cbn. intros E. injection E as -> <-. eauto.
Qed.

(** With a byte to come, [refill] and [next_char] deliver it. *)
Lemma refill_char fd curlen s c l : bytes s = c :: l -> unread s = [] \/ lastfd s = fd ->
  exists s', (refill fd curlen ≫= fun o =>
      match o with Some _ => st_fail Spin | None => next_char end) s = Ok (c, s') /\
    bytes s' = l /\ lastfd s' = fd /\ exists s1, refill fd curlen s = Ok (None, s1) /\
    next_char s1 = Ok (c, s').
Proof.
  unfold bytes. intros E Hfd. destruct s as [u lf rs]. destruct u as [|c' u]; cbn in E.
  - destruct (next_read_data rs c l E) as (l1 & rs' & Er & El).
    exists (ReadState l1 fd rs'). unfold mbind, ST_bind, refill. cbn [unread reads]. rewrite Er.
    cbn. split; [done|]. split; [by injection El|]. eauto.
  - injection E as -> <-. destruct Hfd as [|Hfd]; [done|]. cbn in Hfd.
    exists (ReadState u lf rs). unfold mbind, ST_bind, refill. cbn. eauto 10.
Qed.

Lemma readline_loop_spec l : forall n fd d r s c rest,
  bytes s = l ++ c :: rest -> Forall (fun c => c <> NEWLINE) l ->
  (length l < n)%nat -> c = NEWLINE \/ n = S (length l) -> unread s = [] \/ lastfd s = fd ->
  (length l < length r)%nat ->
  exists s', readline_loop n fd (d ++ r) (len d) (1 + len d) s =
      Ok ((d ++ l ++ c :: drop (S (length l)) r, len d + len l + 1, 1 + len d + len l + 1), s') /\
    bytes s' = rest /\ lastfd s' = fd.
Proof.
  induction l as [|x l IH]; intros n fd d r s c rest E Hl Hn Hc Hfd Hr;
    (destruct n as [|n]; [cbn in Hn; lia|]); cbn [readline_loop app] in *;
    (destruct r as [|y r]; [cbn in Hr; lia|]).
  - destruct (refill_char fd (1 + len d) s c rest E Hfd) as (s' & _ & Hb & Hf & s1 & E1 & E2).
    rewrite (st_bind_run _ _ _ _ _ E1), (st_bind_run _ _ _ _ _ E2). rewrite aset_mid.
    erewrite st_bind_run by reflexivity. exists s'. split; [|done].
    change (len []) with 0. rewrite !Z.add_0_r. cbn [drop length].
    destruct (Z.eqb_spec c NEWLINE); [done|]. destruct Hc as [|Hc]; [done|].
    injection Hc as ->. done.
  - apply Forall_cons in Hl as [Hx Hl].
    destruct (refill_char fd (1 + len d) s x _ E Hfd) as (s' & _ & Hb & Hf & s1 & E1 & E2).
    rewrite (st_bind_run _ _ _ _ _ E1), (st_bind_run _ _ _ _ _ E2). rewrite aset_mid.
    erewrite st_bind_run by reflexivity. rewrite (proj2 (Z.eqb_neq x NEWLINE)) by done.
    destruct (IH n fd (d ++ [x]) r s' c rest) as (s2 & E3 & Hb2 & Hf2); try done.
    { cbn in Hn. lia. } { destruct Hc as [|Hc]; [by left|right]. cbn in Hc. lia. }
    { by right. } { cbn in Hr. lia. }
    exists s2. split; [|done]. rewrite len_app in E3. change (len [x]) with 1 in E3.
    rewrite <- !app_assoc in E3. cbn [app] in E3. rewrite len_cons. cbn [drop length].
    replace (1 + len d + 1) with (1 + (len d + 1)) by lia. rewrite E3.
    replace (len d + 1 + len l + 1) with (len d + (1 + len l) + 1) by lia.
    by replace (1 + (len d + 1) + len l + 1) with (1 + len d + (1 + len l) + 1) by lia.
Qed.

Lemma readline_run fd buf maxlen s w c rest :
  unread s = [] \/ lastfd s = fd -> bytes s = w ++ c :: rest ->
  Forall (fun c => c <> NEWLINE) w -> c = NEWLINE \/ len w + 2 = maxlen ->
  len w + 2 <= maxlen <= len buf ->
  exists s', PMIU_readline fd buf maxlen s =
      Ok ((w ++ c :: 0 :: drop (S (S (length w))) buf, len w + 1), s') /\
    bytes s' = rest /\ lastfd s' = fd.
Proof.
  unfold PMIU_readline. rewrite (st_bind_run _ _ s s s) by done.
  intros Hfd E Hw Hc Hlen.
  assert (((match unread s with [] => false | _ => true end) && negb (fd =? lastfd s)) = false) as ->.
  { destruct Hfd as [->| ->]; [done|]. rewrite Z.eqb_refl. apply andb_false_r. }
  destruct (readline_loop_spec w (Z.to_nat (maxlen - 1)) fd [] buf s c rest) as
    (s' & E' & Hb & Hf); try done; [unfold len in *; lia| |unfold len in *; lia|].
  { destruct Hc as [|Hc]; [by left|right]. unfold len in *. lia. }
  change (len []) with 0 in E'. cbn [app] in E'. change (1 + 0) with 1 in E'.
  rewrite (st_bind_run _ _ _ _ _ E'). exists s'.
  destruct (drop (S (length w)) buf) as [|y r] eqn:Er.
  { exfalso. pose proof (length_drop buf (S (length w))) as El. rewrite Er in El. cbn in El.
    unfold len in *. lia. }
  replace (w ++ c :: y :: r) with ((w ++ [c]) ++ y :: r) by (by rewrite <- app_assoc).
  replace (0 + len w + 1) with (len (w ++ [c])) by (rewrite len_app; change (len [c]) with 1; lia).
  rewrite aset_mid. erewrite st_bind_run by reflexivity. split; [|done].
  assert (drop (S (S (length w))) buf = r) as ->.
  { replace (S (S (length w))) with (S (length w) + 1)%nat by lia. by rewrite <- drop_drop, Er. }
  rewrite <- app_assoc. unfold mret, ST_ret. cbn [app].
  by replace (1 + len w + 1 - 1) with (len w + 1) by lia.
Qed.

(** C29: PMIU_readline delivers the lines of what it reads, cut where the buffer is full, however
    the bytes come in pieces and however often a read is interrupted: [w] is a line, or the
    part of one that fits.  Another descriptor is refused while bytes are left. *)
Theorem readline_lines fd buf maxlen s w c rest :
  (unread s <> [] -> lastfd s <> fd -> PMIU_readline fd buf maxlen s = Ok ((buf, -1), s)) /\
  (unread s = [] \/ lastfd s = fd -> bytes s = w ++ c :: rest ->
   Forall (fun c => c <> NEWLINE) w -> c = NEWLINE \/ len w + 2 = maxlen ->
   len w + 2 <= maxlen <= len buf ->
   exists s', PMIU_readline fd buf maxlen s =
       Ok ((w ++ c :: 0 :: drop (S (S (length w))) buf, len w + 1), s') /\
     bytes s' = rest /\ lastfd s' = fd).
Proof.
  split; [|apply readline_run].
  intros Hu Hfd. unfold PMIU_readline. rewrite (st_bind_run _ _ s s s) by done.
  destruct (unread s) as [|x u]; [done|].
  by rewrite (proj2 (Z.eqb_neq fd (lastfd s))) by congruence.
Qed.

(** Two lines in three reads, the second of them interrupted. *)
Lemma readline_lines_witness :
  exists s', PMIU_readline 3 (replicate 6 7) 6
      (ReadState [] (-1) [ReadData [97]; ReadEintr; ReadData [98; 10; 99]; ReadData [10]]) =
    Ok (([97; 98; 10; 0; 7; 7], 3), s') /\ bytes s' = [99; 10] /\
    PMIU_readline 4 (replicate 6 7) 6 s' = Ok ((replicate 6 7, -1), s').
Proof.
  destruct (proj2 (readline_lines 3 (replicate 6 7) 6
    (ReadState [] (-1) [ReadData [97]; ReadEintr; ReadData [98; 10; 99]; ReadData [10]])
    [97; 98] 10 [99; 10])) as (s' & E & Hb & Hf);
    [by left|done|repeat (apply Forall_cons; split); try apply Forall_nil; done|by left|
     unfold len; cbn; lia|].
  exists s'. split; [exact E|]. split; [exact Hb|].
  assert (unread s' = [99]) as Hu by (vm_compute in E; injection E as <-; reflexivity).
  apply (proj1 (readline_lines 4 (replicate 6 7) 6 s' [] 0 [])); [by rewrite Hu|].
  rewrite Hf. discriminate.
Defined.
