(* ===== verification/Pmi.v ===== *)
(** * The process manager's client (pmi/simple_pmi.c, pm.c)

    As config.mk builds it, without USE_PMI_PORT.  What the process manager sends and what
    write() returns are in the state; the printed messages are left out. *)
From Stdlib Require Import String.
From stdpp Require Import gmap strings.
From S2P Require Import Prelude Text Config PmiUtil.

Definition PMI_SUCCESS : Z := 0.
Definition PMI_FAIL : Z := -1.
Definition PMI_ERR_INVALID_ARG : Z := 3.
Definition MPI_MAX_PORT_NAME : Z := 256.

(** PMIState *)
Definition PMI_UNINITIALIZED : Z := 0.
Definition SINGLETON_INIT_BUT_NO_PM : Z := 1.
Definition NORMAL_INIT_WITH_PM : Z := 2.

(** The static variables, the table of the utilities, and what is outside: the environment,
    the process id, the bytes to read, the results of write(), the lines written, and
    whether the connection is shut down. *)
Record pmi : Type := Pmi {
  PMI_fd : Z; PMI_size : Z; PMI_rank : Z; PMI_initialized : Z;
  PMI_kvsname_max : Z; PMI_keylen_max : Z; PMI_vallen_max : Z;
  PMI_debug : Z; PMI_spawned : Z;
  cached_singinit_key : list Z; cached_singinit_val : list Z;
  tab : keyval_tab;
  env : gmap string (list Z); pid : Z;
  rd : read_state; ws : list write_result; sent : list (list Z); down : bool }.

Notation PM := (ST pmi).

Definition set_fd x s := Pmi x (PMI_size s) (PMI_rank s) (PMI_initialized s) (PMI_kvsname_max s)
  (PMI_keylen_max s) (PMI_vallen_max s) (PMI_debug s) (PMI_spawned s) (cached_singinit_key s)
  (cached_singinit_val s) (tab s) (env s) (pid s) (rd s) (ws s) (sent s) (down s).
Definition set_group n r s := Pmi (PMI_fd s) n r (PMI_initialized s) (PMI_kvsname_max s)
  (PMI_keylen_max s) (PMI_vallen_max s) (PMI_debug s) (PMI_spawned s) (cached_singinit_key s)
  (cached_singinit_val s) (tab s) (env s) (pid s) (rd s) (ws s) (sent s) (down s).
Definition set_initialized x s := Pmi (PMI_fd s) (PMI_size s) (PMI_rank s) x (PMI_kvsname_max s)
  (PMI_keylen_max s) (PMI_vallen_max s) (PMI_debug s) (PMI_spawned s) (cached_singinit_key s)
  (cached_singinit_val s) (tab s) (env s) (pid s) (rd s) (ws s) (sent s) (down s).
Definition set_maxes a b c s := Pmi (PMI_fd s) (PMI_size s) (PMI_rank s) (PMI_initialized s) a b c
  (PMI_debug s) (PMI_spawned s) (cached_singinit_key s) (cached_singinit_val s) (tab s) (env s)
  (pid s) (rd s) (ws s) (sent s) (down s).
Definition set_debug x s := Pmi (PMI_fd s) (PMI_size s) (PMI_rank s) (PMI_initialized s)
  (PMI_kvsname_max s) (PMI_keylen_max s) (PMI_vallen_max s) x (PMI_spawned s)
  (cached_singinit_key s) (cached_singinit_val s) (tab s) (env s) (pid s) (rd s) (ws s) (sent s) (down s).
Definition set_spawned x s := Pmi (PMI_fd s) (PMI_size s) (PMI_rank s) (PMI_initialized s)
  (PMI_kvsname_max s) (PMI_keylen_max s) (PMI_vallen_max s) (PMI_debug s) x
  (cached_singinit_key s) (cached_singinit_val s) (tab s) (env s) (pid s) (rd s) (ws s) (sent s) (down s).
Definition set_cached k v s := Pmi (PMI_fd s) (PMI_size s) (PMI_rank s) (PMI_initialized s)
  (PMI_kvsname_max s) (PMI_keylen_max s) (PMI_vallen_max s) (PMI_debug s) (PMI_spawned s)
  k v (tab s) (env s) (pid s) (rd s) (ws s) (sent s) (down s).
Definition set_env f s := Pmi (PMI_fd s) (PMI_size s) (PMI_rank s) (PMI_initialized s)
  (PMI_kvsname_max s) (PMI_keylen_max s) (PMI_vallen_max s) (PMI_debug s) (PMI_spawned s)
  (cached_singinit_key s) (cached_singinit_val s) (tab s) (f (env s)) (pid s) (rd s) (ws s) (sent s) (down s).
Definition set_tab t s := Pmi (PMI_fd s) (PMI_size s) (PMI_rank s) (PMI_initialized s)
  (PMI_kvsname_max s) (PMI_keylen_max s) (PMI_vallen_max s) (PMI_debug s) (PMI_spawned s)
  (cached_singinit_key s) (cached_singinit_val s) t (env s) (pid s) (rd s) (ws s) (sent s) (down s).
Definition set_rd r s := Pmi (PMI_fd s) (PMI_size s) (PMI_rank s) (PMI_initialized s)
  (PMI_kvsname_max s) (PMI_keylen_max s) (PMI_vallen_max s) (PMI_debug s) (PMI_spawned s)
  (cached_singinit_key s) (cached_singinit_val s) (tab s) (env s) (pid s) r (ws s) (sent s) (down s).
Definition set_sent w l s := Pmi (PMI_fd s) (PMI_size s) (PMI_rank s) (PMI_initialized s)
  (PMI_kvsname_max s) (PMI_keylen_max s) (PMI_vallen_max s) (PMI_debug s) (PMI_spawned s)
  (cached_singinit_key s) (cached_singinit_val s) (tab s) (env s) (pid s) (rd s) w l (down s).
Definition set_down s := Pmi (PMI_fd s) (PMI_size s) (PMI_rank s) (PMI_initialized s)
  (PMI_kvsname_max s) (PMI_keylen_max s) (PMI_vallen_max s) (PMI_debug s) (PMI_spawned s)
  (cached_singinit_key s) (cached_singinit_val s) (tab s) (env s) (pid s) (rd s) (ws s) (sent s) true.

(** ** Buffers *)

(** [char a[n]]: its bytes have no value yet; zeros stand for them. *)
Definition chars (n : Z) : list Z := replicate (Z.to_nat n) 0.

(** snprintf of [text] into [buf] with size [n]: the text, cut to [n - 1] bytes, and a zero. *)
Definition snprintf (buf : list Z) (n : Z) (text : list Z) : result (list Z) :=
  let w := take (Z.to_nat (n - 1)) text in
  if Z.of_nat (length w) <? Z.of_nat (length buf)
  then Ok (w ++ 0 :: drop (S (length w)) buf) else Err OutOfBounds.

(** A literal, as an array, and one that ends in a newline. *)
Definition lit (s : string) : list Z := str s ++ [0].
Definition NL : list Z := [NEWLINE].
Definition line (s : string) : list Z := str s ++ NL ++ [0].

(** ** The utilities on the state *)

Definition pm_writeline (buf : list Z) : PM Z := fun s =>
  match PMIU_writeline buf (ws s) with
  | Ok (err, _, [], w) => Ok (err, set_sent w (sent s) s)
  | Ok (err, _, l, w) => Ok (err, set_sent w (sent s ++ [l]) s)
  | Err f => Err f
  end.
Definition pm_readline (buf : list Z) (maxlen : Z) : PM (list Z * Z) := fun s =>
  match PMIU_readline (PMI_fd s) buf maxlen (rd s) with
  | Ok (r, x) => Ok (r, set_rd x s)
  | Err f => Err f
  end.
Definition pm_parse (buf : list Z) : PM Z := fun s =>
  match PMIU_parse_keyvals (Some buf) (tab s) with
  | Ok (err, _, t) => Ok (err, set_tab t s)
  | Err f => Err f
  end.
Definition pm_getval (keystr : string) (valstr : list Z) (vallen : Z) : PM (list Z * bool) := fun s =>
  st_lift (PMIU_getval (lit keystr) valstr vallen (tab s)) s.

(** atoi of the string in an array *)
Definition atoi_of (a : list Z) : PM Z := l ← st_lift (cstr a); mret (atoi l).

(** ** Requests *)

Definition GetResponse (request : list Z) (expectedCmd : string) (checkRc : bool) : PM Z :=
  err ← pm_writeline request;
  if negb (err =? 0) then mret err
  else
    '(recvbuf, n) ← pm_readline (chars PMIU_MAXLINE) PMIU_MAXLINE;
    if n <=? 0 then mret PMI_FAIL
    else
      err ← pm_parse recvbuf;
      if negb (err =? 0) then mret err
      else
        '(cmdName, p) ← pm_getval "cmd" (chars PMIU_MAXLINE) PMIU_MAXLINE;
        if negb p then mret PMI_FAIL
        else
          c ← st_lift (cstr cmdName);
          if negb (bool_decide (str expectedCmd = c)) then mret PMI_FAIL
          else if checkRc then
            '(cmdName, p) ← pm_getval "rc" cmdName PMIU_MAXLINE;
            c ← st_lift (cstr cmdName);
            if p && negb (bool_decide (c = str "0")) then
              _ ← pm_getval "msg" cmdName PMIU_MAXLINE;
              mret PMI_FAIL
            else mret err
          else mret err.


Definition PMI_Abort (exit_code : Z) : PM Z :=
  buf ← st_lift (snprintf (chars PMIU_MAXLINE) PMIU_MAXLINE
          (str "cmd=abort exitcode=" ++ print_signed exit_code ++ NL));
  _ ← GetResponse buf EmptyString false;
  mret (-1).

(** ** Initialization *)

Definition getenv (name : string) : PM (option (list Z)) := st_get (fun s => env s !! name).

(** [if ((p = getenv(name))) atoi(p) else dflt] *)
Definition getenv_int (name : string) (dflt : Z) : PM Z :=
  p ← getenv name; mret (match p with Some p => atoi p | None => dflt end).

(** The result; [notset] is left as it is. *)
Definition getPMIFD : PM Z :=
  _ ← st_set (set_fd (-1));
  p ← getenv "PMI_FD";
  match p with
  | Some p => _ ← st_set (set_fd (atoi p)); mret 0
  | None => mret 0
  end.

(** The error branches call PMI_Abort, which returns, and go on.  The result and the maxima. *)
Definition PMII_getmaxes : PM Z :=
  buf ← st_lift (snprintf (chars PMIU_MAXLINE) PMIU_MAXLINE
          (str "cmd=init pmi_version=1 pmi_subversion=1" ++ NL));
  rc ← pm_writeline buf;
  if negb (rc =? 0) then mret PMI_FAIL
  else
    buf ← st_lift (aset buf 0 0);
    '(buf, err) ← pm_readline buf PMIU_MAXLINE;
    _ ← (if err <? 0 then _ ← PMI_Abort (-1); mret tt else mret tt);
    _ ← pm_parse buf;
    '(cmd, _) ← pm_getval "cmd" (chars PMIU_MAXLINE) PMIU_MAXLINE;
    c ← st_lift (cstr cmd);
    buf ← (if negb (bool_decide (c = str "response_to_init")) then _ ← PMI_Abort (-1); mret buf
           else
             '(buf, _) ← pm_getval "rc" buf PMIU_MAXLINE;
             c ← st_lift (cstr buf);
             if negb (bool_decide (c = str "0")) then
               '(buf, _) ← pm_getval "pmi_version" buf PMIU_MAXLINE;
               _ ← pm_getval "pmi_subversion" (chars PMIU_MAXLINE) PMIU_MAXLINE;
               _ ← PMI_Abort (-1); mret buf
             else mret buf);
    err ← GetResponse (line "cmd=get_maxes") "maxes" false;
    if err =? PMI_SUCCESS then
      '(buf, _) ← pm_getval "kvsname_max" buf PMIU_MAXLINE;
      a ← atoi_of buf;
      '(buf, _) ← pm_getval "keylen_max" buf PMIU_MAXLINE;
      b ← atoi_of buf;
      '(buf, _) ← pm_getval "vallen_max" buf PMIU_MAXLINE;
      c ← atoi_of buf;
      _ ← st_set (set_maxes a b c);
      mret err
    else mret err.

(** The result and the values of [spawned], [size] and [rank]. *)
Definition PMI_Init : PM (Z * (Z * Z * Z)) :=
  _ ← st_set (set_initialized PMI_UNINITIALIZED);
  d ← st_get PMI_debug;
  d ← getenv_int "PMI_DEBUG" d;
  _ ← st_set (set_debug d);
  rc ← getPMIFD;
  fd ← st_get PMI_fd;
  if fd =? -1 then
    _ ← st_set (set_group 1 0);
    _ ← st_set (set_initialized SINGLETON_INIT_BUT_NO_PM);
    _ ← st_set (set_maxes 256 256 256);
    mret (0, (0, 1, 0))
  else
    size ← getenv_int "PMI_SIZE" 1;
    rank ← getenv_int "PMI_RANK" 0;
    _ ← st_set (set_group size rank);
    d ← getenv_int "PMI_DEBUG" 0;
    _ ← st_set (set_debug d);
    _ ← PMII_getmaxes;
    sp ← getenv_int "PMI_SPAWNED" 0;
    _ ← st_set (set_spawned sp);
    i ← st_get PMI_initialized;
    _ ← st_set (set_initialized (if i =? PMI_UNINITIALIZED then NORMAL_INIT_WITH_PM else i));
    fd ← st_get PMI_fd;
    _ ← st_set (set_env (fun e => <["PMI_FD"%string := print_signed fd]> e));
    mret (0, (if truth sp then 1 else 0, size, rank)).

Definition PMI_Initialized : PM (Z * Z) :=
  i ← st_get PMI_initialized; mret (PMI_SUCCESS, if truth i then 1 else 0).
Definition PMI_Get_size : PM (Z * Z) :=
  i ← st_get PMI_initialized; n ← st_get PMI_size; mret (0, if truth i then n else 1).
Definition PMI_Get_rank : PM (Z * Z) :=
  i ← st_get PMI_initialized; r ← st_get PMI_rank; mret (0, if truth i then r else 0).

(** A process manager answers. *)
Definition with_pm {A} (yes no : PM A) : PM A :=
  i ← st_get PMI_initialized; if SINGLETON_INIT_BUT_NO_PM <? i then yes else no.

(** The result and the value assigned, if one is. *)
Definition PMI_Get_universe_size : PM (Z * option Z) :=
  with_pm
    (err ← GetResponse (line "cmd=get_universe_size") "universe_size" false;
     if err =? PMI_SUCCESS then
       '(c, _) ← pm_getval "size" (chars PMIU_MAXLINE) PMIU_MAXLINE;
       n ← atoi_of c; mret (PMI_SUCCESS, Some n)
     else mret (err, None))
    (mret (PMI_SUCCESS, Some 1)).
Definition PMI_Get_appnum : PM (Z * option Z) :=
  with_pm
    (err ← GetResponse (line "cmd=get_appnum") "appnum" false;
     if err =? PMI_SUCCESS then
       '(c, _) ← pm_getval "appnum" (chars PMIU_MAXLINE) PMIU_MAXLINE;
       n ← atoi_of c; mret (PMI_SUCCESS, Some n)
     else mret (err, None))
    (mret (PMI_SUCCESS, Some (-1))).

Definition PMI_Barrier : PM Z :=
  with_pm (GetResponse (line "cmd=barrier_in") "barrier_out" false) (mret PMI_SUCCESS).

Definition PMI_Finalize : PM Z :=
  with_pm
    (err ← GetResponse (line "cmd=finalize") "finalize_ack" false;
     _ ← st_set set_down; mret err)
    (mret PMI_SUCCESS).

(** ** Keys and values *)

Definition PMI_KVS_Get_my_name (kvsname : list Z) (length : Z) : PM (Z * list Z) :=
  i ← st_get PMI_initialized;
  if i =? SINGLETON_INIT_BUT_NO_PM then
    p ← st_get pid;
    kvsname ← st_lift (snprintf kvsname length (str "singinit_kvs_" ++ print_signed p ++ str "_0"));
    mret (0, kvsname)
  else
    err ← GetResponse (line "cmd=get_my_kvsname") "my_kvsname" false;
    if err =? PMI_SUCCESS then '(v, _) ← pm_getval "kvsname" kvsname length; mret (err, v)
    else mret (err, kvsname).

(** The result and the value assigned to the int at [maxlen]. *)
Definition length_max (f : pmi -> Z) (maxlen : Z) : PM (Z * option Z) :=
  if maxlen =? NULL then mret (PMI_ERR_INVALID_ARG, None)
  else n ← st_get f; mret (PMI_SUCCESS, Some n).
Definition PMI_KVS_Get_name_length_max : Z -> PM (Z * option Z) := length_max PMI_kvsname_max.
Definition PMI_KVS_Get_key_length_max : Z -> PM (Z * option Z) := length_max PMI_keylen_max.
Definition PMI_KVS_Get_value_length_max : Z -> PM (Z * option Z) := length_max PMI_vallen_max.

(** The text of a put and of a get. *)
Definition put_text (kvsname key value : list Z) : list Z :=
  str "cmd=put kvsname=" ++ kvsname ++ str " key=" ++ key ++ str " value=" ++ value ++ NL.
Definition get_text (kvsname key : list Z) : list Z :=
  str "cmd=get kvsname=" ++ kvsname ++ str " key=" ++ key ++ NL.

Definition PMI_KVS_Put (kvsname key value : list Z) : PM Z :=
  i ← st_get PMI_initialized;
  if i =? SINGLETON_INIT_BUT_NO_PM then
    k ← st_get cached_singinit_key;
    v ← st_get cached_singinit_val;
    n ← st_get PMI_keylen_max;
    '(k, rc) ← st_lift (MPIU_Strncpy k key 0 n);
    _ ← st_set (set_cached k v);
    if negb (rc =? 0) then mret PMI_FAIL
    else
      n ← st_get PMI_vallen_max;
      '(v, rc) ← st_lift (MPIU_Strncpy v value 0 n);
      _ ← st_set (set_cached k v);
      if negb (rc =? 0) then mret PMI_FAIL else mret 0
  else
    kvs ← st_lift (cstr kvsname);
    k ← st_lift (cstr key);
    v ← st_lift (cstr value);
    buf ← st_lift (snprintf (chars PMIU_MAXLINE) PMIU_MAXLINE (put_text kvs k v));
    GetResponse buf "put_result" true.

Definition PMI_KVS_Commit (kvsname : list Z) : PM Z := mret 0.

(** The result and [value] as it is left. *)
Definition PMI_KVS_Get (kvsname key value : list Z) (length : Z) : PM (Z * list Z) :=
  kvs ← st_lift (cstr kvsname);
  k ← st_lift (cstr key);
  buf ← st_lift (snprintf (chars PMIU_MAXLINE) PMIU_MAXLINE (get_text kvs k));
  err ← GetResponse buf "get_result" false;
  if err =? PMI_SUCCESS then
    '(buf, _) ← pm_getval "rc" buf PMIU_MAXLINE;
    rc ← atoi_of buf;
    if rc =? 0 then '(value, _) ← pm_getval "value" value length; mret (0, value)
    else mret (-1, value)
  else mret (err, value).

(** ** Names of services *)

(** The answer to a request of the service table: whether its rc is 0. *)
Definition service_request (text : list Z) (expectedCmd : string) (ok : PM Z) : PM Z :=
  with_pm
    (cmd ← st_lift (snprintf (chars PMIU_MAXLINE) PMIU_MAXLINE text);
     err ← GetResponse cmd expectedCmd false;
     if err =? PMI_SUCCESS then
       '(buf, _) ← pm_getval "rc" (chars PMIU_MAXLINE) PMIU_MAXLINE;
       c ← st_lift (cstr buf);
       if negb (bool_decide (c = str "0")) then
         _ ← pm_getval "msg" buf PMIU_MAXLINE; mret PMI_FAIL
       else ok
     else mret PMI_SUCCESS)
    (mret PMI_FAIL).

Definition PMI_Publish_name (service_name port : list Z) : PM Z :=
  s ← st_lift (cstr service_name); p ← st_lift (cstr port);
  service_request (str "cmd=publish_name service=" ++ s ++ str " port=" ++ p ++ NL) "publish_result"
    (mret PMI_SUCCESS).
Definition PMI_Unpublish_name (service_name : list Z) : PM Z :=
  s ← st_lift (cstr service_name);
  service_request (str "cmd=unpublish_name service=" ++ s ++ NL) "unpublish_result" (mret PMI_SUCCESS).

(** The result and [port] as it is left. *)
Definition PMI_Lookup_name (service_name port : list Z) : PM (Z * list Z) :=
  s ← st_lift (cstr service_name);
  with_pm
    (cmd ← st_lift (snprintf (chars PMIU_MAXLINE) PMIU_MAXLINE (str "cmd=lookup_name service=" ++ s ++ NL));
     err ← GetResponse cmd "lookup_result" false;
     if err =? PMI_SUCCESS then
       '(buf, _) ← pm_getval "rc" (chars PMIU_MAXLINE) PMIU_MAXLINE;
       c ← st_lift (cstr buf);
       if negb (bool_decide (c = str "0")) then
         _ ← pm_getval "msg" buf PMIU_MAXLINE; mret (PMI_FAIL, port)
       else
         '(port, _) ← pm_getval "port" port MPI_MAX_PORT_NAME; mret (PMI_SUCCESS, port)
     else mret (PMI_SUCCESS, port))
    (mret (PMI_FAIL, port)).

(** ** Processes *)

(** What PMI_Spawn_multiple gets for each of the [count] commands: the command, its arguments
    when argvs has some, the number of processes, the keys and values of its info. *)
Record spawn : Type := Spawn {
  sp_cmd : list Z; sp_argv : option (list (list Z)); sp_maxprocs : Z; sp_info : list (list Z * list Z) }.

(** snprintf to [tempbuf] and MPIU_Strnapp of it to [buf]; [None] where PMI_FAIL is returned. *)
Definition append (buf text : list Z) : PM (option (list Z)) :=
  tempbuf ← st_lift (snprintf (chars PMIU_MAXLINE) PMIU_MAXLINE text);
  '(buf, rc) ← st_lift (MPIU_Strnapp buf tempbuf PMIU_MAXLINE);
  mret (if rc =? 0 then Some buf else None).

Fixpoint append_all (buf : list Z) (texts : list (list Z)) : PM (option (list Z)) :=
  match texts with
  | [] => mret (Some buf)
  | t :: texts => o ← append buf t; match o with Some buf => append_all buf texts | None => mret None end
  end.

(** "name<i>=value", and a newline. *)
Definition numbered (name : string) (i : Z) (value : list Z) : list Z :=
  str name ++ print_signed i ++ [EQUALS] ++ value ++ NL.

(** The loop over the arguments: each ends a line that is written. *)
Fixpoint spawn_args (buf : list Z) (i : Z) (args : list (list Z)) : PM (option (list Z)) :=
  match args with
  | [] => mret (Some buf)
  | a :: args =>
      o ← append buf (numbered "arg" (i + 1) a);
      match o with
      | None => mret None
      | Some buf =>
          _ ← pm_writeline buf;
          buf ← st_lift (aset buf 0 0);
          spawn_args buf (i + 1) args
      end
  end.

Fixpoint keyval_texts (key val : string) (i : Z) (kvs : list (list Z * list Z)) : list (list Z) :=
  match kvs with
  | [] => []
  | kv :: kvs => numbered key i kv.1 :: numbered val i kv.2 :: keyval_texts key val (i + 1) kvs
  end.

(** The round of one command: whether it was sent. *)
Definition spawn_one (count spawncnt : Z) (c : spawn) (preput : list (list Z * list Z)) : PM bool :=
  let args := default [] (sp_argv c) in
  buf ← st_lift (snprintf (chars PMIU_MAXLINE) PMIU_MAXLINE
          (str "mcmd=spawn" ++ NL ++ str "nprocs=" ++ print_signed (sp_maxprocs c) ++ NL ++
           str "execname=" ++ sp_cmd c ++ NL));
  o ← append buf (str "totspawns=" ++ print_signed count ++ NL ++
                  str "spawnssofar=" ++ print_signed (spawncnt + 1) ++ NL);
  match o with
  | None => mret false
  | Some buf =>
      o ← spawn_args buf 0 args;
      match o with
      | None => mret false
      | Some buf =>
          o ← append_all buf
            ([str "argcnt=" ++ print_signed (Z.of_nat (length args)) ++ NL;
              str "preput_num=" ++ print_signed (Z.of_nat (length preput)) ++ NL] ++
             keyval_texts "preput_key_" "preput_val_" 0 preput ++
             [str "info_num=" ++ print_signed (Z.of_nat (length (sp_info c))) ++ NL] ++
             keyval_texts "info_key_" "info_val_" 0 (sp_info c) ++ [str "endcmd" ++ NL]);
          match o with
          | None => mret false
          | Some buf => _ ← pm_writeline buf; mret true
          end
      end
  end.

Fixpoint spawn_all (count spawncnt : Z) (cs : list spawn) (preput : list (list Z * list Z)) : PM bool :=
  match cs with
  | [] => mret true
  | c :: cs =>
      b ← spawn_one count spawncnt c preput;
      if b : bool then spawn_all count (spawncnt + 1) cs preput else mret false
  end.

(** The pieces of a string between the commas, as strchr cuts them. *)
Fixpoint split_commas (l cur : list Z) : list (list Z) :=
  match l with
  | [] => [rev cur]
  | c :: l => if c =? 44 then rev cur :: split_commas l [] else split_commas l (c :: cur)
  end.

(** The loop over errcodes; PMIU_Assert is empty, as nothing defines HAVE_ASSERT_H. *)
Fixpoint store_codes (codes : list (list Z)) (n : Z) (errors : list Z) : result (list Z) :=
  match codes with
  | [] => Ok errors
  | c :: codes => errors ← aset errors n (atoi c); store_codes codes (n + 1) errors
  end.

Fixpoint zero_codes (n : nat) (i : Z) (errors : list Z) : result (list Z) :=
  match n with
  | O => Ok errors
  | S n => errors ← aset errors i 0; zero_codes n (i + 1) errors
  end.

(** The result and [errors] as it is left. *)
Definition PMI_Spawn_multiple (cs : list spawn) (preput : list (list Z * list Z)) (errors : list Z)
    : PM (Z * list Z) :=
  let total := foldr (fun c n => sp_maxprocs c + n) 0 cs in
  b ← spawn_all (Z.of_nat (length cs)) 0 cs preput;
  if negb b then mret (PMI_FAIL, errors)
  else
    '(buf, _) ← pm_readline (chars PMIU_MAXLINE) PMIU_MAXLINE;
    _ ← pm_parse buf;
    '(cmd, _) ← pm_getval "cmd" (chars PMIU_MAXLINE) PMIU_MAXLINE;
    c ← st_lift (cstr cmd);
    if negb (bool_decide (c = str "spawn_result")) then mret (-1, errors)
    else
      '(buf, _) ← pm_getval "rc" buf PMIU_MAXLINE;
      rc ← atoi_of buf;
      if negb (rc =? 0) then mret (-1, errors)
      else
        '(tempbuf, found) ← pm_getval "errcodes" (chars PMIU_MAXLINE) PMIU_MAXLINE;
        if found : bool then
          l ← st_lift (cstr tempbuf);
          errors ← st_lift (store_codes (split_commas l []) 0 errors);
          mret (0, errors)
        else
          errors ← st_lift (zero_codes (Z.to_nat total) 0 errors);
          mret (0, errors).

(** ** pm.c: [lcg_name] is the array it keeps the name of the key space in *)

Definition lc_key (rank gid : Z) : list Z :=
  str "_LC_KEY_" ++ print_signed rank ++ str "_" ++ print_signed gid.

(** sprintf(key, "_LC_KEY_%d_%d", rank, gid) into [char key[256]] *)
Definition lc_key_array (rank gid : Z) : result (list Z) :=
  let w := lc_key rank gid in
  if Z.of_nat (length w) <? 256 then Ok (w ++ 0 :: drop (S (length w)) (chars 256)) else Err OutOfBounds.

(** The values of [size] and [rank], and [name]. *)
Definition lc_pm_master_init (name : list Z) : PM (Z * Z * list Z) :=
  '(_, (_, size, rank)) ← PMI_Init;
  '(_, name) ← PMI_KVS_Get_my_name name 255;
  mret (size, rank, name).

Definition lc_pm_publish (lcg_name : list Z) (rank gid : Z) (value : list Z) : PM unit :=
  key ← st_lift (lc_key_array rank gid);
  _ ← PMI_KVS_Put lcg_name key value;
  _ ← PMI_Barrier;
  mret tt.

Definition lc_pm_getname (lcg_name : list Z) (rank gid : Z) (value : list Z) : PM (list Z) :=
  key ← st_lift (lc_key_array rank gid);
  '(_, value) ← PMI_KVS_Get lcg_name key value 255;
  mret value.

Definition lc_pm_getname_key (lcg_name key value : list Z) : PM (list Z) :=
  '(_, value) ← PMI_KVS_Get lcg_name key value 255; mret value.
Definition lc_pm_publish_key (lcg_name key value : list Z) : PM unit :=
  _ ← PMI_KVS_Put lcg_name key value; mret tt.
Definition lc_pm_barrier : PM unit := _ ← PMI_Barrier; mret tt.

(** ** lc.c *)

Definition lc_finalize : PM lc_status := _ ← lc_pm_barrier; mret LC_OK.
