(* ===== verification/PmiKvs.v ===== *)
(** * Exchanges with the process manager (about Pmi.v) *)
From Stdlib Require Import String.
From stdpp Require Import gmap strings.
From S2P Require Import Prelude Text PmiUtil PmiSpec Pmi.

(** ** Lines *)

Lemma str_no_zero_dec l : forallb (fun c => negb (c =? 0)) l = true -> no_zero l.
Proof.
  intros H. rewrite forallb_forall in H. apply Forall_forall. intros c Hc ->.
  by specialize (H 0 (proj1 (list_elem_of_In _ _) Hc)).
Qed.

(** A message is one line. *)
Lemma message_line kvs : Forall pair_ok kvs ->
  exists w, message kvs = w ++ [NEWLINE] /\ Forall (fun c => c <> NEWLINE) w /\ no_zero w.
Proof.
  assert (forall k, Forall (fun c => key_end c = false) k -> Forall (fun c => c <> NEWLINE) k) as Hkey.
  { intros k Hk. eapply Forall_impl; [exact Hk|]. intros c Hc ->. done. }
  assert (forall v, chars_ok v -> Forall (fun c => c <> NEWLINE) v) as Hval.
  { intros v Hv. eapply Forall_impl; [exact Hv|]. intros c Hc ->. done. }
  induction 1 as [|[k v] kvs ((_ & Hk & _) & Hv & _) Hkvs (w & E & Hw & Hz)]; [by exists []; repeat split; constructor|].
  cbn [fst snd] in *. destruct kvs as [|kv kvs].
  - exists (k ++ [EQUALS] ++ v). cbn [message fst snd]. rewrite <- !app_assoc. split; [done|].
    split; (apply Forall_app; split; [|constructor; [done|]]);
      first [by apply Hkey|by apply Hval|by apply value_end_chars|by apply key_end_chars].
  - exists (k ++ [EQUALS] ++ v ++ SPACE :: w).
    change (message ((k, v) :: kv :: kvs)) with (k ++ [EQUALS] ++ v ++ SPACE :: message (kv :: kvs)).
    rewrite E. split; [by list_assoc|].
    split; (apply Forall_app; split; [|constructor; [done|apply Forall_app; split; [|constructor]]]);
      first [by apply Hkey|by apply Hval|by apply value_end_chars|by apply key_end_chars|done].
Qed.

(** A line that fits goes out whole; [ws] gives the result of the first write that is not
    interrupted. *)
Lemma writeline_run w post ws ws' : no_zero w -> len w < PMIU_MAXLINE ->
  next_write ws = Ok (Wrote (len w + 1), ws') ->
  PMIU_writeline (w ++ NEWLINE :: 0 :: post) ws = Ok (0, w ++ NEWLINE :: 0 :: post, w ++ [NEWLINE], ws').
Proof.
  intros Hw Hl Ew. unfold PMIU_writeline.
  replace (w ++ NEWLINE :: 0 :: post) with ((w ++ [NEWLINE]) ++ 0 :: post) by list_assoc.
  rewrite cstr_app by (apply Forall_app; split; [done|by repeat constructor]). cbn [mbind result_bind].
  change (Z.of_nat (length (w ++ [NEWLINE]))) with (len (w ++ [NEWLINE])).
  rewrite len_app. change (len [NEWLINE]) with 1. rewrite (proj2 (Z.ltb_ge _ _)) by lia.
  replace (len w + 1 - 1) with (len w) by lia. rewrite <- app_assoc. cbn [app].
  rewrite aget_mid. cbn [mbind result_bind]. rewrite Z.eqb_refl. cbn [negb].
  rewrite Ew. cbn [mbind result_bind]. rewrite take_ge; [done|].
  unfold len. rewrite length_app. cbn [length]. lia.
Qed.

(** A text without its newline is not sent. *)
Lemma writeline_cut w c post ws : no_zero (w ++ [c]) -> c <> NEWLINE -> len w < PMIU_MAXLINE ->
  PMIU_writeline (w ++ c :: 0 :: post) ws = Ok (0, w ++ c :: 0 :: post, [], ws).
Proof.
  intros Hw Hc Hl. unfold PMIU_writeline.
  replace (w ++ c :: 0 :: post) with ((w ++ [c]) ++ 0 :: post) by list_assoc.
  rewrite cstr_app by done. cbn [mbind result_bind].
  change (Z.of_nat (length (w ++ [c]))) with (len (w ++ [c])).
  rewrite len_app. change (len [c]) with 1. rewrite (proj2 (Z.ltb_ge _ _)) by lia.
  replace (len w + 1 - 1) with (len w) by lia. rewrite <- app_assoc. cbn [app].
  rewrite aget_mid. cbn [mbind result_bind]. by rewrite (proj2 (Z.eqb_neq _ _) Hc).
Qed.

Lemma snprintf_fits n text : len text < n -> snprintf (chars n) n text =
  Ok (text ++ 0 :: drop (S (length text)) (chars n)).
Proof.
  intros Hn. unfold snprintf. unfold len in Hn. rewrite take_ge by lia.
  unfold chars. rewrite length_replicate, (proj2 (Z.ltb_lt _ _)) by lia. done.
Qed.

Lemma snprintf_cut n text : 0 < n -> n <= len text -> exists w c post,
  snprintf (chars n) n text = Ok (w ++ 0 :: post) /\ len w = n - 1 /\ w ++ c :: drop (Z.to_nat n) text = text.
Proof.
  intros H0 Hn. unfold len in *. destruct (lookup_lt_is_Some_2 text (Z.to_nat (n - 1))) as [c Hc]; [lia|].
  exists (take (Z.to_nat (n - 1)) text), c, (drop (S (Z.to_nat (n - 1))) (chars n)).
  assert (length (take (Z.to_nat (n - 1)) text) = Z.to_nat (n - 1)) as El by (rewrite length_take; lia).
  unfold snprintf. rewrite El. unfold chars at 1. rewrite length_replicate, (proj2 (Z.ltb_lt _ _)) by lia.
  split; [done|]. split; [lia|]. replace (Z.to_nat n) with (S (Z.to_nat (n - 1))) by lia.
  by apply take_drop_middle.
Qed.

(** ** One exchange *)

(** The reading side is at the front of the bytes [l]. *)
Definition incoming (s : pmi) (l : list Z) : Prop :=
  bytes (rd s) = l /\ (unread (rd s) = [] \/ lastfd (rd s) = PMI_fd s).

(** The answer [kvs], in the table, after one line was sent and one was read. *)
Record answered (s s' : pmi) (line_ : list Z) (kvs : list (list Z * list Z)) (ws' : list write_result)
    (rest : list Z) : Prop := {
  an_state : s' = set_tab (tab s') (set_rd (rd s') (set_sent ws' (sent s ++ [line_]) s));
  an_tab : tab_wf (tab s') /\ table_gives (tab s') kvs;
  an_rest : incoming s' rest }.

(** An answer the client takes: its pairs fit the table and its line the buffer. *)
Definition reply_ok (kvs : list (list Z * list Z)) : Prop :=
  Forall pair_ok kvs /\ Z.of_nat (length kvs) <= KEYVAL_TAB_SIZE /\ len (message kvs) < PMIU_MAXLINE.

Lemma getval_run s k kvs valstr vallen : table_gives (tab s) kvs -> no_zero (str k) ->
  0 < vallen < 2 ^ 31 -> vallen <= len valstr ->
  match lookup_kv (str k) kvs with
  | Some v => no_zero v -> len v < vallen -> exists out,
      pm_getval k valstr vallen s = Ok ((out, true), s) /\ cstr out = Ok v /\ len out = len valstr
  | None => exists out,
      pm_getval k valstr vallen s = Ok ((out, false), s) /\ cstr out = Ok [] /\ len out = len valstr
  end.
Proof.
  intros Ht Hk Hv Hl. specialize (Ht (str k) [] valstr vallen Hk Hv Hl). unfold pm_getval, lit.
  destruct (lookup_kv (str k) kvs) as [v|].
  - intros Hz Hlen. destruct (Ht Hz Hlen) as (out & E & H). exists out. by rewrite E.
  - destruct Ht as (out & E & H). exists out. by rewrite E.
Qed.

Lemma lookup_kv_ok k kvs v : Forall pair_ok kvs -> lookup_kv k kvs = Some v ->
  no_zero v /\ len v < MAXVALLEN.
Proof.
  induction 1 as [|kv kvs (_ & Hv & Hl) _ IH]; [done|]. cbn. case_decide; [|done].
  intros [= <-]. split; [by apply value_end_chars|done].
Qed.

Lemma len_chars n : 0 <= n -> len (chars n) = n.
Proof. intros Hn. unfold len, chars. rewrite length_replicate. lia. Qed.

(** A line out, a line in, into the table. *)
Lemma exchange_run s w post kvs rest ws' b0 :
  no_zero w -> len w < PMIU_MAXLINE -> next_write (ws s) = Ok (Wrote (len w + 1), ws') ->
  reply_ok kvs -> incoming s (message kvs ++ rest) -> tab_wf (tab s) -> len b0 = PMIU_MAXLINE ->
  exists s1 buf n s2 s3, pm_writeline (w ++ NEWLINE :: 0 :: post) s = Ok (0, s1) /\
    pm_readline b0 PMIU_MAXLINE s1 = Ok ((buf, n), s2) /\ 0 < n /\ len buf = PMIU_MAXLINE /\
    pm_parse buf s2 = Ok (0, s3) /\ answered s s3 (w ++ [NEWLINE]) kvs ws' rest.
Proof.
  intros Hw Hl Hws (Hkvs & Hn & Hml) [Hb Hfd] Hwf Hb0.
  set (s1 := set_sent ws' (sent s ++ [w ++ [NEWLINE]]) s).
  destruct (message_line kvs Hkvs) as (m & Em & Hm & Hmz).
  assert (len (message kvs) = len m + 1) as Elm by (rewrite Em, len_app; done).
  destruct (readline_run (PMI_fd s) b0 PMIU_MAXLINE (rd s) m NEWLINE rest)
    as (r & Er & Hr & Hrf); try done.
  { rewrite Hb, Em. by rewrite <- app_assoc. } { by left. } { lia. }
  set (buf := m ++ NEWLINE :: 0 :: drop (S (S (length m))) b0) in *.
  pose proof (len_nonneg m).
  destruct (parse_keyvals_run kvs (drop (S (S (length m))) b0) (tab s) Hkvs Hwf Hn)
    as (st' & t' & Et & Hwf' & Hgives).
  replace (message kvs ++ 0 :: drop (S (S (length m))) b0) with buf in Et
    by (unfold buf; rewrite Em; list_assoc).
  exists s1, buf, (len m + 1), (set_rd r s1), (set_tab t' (set_rd r s1)).
  split; [unfold pm_writeline; rewrite (writeline_run _ _ _ _ Hw Hl Hws); by destruct w|].
  split; [unfold pm_readline; cbn; by rewrite Er|]. split; [lia|]. split.
  { unfold buf. rewrite len_app, !len_cons. unfold len in *. rewrite length_drop. lia. }
  split; [unfold pm_parse; cbn [tab set_rd s1 set_sent]; by rewrite Et|].
  split; [done|done|]. split; [done|]. by right.
Qed.

(** GetResponse sends the request's line, reads the answer's, and takes it when it has the
    command expected and, if asked for, the code 0. *)
Lemma get_response_run s w post kvs expected checkRc rest ws' :
  no_zero w -> len w < PMIU_MAXLINE -> next_write (ws s) = Ok (Wrote (len w + 1), ws') ->
  reply_ok kvs -> incoming s (message kvs ++ rest) -> tab_wf (tab s) ->
  lookup_kv (str "cmd") kvs = Some (str expected) ->
  (checkRc = true -> lookup_kv (str "rc") kvs = Some (str "0")) ->
  exists s', GetResponse (w ++ NEWLINE :: 0 :: post) expected checkRc s = Ok (PMI_SUCCESS, s') /\
    answered s s' (w ++ [NEWLINE]) kvs ws' rest.
Proof.
  intros Hw Hl Hws Hr Hin Hwf Hcmd Hrc. unfold GetResponse.
  destruct (exchange_run s w post kvs rest ws' (chars PMIU_MAXLINE)) as
    (s1 & buf & n & s2 & s3 & E1 & E2 & Hn & _ & E3 & Han); try done.
  rewrite (st_bind_run _ _ _ _ _ E1). cbn [Z.eqb negb].
  rewrite (st_bind_run _ _ _ _ _ E2), (proj2 (Z.leb_gt _ _)) by lia.
  rewrite (st_bind_run _ _ _ _ _ E3). cbn [Z.eqb negb].
  pose proof (proj2 (an_tab _ _ _ _ _ _ Han)) as Hgives. destruct Hr as (Hkvs & _).
  destruct (lookup_kv_ok _ _ _ Hkvs Hcmd) as [Hez Hel]. unfold MAXVALLEN, PMIU_MAXLINE in *.
  pose proof (getval_run s3 "cmd" kvs (chars 1024) 1024 Hgives) as Hg. rewrite Hcmd in Hg.
  destruct Hg as (cn & Eg & Ecn & Hln); try done; try (by apply str_no_zero_dec); try (rewrite ?len_chars; lia).
  rewrite (st_bind_run _ _ _ _ _ Eg). cbn [negb]. rewrite Ecn.
  rewrite (st_bind_run _ _ s3 (str expected) s3) by done. rewrite bool_decide_eq_true_2 by done. cbn [negb].
  destruct checkRc; [|by exists s3].
  pose proof (getval_run s3 "rc" kvs cn 1024 Hgives) as Hg. rewrite (Hrc eq_refl) in Hg.
  destruct Hg as (cn2 & Eg2 & Ecn2 & _); try done; try (by apply str_no_zero_dec);
    try (rewrite ?Hln, ?len_chars; lia).
  rewrite (st_bind_run _ _ _ _ _ Eg2), Ecn2.
  rewrite (st_bind_run _ _ s3 (str "0") s3) by done. rewrite bool_decide_eq_true_2 by done. by exists s3.
Qed.

(** ** Puts and gets *)

(** The texts are messages of keys and values. *)
Lemma put_text_message K k v : put_text K k v =
  message [(str "cmd", str "put"); (str "kvsname", K); (str "key", k); (str "value", v)].
Proof. reflexivity. Qed.
Lemma get_text_message K k : get_text K k =
  message [(str "cmd", str "get"); (str "kvsname", K); (str "key", k)].
Proof. reflexivity. Qed.

Definition chars_dec (l : list Z) : bool := forallb (fun c => negb (value_end c)) l.
Lemma chars_dec_ok l : chars_dec l = true -> chars_ok l.
Proof.
  intros H. unfold chars_dec in H. rewrite forallb_forall in H. apply Forall_forall. intros c Hc.
  specialize (H c (proj1 (list_elem_of_In _ _) Hc)). by apply negb_true_iff.
Qed.

Definition key_dec (l : list Z) : bool :=
  forallb (fun c => negb (key_end c)) l && (0 <? len l) && (len l <? MAXKEYLEN).
Lemma key_dec_ok l : key_dec l = true -> key_ok l.
Proof.
  intros H. unfold key_dec in H. apply andb_true_iff in H as [H H2]. apply andb_true_iff in H as [H H1].
  apply Z.ltb_lt in H1, H2. rewrite forallb_forall in H. split; [by intros ->|]. split; [|done].
  apply Forall_forall. intros c Hc. specialize (H c (proj1 (list_elem_of_In _ _) Hc)).
  by apply negb_true_iff.
Qed.

Lemma pair_dec k v : key_dec k = true -> chars_ok v -> len v < MAXVALLEN -> pair_ok (k, v).
Proof. intros Hk Hv Hl. split; [by apply key_dec_ok|done]. Qed.

Definition word_ok (l : list Z) : Prop := chars_ok l /\ len l < MAXVALLEN.

Lemma put_pairs K k v : word_ok K -> word_ok k -> word_ok v ->
  Forall pair_ok [(str "cmd", str "put"); (str "kvsname", K); (str "key", k); (str "value", v)].
Proof.
  intros [] [] []. repeat constructor; apply pair_dec; try done. by apply chars_dec_ok.
Qed.
Lemma get_pairs K k : word_ok K -> word_ok k ->
  Forall pair_ok [(str "cmd", str "get"); (str "kvsname", K); (str "key", k)].
Proof. intros [] []. repeat constructor; apply pair_dec; try done. by apply chars_dec_ok. Qed.

(** A text that fits, as the array GetResponse takes. *)
Lemma request_array kvs : Forall pair_ok kvs -> len (message kvs) < PMIU_MAXLINE ->
  exists w post, snprintf (chars PMIU_MAXLINE) PMIU_MAXLINE (message kvs) = Ok (w ++ NEWLINE :: 0 :: post) /\
    message kvs = w ++ [NEWLINE] /\ no_zero w /\ len w + 1 < PMIU_MAXLINE /\
    len (w ++ NEWLINE :: 0 :: post) = PMIU_MAXLINE.
Proof.
  intros Hk Hl. destruct (message_line kvs Hk) as (w & E & _ & Hz).
  exists w, (drop (S (length (message kvs))) (chars PMIU_MAXLINE)).
  rewrite snprintf_fits by done. rewrite E in Hl |- *. rewrite len_app in Hl. change (len [NEWLINE]) with 1 in Hl.
  split; [by rewrite <- app_assoc|]. split; [done|]. split; [done|]. split; [done|].
  rewrite len_app, !len_cons. unfold len in *. rewrite length_drop, length_app. unfold chars.
  rewrite length_replicate. cbn [length]. unfold PMIU_MAXLINE in *. lia.
Qed.

(** An array with the string [l]. *)
Definition holds_str (a l : list Z) : Prop := cstr a = Ok l.

Lemma put_run s kvsname key value K k v kvs rest ws' :
  holds_str kvsname K -> holds_str key k -> holds_str value v -> word_ok K -> word_ok k -> word_ok v ->
  len (put_text K k v) < PMIU_MAXLINE -> PMI_initialized s <> SINGLETON_INIT_BUT_NO_PM ->
  next_write (ws s) = Ok (Wrote (len (put_text K k v)), ws') -> reply_ok kvs ->
  incoming s (message kvs ++ rest) -> tab_wf (tab s) ->
  lookup_kv (str "cmd") kvs = Some (str "put_result") -> lookup_kv (str "rc") kvs = Some (str "0") ->
  exists s', PMI_KVS_Put kvsname key value s = Ok (PMI_SUCCESS, s') /\
    answered s s' (put_text K k v) kvs ws' rest.
Proof.
  intros EK Ek Ev HK Hk Hv Hl Hi Hw Hr Hin Hwf Hcmd Hrc. unfold PMI_KVS_Put.
  rewrite (st_bind_run _ _ s (PMI_initialized s) s) by done. rewrite (proj2 (Z.eqb_neq _ _) Hi).
  rewrite EK, Ek, Ev. do 3 (erewrite st_bind_run by reflexivity).
  rewrite put_text_message in *.
  destruct (request_array _ (put_pairs K k v HK Hk Hv) Hl) as (w & post & Es & Em & Hz & Hlw & _).
  rewrite Es. erewrite st_bind_run by reflexivity. rewrite Em in *. rewrite len_app in Hw.
  apply get_response_run; try done. lia.
Qed.

Lemma get_run s kvsname key value n K k v kvs rest ws' :
  holds_str kvsname K -> holds_str key k -> word_ok K -> word_ok k ->
  len (get_text K k) < PMIU_MAXLINE -> 0 < n < 2 ^ 31 -> n <= len value -> len v < n ->
  next_write (ws s) = Ok (Wrote (len (get_text K k)), ws') -> reply_ok kvs ->
  incoming s (message kvs ++ rest) -> tab_wf (tab s) ->
  lookup_kv (str "cmd") kvs = Some (str "get_result") -> lookup_kv (str "rc") kvs = Some (str "0") ->
  lookup_kv (str "value") kvs = Some v ->
  exists s' out, PMI_KVS_Get kvsname key value n s = Ok ((0, out), s') /\ holds_str out v /\
    len out = len value /\ answered s s' (get_text K k) kvs ws' rest.
Proof.
  intros EK Ek HK Hk Hl Hn Hvl Hv Hw Hr Hin Hwf Hcmd Hrc Hval. unfold PMI_KVS_Get.
  rewrite EK, Ek. do 2 (erewrite st_bind_run by reflexivity). rewrite get_text_message in *.
  destruct (request_array _ (get_pairs K k HK Hk) Hl) as (w & post & Es & Em & Hz & Hlw & Hla).
  rewrite Es. erewrite st_bind_run by reflexivity. rewrite Em in *. rewrite len_app in Hw.
  destruct (get_response_run s w post kvs "get_result" false rest ws') as (s1 & E & Han); try done; [lia|].
  rewrite (st_bind_run _ _ _ _ _ E). rewrite Z.eqb_refl.
  pose proof (proj2 (an_tab _ _ _ _ _ _ Han)) as Hg. destruct Hr as (Hkvs & _).
  pose proof (getval_run s1 "rc" kvs (w ++ NEWLINE :: 0 :: post) PMIU_MAXLINE Hg) as G. rewrite Hrc in G.
  destruct G as (b1 & E1 & Eb & _); try done; try (by apply str_no_zero_dec); [by rewrite Hla|].
  rewrite (st_bind_run _ _ _ _ _ E1). unfold atoi_of. rewrite Eb.
  rewrite (st_bind_run _ _ s1 0 s1) by reflexivity. rewrite Z.eqb_refl.
  destruct (lookup_kv_ok _ _ _ Hkvs Hval) as [Hvz _].
  pose proof (getval_run s1 "value" kvs value n Hg) as G. rewrite Hval in G.
  destruct G as (out & E2 & Eo & Elo); try done; try (by apply str_no_zero_dec).
  rewrite (st_bind_run _ _ _ _ _ E2). by exists s1, out.
Qed.

Lemma barrier_run s kvs rest ws' : SINGLETON_INIT_BUT_NO_PM < PMI_initialized s ->
  next_write (ws s) = Ok (Wrote 15, ws') -> reply_ok kvs -> incoming s (message kvs ++ rest) ->
  tab_wf (tab s) -> lookup_kv (str "cmd") kvs = Some (str "barrier_out") ->
  exists s', PMI_Barrier s = Ok (PMI_SUCCESS, s') /\
    answered s s' (str "cmd=barrier_in" ++ [NEWLINE]) kvs ws' rest.
Proof.
  intros Hi Hw Hr Hin Hwf Hcmd. unfold PMI_Barrier, with_pm.
  rewrite (st_bind_run _ _ s (PMI_initialized s) s) by done. rewrite (proj2 (Z.ltb_lt _ _) Hi).
  apply (get_response_run s (str "cmd=barrier_in") []); try done. by apply str_no_zero_dec.
Qed.

(** ** The keys of the layer *)

Lemma digits_length fuel : forall n acc, (length (digits_acc fuel n acc) <= fuel + length acc)%nat.
Proof.
  induction fuel as [|fuel IH]; intros n acc; cbn [digits_acc]; [lia|].
  destruct (_ <? _); [cbn; lia|]. specialize (IH (n / 10) ((48 + n mod 10) :: acc)). cbn in IH. lia.
Qed.

Lemma unsigned_chars n : 0 <= n < 2 ^ 64 -> chars_ok (print_unsigned n) /\ len (print_unsigned n) <= 20.
Proof.
  intros Hn. split; [|pose proof (digits_length 20 n []) as H; unfold print_unsigned, len; cbn in *; lia].
  destruct (print_digits 20 n []) as (ds & E & _ & Hds & _); [lia|cbn; lia|].
  unfold print_unsigned. rewrite E, app_nil_r. eapply Forall_impl; [exact Hds|]. intros c Hc.
  unfold is_digit in Hc. apply andb_true_iff in Hc as [H1 H2]. apply Z.leb_le in H1, H2.
  unfold value_end, SPACE, NEWLINE. rewrite !(proj2 (Z.eqb_neq _ _)) by lia. done.
Qed.

Lemma signed_chars n : - 2 ^ 31 <= n < 2 ^ 31 -> chars_ok (print_signed n) /\ len (print_signed n) <= 21.
Proof.
  intros Hn. unfold print_signed. destruct (Z.ltb_spec n 0).
  - destruct (unsigned_chars (- n)) as [H1 H2]; [lia|]. split; [by constructor|]. rewrite len_cons. lia.
  - destruct (unsigned_chars n) as [H1 H2]; [lia|]. split; [done|lia].
Qed.

Lemma lc_key_word rank gid : - 2 ^ 31 <= rank < 2 ^ 31 -> - 2 ^ 31 <= gid < 2 ^ 31 ->
  chars_ok (lc_key rank gid) /\ len (lc_key rank gid) <= 51.
Proof.
  intros Hr Hg. destruct (signed_chars rank Hr) as [R1 R2]. destruct (signed_chars gid Hg) as [G1 G2].
  unfold lc_key. split.
  - apply Forall_app; split; [by apply chars_dec_ok|]. apply Forall_app; split; [done|].
    apply Forall_app; split; [by apply chars_dec_ok|done].
  - rewrite !len_app. change (len (str "_LC_KEY_")) with 8. change (len (str "_")) with 1. lia.
Qed.

Lemma lc_key_array_run rank gid : - 2 ^ 31 <= rank < 2 ^ 31 -> - 2 ^ 31 <= gid < 2 ^ 31 ->
  exists a, lc_key_array rank gid = Ok a /\ holds_str a (lc_key rank gid).
Proof.
  intros Hr Hg. destruct (lc_key_word rank gid Hr Hg) as [Hc Hl]. unfold lc_key_array.
  change (Z.of_nat (length (lc_key rank gid))) with (len (lc_key rank gid)).
  rewrite (proj2 (Z.ltb_lt _ _)) by lia. eexists. split; [done|]. apply cstr_app. by apply value_end_chars.
Qed.

(** ** What a process manager promises *)

Definition BARRIER : list Z := str "cmd=barrier_in" ++ [NEWLINE].
Definition put_reply : list (list Z * list Z) :=
  [(str "cmd", str "put_result"); (str "rc", str "0"); (str "msg", str "success")].
Definition get_reply (v : list Z) : list (list Z * list Z) :=
  [(str "cmd", str "get_result"); (str "rc", str "0"); (str "msg", str "success"); (str "value", v)].
Definition barrier_reply : list (list Z * list Z) := [(str "cmd", str "barrier_out")].

(** The process manager keeps [v] put under [k] in the space [K] and gives it to a get: [serve]
    is its state after a request and its answer, [kvs] what the state has for a key. *)
Record pm_laws {S} (serve : S -> list Z -> S * list Z) (kvs : S -> list Z -> list Z -> option (list Z))
    (K k v : list Z) : Prop := {
  law_put : forall st, (serve st (put_text K k v)).2 = message put_reply /\
    kvs (serve st (put_text K k v)).1 K k = Some v;
  law_get : forall st w, kvs st K k = Some w ->
    (serve st (get_text K k)).2 = message (get_reply w);
  law_barrier : forall st, (serve st BARRIER).2 = message barrier_reply /\
    kvs (serve st BARRIER).1 K k = kvs st K k }.

(** The next writes write these lines in full, however often they are interrupted. *)
Fixpoint all_written (ws : list write_result) (lines : list (list Z)) : Prop :=
  match lines with
  | [] => True
  | l :: lines => exists ws', next_write ws = Ok (Wrote (len l), ws') /\ all_written ws' lines
  end.

(** A client of a process manager. *)
Record client (s : pmi) : Prop := {
  cl_init : SINGLETON_INIT_BUT_NO_PM < PMI_initialized s;
  cl_tab : tab_wf (tab s) }.

Lemma get_reply_ok v : chars_ok v -> len v < 255 -> reply_ok (get_reply v).
Proof.
  intros Hv Hl. assert (word_ok v) as Hw by (split; [done|unfold MAXVALLEN; lia]). split; [|split; [by vm_compute|]].
  - repeat constructor; apply pair_dec; try done; try (by apply chars_dec_ok); by destruct Hw.
  - replace (message (get_reply v)) with (str "cmd=get_result rc=0 msg=success value=" ++ v ++ [NEWLINE])
      by reflexivity.
    rewrite !len_app. change (len (str _)) with 38. change (len [NEWLINE]) with 1. unfold PMIU_MAXLINE. lia.
Qed.

(** A client sent [lines] and took their answers; it has [more] to send and [rest] to read. *)
Record exchanged (s s' : pmi) (lines more : list (list Z)) (rest : list Z) : Prop := {
  ex_client : client s'; ex_sent : sent s' = sent s ++ lines;
  ex_more : all_written (ws s') more; ex_rest : incoming s' rest }.

Lemma answered_exchanged s s' l kvs w rest more : client s -> all_written w more ->
  answered s s' l kvs w rest -> exchanged s s' [l] more rest.
Proof.
  intros [Hi Ht] Hw Han. pose proof (an_state _ _ _ _ _ _ Han) as Es. split.
  - split; [by rewrite Es|apply (an_tab _ _ _ _ _ _ Han)].
  - by rewrite Es.
  - by rewrite Es.
  - exact (an_rest _ _ _ _ _ _ Han).
Qed.

Lemma exchanged_trans s s1 s2 l1 l2 more1 more2 rest1 rest2 : exchanged s s1 l1 more1 rest1 ->
  exchanged s1 s2 l2 more2 rest2 -> exchanged s s2 (l1 ++ l2) more2 rest2.
Proof. intros [] []. split; [done| |done..]. by rewrite ex_sent1, ex_sent0, app_assoc. Qed.

(** A name and its key as the client takes them. *)
Record name_ok (K : list Z) (rank gid : Z) : Prop := {
  nm_rank : - 2 ^ 31 <= rank < 2 ^ 31; nm_gid : - 2 ^ 31 <= gid < 2 ^ 31;
  nm_chars : chars_ok K; nm_len : len K < 256 }.

Lemma name_texts K rank gid v : name_ok K rank gid -> len v < 255 ->
  word_ok K /\ word_ok (lc_key rank gid) /\ len (put_text K (lc_key rank gid) v) < PMIU_MAXLINE /\
  len (get_text K (lc_key rank gid)) < PMIU_MAXLINE.
Proof.
  intros [Hr Hg HK HKl] Hv. destruct (lc_key_word rank gid Hr Hg) as [Hkc Hkl].
  split; [split; [done|unfold MAXVALLEN; lia]|]. split; [split; [done|unfold MAXVALLEN; lia]|].
  unfold put_text, get_text. rewrite !len_app. change (len (str "cmd=put kvsname=")) with 16.
  change (len (str "cmd=get kvsname=")) with 16. change (len (str " key=")) with 5.
  change (len (str " value=")) with 7. change (len NL) with 1. unfold PMIU_MAXLINE. lia.
Qed.

Lemma barrier_exchange s more rest : client s -> all_written (ws s) (BARRIER :: more) ->
  incoming s (message barrier_reply ++ rest) ->
  exists s', PMI_Barrier s = Ok (PMI_SUCCESS, s') /\ exchanged s s' [BARRIER] more rest.
Proof.
  intros Hc (w & Ew & Hw) Hin. destruct (barrier_run s barrier_reply rest w) as (s' & E & Han); try done;
    [by destruct Hc| |by destruct Hc|exists s'; split; [done|by apply (answered_exchanged _ _ _ _ w _ _ Hc Hw) in Han]].
  split; [|split; by vm_compute]. repeat constructor; apply pair_dec; try done; by apply chars_dec_ok.
Qed.

(** lc_pm_publish: the put and the barrier. *)
Lemma publish_run s name rank gid valarr K v more rest :
  name_ok K rank gid -> chars_ok v -> len v < 255 -> holds_str name K -> holds_str valarr v ->
  client s -> all_written (ws s) (put_text K (lc_key rank gid) v :: BARRIER :: more) ->
  incoming s (message put_reply ++ message barrier_reply ++ rest) ->
  exists s', lc_pm_publish name rank gid valarr s = Ok (tt, s') /\
    exchanged s s' [put_text K (lc_key rank gid) v; BARRIER] more rest.
Proof.
  intros Hn Hv Hvl Hname Hval Hc (w & Ew & Hw) Hin.
  destruct (name_texts K rank gid v Hn Hvl) as (HK & Hk & Hpl & _).
  destruct (lc_key_array_run rank gid) as (karr & Eka & Hka); [by destruct Hn..|].
  destruct (put_run s name karr valarr K (lc_key rank gid) v put_reply (message barrier_reply ++ rest) w)
    as (s1 & E1 & Han); try done.
  { split; [done|unfold MAXVALLEN; lia]. }
  { destruct Hc. unfold SINGLETON_INIT_BUT_NO_PM in *. lia. }
  { split; [|split; by vm_compute]. repeat constructor; apply pair_dec; try done; by apply chars_dec_ok. }
  { by destruct Hc. }
  apply (answered_exchanged _ _ _ _ _ _ _ Hc Hw) in Han.
  destruct (barrier_exchange s1 more rest) as (s2 & E2 & Hex); [by destruct Han..|].
  exists s2. split; [|exact (exchanged_trans _ _ _ _ _ _ _ _ _ Han Hex)].
  unfold lc_pm_publish. rewrite Eka. erewrite st_bind_run by reflexivity.
  by rewrite (st_bind_run _ _ _ _ _ E1), (st_bind_run _ _ _ _ _ E2).
Qed.

(** lc_pm_getname: the value the process manager answers with. *)
Lemma getname_run s name rank gid value K v more rest :
  name_ok K rank gid -> chars_ok v -> len v < 255 -> holds_str name K -> 255 <= len value ->
  client s -> all_written (ws s) (get_text K (lc_key rank gid) :: more) ->
  incoming s (message (get_reply v) ++ rest) ->
  exists s' out, lc_pm_getname name rank gid value s = Ok (out, s') /\ holds_str out v /\
    len out = len value /\ exchanged s s' [get_text K (lc_key rank gid)] more rest.
Proof.
  intros Hn Hv Hvl Hname Hlen Hc (w & Ew & Hw) Hin.
  destruct (name_texts K rank gid v Hn Hvl) as (HK & Hk & _ & Hgl).
  destruct (lc_key_array_run rank gid) as (karr & Eka & Hka); [by destruct Hn..|].
  destruct (get_run s name karr value 255 K (lc_key rank gid) v (get_reply v) rest w)
    as (s1 & out & E & Hout & Hl & Han); try done; [by apply get_reply_ok|by destruct Hc|].
  exists s1, out. split; [|split; [done|split; [done|by apply (answered_exchanged _ _ _ _ _ _ _ Hc Hw) in Han]]].
  unfold lc_pm_getname. rewrite Eka. erewrite st_bind_run by reflexivity. by rewrite (st_bind_run _ _ _ _ _ E).
Qed.

(** C27: What one process publishes another gets.  With a process manager that keeps what is put
    under a key, lc_pm_publish sends the put of the key for the rank and number and enters the
    barrier, and lc_pm_getname of any process afterwards, whatever happened to other keys in
    between, fills its array with the value published. *)
Theorem pm_publish_getname {S} (serve : S -> list Z -> S * list Z) kvs K rank gid v name valarr value
    a b st st' ra rb :
  let k := lc_key rank gid in
  let s1 := serve st (put_text K k v) in
  let s2 := serve s1.1 BARRIER in
  pm_laws serve kvs K k v -> kvs st' K k = kvs s2.1 K k ->
  - 2 ^ 31 <= rank < 2 ^ 31 -> - 2 ^ 31 <= gid < 2 ^ 31 ->
  chars_ok K -> len K < 256 -> chars_ok v -> len v < 255 -> holds_str name K -> holds_str valarr v ->
  client a -> all_written (ws a) [put_text K k v; BARRIER] -> incoming a (s1.2 ++ s2.2 ++ ra) ->
  client b -> all_written (ws b) [get_text K k] -> incoming b ((serve st' (get_text K k)).2 ++ rb) ->
  255 <= len value ->
  exists a' b' out,
    lc_pm_publish name rank gid valarr a = Ok (tt, a') /\
    sent a' = sent a ++ [put_text K k v; BARRIER] /\ incoming a' ra /\
    lc_pm_getname name rank gid value b = Ok (out, b') /\ holds_str out v /\
    sent b' = sent b ++ [get_text K k] /\ incoming b' rb.
Proof.
  intros k s1 s2 [Lput Lget Lbar] Hst Hr Hg HK HKl Hv Hvl Hname Hval Ha Hwa Hain Hb Hwb Hbin Hlen.
  destruct (Lput st) as [Ep Kp]. fold s1 in Ep, Kp. destruct (Lbar s1.1) as [Eb Kb]. fold s2 in Eb, Kb.
  rewrite Kb, Kp in Hst. pose proof (Lget st' v Hst) as Eg. rewrite Ep, Eb in Hain. rewrite Eg in Hbin.
  assert (name_ok K rank gid) as Hn by done.
  destruct (publish_run a name rank gid valarr K v [] ra) as (a' & E1 & Hx1); try done.
  destruct (getname_run b name rank gid value K v [] rb) as (b' & out & E2 & Hout & _ & Hx2); try done.
  exists a', b', out. split; [done|]. split; [by destruct Hx1|]. split; [by destruct Hx1|].
  split; [done|]. split; [done|]. by destruct Hx2.
Qed.

(** A put whose text does not fit PMIU_MAXLINE is cut by snprintf and loses its newline; nothing
    is sent, and the client waits for an answer that does not come. *)
Theorem put_too_long kvsname key value K k v s fd :
  holds_str kvsname K -> holds_str key k -> holds_str value v -> word_ok K -> word_ok k -> word_ok v ->
  PMIU_MAXLINE <= len (put_text K k v) -> PMI_initialized s <> SINGLETON_INIT_BUT_NO_PM ->
  rd s = ReadState [] fd [] ->
  PMI_KVS_Put kvsname key value s = Err Spin.
Proof.
  intros EK Ek Ev HK Hk Hv Hl Hi Hrd. unfold PMI_KVS_Put.
  rewrite (st_bind_run _ _ s (PMI_initialized s) s) by done. rewrite (proj2 (Z.eqb_neq _ _) Hi).
  rewrite EK, Ek, Ev. do 3 (erewrite st_bind_run by reflexivity). rewrite put_text_message in *.
  destruct (message_line _ (put_pairs K k v HK Hk Hv)) as (m & Em & Hm & Hmz).
  destruct (snprintf_cut PMIU_MAXLINE _ ltac:(done) Hl) as (w & c & post & Es & Hlw & Ew).
  rewrite Es. erewrite st_bind_run by reflexivity.
  (* the part kept ends within the text before its newline *)
  assert (exists tl, m = w ++ tl) as (tl & Emw).
  { rewrite Em in Ew. exists (take (length m - length w) (c :: drop (Z.to_nat PMIU_MAXLINE) (m ++ [NEWLINE]))).
    assert (length w <= length m)%nat as Hle.
    { rewrite Em, len_app in Hl. change (len [NEWLINE]) with 1 in Hl. unfold len in *. lia. }
    rewrite <- (take_app_length m [NEWLINE]) at 1. rewrite <- Ew at 1.
    rewrite take_app_ge by done. done. }
  destruct w as [|x w0 _] using rev_ind; [done|]. rewrite Emw in Hm, Hmz.
  apply Forall_app in Hm as [Hm _]. apply Forall_app in Hmz as [Hmz _].
  apply Forall_app in Hm as [_ Hx]. rewrite Forall_singleton in Hx.
  unfold GetResponse.
  rewrite (st_bind_run _ _ s 0 (set_sent (ws s) (sent s) s)).
  2: { unfold pm_writeline. rewrite <- app_assoc. cbn [app].
       rewrite writeline_cut; [done|done|done|]. rewrite len_app in Hlw. change (len [x]) with 1 in Hlw. lia. }
  cbn [Z.eqb negb].
  unfold mbind, ST_bind, pm_readline. cbn [rd set_sent PMI_fd]. rewrite Hrd. done.
Qed.

(** ** Initialization *)

Definition init_text : list Z := str "cmd=init pmi_version=1 pmi_subversion=1" ++ [NEWLINE].
Definition maxes_text : list Z := str "cmd=get_maxes" ++ [NEWLINE].
Definition name_text : list Z := str "cmd=get_my_kvsname" ++ [NEWLINE].
Definition init_reply : list (list Z * list Z) :=
  [(str "cmd", str "response_to_init"); (str "pmi_version", str "1"); (str "pmi_subversion", str "1");
   (str "rc", str "0")].
Definition maxes_reply (a b c : Z) : list (list Z * list Z) :=
  [(str "cmd", str "maxes"); (str "kvsname_max", print_unsigned a); (str "keylen_max", print_unsigned b);
   (str "vallen_max", print_unsigned c)].
Definition name_reply (K : list Z) : list (list Z * list Z) :=
  [(str "cmd", str "my_kvsname"); (str "kvsname", K)].

Lemma number_word n : 0 <= n < 2 ^ 31 -> word_ok (print_unsigned n).
Proof. intros Hn. destruct (unsigned_chars n) as [H1 H2]; [lia|]. split; [done|unfold MAXVALLEN; lia]. Qed.

(** A number of the answer, read with atoi. *)
Lemma getint_run s k kvs buf n : table_gives (tab s) kvs -> Forall pair_ok kvs -> no_zero (str k) ->
  lookup_kv (str k) kvs = Some (print_unsigned n) -> 0 <= n < 2 ^ 31 -> len buf = PMIU_MAXLINE ->
  exists b, pm_getval k buf PMIU_MAXLINE s = Ok ((b, true), s) /\ atoi_of b s = Ok (n, s) /\
    len b = PMIU_MAXLINE.
Proof.
  intros Ht Hkvs Hk El Hn Hb. destruct (lookup_kv_ok _ _ _ Hkvs El) as [Hz Hl].
  pose proof (getval_run s k kvs buf PMIU_MAXLINE Ht Hk) as G. rewrite El in G.
  destruct G as (b & E & Eb & Hlb); try done; [lia|].
  exists b. split; [done|]. split; [|by rewrite Hlb]. unfold atoi_of. rewrite Eb.
  rewrite (st_bind_run _ _ s (print_unsigned n) s) by done. by rewrite atoi_print.
Qed.

Lemma maxes_reply_ok a b c : 0 <= a < 2 ^ 31 -> 0 <= b < 2 ^ 31 -> 0 <= c < 2 ^ 31 -> reply_ok (maxes_reply a b c).
Proof.
  intros Ha Hb Hc. destruct (unsigned_chars a) as [A1 A2]; [lia|]. destruct (unsigned_chars b) as [B1 B2]; [lia|].
  destruct (unsigned_chars c) as [C1 C2]; [lia|]. split; [|split; [by vm_compute|]].
  - repeat constructor; apply pair_dec; try done; try (by apply chars_dec_ok); unfold MAXVALLEN; lia.
  - replace (message (maxes_reply a b c)) with (str "cmd=maxes kvsname_max=" ++ print_unsigned a ++
      str " keylen_max=" ++ print_unsigned b ++ str " vallen_max=" ++ print_unsigned c ++ [NEWLINE])
      by reflexivity.
    rewrite !len_app. change (len (str "cmd=maxes kvsname_max=")) with 22.
    change (len (str " keylen_max=")) with 12. change (len (str " vallen_max=")) with 12.
    change (len [NEWLINE]) with 1. unfold PMIU_MAXLINE. lia.
Qed.

Lemma getmaxes_run s a b c rest w1 w2 : 0 <= a < 2 ^ 31 -> 0 <= b < 2 ^ 31 -> 0 <= c < 2 ^ 31 ->
  next_write (ws s) = Ok (Wrote (len init_text), w1) -> next_write w1 = Ok (Wrote (len maxes_text), w2) ->
  incoming s (message init_reply ++ message (maxes_reply a b c) ++ rest) -> tab_wf (tab s) ->
  exists s', PMII_getmaxes s = Ok (PMI_SUCCESS, s') /\ tab_wf (tab s') /\ incoming s' rest /\
    s' = set_tab (tab s') (set_rd (rd s') (set_maxes a b c
           (set_sent w2 (sent s ++ [init_text; maxes_text]) s))).
Proof.
  intros Ha Hb Hc Hw1 Hw2 Hin Hwf. unfold PMII_getmaxes.
  rewrite snprintf_fits by done. erewrite st_bind_run by reflexivity.
  set (w := str "cmd=init pmi_version=1 pmi_subversion=1").
  set (post := drop (S (length (w ++ NL))) (chars PMIU_MAXLINE)).
  replace ((w ++ NL) ++ 0 :: post) with (w ++ NEWLINE :: 0 :: post) by list_assoc.
  assert (len (w ++ NEWLINE :: 0 :: post) = PMIU_MAXLINE) as Hlb by reflexivity.
  destruct (exchange_run s w post init_reply (message (maxes_reply a b c) ++ rest) w1
    (0 :: tail (w ++ NEWLINE :: 0 :: post))) as
    (s1 & buf & n & s2 & s3 & E1 & E2 & Hn & Hbl & E3 & Han); try done; [by apply str_no_zero_dec|..].
  { split; [|split; by vm_compute]. repeat constructor; apply pair_dec; try done; by apply chars_dec_ok. }
  rewrite (st_bind_run _ _ _ _ _ E1). cbn [Z.eqb negb].
  rewrite (st_bind_run _ _ s1 (0 :: tail (w ++ NEWLINE :: 0 :: post)) s1) by reflexivity.
  rewrite (st_bind_run _ _ _ _ _ E2), (proj2 (Z.ltb_ge _ _)) by lia.
  rewrite (st_bind_run _ _ s2 tt s2) by done. rewrite (st_bind_run _ _ _ _ _ E3).
  pose proof (proj2 (an_tab _ _ _ _ _ _ Han)) as Hg.
  pose proof (getval_run s3 "cmd" init_reply (chars PMIU_MAXLINE) PMIU_MAXLINE Hg) as G.
  destruct G as (cn & Eg & Ecn & _); try done; [by apply str_no_zero_dec|by apply str_no_zero_dec|].
  rewrite (st_bind_run _ _ _ _ _ Eg). rewrite Ecn. rewrite (st_bind_run _ _ s3 (str "response_to_init") s3) by done.
  rewrite bool_decide_eq_true_2 by done. cbn [negb].
  pose proof (getval_run s3 "rc" init_reply buf PMIU_MAXLINE Hg) as G.
  destruct G as (b1 & Eg1 & Eb1 & Hb1); try done; try (by apply str_no_zero_dec); [by rewrite Hbl|].
  rewrite (st_bind_run _ _ s3 b1 s3).
  2: { rewrite (st_bind_run _ _ _ _ _ Eg1), Eb1. rewrite (st_bind_run _ _ s3 (str "0") s3) by done.
       by rewrite bool_decide_eq_true_2. }
  pose proof (an_state _ _ _ _ _ _ Han) as Es3.
  pose proof (maxes_reply_ok a b c Ha Hb Hc) as Hmr.
  destruct (get_response_run s3 (str "cmd=get_maxes") [] (maxes_reply a b c) "maxes" false rest w2)
    as (s4 & E4 & Han4); try done.
  { by apply str_no_zero_dec. } { by rewrite Es3. } { exact (an_rest _ _ _ _ _ _ Han). }
  { apply (an_tab _ _ _ _ _ _ Han). }
  change (line "cmd=get_maxes") with (str "cmd=get_maxes" ++ [NEWLINE; 0]).
  rewrite (st_bind_run _ _ _ _ _ E4), Z.eqb_refl.
  pose proof (proj2 (an_tab _ _ _ _ _ _ Han4)) as Hg4. destruct Hmr as (Hkvs & _).
  destruct (getint_run s4 "kvsname_max" _ b1 a Hg4 Hkvs) as (b2 & F1 & F2 & Hb2); try done;
    [by apply str_no_zero_dec|by rewrite Hb1|].
  rewrite (st_bind_run _ _ _ _ _ F1), (st_bind_run _ _ _ _ _ F2).
  destruct (getint_run s4 "keylen_max" _ b2 b Hg4 Hkvs) as (b3 & F3 & F4 & Hb3); try done;
    [by apply str_no_zero_dec|].
  rewrite (st_bind_run _ _ _ _ _ F3), (st_bind_run _ _ _ _ _ F4).
  destruct (getint_run s4 "vallen_max" _ b3 c Hg4 Hkvs) as (b4 & F5 & F6 & Hb4); try done;
    [by apply str_no_zero_dec|].
  rewrite (st_bind_run _ _ _ _ _ F5), (st_bind_run _ _ _ _ _ F6).
  eexists. split; [done|]. split; [apply (an_tab _ _ _ _ _ _ Han4)|].
  split; [exact (an_rest _ _ _ _ _ _ Han4)|].
  rewrite (an_state _ _ _ _ _ _ Han4). rewrite Es3. cbn. by rewrite <- app_assoc.
Qed.

Lemma name_reply_ok K : chars_ok K -> len K < 255 -> reply_ok (name_reply K).
Proof.
  intros HK HKl. split; [|split; [by vm_compute|]].
  - apply Forall_cons; split; [apply pair_dec; try done; by apply chars_dec_ok|].
    apply Forall_singleton. apply pair_dec; try done. unfold MAXVALLEN. lia.
  - replace (message (name_reply K)) with (str "cmd=my_kvsname kvsname=" ++ K ++ [NEWLINE]) by reflexivity.
    rewrite !len_app. change (len (str _)) with 23. change (len [NEWLINE]) with 1. unfold PMIU_MAXLINE. lia.
Qed.

Definition env_int (s : pmi) (name : string) (dflt : Z) : Z :=
  match env s !! name with Some p => atoi p | None => dflt end.

Lemma getenv_int_run s name dflt : getenv_int name dflt s = Ok (env_int s name dflt, s).
Proof. reflexivity. Qed.

Lemma getPMIFD_run s : getPMIFD s = Ok (0,
  match env s !! "PMI_FD"%string with Some p => set_fd (atoi p) (set_fd (-1) s) | None => set_fd (-1) s end).
Proof.
  unfold getPMIFD. rewrite (st_bind_run _ _ s tt (set_fd (-1) s)) by done.
  rewrite (st_bind_run _ _ (set_fd (-1) s) (env s !! "PMI_FD"%string) (set_fd (-1) s)) by done.
  by destruct (env s !! _).
Qed.

(** The state after getPMIFD in PMI_Init, before the descriptor is looked at. *)
Definition started (s : pmi) : pmi := set_fd (-1) (set_debug (env_int s "PMI_DEBUG" (PMI_debug s))
  (set_initialized PMI_UNINITIALIZED s)).

Lemma pmi_init_run s fd n r sb : env s !! "PMI_FD"%string = Some (print_signed fd) ->
  env s !! "PMI_SIZE"%string = Some (print_signed n) ->
  env s !! "PMI_RANK"%string = Some (print_signed r) ->
  0 <= fd < 2 ^ 31 -> 0 <= n < 2 ^ 31 -> 0 <= r < 2 ^ 31 ->
  PMII_getmaxes (set_debug (env_int s "PMI_DEBUG" 0) (set_group n r (set_fd fd (started s)))) =
    Ok (PMI_SUCCESS, sb) ->
  env sb = env s -> PMI_initialized sb = PMI_UNINITIALIZED ->
  PMI_Init s = Ok ((0, (if truth (env_int s "PMI_SPAWNED" 0) then 1 else 0, n, r)),
    set_env (fun e => <["PMI_FD"%string := print_signed (PMI_fd sb)]> e)
      (set_initialized NORMAL_INIT_WITH_PM (set_spawned (env_int s "PMI_SPAWNED" 0) sb))).
Proof.
  intros Efd En Er Hfd Hn Hr Eb Hbe Hbi.
  unfold PMI_Init. set (s1 := set_initialized PMI_UNINITIALIZED s).
  rewrite (st_bind_run _ _ s tt s1) by done. rewrite (st_bind_run _ _ s1 (PMI_debug s) s1) by done.
  rewrite (st_bind_run _ _ _ _ _ (getenv_int_run s1 _ _)).
  set (s2 := set_debug (env_int s1 "PMI_DEBUG" (PMI_debug s)) s1). rewrite (st_bind_run _ _ s1 tt s2) by done.
  rewrite (st_bind_run _ _ _ _ _ (getPMIFD_run s2)). cbn [env s2 s1 set_debug set_initialized].
  rewrite Efd, print_signed_nonneg, atoi_print by lia. fold s1 s2. set (s3 := set_fd fd (set_fd (-1) s2)).
  rewrite (st_bind_run _ _ s3 fd s3) by done. rewrite (proj2 (Z.eqb_neq fd (-1))) by lia.
  rewrite (st_bind_run _ _ _ _ _ (getenv_int_run s3 _ _)), (st_bind_run _ _ _ _ _ (getenv_int_run s3 _ _)).
  assert (env_int s3 "PMI_SIZE" 1 = n /\ env_int s3 "PMI_RANK" 0 = r) as [-> ->].
  { unfold env_int. cbn [env s3 s2 s1 set_fd set_debug set_initialized].
    by rewrite En, Er, !print_signed_nonneg, !atoi_print by lia. }
  rewrite (st_bind_run _ _ s3 tt (set_group n r s3)) by done.
  rewrite (st_bind_run _ _ _ _ _ (getenv_int_run _ _ _)). erewrite st_bind_run by reflexivity.
  rewrite (st_bind_run _ _ _ _ _ Eb), (st_bind_run _ _ _ _ _ (getenv_int_run sb _ _)).
  replace (env_int sb "PMI_SPAWNED" 0) with (env_int s "PMI_SPAWNED" 0) by (unfold env_int; by rewrite Hbe).
  set (sp := env_int s "PMI_SPAWNED" 0). rewrite (st_bind_run _ _ sb tt (set_spawned sp sb)) by done.
  by rewrite (st_bind_run _ _ (set_spawned sp sb) PMI_UNINITIALIZED (set_spawned sp sb))
    by (unfold st_get; cbn [PMI_initialized set_spawned]; by rewrite Hbi).
Qed.

Lemma pmi_init_alone s : env s !! "PMI_FD"%string = None -> PMI_Init s = Ok ((0, (0, 1, 0)),
  set_maxes 256 256 256 (set_initialized SINGLETON_INIT_BUT_NO_PM (set_group 1 0 (started s)))).
Proof.
  intros Efd. unfold PMI_Init. set (s1 := set_initialized PMI_UNINITIALIZED s).
  rewrite (st_bind_run _ _ s tt s1) by done. rewrite (st_bind_run _ _ s1 (PMI_debug s) s1) by done.
  rewrite (st_bind_run _ _ _ _ _ (getenv_int_run s1 _ _)).
  set (s2 := set_debug (env_int s1 "PMI_DEBUG" (PMI_debug s)) s1). rewrite (st_bind_run _ _ s1 tt s2) by done.
  rewrite (st_bind_run _ _ _ _ _ (getPMIFD_run s2)). cbn [env s2 s1 set_debug set_initialized].
  by rewrite Efd.
Qed.

Lemma my_name_run s name K rest w : client s -> 255 <= len name -> chars_ok K -> len K < 255 ->
  next_write (ws s) = Ok (Wrote (len name_text), w) -> incoming s (message (name_reply K) ++ rest) ->
  exists s' out, PMI_KVS_Get_my_name name 255 s = Ok ((PMI_SUCCESS, out), s') /\ holds_str out K /\
    answered s s' name_text (name_reply K) w rest.
Proof.
  intros [Hi Ht] Hname HK HKl Hw Hin.
  assert (word_ok K) as HKw by (split; [done|unfold MAXVALLEN; lia]).
  destruct (get_response_run s (str "cmd=get_my_kvsname") [] (name_reply K) "my_kvsname" false rest w)
    as (s' & E & Hand); try done. { by apply str_no_zero_dec. } { by apply name_reply_ok. }
  pose proof (getval_run s' "kvsname" (name_reply K) name 255 (proj2 (an_tab _ _ _ _ _ _ Hand))) as G.
  destruct G as (out & Eo & Hout & _); try done; [by apply str_no_zero_dec|by apply value_end_chars|].
  exists s', out. split; [|done].
  unfold PMI_KVS_Get_my_name. rewrite (st_bind_run _ _ s (PMI_initialized s) s) by done.
  rewrite (proj2 (Z.eqb_neq _ _)) by lia.
  change (line "cmd=get_my_kvsname") with (str "cmd=get_my_kvsname" ++ [NEWLINE; 0]).
  by rewrite (st_bind_run _ _ _ _ _ E), Z.eqb_refl, (st_bind_run _ _ _ _ _ Eo).
Qed.

Lemma my_name_alone s name : PMI_initialized s = SINGLETON_INIT_BUT_NO_PM -> 0 <= pid s < 2 ^ 31 ->
  255 <= len name -> exists out, PMI_KVS_Get_my_name name 255 s = Ok ((0, out), s) /\
    holds_str out (str "singinit_kvs_" ++ print_signed (pid s) ++ str "_0").
Proof.
  intros Hi Hpid Hname. destruct (signed_chars (pid s)) as [Hpc Hpl]; [lia|].
  set (text := str "singinit_kvs_" ++ print_signed (pid s) ++ str "_0").
  assert (len text < 255) as Htl.
  { unfold text. rewrite !len_app. change (len (str "singinit_kvs_")) with 13. change (len (str "_0")) with 2. lia. }
  assert (snprintf name 255 text = Ok (text ++ 0 :: drop (S (length text)) name)) as Esn.
  { unfold snprintf. unfold len in *. rewrite take_ge, (proj2 (Z.ltb_lt _ _)) by lia. done. }
  eexists. split.
  { unfold PMI_KVS_Get_my_name. rewrite (st_bind_run _ _ s _ s eq_refl), Hi.
    rewrite Z.eqb_refl, (st_bind_run _ _ s (pid s) s) by done. fold text. by rewrite Esn. }
  apply cstr_app. unfold text.
  apply Forall_app; split; [by apply str_no_zero_dec|].
  apply Forall_app; split; [by apply value_end_chars|by apply str_no_zero_dec].
Qed.

(** C28: lc_pm_master_init under a process manager: with the descriptor, the size and the rank in
    the environment it sends the three requests, takes over the maxima, gives the size and the
    rank and the name of the key space, and leaves a client of the process manager.  Without a
    descriptor nothing is sent and the process is a job of its own. *)
Theorem master_init s name rest :
  tab_wf (tab s) -> 255 <= len name < 2 ^ 31 ->
  (forall fd n r a b c K w1 w2 w3, env s !! "PMI_FD"%string = Some (print_signed fd) ->
     env s !! "PMI_SIZE"%string = Some (print_signed n) ->
     env s !! "PMI_RANK"%string = Some (print_signed r) ->
     0 <= fd < 2 ^ 31 -> 0 <= n < 2 ^ 31 -> 0 <= r < 2 ^ 31 ->
     0 <= a < 2 ^ 31 -> 0 <= b < 2 ^ 31 -> 0 <= c < 2 ^ 31 -> chars_ok K -> len K < 255 ->
     next_write (ws s) = Ok (Wrote (len init_text), w1) -> next_write w1 = Ok (Wrote (len maxes_text), w2) ->
     next_write w2 = Ok (Wrote (len name_text), w3) -> unread (rd s) = [] ->
     bytes (rd s) = message init_reply ++ message (maxes_reply a b c) ++ message (name_reply K) ++ rest ->
     exists s' out, lc_pm_master_init name s = Ok ((n, r, out), s') /\ holds_str out K /\
       sent s' = sent s ++ [init_text; maxes_text; name_text] /\ client s' /\ incoming s' rest /\
       PMI_fd s' = fd /\ PMI_kvsname_max s' = a /\ PMI_keylen_max s' = b /\ PMI_vallen_max s' = c /\
       PMI_Get_rank s' = Ok ((0, r), s') /\ PMI_Get_size s' = Ok ((0, n), s')) /\
  (env s !! "PMI_FD"%string = None -> 0 <= pid s < 2 ^ 31 ->
     exists s' out, lc_pm_master_init name s = Ok ((1, 0, out), s') /\
       holds_str out (str "singinit_kvs_" ++ print_signed (pid s) ++ str "_0") /\ sent s' = sent s /\
       rd s' = rd s).
Proof.
  intros Hwf Hname. split.
  - intros fd n r a b c K w1 w2 w3 Efd En Er Hfd Hn Hr Ha Hb Hc HK HKl Hw1 Hw2 Hw3 Hu Hin.
    set (sa := set_debug (env_int s "PMI_DEBUG" 0) (set_group n r (set_fd fd (started s)))).
    destruct (getmaxes_run sa a b c (message (name_reply K) ++ rest) w1 w2) as (sb & Eb & Hbw & Hbi & Hbs);
      try done; [split; [exact Hin|by left]|].
    pose proof (pmi_init_run s fd n r sb Efd En Er Hfd Hn Hr Eb) as Einit.
    specialize (Einit ltac:(by rewrite Hbs) ltac:(by rewrite Hbs)). set (sc := set_env _ _) in Einit.
    destruct (my_name_run sc name K rest w3) as (sd & out & Ename & Hout & Hand); try done; [lia|..].
    { unfold sc. cbn [ws set_env set_initialized set_spawned]. by rewrite Hbs. }
    exists sd, out. pose proof (an_state _ _ _ _ _ _ Hand) as Esd.
    assert (PMI_initialized sd = NORMAL_INIT_WITH_PM) as Hi by (by rewrite Esd).
    split.
    { unfold lc_pm_master_init. by rewrite (st_bind_run _ _ _ _ _ Einit), (st_bind_run _ _ _ _ _ Ename). }
    split; [done|]. split; [rewrite Esd; cbn; rewrite Hbs; cbn; by rewrite <- app_assoc|].
    split; [split; [by rewrite Hi|apply (an_tab _ _ _ _ _ _ Hand)]|].
    split; [exact (an_rest _ _ _ _ _ _ Hand)|].
    unfold PMI_Get_rank, PMI_Get_size.
    rewrite !(st_bind_run _ _ sd _ sd eq_refl), Hi.
    assert (PMI_fd sd = fd /\ PMI_kvsname_max sd = a /\ PMI_keylen_max sd = b /\ PMI_vallen_max sd = c /\
      PMI_rank sd = r /\ PMI_size sd = n) as (-> & -> & -> & -> & -> & ->)
      by (rewrite Esd; cbn; rewrite Hbs; done). done.
  - intros Efd Hpid. pose proof (pmi_init_alone s Efd) as Einit. set (sa := set_maxes _ _ _ _) in Einit.
    destruct (my_name_alone sa name) as (out & Ename & Hout); [done..|lia|].
    exists sa, out. split; [|done].
    unfold lc_pm_master_init. by rewrite (st_bind_run _ _ _ _ _ Einit), (st_bind_run _ _ _ _ _ Ename).
Qed.

(** ** Witnesses *)

Definition demo_client (rank : Z) (bytes_ : list Z) (ws_ : list write_result) : pmi :=
  Pmi 3 2 rank NORMAL_INIT_WITH_PM 256 256 256 0 0 [] [] keyval_tab0 ∅ 10
    (ReadState [] (-1) [ReadEintr; ReadData bytes_]) ws_ [] false.

Lemma keyval_tab0_wf : tab_wf keyval_tab0.
Proof. split; [done|]. apply Forall_replicate. split; reflexivity. Qed.

Definition demo_space : list Z := str "kvs_1234_0".
Definition demo_name : list Z := str "77-4096-3".
Definition demo_put : list Z := put_text demo_space (lc_key 1 0) demo_name.
Definition demo_get : list Z := get_text demo_space (lc_key 1 0).

(** A process manager that knows one key. *)
Definition demo_serve (st : option (list Z)) (req : list Z) : option (list Z) * list Z :=
  if decide (req = demo_put) then (Some demo_name, message put_reply)
  else if decide (req = BARRIER) then (st, message barrier_reply)
  else (st, message (get_reply (default [] st))).

Lemma demo_serve_laws : pm_laws demo_serve (fun st _ _ => st) demo_space (lc_key 1 0) demo_name.
Proof.
  split.
  - intros st. by vm_compute.
  - intros st w ->. by vm_compute.
  - intros st. by vm_compute.
Qed.

Lemma pm_publish_getname_witness :
  exists a' b' out,
    lc_pm_publish (demo_space ++ [0]) 1 0 (demo_name ++ [0])
      (demo_client 1 (message put_reply ++ message barrier_reply) [WriteEintr; Wrote (len demo_put); Wrote 15]) =
      Ok (tt, a') /\ sent a' = [demo_put; BARRIER] /\
    lc_pm_getname (demo_space ++ [0]) 1 0 (chars 256)
      (demo_client 0 (message (get_reply demo_name)) [Wrote (len demo_get)]) = Ok (out, b') /\
    holds_str out demo_name.
Proof.
  destruct (pm_publish_getname demo_serve (fun st _ _ => st) demo_space 1 0 demo_name (demo_space ++ [0])
    (demo_name ++ [0]) (chars 256)
    (demo_client 1 (message put_reply ++ message barrier_reply) [WriteEintr; Wrote (len demo_put); Wrote 15])
    (demo_client 0 (message (get_reply demo_name)) [Wrote (len demo_get)]) None (Some demo_name) [] [])
    as (a' & b' & out & E1 & Es & _ & E2 & Ho & _).
  - exact demo_serve_laws.
  - by vm_compute.
  - lia.
  - lia.
  - by apply chars_dec_ok.
  - by vm_compute.
  - by apply chars_dec_ok.
  - by vm_compute.
  - reflexivity.
  - reflexivity.
  - split; [reflexivity|exact keyval_tab0_wf].
  - exists [Wrote 15]. split; [reflexivity|]. exists []. split; [reflexivity|exact I].
  - split; [by vm_compute|by left].
  - split; [reflexivity|exact keyval_tab0_wf].
  - exists []. split; [reflexivity|exact I].
  - split; [by vm_compute|by left].
  - by vm_compute.
  - exists a', b', out. split; [exact E1|]. split; [exact Es|]. split; [exact E2|exact Ho].
Defined.

Lemma put_too_long_witness :
  PMI_KVS_Put (demo_space ++ [0]) (str "k" ++ [0]) (replicate 1000 120 ++ [0])
    (Pmi 3 2 1 NORMAL_INIT_WITH_PM 256 256 256 0 0 [] [] keyval_tab0 ∅ 10 (ReadState [] (-1) []) [] [] false) =
  Err Spin.
Proof.
  apply (put_too_long _ _ _ demo_space (str "k") (replicate 1000 120) _ (-1)).
  - reflexivity.
  - reflexivity.
  - by vm_compute.
  - split; [by apply chars_dec_ok|by vm_compute].
  - split; [by apply chars_dec_ok|by vm_compute].
  - split; [by apply chars_dec_ok|by vm_compute].
  - by vm_compute.
  - discriminate.
  - reflexivity.
Defined.

Lemma master_init_witness :
  exists s' out, lc_pm_master_init (chars 256)
    (Pmi 0 1 0 0 0 0 0 0 0 [] [] keyval_tab0
      (<["PMI_FD"%string := str "3"]> (<["PMI_SIZE"%string := str "4"]> (<["PMI_RANK"%string := str "2"]> ∅)))
      10 (ReadState [] (-1) [ReadData (message init_reply ++ message (maxes_reply 256 64 1024)); ReadEintr;
                             ReadData (message (name_reply demo_space))])
      [Wrote (len init_text); Wrote (len maxes_text); Wrote (len name_text)] [] false) = Ok ((4, 2, out), s') /\
    holds_str out demo_space /\ PMI_Get_rank s' = Ok ((0, 2), s').
Proof.
  set (s := Pmi _ _ _ _ _ _ _ _ _ _ _ _ _ _ _ _ _ _).
  destruct (proj1 (master_init s (chars 256) [] keyval_tab0_wf ltac:(by vm_compute)) 3 4 2 256 64 1024
    demo_space [Wrote (len maxes_text); Wrote (len name_text)] [Wrote (len name_text)] [])
    as (s' & out & E & Ho & _ & _ & _ & _ & _ & _ & _ & Hr & _); try lia; try reflexivity.
  - by apply chars_dec_ok.
  - exists s', out. split; [exact E|]. split; [exact Ho|exact Hr].
Defined.
