(* ===== verification/Lcrq.v ===== *)
(** * The concurrent ring queue (lcrq.c, include/lcrq.h)

    The steps of one thread: every fetch-and-add and compare-and-swap of the source is a
    step on the shared state, which no other thread changes between two of them.  The rings
    are objects in a store; dequeuing leaves them there, as in the source. *)
From stdpp Require Import gmap.
From S2P Require Import Prelude.

Definition RING_POW : Z := 17.
Definition RING_SIZE : Z := 2 ^ RING_POW.

(** [(uint64_t)-1], the value of a cell without an item. *)
Definition NO_VAL : Z := 2 ^ 64 - 1.
Definition BIT63 : Z := 2 ^ 63.

(** RingQueue; of the array the cells written since init_ring. *)
Record RingQueue : Type := Ring {
  rq_head : Z; rq_tail : Z; rq_next : Z; rq_array : gmap Z (Z * Z) }.

(** A cell: its [val] and [idx]. *)
Definition cell (r : RingQueue) (j : Z) : Z * Z := default (NO_VAL, j) (rq_array r !! j).

Definition init_ring : RingQueue := Ring 0 0 NULL ∅.

(** lcrq_t with its rings, the thread's spare ring [nrq] and the allocator. *)
Record lcrq_t : Type := Lcrq {
  rings : gmap Z RingQueue; q_head : Z; q_tail : Z; nrq : Z; q_brk : Z }.

Definition rq_set_head x r := Ring x (rq_tail r) (rq_next r) (rq_array r).
Definition rq_set_tail x r := Ring (rq_head r) x (rq_next r) (rq_array r).
Definition rq_set_next x r := Ring (rq_head r) (rq_tail r) x (rq_array r).
Definition rq_set_cell j c r := Ring (rq_head r) (rq_tail r) (rq_next r) (<[j := c]> (rq_array r)).

Definition q_set_rings f s := Lcrq (f (rings s)) (q_head s) (q_tail s) (nrq s) (q_brk s).

Notation QM := (ST lcrq_t).

Definition get_ring (a : Z) : QM RingQueue := fun s => st_lift (get_or NullDeref (rings s !! a)) s.
Definition put_ring (a : Z) (r : RingQueue) : QM unit := st_set (q_set_rings (fun m => <[a := r]> m)).

Definition is_empty (v : Z) : bool := v =? NO_VAL.
Definition node_index (i : Z) : Z := Z.land i (BIT63 - 1).
Definition set_unsafe (i : Z) : Z := Z.lor i BIT63.
Definition node_unsafe (i : Z) : Z := Z.land i BIT63.
Definition tail_index (t : Z) : Z := Z.land t (BIT63 - 1).
Definition crq_is_closed (t : Z) : bool := truth (Z.land t BIT63).

(** FAA64(&rq->tail, 1) and FAA64(&rq->head, 1) *)
Definition faa_tail (a : Z) : QM Z :=
  r ← get_ring a; _ ← put_ring a (rq_set_tail (u64 (rq_tail r + 1)) r); mret (rq_tail r).
Definition faa_head (a : Z) : QM Z :=
  r ← get_ring a; _ ← put_ring a (rq_set_head (u64 (rq_head r + 1)) r); mret (rq_head r).

(** CAS64 on the tail, on the next pointer, and CAS2 on a cell. *)
Definition cas_tail (a old new : Z) : QM bool :=
  r ← get_ring a;
  if rq_tail r =? old then _ ← put_ring a (rq_set_tail new r); mret true else mret false.
Definition cas_next (a old new : Z) : QM bool :=
  r ← get_ring a;
  if rq_next r =? old then _ ← put_ring a (rq_set_next new r); mret true else mret false.
Definition cas2 (a j : Z) (old new : Z * Z) : QM bool :=
  r ← get_ring a;
  if decide (cell r j = old) then _ ← put_ring a (rq_set_cell j new r); mret true
  else mret false.

(** BIT_TEST_AND_SET(&rq->tail, 63): whether the bit was clear. *)
Definition bit_test_and_set (a : Z) : QM bool :=
  r ← get_ring a;
  _ ← put_ring a (rq_set_tail (Z.lor (rq_tail r) BIT63) r);
  mret (negb (crq_is_closed (rq_tail r))).

Fixpoint fixState (fuel : nat) (a : Z) : QM unit :=
  match fuel with
  | O => st_fail Spin
  | S fuel =>
      r ← get_ring a;
      if rq_tail r <? rq_head r then
        cas_tail a (rq_tail r) (rq_head r) ≫= fun b : bool =>
          if b then mret tt else fixState fuel a
      else mret tt
  end.

Definition close_crq (a t tries : Z) : QM bool :=
  if tries <? 10 then cas_tail a (u64 (t + 1)) (Z.lor (u64 (t + 1)) BIT63)
  else bit_test_and_set a.

Definition q_malloc : QM Z := fun s =>
  Ok (q_brk s, Lcrq (<[q_brk s := init_ring]> (rings s)) (q_head s) (q_tail s) (nrq s) (q_brk s + 1)).

Definition lcrq_init : QM unit :=
  rq ← q_malloc;
  st_set (fun s => Lcrq (rings s) rq rq (nrq s) (q_brk s)).

(** Only the ring at the head is freed. *)
Definition lcrq_destroy : QM unit :=
  st_set (fun s => q_set_rings (delete (q_head s)) s).

(** The code at [alloc]: whether the item went into a new ring behind [rq]. *)
Definition solo_enqueue (rq arg : Z) : QM bool :=
  n ← st_get nrq;
  _ ← (if n =? NULL then
         n ← q_malloc;
         st_set (fun s => Lcrq (rings s) (q_head s) (q_tail s) n (q_brk s))
       else mret tt);
  n ← st_get nrq;
  r ← get_ring n;
  _ ← put_ring n (rq_set_cell 0 (arg, 0) (rq_set_tail 1 r));
  cas_next rq NULL n ≫= fun b : bool =>
    if b then
      _ ← st_set (fun s => Lcrq (rings s) (q_head s) (q_tail s) NULL (q_brk s)); mret true
    else mret false.

(** The loop of lcrq_enqueue; [tail] is its local variable. *)
Fixpoint enqueue_loop (fuel : nat) (arg tail try_close : Z) : QM unit :=
  match fuel with
  | O => st_fail Spin
  | S fuel =>
      let alloc := solo_enqueue tail arg ≫= fun b : bool =>
        if b then mret tt else enqueue_loop fuel arg tail try_close in
      r ← get_ring tail;
      if truth (rq_next r) then enqueue_loop fuel arg (rq_next r) try_close
      else
        t ← faa_tail tail;
        if crq_is_closed t then alloc
        else
          r ← get_ring tail;
          let j := Z.land t (RING_SIZE - 1) in
          let '(val, idx) := cell r j in
          (if is_empty val && (node_index idx <=? t) &&
              (negb (truth (node_unsafe idx)) || (rq_head r <? t))
           then cas2 tail j (NO_VAL, idx) (arg, t) else mret false) ≫= fun stored : bool =>
          if stored then mret tt
          else
            r ← get_ring tail;
            if RING_SIZE <=? i64 (u64 (t - rq_head r)) then
              close_crq tail t (try_close + 1) ≫= fun closed : bool =>
                if closed then
                  solo_enqueue tail arg ≫= fun b : bool =>
                    if b then mret tt else enqueue_loop fuel arg tail (try_close + 1)
                else enqueue_loop fuel arg tail (try_close + 1)
            else enqueue_loop fuel arg tail try_close
  end.

Definition lcrq_enqueue (fuel : nat) (arg : Z) : QM unit :=
  tail ← st_get q_tail;
  enqueue_loop fuel arg tail 0.

(** The inner loop of lcrq_dequeue at the cell of [h]: [Some] is the value returned,
    [None] a break. *)
Fixpoint dequeue_cell (fuel : nat) (rq h tt_ r_ : Z) : QM (option Z) :=
  match fuel with
  | O => st_fail Spin
  | S fuel =>
      let j := Z.land h (RING_SIZE - 1) in
      r ← get_ring rq;
      let '(val, cell_idx) := cell r j in
      let unsafe := node_unsafe cell_idx in
      let idx := node_index cell_idx in
      if h <? idx then mret None
      else if negb (is_empty val) then
        if idx =? h then
          cas2 rq j (val, cell_idx) (NO_VAL, Z.lor unsafe (u64 (h + RING_SIZE))) ≫= fun b : bool =>
            if b then mret (Some val) else dequeue_cell fuel rq h tt_ r_
        else
          cas2 rq j (val, cell_idx) (val, set_unsafe idx) ≫= fun b : bool =>
            if b then mret None else dequeue_cell fuel rq h tt_ r_
      else
        let tt_ := if Z.land r_ 1023 =? 0 then rq_tail r else tt_ in
        if truth unsafe then
          cas2 rq j (val, cell_idx) (val, Z.lor unsafe (u64 (h + RING_SIZE))) ≫= fun b : bool =>
            if b then mret None else dequeue_cell fuel rq h tt_ r_
        else if (tail_index tt_ <? u64 (h + 1)) || (200000 <? r_) || crq_is_closed tt_ then
          cas2 rq j (val, idx) (val, u64 (h + RING_SIZE)) ≫= fun b : bool =>
            if b then
              _ ← (if (200000 <? r_) && (RING_SIZE <? tt_)
                   then _ ← bit_test_and_set rq; mret tt else mret tt);
              mret None
            else dequeue_cell fuel rq h tt_ r_
        else dequeue_cell fuel rq h tt_ (r_ + 1)
  end.

(** The outer loop; NULL when the queue is empty. *)
Fixpoint dequeue_loop (fuel : nat) : QM Z :=
  match fuel with
  | O => st_fail Spin
  | S fuel =>
      rq ← st_get q_head;
      h ← faa_head rq;
      o ← dequeue_cell fuel rq h 0 0;
      match o with
      | Some val => mret val
      | None =>
          r ← get_ring rq;
          if tail_index (rq_tail r) <=? u64 (h + 1) then
            _ ← fixState fuel rq;
            r ← get_ring rq;
            if rq_next r =? NULL then mret NULL
            else
              _ ← (if tail_index (rq_tail r) <=? u64 (h + 1)
                   then st_set (fun s => if q_head s =? rq
                          then Lcrq (rings s) (rq_next r) (q_tail s) (nrq s) (q_brk s) else s)
                   else mret tt);
              dequeue_loop fuel
          else dequeue_loop fuel
      end
  end.

Definition lcrq_dequeue (fuel : nat) : QM Z :=
  rq ← st_get q_head;
  r ← get_ring rq;
  if (tail_index (rq_tail r) <? u64 (rq_head r + 1)) && (rq_next r =? NULL) then mret NULL
  else dequeue_loop fuel.
