(* ===== verification/LcrqSpec.v ===== *)
(** * The ring queue is a queue (about Lcrq.v) *)
From stdpp Require Import gmap.
From S2P Require Import Prelude Lcrq.

(** ** The closed bit *)

Lemma land_bit63 i : 0 <= i < BIT63 -> Z.land i BIT63 = 0.
Proof.
  intros Hi. apply Z.bits_inj'. intros k Hk. rewrite Z.land_spec, Z.bits_0. unfold BIT63 in *.
  rewrite Z.pow2_bits_eqb by lia. destruct (Z.eqb_spec 63 k) as [<-|]; [|apply andb_false_r].
  rewrite (Z.bits_above_log2 i 63); [done|lia|].
  destruct (Z.eq_dec i 0) as [->|]; [done|]. apply Z.log2_lt_pow2; lia.
Qed.

Lemma index_small i : 0 <= i < BIT63 -> node_index i = i.
Proof. intros Hi. unfold node_index, BIT63 in *. rewrite land_mask by lia. by apply Z.mod_small. Qed.

Lemma index_closed i : 0 <= i < BIT63 -> tail_index (Z.lor i BIT63) = i.
Proof.
  intros Hi. unfold tail_index. rewrite Z.land_lor_distr_l.
  change (Z.land BIT63 (BIT63 - 1)) with 0. rewrite Z.lor_0_r. by apply index_small.
Qed.

Lemma open_small i : 0 <= i < BIT63 -> crq_is_closed i = false.
Proof. intros Hi. unfold crq_is_closed. by rewrite land_bit63. Qed.

Lemma closed_bit i : 0 <= i < BIT63 -> crq_is_closed (Z.lor i BIT63) = true.
Proof.
  intros Hi. unfold crq_is_closed. rewrite Z.land_lor_distr_l, land_bit63 by done. done.
Qed.

Lemma closed_value i : 0 <= i < BIT63 -> Z.lor i BIT63 = i + BIT63.
Proof.
  intros Hi. rewrite Z.add_nocarry_lxor, Z.lxor_lor; by rewrite ?land_bit63.
Qed.

Lemma slot_mod i : Z.land i (RING_SIZE - 1) = i mod RING_SIZE.
Proof. apply land_mask. done. Qed.

(** ** Rings *)

Definition len (l : list Z) : Z := Z.of_nat (length l).

(** The cells from the head on: the items and then free cells, each with its index. *)
Definition cells_hold (r : RingQueue) (its : list Z) : Prop :=
  forall k, 0 <= k < RING_SIZE ->
    cell r ((rq_head r + k) mod RING_SIZE) =
    (from_option id NO_VAL (its !! Z.to_nat k), rq_head r + k).

Record ring_rep (r : RingQueue) (its : list Z) (n : Z) : Prop := {
  rr_head : 0 <= rq_head r;
  rr_len : len its <= RING_SIZE;
  rr_bound : rq_head r + len its + 1 <= n;
  rr_items : Forall (fun v => v <> NO_VAL) its;
  rr_cells : cells_hold r its }.

(** An open ring ends behind its items; a closed one has one index more, without an item. *)
Definition ring_open (r : RingQueue) (its : list Z) : Prop := rq_tail r = rq_head r + len its.
Definition ring_closed (r : RingQueue) (its : list Z) : Prop :=
  rq_tail r = Z.lor (rq_head r + len its + 1) BIT63.

(** The rings from the head on with their items; all but the first have some. *)
Fixpoint live (m : gmap Z RingQueue) (as_ : list Z) (segs : list (list Z)) (n : Z) : Prop :=
  match as_, segs with
  | [a], [its] => exists r, m !! a = Some r /\ ring_rep r its n /\ ring_open r its
  | a :: as_, its :: segs => (exists r, m !! a = Some r /\ ring_rep r its n /\ ring_closed r its) /\
      hd [] segs <> [] /\ live m as_ segs n
  | _, _ => False
  end.

(** The next pointers lead from ring to ring. *)
Fixpoint linked (m : gmap Z RingQueue) (as_ : list Z) : Prop :=
  match as_ with
  | [] => True
  | a :: as_ => (exists r, m !! a = Some r /\ rq_next r = hd NULL as_) /\ linked m as_
  end.

(** The queue [s] holds [l]: [old] rings are left behind, [k] there are in all, and no index
    has passed [n]. *)
Record lcrq_rep (s : lcrq_t) (l : list Z) (k : nat) (n : Z) : Prop := {
  lr_rings : exists old as_ segs, linked (rings s) (old ++ as_) /\ live (rings s) as_ segs n /\
    l = concat segs /\ q_tail s = hd NULL (old ++ as_) /\ q_head s = hd NULL as_ /\
    NoDup (old ++ as_) /\ Forall (fun a => 0 < a < q_brk s) (old ++ as_) /\ length (old ++ as_) = k;
  lr_nrq : nrq s = NULL;
  lr_brk : 0 < q_brk s }.

Lemma mod_inj h k1 k2 : 0 <= k1 < RING_SIZE -> 0 <= k2 < RING_SIZE ->
  (h + k1) mod RING_SIZE = (h + k2) mod RING_SIZE -> k1 = k2.
Proof.
  intros H1 H2 E. assert ((k1 - k2) mod RING_SIZE = 0) as E0.
  { replace (k1 - k2) with ((h + k1) - (h + k2)) by lia.
    by rewrite Zminus_mod, E, Z.sub_diag. }
  apply Z.mod_divide in E0 as [c Hc]; [|done]. destruct (Z.eq_dec c 0) as [->|]; [lia|].
  unfold RING_SIZE in *. nia.
Qed.

Lemma cell_set_eq r j c : cell (rq_set_cell j c r) j = c.
Proof. unfold cell. cbn [rq_array rq_set_cell]. by rewrite lookup_insert_eq. Qed.
Lemma cell_set_ne r j j' c : j <> j' -> cell (rq_set_cell j c r) j' = cell r j'.
Proof. intros H. unfold cell. cbn [rq_array rq_set_cell]. by rewrite lookup_insert_ne. Qed.

Lemma ring_rep_mono r its n n' : n <= n' -> ring_rep r its n -> ring_rep r its n'.
Proof. intros Hn []. split; try done. lia. Qed.

(** An item goes into the cell at the tail. *)
Lemma rq_push r its n v t : ring_rep r its n -> t = rq_head r + len its -> len its < RING_SIZE ->
  v <> NO_VAL ->
  let r' := rq_set_cell (t mod RING_SIZE) (v, t) (rq_set_tail (t + 1) r) in
  ring_rep r' (its ++ [v]) (n + 1) /\ ring_open r' (its ++ [v]).
Proof.
  intros [H0 H1 H2 H3 H4] -> Hlt Hv r'. subst r'.
  assert (len (its ++ [v]) = len its + 1) as El by (unfold len; rewrite length_app; cbn; lia).
  split; [split; rewrite ?El; cbn; try done; try lia|unfold ring_open; rewrite El; cbn; lia].
  - by apply Forall_app; split; [|repeat constructor].
  - intros k Hk. cbn [rq_head rq_set_cell rq_set_tail].
    destruct (decide (k = len its)) as [->|Hne].
    + rewrite cell_set_eq. unfold len. by rewrite Nat2Z.id, list_lookup_middle.
    + rewrite cell_set_ne.
      * replace (cell (rq_set_tail (rq_head r + len its + 1) r)) with (cell r) by done.
        rewrite (H4 k Hk). do 2 f_equal. unfold len in *.
        destruct (Z.lt_ge_cases k (Z.of_nat (length its))).
        -- by rewrite lookup_app_l by lia.
        -- rewrite !lookup_ge_None_2; [done| |]; rewrite ?length_app; cbn; lia.
      * intros E. apply mod_inj in E; [|unfold len in *; lia..]. lia.
Qed.

(** The item at the head leaves its cell. *)
Lemma rq_pop r v its n : ring_rep r (v :: its) n ->
  ring_rep (rq_set_cell (rq_head r mod RING_SIZE) (NO_VAL, rq_head r + RING_SIZE)
    (rq_set_head (rq_head r + 1) r)) its (n + 1).
Proof.
  intros [H0 H1 H2 H3 H4]. assert (len (v :: its) = 1 + len its) as El by (unfold len; cbn; lia).
  split; cbn [rq_head rq_set_cell rq_set_head]; try lia; [by inversion H3|].
  intros k Hk. cbn [rq_head rq_set_cell rq_set_head].
  replace (rq_head r + 1 + k) with (rq_head r + (k + 1)) by lia.
  destruct (decide (k + 1 = RING_SIZE)) as [E|Hne].
  - rewrite E. replace ((rq_head r + RING_SIZE) mod RING_SIZE) with (rq_head r mod RING_SIZE)
      by (rewrite <- (Z_mod_plus_full (rq_head r) 1 RING_SIZE); f_equal; lia).
    rewrite cell_set_eq. rewrite lookup_ge_None_2; [done|]. unfold len in *. lia.
  - rewrite cell_set_ne.
    + replace (cell (rq_set_head (rq_head r + 1) r)) with (cell r) by done.
      rewrite (H4 (k + 1)) by lia. do 2 f_equal.
      by replace (Z.to_nat (k + 1)) with (S (Z.to_nat k)) by lia.
    + rewrite <- (Z.add_0_r (rq_head r)) at 1. intros E. apply mod_inj in E; unfold RING_SIZE in *; lia.
Qed.

Lemma ring_first r v its n : ring_rep r (v :: its) n ->
  cell r (rq_head r mod RING_SIZE) = (v, rq_head r) /\ v <> NO_VAL.
Proof.
  intros [H0 H1 H2 H3 H4]. split; [|by inversion H3].
  specialize (H4 0 ltac:(done)). by rewrite !Z.add_0_r in H4.
Qed.

Lemma init_ring_rep v n : v <> NO_VAL -> 2 <= n ->
  ring_rep (rq_set_cell 0 (v, 0) (rq_set_tail 1 init_ring)) [v] n /\
  ring_open (rq_set_cell 0 (v, 0) (rq_set_tail 1 init_ring)) [v].
Proof.
  intros Hv Hn. split; [|done]. split; cbn; try done; [by repeat constructor|].
  intros k Hk. cbn [rq_head rq_set_cell rq_set_tail init_ring]. rewrite Z.add_0_l, Z.mod_small by done.
  destruct (decide (k = 0)) as [->|Hne]; [by rewrite cell_set_eq|].
  rewrite cell_set_ne by congruence. rewrite lookup_ge_None_2 by (cbn; lia). unfold cell. cbn.
  by rewrite lookup_empty.
Qed.

(** ** Runs *)

Definition set_ring (a : Z) (r : RingQueue) : lcrq_t -> lcrq_t := q_set_rings (fun m => <[a := r]> m).

Lemma run_get_ring s a r : rings s !! a = Some r -> get_ring a s = Ok (r, s).
Proof. intros E. unfold get_ring. by rewrite E. Qed.

Lemma ring_set_eq s a r : rings (set_ring a r s) !! a = Some r.
Proof. apply lookup_insert_eq. Qed.

Lemma set_ring_twice s a r1 r2 : set_ring a r2 (set_ring a r1 s) = set_ring a r2 s.
Proof. unfold set_ring, q_set_rings. cbn. by rewrite insert_insert_eq. Qed.

Lemma run_faa_tail s a r : rings s !! a = Some r ->
  faa_tail a s = Ok (rq_tail r, set_ring a (rq_set_tail (u64 (rq_tail r + 1)) r) s).
Proof. intros E. unfold faa_tail. by rewrite (st_bind_run _ _ _ _ _ (run_get_ring _ _ _ E)). Qed.

Lemma run_faa_head s a r : rings s !! a = Some r ->
  faa_head a s = Ok (rq_head r, set_ring a (rq_set_head (u64 (rq_head r + 1)) r) s).
Proof. intros E. unfold faa_head. by rewrite (st_bind_run _ _ _ _ _ (run_get_ring _ _ _ E)). Qed.

Lemma run_cas2 s a r j old new : rings s !! a = Some r -> cell r j = old ->
  cas2 a j old new s = Ok (true, set_ring a (rq_set_cell j new r) s).
Proof.
  intros E Ec. unfold cas2. rewrite (st_bind_run _ _ _ _ _ (run_get_ring _ _ _ E)).
  by rewrite decide_True.
Qed.

Lemma run_cas_tail s a r new : rings s !! a = Some r ->
  cas_tail a (rq_tail r) new s = Ok (true, set_ring a (rq_set_tail new r) s).
Proof.
  intros E. unfold cas_tail. rewrite (st_bind_run _ _ _ _ _ (run_get_ring _ _ _ E)).
  by rewrite Z.eqb_refl.
Qed.

(** ** Insertion *)

(** At an open last ring with room. *)
Lemma enqueue_room fuel v a try_close s r its n : rings s !! a = Some r -> rq_next r = NULL ->
  ring_rep r its n -> ring_open r its -> n + RING_SIZE < 2 ^ 62 -> len its < RING_SIZE ->
  v <> NO_VAL ->
  exists r', enqueue_loop (S fuel) v a try_close s = Ok (tt, set_ring a r' s) /\
    ring_rep r' (its ++ [v]) (n + 1) /\ ring_open r' (its ++ [v]) /\ rq_next r' = NULL.
Proof.
  intros Er Hnx Hr Ho Hn Hlt Hv. pose proof Hr as [H0 H1 H2 H3 H4]. cbn [enqueue_loop].
  assert (0 <= len its) as Hl by (unfold len; lia). unfold ring_open in Ho.
  rewrite (st_bind_run _ _ _ _ _ (run_get_ring _ _ _ Er)), Hnx. cbn [truth NULL Z.eqb negb].
  rewrite (st_bind_run _ _ _ _ _ (run_faa_tail _ _ _ Er)).
  rewrite open_small by (unfold BIT63; lia).
  rewrite (st_bind_run _ _ _ _ _ (run_get_ring _ _ _ (ring_set_eq _ _ _))).
  set (t := rq_tail r) in *. set (r1 := rq_set_tail (u64 (t + 1)) r).
  rewrite slot_mod. pose proof (H4 (len its) ltac:(lia)) as Hc.
  rewrite <- Ho, lookup_ge_None_2 in Hc by (unfold len; lia). cbn [from_option] in Hc.
  replace (cell r1) with (cell r) by done. rewrite Hc.
  rewrite index_small by (unfold BIT63; lia). unfold node_unsafe. rewrite land_bit63 by (unfold BIT63; lia).
  rewrite Z.leb_refl. cbn [is_empty truth Z.eqb negb andb orb].
  change (is_empty NO_VAL) with true. cbn [andb].
  rewrite (st_bind_run _ _ _ _ _ (run_cas2 (set_ring a r1 s) a r1 (t mod RING_SIZE) (NO_VAL, t) (v, t)
    (ring_set_eq _ _ _) Hc)).
  eexists. rewrite set_ring_twice. split; [done|].
  subst r1. rewrite u64_small by lia. split_and!; [|apply (rq_push r its n v t); done|done].
  by apply (rq_push r its n v t).
Qed.

(** A new ring with the item, behind the ring [a]. *)
Lemma run_solo s a r v : nrq s = NULL -> rings s !! a = Some r -> rq_next r = NULL ->
  q_brk s <> a -> q_brk s <> NULL ->
  exists s', solo_enqueue a v s = Ok (true, s') /\
    rings s' = <[a := rq_set_next (q_brk s) r]>
                 (<[q_brk s := rq_set_cell 0 (v, 0) (rq_set_tail 1 init_ring)]> (rings s)) /\
    q_head s' = q_head s /\ q_tail s' = q_tail s /\ nrq s' = NULL /\ q_brk s' = q_brk s + 1.
Proof.
  intros Hq Er Hnx Hne Hnn. unfold solo_enqueue.
  rewrite (st_bind_run _ _ s NULL s) by (unfold st_get; by rewrite Hq). cbn [Z.eqb NULL].
  set (b := q_brk s) in *.
  set (s1 := Lcrq (<[b := init_ring]> (rings s)) (q_head s) (q_tail s) b (b + 1)).
  rewrite (st_bind_run _ _ s tt s1) by done.
  rewrite (st_bind_run _ _ s1 b s1) by done.
  rewrite (st_bind_run _ _ _ _ _ (run_get_ring s1 b init_ring (lookup_insert_eq _ _ _))).
  set (nr := rq_set_cell 0 (v, 0) (rq_set_tail 1 init_ring)).
  rewrite (st_bind_run _ _ s1 tt (set_ring b nr s1)) by done.
  assert (rings (set_ring b nr s1) !! a = Some r) as Er1.
  { cbn [rings set_ring q_set_rings s1]. by rewrite !lookup_insert_ne. }
  rewrite (st_bind_run _ _ (set_ring b nr s1) true (set_ring a (rq_set_next b r) (set_ring b nr s1))).
  2: { unfold cas_next. rewrite (st_bind_run _ _ _ _ _ (run_get_ring _ _ _ Er1)), Hnx. done. }
  eexists. split; [done|]. cbn. split; [|done]. by rewrite insert_insert_eq.
Qed.

(** At an open last ring without room: it is closed. *)
Lemma enqueue_full fuel v a s r its n : rings s !! a = Some r -> rq_next r = NULL ->
  ring_rep r its n -> ring_open r its -> n + RING_SIZE < 2 ^ 62 -> len its = RING_SIZE ->
  nrq s = NULL -> q_brk s <> a -> q_brk s <> NULL ->
  exists s', enqueue_loop (S fuel) v a 0 s = Ok (tt, s') /\
    rings s' = <[a := rq_set_next (q_brk s) (rq_set_tail (Z.lor (rq_head r + len its + 1) BIT63) r)]>
                 (<[q_brk s := rq_set_cell 0 (v, 0) (rq_set_tail 1 init_ring)]> (rings s)) /\
    q_head s' = q_head s /\ q_tail s' = q_tail s /\ nrq s' = NULL /\ q_brk s' = q_brk s + 1.
Proof.
  intros Er Hnx Hr Ho Hn Hfull Hq Hne Hnn. pose proof Hr as [H0 H1 H2 H3 H4]. cbn [enqueue_loop].
  unfold ring_open in Ho.
  rewrite (st_bind_run _ _ _ _ _ (run_get_ring _ _ _ Er)), Hnx. cbn [truth NULL Z.eqb negb].
  rewrite (st_bind_run _ _ _ _ _ (run_faa_tail _ _ _ Er)).
  assert (0 <= rq_tail r < BIT63) as Ht by (unfold BIT63, RING_SIZE in *; lia).
  rewrite (open_small _ Ht).
  set (r1 := rq_set_tail (u64 (rq_tail r + 1)) r). set (s1 := set_ring a r1 s).
  assert (rings s1 !! a = Some r1) as Er1 by apply ring_set_eq.
  rewrite (st_bind_run _ _ _ _ _ (run_get_ring _ _ _ Er1)), slot_mod.
  destruct its as [|v0 its]; [done|].
  destruct (ring_first _ _ _ _ Hr) as [Hc Hv0].
  assert (cell r1 (rq_tail r mod RING_SIZE) = (v0, rq_head r)) as Hc1.
  { replace (cell r1) with (cell r) by done. rewrite Ho, Hfull.
    replace ((rq_head r + RING_SIZE) mod RING_SIZE) with (rq_head r mod RING_SIZE); [done|].
    by rewrite <- (Z_mod_plus_full (rq_head r) 1 RING_SIZE), Z.mul_1_l. }
  rewrite Hc1. cbn [fst snd]. unfold is_empty. rewrite (proj2 (Z.eqb_neq _ _) Hv0). cbn [andb].
  rewrite (st_bind_run _ _ s1 false s1) by done.
  rewrite (st_bind_run _ _ _ _ _ (run_get_ring _ _ _ Er1)).
  replace (i64 (u64 (rq_tail r - rq_head r1))) with RING_SIZE.
  2: { cbn [rq_head rq_set_tail r1]. rewrite Ho, Hfull.
       replace (rq_head r + RING_SIZE - rq_head r) with RING_SIZE by lia. done. }
  rewrite Z.leb_refl. unfold close_crq. cbn [Z.add Z.ltb Z.compare].
  change (0 + 1 <? 10) with true. cbn iota.
  rewrite (st_bind_run _ _ _ _ _ (run_cas_tail s1 a r1 _ Er1)).
  unfold s1; rewrite set_ring_twice. set (r2 := rq_set_tail (Z.lor (u64 (rq_tail r + 1)) BIT63) r1).
  destruct (run_solo (set_ring a r2 s) a r2 v) as (s' & E & Erings & Eh & Et & Eq & Eb);
    try done; [apply ring_set_eq|].
  rewrite (st_bind_run _ _ _ _ _ E). exists s'. split; [done|]. split; [|done].
  rewrite Erings. cbn [rings set_ring q_set_rings q_brk]. rewrite (insert_insert_ne _ (q_brk s) a) by done.
  rewrite insert_insert_eq. do 2 f_equal. unfold r2, r1. cbn. rewrite u64_small, Ho; [done|].
  unfold BIT63 in Ht. lia.
Qed.

(** ** Chains *)

Lemma linked_upd m l a r r' : linked m l -> m !! a = Some r -> rq_next r' = rq_next r ->
  linked (<[a := r']> m) l.
Proof.
  intros Hl Er Hn. induction l as [|b l IH]; [done|]. destruct Hl as [(rb & Eb & Hb) Hl].
  split; [|by apply IH]. destruct (decide (a = b)) as [<-|Hne].
  - exists r'. rewrite lookup_insert_eq. split; [done|]. rewrite Hn. congruence.
  - exists rb. by rewrite lookup_insert_ne.
Qed.

Lemma linked_agree m m' pre z l l' : linked m (pre ++ z :: l) ->
  Forall (fun a => m' !! a = m !! a) pre -> linked m' (z :: l') -> linked m' (pre ++ z :: l').
Proof.
  intros Hl Hag Hz. induction Hag as [|a pre Ha Hag IH]; [done|].
  destruct Hl as [(r & Er & Hn) Hl]. split; [|by apply IH].
  exists r. rewrite Ha. split; [done|]. rewrite Hn. by destruct pre.
Qed.

Lemma live_agree m m' as_ segs n n' : live m as_ segs n -> n <= n' ->
  Forall (fun a => m' !! a = m !! a) as_ -> live m' as_ segs n'.
Proof.
  intros Hl Hn Hag. revert segs Hl. induction Hag as [|a as_ Ha Hag IH]; intros segs Hl; [done|].
  destruct as_ as [|a2 as_], segs as [|its [|i2 segs]]; try done; try by destruct Hl as (_ & ? & ?).
  - destruct Hl as (r & Er & Hr & Ho). exists r. rewrite Ha. by eauto using ring_rep_mono.
  - destruct Hl as ((r & Er & Hr & Ho) & Hne & Hl). split_and!; [|done|by apply IH].
    exists r. rewrite Ha. by eauto using ring_rep_mono.
Qed.

(** The last ring is open, and what replaces it may be longer. *)
Lemma live_last m as_ segs n : live m as_ segs n ->
  exists init z isegs its r, as_ = init ++ [z] /\ segs = isegs ++ [its] /\ m !! z = Some r /\
    ring_rep r its n /\ ring_open r its /\
    forall m' n' as2 segs2, live m' as2 segs2 n' -> n <= n' -> hd [] segs2 <> [] -> as2 <> [] ->
      Forall (fun a => m' !! a = m !! a) init -> live m' (init ++ as2) (isegs ++ segs2) n'.
Proof.
  revert segs. induction as_ as [|a as_ IH]; intros segs Hl; [done|].
  destruct as_ as [|a2 as_], segs as [|its [|i2 segs]]; try done; try by destruct Hl as (_ & ? & ?).
  - destruct Hl as (r & Er & Hr & Ho). exists [], a, [], its, r. by split_and!.
  - destruct Hl as ((r & Er & Hr & Ho) & Hne & Hl).
    destruct (IH _ Hl) as (init & z & isegs & itz & rz & Ea & Es & Ez & Hrz & Hoz & Hrep).
    exists (a :: init), z, (its :: isegs), itz, rz. rewrite Ea, Es. split_and!; try done.
    intros m' n' as2 segs2 Hl2 Hn Hh Ha2 Hag. inversion_clear Hag as [|? ? Ha Hag'].
    specialize (Hrep m' n' as2 segs2 Hl2 Hn Hh Ha2 Hag'). 
    assert (hd [] (isegs ++ segs2) <> []) as Hh2.
    { destruct isegs; [done|]. cbn in Es. by injection Es as -> _. }
    cbn [app]. destruct (init ++ as2) as [|b bs] eqn:Eb; [by destruct init, as2|].
    split_and!; try done. exists r. rewrite Ha. by eauto using ring_rep_mono.
Qed.

(** The walk to the last ring. *)
Lemma walk_rings fuel v s pre z : linked (rings s) (pre ++ [z]) -> Forall (fun a => 0 < a) (pre ++ [z]) ->
  enqueue_loop (length pre + fuel) v (hd NULL (pre ++ [z])) 0 s = enqueue_loop fuel v z 0 s.
Proof.
  induction pre as [|a pre IH]; [done|]. intros [(r & Er & Hn) Hl] Hp. inversion_clear Hp as [|? ? Ha Hp'].
  cbn [length Nat.add hd app]. cbn [enqueue_loop].
  rewrite (st_bind_run _ _ _ _ _ (run_get_ring _ _ _ Er)), Hn. rewrite <- (IH Hl Hp').
  assert (0 < hd NULL (pre ++ [z])) as Hh by (destruct pre; by inversion Hp').
  unfold truth. by rewrite (proj2 (Z.eqb_neq _ 0)) by lia.
Qed.

(** Everything but the last ring of a chain is as before. *)
Lemma agree_insert (m : gmap Z RingQueue) z r l : NoDup (l ++ [z]) ->
  Forall (fun a => <[z := r]> m !! a = m !! a) l.
Proof.
  intros Hnd. apply NoDup_app in Hnd as (_ & Hd & _). apply Forall_forall. intros a Ha.
  apply lookup_insert_ne. intros ->. apply (Hd a Ha). by constructor.
Qed.

Lemma hd_snoc (l : list Z) z l' : hd NULL (l ++ z :: l') = hd NULL (l ++ [z]).
Proof. by destruct l. Qed.

Lemma concat_snoc (isegs : list (list Z)) its : concat (isegs ++ [its]) = concat isegs ++ its.
Proof. rewrite concat_app. cbn. by rewrite app_nil_r. Qed.

(** The item is the last of the queue. *)
Lemma enqueue_run fuel v s l k n : lcrq_rep s l k n -> (k < fuel)%nat -> 2 <= n ->
  n + RING_SIZE < 2 ^ 62 -> v <> NO_VAL ->
  exists s' k', lcrq_enqueue fuel v s = Ok (tt, s') /\ lcrq_rep s' (l ++ [v]) k' (n + 1) /\
    (k' <= S k)%nat.
Proof.
  intros [(old & as_ & segs & Hlk & Hlv & -> & Et & Eh & Hnd & Hpos & <-) Hq Hb] Hf Hn1 Hn Hv.
  destruct (live_last _ _ _ _ Hlv) as (init & z & isegs & its & r & -> & -> & Er & Hr & Ho & Hrep).
  set (pre := old ++ init) in *. rewrite app_assoc in *. fold pre in Hlk, Et, Hnd, Hpos, Hf |- *.
  rewrite length_app in Hf. cbn [length] in Hf.
  assert (exists f, fuel = length pre + S f)%nat as [f ->] by (exists (fuel - length pre - 1)%nat; lia).
  unfold lcrq_enqueue. rewrite (st_bind_run _ _ s (q_tail s) s) by done.
  rewrite Et, walk_rings; [|done|by eapply Forall_impl; [exact Hpos|cbn; lia]].
  assert (rq_next r = NULL) as Hnx.
  { clear -Hlk Er. induction pre as [|a pre IH]; [|by apply IH, Hlk].
    destruct Hlk as [(r' & Er' & Hn) _]. cbn in *. congruence. }
  assert (0 < z < q_brk s) as Hz by (rewrite Forall_app, Forall_singleton in Hpos; tauto).
  assert (Forall (fun a => 0 < a < q_brk s + 1) (pre ++ [z])) as Hpos1
    by (eapply Forall_impl; [exact Hpos|cbn; lia]).
  assert (q_head s = hd NULL (init ++ [z])) as Eh1 by done.
  destruct (Z.lt_ge_cases (len its) RING_SIZE) as [Hlt|Hge].
  - destruct (enqueue_room f v z 0 s r its n) as (r' & E & Hr' & Ho' & Hnx'); try done.
    exists (set_ring z r' s), (length (pre ++ [z])). split; [done|]. split; [|rewrite length_app; cbn; lia].
    split; [|done|done]. exists old, (init ++ [z]), (isegs ++ [its ++ [v]]).
    cbn [rings set_ring q_set_rings q_tail q_head]. rewrite app_assoc. fold pre.
    split_and!; try done.
    + eapply linked_upd; [done|done|congruence].
    + apply Hrep; [|lia|by destruct its|done|].
      * exists r'. by rewrite lookup_insert_eq.
      * apply agree_insert. unfold pre in Hnd. rewrite <- app_assoc in Hnd.
        by apply NoDup_app in Hnd as (_ & _ & ?).
    + by rewrite !concat_snoc, app_assoc.
  - assert (len its = RING_SIZE) as Hfull by (destruct Hr; lia).
    destruct (enqueue_full f v z s r its n) as (s' & E & Erings & Eh' & Et' & Eq' & Eb'); try done;
      [lia|unfold NULL; lia|].
    set (b := q_brk s) in *.
    set (r2 := rq_set_next b (rq_set_tail (Z.lor (rq_head r + len its + 1) BIT63) r)) in *.
    destruct (init_ring_rep v (n + 1) Hv ltac:(lia)) as [Hr3 Ho3].
    set (r3 := rq_set_cell 0 (v, 0) (rq_set_tail 1 init_ring)) in *.
    assert (z <> b) as Hzb by lia.
    assert (Forall (fun a => rings s' !! a = rings s !! a) pre) as Hag.
    { apply NoDup_app in Hnd as (_ & Hd & _). apply Forall_app in Hpos as [Hp _].
      rewrite Forall_forall in Hp |- *. intros a Ha. specialize (Hp a Ha). rewrite Erings, !lookup_insert_ne; [done|lia|].
      intros ->. apply (Hd a Ha). by constructor. }
    exists s', (length (pre ++ [z; b])). split; [done|]. split; [|rewrite !length_app; cbn; lia].
    split; [|done|lia]. exists old, (init ++ [z; b]), (isegs ++ [its; [v]]).
    rewrite Eh', Et', Eb', app_assoc. fold pre. rewrite (hd_snoc pre z [b]), (hd_snoc init z [b]).
    split_and!; try done.
    + eapply linked_agree; [done|done|]. rewrite Erings. split.
      * exists r2. by rewrite lookup_insert_eq.
      * split; [|done]. exists r3. by rewrite lookup_insert_ne, lookup_insert_eq.
    + apply Hrep; [|lia|by destruct its|done|by apply Forall_app in Hag as [_ ?]].
      rewrite Erings. split_and!; [|done|].
      * exists r2. rewrite lookup_insert_eq. split_and!; [done| |done].
        apply (ring_rep_mono _ _ n); [lia|]. by destruct Hr.
      * exists r3. by rewrite lookup_insert_ne, lookup_insert_eq.
    + rewrite concat_snoc, concat_app. cbn. by rewrite app_assoc.
    + change (pre ++ [z; b]) with (pre ++ [z] ++ [b]). rewrite (app_assoc pre [z] [b]). apply NoDup_app. split_and!; [done| |by apply NoDup_singleton].
      intros a Ha. rewrite list_elem_of_singleton. intros ->. rewrite Forall_forall in Hpos.
      specialize (Hpos b Ha). lia.
    + change (pre ++ [z; b]) with (pre ++ [z] ++ [b]). rewrite (app_assoc pre [z] [b]). apply Forall_app. split; [done|]. constructor; [lia|done].
Qed.

(** ** Removal *)

(** The item at the head of a ring. *)
Lemma dequeue_item fuel s r v its n : rings s !! q_head s = Some r -> ring_rep r (v :: its) n ->
  n + RING_SIZE < 2 ^ 62 ->
  exists r', dequeue_loop (S (S fuel)) s = Ok (v, set_ring (q_head s) r' s) /\
    ring_rep r' its (n + 1) /\ rq_next r' = rq_next r /\
    (ring_open r (v :: its) -> ring_open r' its) /\ (ring_closed r (v :: its) -> ring_closed r' its).
Proof.
  intros Er Hr Hn. pose proof Hr as [H0 H1 H2 H3 H4]. destruct (ring_first _ _ _ _ Hr) as [Hc Hv].
  assert (len (v :: its) = 1 + len its) as El by (unfold len; cbn; lia).
  assert (0 <= len its) as Hl by (unfold len; lia).
  assert (0 <= rq_head r < BIT63) as Hh by (unfold BIT63; lia).
  set (a := q_head s) in *. exists (rq_set_cell (rq_head r mod RING_SIZE) (NO_VAL, rq_head r + RING_SIZE)
    (rq_set_head (rq_head r + 1) r)). split_and!; [|by apply (rq_pop r v)|done|..];
    try (unfold ring_open, ring_closed; cbn [rq_tail rq_head rq_set_cell rq_set_head]; rewrite El; intros ->;
         first [lia | do 2 f_equal; lia]).
  remember (S fuel) as f eqn:Ef. cbn [dequeue_loop].
  rewrite (st_bind_run _ _ s a s) by done.
  rewrite (st_bind_run _ _ _ _ _ (run_faa_head _ _ _ Er)). subst f.
  set (r1 := rq_set_head (u64 (rq_head r + 1)) r).
  rewrite (st_bind_run _ _ _ (Some v) (set_ring a (rq_set_cell (rq_head r mod RING_SIZE)
    (NO_VAL, rq_head r + RING_SIZE) r1) s)).
  { unfold r1. rewrite u64_small by lia. done. }
  cbn [dequeue_cell]. rewrite (st_bind_run _ _ _ _ _ (run_get_ring _ _ _ (ring_set_eq s a r1))), slot_mod.
  replace (cell r1) with (cell r) by done. rewrite Hc.
  unfold node_unsafe. rewrite (index_small _ Hh), (land_bit63 _ Hh), Z.ltb_irrefl, Z.eqb_refl, Z.lor_0_l.
  unfold is_empty. rewrite (proj2 (Z.eqb_neq _ _) Hv). cbn [negb].
  rewrite (st_bind_run _ _ _ _ _ (run_cas2 (set_ring a r1 s) a r1 (rq_head r mod RING_SIZE) (v, rq_head r) _
    (ring_set_eq _ _ _) Hc)).
  rewrite set_ring_twice, u64_small; [done|]. lia.
Qed.

(** At an empty closed ring the head moves to the next. *)
Lemma dequeue_next fuel s r n : rings s !! q_head s = Some r -> ring_rep r [] n ->
  ring_closed r [] -> n + RING_SIZE < 2 ^ 62 -> 0 < rq_next r ->
  exists r', dequeue_loop (S (S fuel)) s =
      dequeue_loop (S fuel) (Lcrq (<[q_head s := r']> (rings s)) (rq_next r) (q_tail s) (nrq s) (q_brk s)) /\
    rq_next r' = rq_next r.
Proof.
  intros Er Hr Hcl Hn Hnx. pose proof Hr as [H0 H1 H2 H3 H4].
  change (len []) with 0 in *. unfold ring_closed in Hcl. change (len []) with 0 in Hcl.
  rewrite Z.add_0_r in Hcl.
  assert (0 <= rq_head r < BIT63) as Hh by (unfold BIT63; lia).
  assert (0 <= rq_head r + 1 < BIT63) as Hh1 by (unfold BIT63; lia).
  pose proof (H4 0 ltac:(done)) as Hc. rewrite !Z.add_0_r in Hc.
  change (cell r (rq_head r mod RING_SIZE) = (NO_VAL, rq_head r)) in Hc.
  set (a := q_head s) in *. remember (S fuel) as f eqn:Ef. cbn [dequeue_loop].
  rewrite (st_bind_run _ _ s a s) by done.
  rewrite (st_bind_run _ _ _ _ _ (run_faa_head _ _ _ Er)). subst f.
  rewrite u64_small by lia. set (r1 := rq_set_head (rq_head r + 1) r).
  set (r2 := rq_set_cell (rq_head r mod RING_SIZE) (NO_VAL, rq_head r + RING_SIZE) r1).
  set (s2 := set_ring a r2 s). exists r2. split; [|done].
  rewrite (st_bind_run _ _ _ None s2).
  2: { cbn [dequeue_cell].
    rewrite (st_bind_run _ _ _ _ _ (run_get_ring _ _ _ (ring_set_eq s a r1))), slot_mod.
    replace (cell r1) with (cell r) by done. rewrite Hc.
    unfold node_unsafe. rewrite (index_small _ Hh), (land_bit63 _ Hh), Z.ltb_irrefl.
    change (is_empty NO_VAL) with true. cbn [negb]. change (Z.land 0 1023 =? 0) with true. cbn iota.
    change (truth 0) with false. cbn iota.
    replace (rq_tail r1) with (Z.lor (rq_head r + 1) BIT63) by done.
    rewrite (closed_bit _ Hh1), orb_true_r.
    rewrite (st_bind_run _ _ _ _ _ (run_cas2 (set_ring a r1 s) a r1 (rq_head r mod RING_SIZE)
      (NO_VAL, rq_head r) _ (ring_set_eq _ _ _) Hc)).
    change (200000 <? 0) with false. cbn [andb]. rewrite set_ring_twice, u64_small by lia. done. }
  assert (rings s2 !! a = Some r2) as Er2 by apply ring_set_eq.
  rewrite (st_bind_run _ _ _ _ _ (run_get_ring _ _ _ Er2)).
  replace (rq_tail r2) with (Z.lor (rq_head r + 1) BIT63) by done.
  rewrite (index_closed _ Hh1), Z.leb_refl.
  rewrite (st_bind_run _ _ s2 tt s2).
  2: { cbn [fixState]. rewrite (st_bind_run _ _ _ _ _ (run_get_ring _ _ _ Er2)).
    replace (rq_tail r2) with (Z.lor (rq_head r + 1) BIT63) by done.
    replace (rq_head r2) with (rq_head r + 1) by done.
    rewrite (proj2 (Z.ltb_ge _ _)); [done|].
    rewrite (closed_value _ Hh1). unfold BIT63. lia. }
  rewrite (st_bind_run _ _ _ _ _ (run_get_ring _ _ _ Er2)).
  replace (rq_next r2) with (rq_next r) by done. rewrite (proj2 (Z.eqb_neq _ NULL)) by (unfold NULL; lia).
  replace (rq_tail r2) with (Z.lor (rq_head r + 1) BIT63) by done.
  rewrite (index_closed _ Hh1), Z.leb_refl.
  rewrite (st_bind_run _ _ s2 tt (Lcrq (<[a := r2]> (rings s)) (rq_next r) (q_tail s) (nrq s) (q_brk s)));
    [done|].
  unfold st_set. by rewrite Z.eqb_refl.
Qed.

Lemma linked_mid m pre a l : linked m (pre ++ a :: l) ->
  exists r, m !! a = Some r /\ rq_next r = hd NULL l.
Proof. induction pre as [|b pre IH]; [by intros [? _]|intros [_ Hl]; by apply IH]. Qed.

Lemma tail_open r its n : ring_rep r its n -> ring_open r its -> n + RING_SIZE < 2 ^ 62 ->
  tail_index (rq_tail r) = rq_head r + len its.
Proof.
  intros [] E Hn. unfold ring_open in E. rewrite E. unfold len in *. apply index_small. unfold BIT63. lia.
Qed.

Lemma tail_closed r its n : ring_rep r its n -> ring_closed r its -> n + RING_SIZE < 2 ^ 62 ->
  tail_index (rq_tail r) = rq_head r + len its + 1.
Proof.
  intros [] E Hn. unfold ring_closed in E. rewrite E. unfold len in *. apply index_closed. unfold BIT63. lia.
Qed.

Lemma live_rings_cons m a as_ segs n : live m (a :: as_) segs n <->
  exists r its segs', segs = its :: segs' /\ m !! a = Some r /\ ring_rep r its n /\
    (as_ = [] /\ segs' = [] /\ ring_open r its \/
     ring_closed r its /\ hd [] segs' <> [] /\ as_ <> [] /\ live m as_ segs' n).
Proof.
  split.
  - destruct segs as [|its segs], as_ as [|a2 as_]; try done.
    + destruct segs; [intros (r & ? & ? & ?)|by intros (_ & _ & ?)]. eauto 12.
    + intros ((r & ? & ? & ?) & ? & ?). eauto 12.
  - intros (r & its & segs' & -> & Er & Hr & [(-> & -> & Ho)|(Hc & Hne & Ha & Hl)]); [by exists r|].
    destruct as_; [done|]. split_and!; eauto.
Qed.

(** With items in its first ring, the queue gives up the first. *)
Lemma dequeue_first fuel s v its l old as_ segs n : linked (rings s) (old ++ as_) ->
  live (rings s) as_ ((v :: its) :: segs) n -> l = concat ((v :: its) :: segs) ->
  q_tail s = hd NULL (old ++ as_) -> q_head s = hd NULL as_ -> NoDup (old ++ as_) ->
  Forall (fun a => 0 < a < q_brk s) (old ++ as_) -> nrq s = NULL -> 0 < q_brk s ->
  n + RING_SIZE < 2 ^ 62 ->
  exists s', dequeue_loop (S (S fuel)) s = Ok (hd NULL l, s') /\
    lcrq_rep s' (tail l) (length (old ++ as_)) (n + 1).
Proof.
  intros Hlk Hlv -> Et Eh Hnd Hpos Hq Hb Hn. destruct as_ as [|a as_]; [done|].
  apply live_rings_cons in Hlv as (r & its0 & segs0 & [= <- <-] & Er & Hr & Hcase). cbn [hd] in Eh.
  destruct (dequeue_item fuel s r v its n) as (r' & E & Hr' & Hnx & Hop & Hcl); [congruence|done..|].
  exists (set_ring (q_head s) r' s). split; [done|]. split; [|done|done].
  exists old, (a :: as_), (its :: segs). cbn [rings set_ring q_set_rings q_tail q_head q_brk]. rewrite Eh.
  split_and!; try done; [by eapply linked_upd|].
  apply live_rings_cons. exists r', its, segs. rewrite lookup_insert_eq. split_and!; try done.
  destruct Hcase as [(-> & -> & Ho)|(Hc & Hne & Ha & Hl)]; [left; auto|right].
  split_and!; auto. eapply live_agree; [done|lia|].
  apply NoDup_app in Hnd as (_ & _ & Hnd). apply NoDup_cons in Hnd as [Hnot _].
  apply Forall_forall. intros b Hb2. apply lookup_insert_ne. by intros ->.
Qed.

(** The first item leaves the queue; an empty one gives NULL. *)
Lemma dequeue_run fuel s l k n : lcrq_rep s l k n -> n + RING_SIZE < 2 ^ 62 ->
  exists s', lcrq_dequeue (S (S (S fuel))) s = Ok (hd NULL l, s') /\ lcrq_rep s' (tail l) k (n + 1).
Proof.
  intros [(old & as_ & segs & Hlk & Hlv & Hl & Et & Eh & Hnd & Hpos & <-) Hq Hb] Hn.
  destruct as_ as [|a as_]; [done|]. pose proof Hlv as Hlv0.
  apply live_rings_cons in Hlv as (r & its & segs' & -> & Er & Hr & Hcase). cbn [hd] in Eh.
  destruct (linked_mid _ _ _ _ Hlk) as (r0 & Er0 & Hnx). rewrite Er in Er0. injection Er0 as <-.
  unfold lcrq_dequeue. rewrite (st_bind_run _ _ s a s) by (unfold st_get; by rewrite Eh).
  rewrite (st_bind_run _ _ _ _ _ (run_get_ring _ _ _ Er)).
  assert (u64 (rq_head r + 1) = rq_head r + 1) as Eu
    by (assert (0 < RING_SIZE) by done; assert (0 <= len its) by (unfold len; lia);
        destruct Hr; apply u64_small; lia).
  rewrite Eu. destruct its as [|v its].
  2: { assert (0 <= len its /\ len (v :: its) = 1 + len its) as [Hl0 El] by (unfold len; cbn; lia).
    rewrite (proj2 (Z.ltb_ge _ _)); [by eapply dequeue_first|].
    destruct Hcase as [(_ & _ & Ho)|(Hc & _)];
      [rewrite (tail_open _ _ _ Hr Ho Hn)|rewrite (tail_closed _ _ _ Hr Hc Hn)]; lia. }
  destruct Hcase as [(-> & -> & Ho)|(Hc & Hne & Ha & Hlive)].
  - rewrite (tail_open _ _ _ Hr Ho Hn), Hnx. rewrite (proj2 (Z.ltb_lt _ _)) by (unfold len; cbn [length]; lia).
    cbn [andb hd Z.eqb NULL]. subst l. exists s. split; [done|]. split; [|done|done].
    exists old, [a], [[]]. split_and!; try done. eapply live_agree; [done|lia|]. by repeat constructor.
  - rewrite (tail_closed _ _ _ Hr Hc Hn). rewrite (proj2 (Z.ltb_ge _ _)) by (unfold len; cbn [length]; lia). cbn [andb].
    destruct as_ as [|b as_]; [done|]. cbn [hd] in Hnx.
    assert (0 < b) as Hb0.
    { rewrite Forall_app, !Forall_cons in Hpos. lia. }
    destruct (dequeue_next (S fuel) s r n) as (r' & E & Hnx'); [congruence|done..|lia|].
    rewrite E, Eh, Hnx. set (s1 := Lcrq _ _ _ _ _).
    destruct segs' as [|[|v its] segs']; [done..|].
    destruct (dequeue_first fuel s1 v its l (old ++ [a]) (b :: as_) segs' n) as (s' & E' & Hrep);
      rewrite <- ?app_assoc; try done; [by eapply linked_upd| |].
    + eapply live_agree; [done|lia|]. apply NoDup_app in Hnd as (_ & _ & Hnd).
      apply NoDup_cons in Hnd as [Hnot _]. apply Forall_forall. intros c Hc2.
      apply lookup_insert_ne. by intros ->.
    + exists s'. split; [done|]. by rewrite <- app_assoc in Hrep.
Qed.

(** ** The queue *)

Lemma init_run s : nrq s = NULL -> 0 < q_brk s ->
  exists s', lcrq_init s = Ok (tt, s') /\ lcrq_rep s' [] 1 2.
Proof.
  intros Hq Hb. eexists. split; [done|]. split; [|done|cbn; lia].
  exists [], [q_brk s], [[]]. cbn [rings q_tail q_head q_brk app]. split_and!; try done.
  - split; [|done]. exists init_ring. by rewrite lookup_insert_eq.
  - exists init_ring. rewrite lookup_insert_eq. split_and!; [done| |done].
    split; try done. intros k Hk. cbn [rq_head init_ring]. rewrite Z.add_0_l, Z.mod_small by done.
    rewrite lookup_nil. unfold cell. cbn. by rewrite lookup_empty.
  - apply NoDup_singleton.
  - constructor; [lia|done].
Qed.

Inductive qop : Type := Enq (v : Z) | Deq.

(** The reference: a list with the first item in front. *)
Fixpoint queue_outputs (ops : list qop) (l : list Z) : list Z :=
  match ops with
  | [] => []
  | Enq v :: ops => queue_outputs ops (l ++ [v])
  | Deq :: ops => hd NULL l :: queue_outputs ops (tail l)
  end.

Fixpoint run_ops (fuel : nat) (ops : list qop) : QM (list Z) :=
  match ops with
  | [] => mret []
  | Enq v :: ops => _ ← lcrq_enqueue fuel v; run_ops fuel ops
  | Deq :: ops => v ← lcrq_dequeue fuel; vs ← run_ops fuel ops; mret (v :: vs)
  end.

Definition item_ok (o : qop) : Prop := match o with Enq v => v <> NO_VAL | Deq => True end.

Lemma run_ops_rep fuel ops s l k n : lcrq_rep s l k n -> 2 <= n -> Forall item_ok ops ->
  (k + length ops + 2 < fuel)%nat -> n + Z.of_nat (length ops) + RING_SIZE < 2 ^ 62 ->
  exists s', run_ops fuel ops s = Ok (queue_outputs ops l, s').
Proof.
  intros Hrep Hn1 Hok. revert s l k n Hrep Hn1.
  induction Hok as [|o ops Ho Hok IH]; intros s l k n Hrep Hn1 Hf Hn; [by exists s|].
  cbn [length] in Hf, Hn. destruct o as [v|].
  - destruct (enqueue_run fuel v s l k n) as (s' & k' & E & Hrep' & Hk'); [done|lia|lia|lia|done|].
    destruct (IH s' (l ++ [v]) k' (n + 1)) as (s2 & E2); [done|lia..|].
    exists s2. cbn [run_ops queue_outputs]. by rewrite (st_bind_run _ _ _ _ _ E).
  - destruct fuel as [|[|[|f]]]; [lia..|].
    destruct (dequeue_run f s l k n) as (s' & E & Hrep'); [done|lia|].
    destruct (IH s' (tail l) k (n + 1)) as (s2 & E2); [done|lia..|].
    exists s2. cbn [run_ops queue_outputs].
    by rewrite (st_bind_run _ _ _ _ _ E), (st_bind_run _ _ _ _ _ E2).
Qed.

(** C30: The ring queue implements the queue: from lcrq_init on, any sequence of calls of one thread gives
    the outputs of a list with the first item in front, NULL where it is empty, through ring
    after ring.  The fuel need only pass the number of calls: every call ends. *)
Theorem lcrq_implements_queue fuel ops s :
  nrq s = NULL -> 0 < q_brk s -> Forall item_ok ops ->
  (length ops + 3 < fuel)%nat -> Z.of_nat (length ops) < 2 ^ 61 ->
  exists s' s'', lcrq_init s = Ok (tt, s') /\ run_ops fuel ops s' = Ok (queue_outputs ops [], s'').
Proof.
  intros Hq Hb Hok Hf Hn. destruct (init_run s Hq Hb) as (s' & E & Hrep).
  assert (RING_SIZE = 131072) as Ers by done.
  destruct (run_ops_rep fuel ops s' [] 1 2) as (s'' & E''); [done..|lia|lia|]. by exists s', s''.
Qed.

Lemma lcrq_implements_queue_witness :
  let ops := [Deq; Enq 5; Enq 6; Deq; Enq 7; Deq; Deq; Deq] in
  queue_outputs ops [] = [NULL; 5; 6; 7; NULL] /\
  exists s' s'', lcrq_init (Lcrq ∅ 0 0 NULL 1) = Ok (tt, s') /\
    run_ops 12 ops s' = Ok (queue_outputs ops [], s'').
Proof.
  split; [reflexivity|].
  apply (lcrq_implements_queue 12 [Deq; Enq 5; Enq 6; Deq; Enq 7; Deq; Deq; Deq] (Lcrq ∅ 0 0 NULL 1));
    [reflexivity|reflexivity| |cbn; lia|reflexivity].
  repeat constructor; discriminate.
Defined.
