(* ===== verification/LfHash.v ===== *)
(** * The split-ordered hash table (include/hashtable/lf_hash.h, hashtbl_lf.h)

    All entries are in one sorted list, in which each bucket has a dummy entry to start
    from.  The steps of one thread, as for Lcrq.v: every compare-and-swap of the source is
    a step on the shared state, which no other thread changes between two of them.  A state
    holds one table, the global [hard_max_buckets] and the allocator, which is given a
    number of blocks. *)
From stdpp Require Import gmap.
From S2P Require Import Prelude.

Definition MAX_LOAD : Z := 4.
Definition MSB : Z := Z.shiftl 1 63.
Definition UNINITIALIZED : Z := 0.

(** marked_ptr_t: an address whose lowest bit is the mark. *)
Definition MARK_OF (x : Z) : Z := Z.land x 1.
Definition PTR_MASK (x : Z) : Z := Z.land x (Z.lnot 1).
Definition PTR_OF (x : Z) : Z := PTR_MASK x.
Definition CONSTRUCT (mark ptr : Z) : Z := Z.lor (PTR_MASK ptr) mark.

Record hash_entry : Type := Entry { e_key : Z; e_value : Z; e_next : Z }.

(** qt_hash_s with the entries, the global hard_max_buckets, the next address and the
    number of blocks malloc has left. *)
Record lf_t : Type := Lf {
  entries : gmap Z hash_entry; lf_B : list Z; lf_count : Z; lf_size : Z;
  hard_max_buckets : Z; lf_brk : Z; lf_blocks : Z }.

Notation LM := (ST lf_t).

Definition set_entries f s :=
  Lf (f (entries s)) (lf_B s) (lf_count s) (lf_size s) (hard_max_buckets s) (lf_brk s) (lf_blocks s).
Definition set_B l s :=
  Lf (entries s) l (lf_count s) (lf_size s) (hard_max_buckets s) (lf_brk s) (lf_blocks s).
Definition set_count c s :=
  Lf (entries s) (lf_B s) c (lf_size s) (hard_max_buckets s) (lf_brk s) (lf_blocks s).
Definition set_size c s :=
  Lf (entries s) (lf_B s) (lf_count s) c (hard_max_buckets s) (lf_brk s) (lf_blocks s).
Definition set_max c s :=
  Lf (entries s) (lf_B s) (lf_count s) (lf_size s) c (lf_brk s) (lf_blocks s).
Definition set_blocks n s :=
  Lf (entries s) (lf_B s) (lf_count s) (lf_size s) (hard_max_buckets s) (lf_brk s) n.

Definition get_entry (a : Z) : LM hash_entry := fun s => st_lift (get_or NullDeref (entries s !! a)) s.
Definition put_entry (a : Z) (e : hash_entry) : LM unit := st_set (set_entries (<[a := e]>)).

(** Where a marked_ptr_t is kept: in the array of buckets, or in an entry. *)
Inductive lf_cell : Type := CellB (i : Z) | CellNext (a : Z).

Definition lf_read (c : lf_cell) : LM Z :=
  match c with
  | CellB i => fun s => st_lift (lf_B s).[i] s
  | CellNext a => e ← get_entry a; mret (e_next e)
  end.
Definition lf_write (c : lf_cell) (w : Z) : LM unit :=
  match c with
  | CellB i => fun s => match (lf_B s).[i <- w] with Ok l => Ok (tt, set_B l s) | Err f => Err f end
  | CellNext a => e ← get_entry a; put_entry a (Entry (e_key e) (e_value e) w)
  end.

(** The value before. *)
Definition CAS (c : lf_cell) (old new : Z) : LM Z :=
  w ← lf_read c;
  _ ← st_when (w =? old) (lf_write c new);
  mret w.

(** malloc(sizeof(hash_entry)): an aligned address, or NULL when no block is left. *)
Definition malloc_entry : LM Z := fun s =>
  if lf_blocks s <=? 0 then Ok (NULL, s)
  else Ok (lf_brk s, Lf (<[lf_brk s := Entry 0 0 0]> (entries s)) (lf_B s) (lf_count s) (lf_size s)
                        (hard_max_buckets s) (lf_brk s + 32) (lf_blocks s - 1)).
Definition free_entry (a : Z) : LM unit :=
  if a =? NULL then mret tt
  else _ ← get_entry a;
       st_set (fun s => set_blocks (lf_blocks s + 1) (set_entries (delete a) s)).

(** ** The order of the list *)

Definition REVERSE_BYTE (x : Z) : Z :=
  Z.land (Z.shiftr (u64 (Z.lor (Z.land (u64 (u32 x * 0x0802)) 0x22110)
                               (Z.land (u64 (u32 x * 0x8020)) 0x88440) * 0x10101)) 16) 0xff.
Definition byte_of (x k : Z) : Z := Z.land (Z.shiftr x (8 * k)) 0xff.
Definition REVERSE (x : Z) : Z :=
  Z.lor (Z.shiftl (REVERSE_BYTE (byte_of x 0)) 56)
  (Z.lor (Z.shiftl (REVERSE_BYTE (byte_of x 1)) 48)
  (Z.lor (Z.shiftl (REVERSE_BYTE (byte_of x 2)) 40)
  (Z.lor (Z.shiftl (REVERSE_BYTE (byte_of x 3)) 32)
  (Z.lor (Z.shiftl (REVERSE_BYTE (byte_of x 4)) 24)
  (Z.lor (Z.shiftl (REVERSE_BYTE (byte_of x 5)) 16)
  (Z.lor (Z.shiftl (REVERSE_BYTE (byte_of x 6)) 8)
         (Z.shiftl (REVERSE_BYTE (byte_of x 7)) 0))))))).

Definition rot (x k : Z) : Z := Z.lor (u32 (Z.shiftl x k)) (Z.shiftr x (32 - k)).

(** [c ^= b; c -= rot(b, k)] *)
Definition mix (c b k : Z) : Z := u32 (Z.lxor c b - rot b k).

(** The union's bytes are in the order of a little-endian machine. *)
Definition qt_hashword (key : Z) : Z :=
  let a := u32 (0x32533d0c + 8) in
  let b := a in
  let c := u32 (a + 47) in
  let b := u32 (b + Z.shiftl (byte_of key 7) 24) in
  let b := u32 (b + Z.shiftl (byte_of key 6) 16) in
  let b := u32 (b + Z.shiftl (byte_of key 5) 8) in
  let b := u32 (b + byte_of key 4) in
  let a := u32 (a + Z.shiftl (byte_of key 3) 24) in
  let a := u32 (a + Z.shiftl (byte_of key 2) 16) in
  let a := u32 (a + Z.shiftl (byte_of key 1) 8) in
  let a := u32 (a + byte_of key 0) in
  let c := mix c b 14 in
  let a := mix a c 11 in
  let b := mix b a 25 in
  let c := mix c b 16 in
  let a := mix a c 4 in
  let b := mix b a 14 in
  let c := mix c b 24 in
  Z.land (u64 (c + u64 (Z.shiftl b 32))) (2 ^ 64 - 1 - MSB).

(** The parameter is a key_t, which is an int. *)
Definition so_regularkey (key : Z) : Z := REVERSE (Z.lor (u64 (i32 key)) MSB).
Definition so_dummykey (key : Z) : Z := REVERSE (u64 (i32 key)).

(** ** The list *)

(** The value found, and the outputs prev, cur and next.  The inner loop at [prev], [cur]
    and [next]; to start over is to go back to [head]. *)
Fixpoint find_loop (fuel : nat) (head : lf_cell) (key : Z) (prev : lf_cell) (cur next : Z)
    : LM (Z * lf_cell * Z * Z) :=
  match fuel with
  | O => st_fail Spin
  | S fuel =>
      let start_over := cur ← lf_read head; find_loop fuel head key head cur next in
      if PTR_OF cur =? NULL then mret (NULL, prev, cur, next)
      else
        e ← get_entry (PTR_OF cur);
        let next := e_next e in
        let ckey := e_key e in
        let cval := e_value e in
        w ← lf_read prev;
        if negb (w =? CONSTRUCT 0 cur) then start_over
        else if negb (truth (MARK_OF next)) then
          if key <=? ckey then mret (if ckey =? key then cval else NULL, prev, cur, next)
          else find_loop fuel head key (CellNext (PTR_OF cur)) next next
        else
          w ← CAS prev (CONSTRUCT 0 cur) (CONSTRUCT 0 next);
          if w =? CONSTRUCT 0 cur then
            _ ← free_entry (PTR_OF cur);
            find_loop fuel head key prev next next
          else start_over
  end.

Definition qt_lf_list_find (fuel : nat) (head : lf_cell) (key : Z) : LM (Z * lf_cell * Z * Z) :=
  cur ← lf_read head;
  find_loop fuel head key head cur UNINITIALIZED.

(** The result and [*ocur]. *)
Fixpoint lf_insert_loop (fuel : nat) (head : lf_cell) (node key : Z) : LM (bool * Z) :=
  match fuel with
  | O => st_fail Spin
  | S fuel =>
      '(v, lprev, cur, _) ← qt_lf_list_find fuel head key;
      if truth v then mret (false, cur)
      else
        _ ← lf_write (CellNext node) (CONSTRUCT 0 cur);
        w ← CAS lprev (CONSTRUCT 0 cur) (CONSTRUCT 0 node);
        if w =? CONSTRUCT 0 cur then mret (true, cur) else lf_insert_loop fuel head node key
  end.

Definition qt_lf_list_insert (fuel : nat) (head : lf_cell) (node : Z) : LM (bool * Z) :=
  e ← get_entry node;
  lf_insert_loop fuel head node (e_key e).

Fixpoint qt_lf_list_delete (fuel : nat) (head : lf_cell) (key : Z) : LM bool :=
  match fuel with
  | O => st_fail Spin
  | S fuel =>
      '(v, lprev, lcur, lnext) ← qt_lf_list_find fuel head key;
      if negb (truth v) then mret false
      else
        w ← CAS (CellNext (PTR_OF lcur)) (CONSTRUCT 0 lnext) (CONSTRUCT 1 lnext);
        if negb (w =? CONSTRUCT 0 lnext) then qt_lf_list_delete fuel head key
        else
          w ← CAS lprev (CONSTRUCT 0 lcur) (CONSTRUCT 0 lnext);
          _ ← (if w =? CONSTRUCT 0 lcur then free_entry (PTR_OF lcur)
               else _ ← qt_lf_list_find fuel head key; mret tt);
          mret true
  end.

(** ** Buckets *)

Definition GET_PARENT (bucket : Z) : Z :=
  let t := bucket in
  let t := Z.lor t (Z.shiftr t 1) in
  let t := Z.lor t (Z.shiftr t 2) in
  let t := Z.lor t (Z.shiftr t 4) in
  let t := Z.lor t (Z.shiftr t 8) in
  let t := Z.lor t (Z.shiftr t 16) in
  let t := Z.lor t (Z.shiftr t 32) in
  Z.land bucket (Z.shiftr t 1).

(** [while (h->B[bucket] != dummy);] with no other thread to change it. *)
Definition await_bucket (bucket dummy : Z) : LM unit :=
  w ← lf_read (CellB bucket);
  if w =? CONSTRUCT 0 dummy then mret tt else st_fail Spin.

(** A dummy entry for the bucket, in the list of its parent. *)
Definition add_dummy (fuel : nat) (bucket parent : Z) : LM unit :=
  dummy ← malloc_entry;
  _ ← get_entry dummy;
  _ ← put_entry dummy (Entry (so_dummykey bucket) NULL UNINITIALIZED);
  '(inserted, cur) ← qt_lf_list_insert fuel (CellB parent) dummy;
  if negb inserted then
    _ ← free_entry dummy;
    await_bucket bucket (PTR_OF cur)
  else lf_write (CellB bucket) (CONSTRUCT 0 dummy).

(** Parents have fewer bits: [depth] bounds the recursion. *)
Fixpoint initialize_bucket (fuel depth : nat) (bucket : Z) : LM unit :=
  match depth with
  | O => st_fail Spin
  | S depth =>
      let parent := GET_PARENT bucket in
      w ← lf_read (CellB parent);
      _ ← st_when (w =? UNINITIALIZED) (initialize_bucket fuel depth parent);
      add_dummy fuel bucket parent
  end.

(** [lkey % h->size], and the bucket's first use. *)
Definition bucket_of (lkey : Z) : LM Z :=
  n ← st_get lf_size;
  mret (lkey mod n).
Definition bucket_ready (fuel : nat) (bucket : Z) : LM unit :=
  w ← lf_read (CellB bucket);
  st_when (w =? UNINITIALIZED) (initialize_bucket fuel 64 bucket).

(** ** Operations *)

(** The count, and twice the buckets when the load is too high. *)
Definition count_entry : LM unit :=
  csize ← st_get lf_size;
  n ← st_get lf_count;
  _ ← st_set (set_count (u64 (n + 1)));
  max ← st_get hard_max_buckets;
  st_when ((MAX_LOAD <? n / csize) && (u64 (2 * csize) <=? max))
    (st_set (fun s => if lf_size s =? csize then set_size (u64 (2 * csize)) s else s)).

Definition qt_hash_put (fuel : nat) (key value : Z) : LM Z :=
  node ← malloc_entry;
  let lkey := qt_hashword key in
  bucket ← bucket_of lkey;
  _ ← st_lift (c_assert (truth node));
  _ ← st_lift (c_assert (Z.land lkey MSB =? 0));
  _ ← put_entry node (Entry (so_regularkey lkey) value UNINITIALIZED);
  _ ← bucket_ready fuel bucket;
  '(inserted, rs) ← qt_lf_list_insert fuel (CellB bucket) node;
  if negb inserted then
    _ ← free_entry node;
    e ← get_entry (PTR_OF rs);
    mret (e_value e)
  else
    _ ← count_entry;
    mret value.

Definition qt_hash_get (fuel : nat) (key : Z) : LM Z :=
  let lkey := qt_hashword key in
  bucket ← bucket_of lkey;
  _ ← bucket_ready fuel bucket;
  '(v, _, _, _) ← qt_lf_list_find fuel (CellB bucket) (so_regularkey lkey);
  mret v.

Definition qt_hash_remove (fuel : nat) (key : Z) : LM bool :=
  let lkey := qt_hashword key in
  bucket ← bucket_of lkey;
  _ ← bucket_ready fuel bucket;
  deleted ← qt_lf_list_delete fuel (CellB bucket) (so_regularkey lkey);
  if negb deleted then mret false
  else
    _ ← st_set (fun s => set_count (u64 (lf_count s - 1)) s);
    mret true.

Definition qt_hash_create (pagesize : Z) : LM unit :=
  max ← st_get hard_max_buckets;
  _ ← st_when (max =? 0) (st_set (set_max (pagesize / 8)));
  max ← st_get hard_max_buckets;
  _ ← st_set (set_B (replicate (Z.to_nat max) UNINITIALIZED));
  _ ← st_set (set_size 2);
  _ ← st_set (set_count 0);
  dummy ← malloc_entry;
  _ ← st_lift (c_assert (truth dummy));
  lf_write (CellB 0) (CONSTRUCT 0 dummy).

(** The loops of the functions that walk the whole list. *)
Fixpoint destroy_loop (fuel : nat) (f : Z -> LM unit) (cursor : Z) : LM unit :=
  match fuel with
  | O => st_fail Spin
  | S fuel =>
      if PTR_OF cursor =? NULL then mret tt
      else
        let tmp := cursor in
        _ ← st_lift (c_assert (MARK_OF tmp =? 0));
        e ← get_entry (PTR_OF cursor);
        let cursor := e_next e in
        _ ← f (PTR_OF cursor);
        _ ← free_entry (PTR_OF tmp);
        destroy_loop fuel f cursor
  end.

(** Without the array, which is freed, no operation goes on. *)
Definition qt_hash_destroy_deallocate (fuel : nat) (f : Z -> LM unit) : LM unit :=
  cursor ← lf_read (CellB 0);
  _ ← destroy_loop fuel f cursor;
  st_set (set_B []).
Definition qt_hash_destroy (fuel : nat) : LM unit :=
  qt_hash_destroy_deallocate fuel (fun _ => mret tt).

Definition qt_hash_count : LM Z := st_get lf_size.

(** [f] turns what [arg] points to into what it leaves there. *)
Fixpoint callback_loop {A} (fuel : nat) (f : Z -> Z -> A -> A) (arg : A) (cursor : Z) : LM A :=
  match fuel with
  | O => st_fail Spin
  | S fuel =>
      if PTR_OF cursor =? NULL then mret arg
      else
        let tmp := cursor in
        e ← get_entry (PTR_OF cursor);
        _ ← st_lift (c_assert (MARK_OF tmp =? 0));
        let arg := if truth (Z.land (e_key e) 1)
                   then f (REVERSE (Z.lxor (e_key e) 1)) (e_value e) arg else arg in
        callback_loop fuel f arg (e_next e)
  end.

Definition qt_hash_callback {A} (fuel : nat) (f : Z -> Z -> A -> A) (arg : A) : LM A :=
  cursor ← lf_read (CellB 0);
  callback_loop fuel f arg cursor.

(** lf_hashtbl::insert: true, or false with the value that waited. *)
Definition lf_insert (fuel : nat) (key value : Z) : LM (bool * Z) :=
  ret ← qt_hash_put fuel key value;
  if ret =? value then mret (true, value)
  else
    _ ← qt_hash_remove fuel key;
    mret (false, ret).
