(* ===== verification/LfList.v ===== *)
(** * The list of the split-ordered hash table (LfHash.v)

    The bits of the keys, the sorted list as a store of entries, and what searching,
    inserting and deleting do to it. *)
From stdpp Require Import gmap sorting.
From S2P Require Import Prelude LfHash.

(** ** Bits *)

Lemma MARK_OF_even a : (2 | a) -> MARK_OF a = 0.
Proof. intros [z ->]. unfold MARK_OF. by rewrite (Z.land_ones _ 1), Z.mod_mul by lia. Qed.

Lemma PTR_MASK_even a : (2 | a) -> PTR_MASK a = a.
Proof.
  intros H. pose proof (MARK_OF_even a H) as H0. unfold PTR_MASK, MARK_OF in *.
  rewrite <- Z.ldiff_land. pose proof (Z.lor_ldiff_and a 1) as E. by rewrite H0, Z.lor_0_r in E.
Qed.

Lemma CONSTRUCT_even a : (2 | a) -> CONSTRUCT 0 a = a.
Proof. intros H. unfold CONSTRUCT. by rewrite Z.lor_0_r, PTR_MASK_even. Qed.

Lemma PTR_OF_even a : (2 | a) -> PTR_OF a = a.
Proof. apply PTR_MASK_even. Qed.

Lemma CONSTRUCT_1 a : (2 | a) -> CONSTRUCT 1 a = a + 1.
Proof.
  intros H. unfold CONSTRUCT. rewrite PTR_MASK_even by done.
  pose proof (Z.add_lor_land a 1) as E. pose proof (MARK_OF_even a H) as H0. unfold MARK_OF in H0. lia.
Qed.

Lemma byte_of_bits x k j : 0 <= k -> 0 <= j ->
  Z.testbit (byte_of x k) j = if decide (j < 8) then Z.testbit x (8 * k + j) else false.
Proof.
  intros Hk Hj. unfold byte_of. change 0xff with (Z.ones 8).
  rewrite Z.land_spec, Z.testbit_ones_nonneg, Z.shiftr_spec by lia.
  case_decide; [rewrite (proj2 (Z.ltb_lt _ _)) by done|rewrite (proj2 (Z.ltb_ge _ _)) by lia].
  - rewrite andb_true_r. f_equal. lia.
  - apply andb_false_r.
Qed.

Definition byte_reversed (n i : nat) : bool :=
  eqb (Z.testbit (REVERSE_BYTE (Z.of_nat n)) (Z.of_nat i)) (Z.testbit (Z.of_nat n) (7 - Z.of_nat i)).

Lemma bytes_reversed :
  forallb (fun n => forallb (byte_reversed n) (seq 0 8)) (seq 0 256) = true.
Proof. by vm_compute. Qed.

Lemma REVERSE_BYTE_bits x k j : 0 <= k ->
  Z.testbit (REVERSE_BYTE (byte_of x k)) j =
  if decide (0 <= j < 8) then Z.testbit x (8 * k + 7 - j) else false.
Proof.
  intros Hk. case_decide as Hj.
  - assert (0 <= byte_of x k < 256) as Hb.
    { unfold byte_of. change 0xff with (Z.ones 8). rewrite Z.land_ones by lia. by apply Z.mod_pos_bound. }
    pose proof bytes_reversed as H. rewrite forallb_forall in H.
    specialize (H (Z.to_nat (byte_of x k)) ltac:(apply in_seq; lia)). rewrite forallb_forall in H.
    specialize (H (Z.to_nat j) ltac:(apply in_seq; lia)).
    apply eqb_prop in H. rewrite !Z2Nat.id in H by lia. rewrite H, byte_of_bits by lia.
    rewrite decide_True by lia. f_equal. lia.
  - destruct (decide (j < 0)); [by apply Z.testbit_neg_r|].
    unfold REVERSE_BYTE. change 0xff with (Z.ones 8). rewrite Z.land_spec.
    rewrite (Z.testbit_ones_nonneg 8), (proj2 (Z.ltb_ge _ _)) by lia. apply andb_false_r.
Qed.

Lemma REVERSE_bits x i : 0 <= i ->
  Z.testbit (REVERSE x) i = if decide (i < 64) then Z.testbit x (63 - i) else false.
Proof.
  intros Hi. unfold REVERSE. rewrite !Z.lor_spec, !Z.shiftl_spec, !REVERSE_BYTE_bits by lia.
  destruct (decide (i < 64)).
  - assert (exists k r, i = 8 * k + r /\ 0 <= k < 8 /\ 0 <= r < 8) as (k & r & -> & Hk & Hr).
    { exists (i / 8), (i mod 8). pose proof (Z.div_mod i 8). pose proof (Z.mod_pos_bound i 8).
      split_and!; [lia|apply Z.div_pos; lia|apply Z.div_lt_upper_bound; lia|lia|lia]. }
    assert (k = 0 \/ k = 1 \/ k = 2 \/ k = 3 \/ k = 4 \/ k = 5 \/ k = 6 \/ k = 7) as Hc by lia.
    destruct_or! Hc; subst k; repeat (case_decide; [|try lia]); try lia;
      rewrite ?orb_false_l, ?orb_false_r; f_equal; lia.
  - by rewrite !decide_False by lia.
Qed.

Lemma REVERSE_nonneg x : 0 <= REVERSE x.
Proof. apply Z.bits_iff_nonneg_ex. exists 64. intros i Hi. by rewrite REVERSE_bits, decide_False by lia. Qed.

Lemma bits_le x y : 0 <= x -> 0 <= y ->
  (forall i, 0 <= i -> Z.testbit x i = true -> Z.testbit y i = true) -> x <= y.
Proof.
  intros Hx Hy H. assert (Z.ldiff x y = 0) as E.
  { apply Z.bits_inj'. intros i Hi. rewrite Z.ldiff_spec, Z.bits_0.
    destruct (Z.testbit x i) eqn:E; [by rewrite (H i)|done]. }
  pose proof (Z.sub_nocarry_ldiff y x E). pose proof (Z.ldiff_nonneg y x). lia.
Qed.

Lemma REVERSE_le x y :
  (forall i, 0 <= i < 64 -> Z.testbit x i = true -> Z.testbit y i = true) -> REVERSE x <= REVERSE y.
Proof.
  intros H. apply bits_le; [apply REVERSE_nonneg..|]. intros i Hi.
  rewrite !REVERSE_bits by lia. case_decide; [|done]. apply H. lia.
Qed.

Lemma REVERSE_inj x y i : REVERSE x = REVERSE y -> 0 <= i < 64 -> Z.testbit x i = Z.testbit y i.
Proof.
  intros E Hi. pose proof (REVERSE_bits x (63 - i) ltac:(lia)) as Hx.
  pose proof (REVERSE_bits y (63 - i) ltac:(lia)) as Hy. rewrite decide_True in Hx, Hy by lia.
  rewrite E, Hy in Hx. replace (63 - (63 - i)) with i in Hx by lia. done.
Qed.

Lemma u32_of_i32 x : u32 (i32 x) = u32 x.
Proof.
  unfold u32, i32. rewrite Zminus_mod_idemp_l. f_equal. lia.
Qed.
Lemma i32_u32 x : i32 (u32 x) = i32 x.
Proof. unfold u32, i32. by rewrite Zplus_mod_idemp_l. Qed.

(** The bits of a key_t that reach a key. *)
Lemma int_bits x i : 0 <= i < 32 -> Z.testbit (u64 (i32 x)) i = Z.testbit x i.
Proof.
  intros Hi. unfold u64. rewrite Z.mod_pow2_bits_low by lia.
  rewrite <- (Z.mod_pow2_bits_low _ 32), <- (Z.mod_pow2_bits_low x 32) by lia.
  f_equal. apply u32_of_i32.
Qed.

Lemma int_word b : 0 <= b < 2 ^ 31 -> u64 (i32 b) = b.
Proof. intros. rewrite i32_small, u64_small by lia. done. Qed.

Lemma small_bits b k i : 0 <= b < 2 ^ k -> k <= i -> Z.testbit b i = false.
Proof.
  intros Hb Hi. destruct (decide (0 <= k)) as [Hk|Hk]; [|rewrite Z.pow_neg_r in Hb; lia].
  rewrite <- (Z.mod_small b (2 ^ k)) by done. apply Z.mod_pow2_bits_high. lia.
Qed.

Lemma MSB_bits i : 0 <= i -> Z.testbit MSB i = bool_decide (i = 63).
Proof.
  intros Hi. unfold MSB. rewrite Z.shiftl_spec by lia. case_bool_decide as H.
  - by subst.
  - destruct (decide (i < 63)); [apply Z.testbit_neg_r; lia|apply (small_bits 1 1); lia].
Qed.

(** ** Keys *)

Lemma so_regularkey_u32 x : so_regularkey (u32 x) = so_regularkey x.
Proof. unfold so_regularkey. by rewrite i32_u32. Qed.

Lemma so_regularkey_inj x y : so_regularkey x = so_regularkey y -> u32 x = u32 y.
Proof.
  intros E. unfold u32. apply Z.bits_inj'. intros i Hi.
  destruct (decide (i < 32)); [|by rewrite !Z.mod_pow2_bits_high by lia].
  rewrite !Z.mod_pow2_bits_low by lia.
  pose proof (REVERSE_inj _ _ i E ltac:(lia)) as H.
  rewrite !Z.lor_spec, !int_bits, MSB_bits, bool_decide_eq_false_2, !orb_false_r in H by lia. done.
Qed.

Lemma so_regularkey_odd x : Z.testbit (so_regularkey x) 0 = true.
Proof.
  unfold so_regularkey. rewrite REVERSE_bits, decide_True, Z.lor_spec by lia. cbn.
  by rewrite orb_true_r.
Qed.

Lemma so_dummykey_even b : 0 <= b < 2 ^ 31 -> Z.testbit (so_dummykey b) 0 = false.
Proof.
  intros Hb. unfold so_dummykey. rewrite REVERSE_bits, decide_True by lia.
  rewrite int_word by done. apply (small_bits b 31); lia.
Qed.

Lemma so_dummykey_inj b c : 0 <= b < 2 ^ 31 -> 0 <= c < 2 ^ 31 ->
  so_dummykey b = so_dummykey c -> b = c.
Proof.
  intros Hb Hc E. apply Z.bits_inj'. intros i Hi.
  destruct (decide (i < 64)); [|by rewrite !(small_bits _ 31) by lia].
  rewrite <- (int_word b), <- (int_word c) by done. by apply REVERSE_inj.
Qed.

Lemma so_dummy_regular b x : 0 <= b < 2 ^ 31 -> so_dummykey b <> so_regularkey x.
Proof.
  intros Hb E. pose proof (so_dummykey_even b Hb) as H. by rewrite E, so_regularkey_odd in H.
Qed.

(** A bucket starts before the keys that fall in it, and after its parent. *)
Lemma so_dummykey_lt n x : 0 <= n <= 31 -> so_dummykey (x mod 2 ^ n) < so_regularkey x.
Proof.
  intros Hn. pose proof (Z.mod_pos_bound x (2 ^ n) ltac:(lia)) as Hb.
  assert (2 ^ n <= 2 ^ 31) by (apply Z.pow_le_mono_r; lia).
  assert (so_dummykey (x mod 2 ^ n) <> so_regularkey x) by (apply so_dummy_regular; lia).
  assert (so_dummykey (x mod 2 ^ n) <= so_regularkey x); [|lia].
  apply REVERSE_le. intros i Hi. rewrite int_word by lia.
  destruct (decide (i < n)).
  - rewrite Z.mod_pow2_bits_low, Z.lor_spec, int_bits by lia. by intros ->.
  - by rewrite Z.mod_pow2_bits_high by lia.
Qed.

Lemma GET_PARENT_bits b i : Z.testbit (GET_PARENT b) i = true -> Z.testbit b i = true.
Proof. unfold GET_PARENT. rewrite Z.land_spec. by intros [? _]%andb_true_iff. Qed.

Lemma lor_shiftr_lt t j k : 0 <= j -> 0 <= t < 2 ^ k -> 0 <= Z.lor t (Z.shiftr t j) < 2 ^ k.
Proof.
  intros Hj Ht. destruct (decide (0 <= k)) as [Hk|Hk]; [|rewrite Z.pow_neg_r in Ht; lia].
  assert (0 <= Z.lor t (Z.shiftr t j)) as H0 by (apply Z.lor_nonneg; rewrite Z.shiftr_nonneg; lia).
  split; [done|]. destruct (decide (Z.lor t (Z.shiftr t j) = 0)) as [->|Hne]; [lia|].
  apply Z.log2_lt_pow2; [lia|]. rewrite Z.log2_lor by (rewrite ?Z.shiftr_nonneg; lia).
  assert (forall z, 0 <= z <= t -> z <> 0 \/ 0 < k -> Z.log2 z < k) as Hl.
  { intros z Hz Hc. destruct (decide (z = 0)) as [->|]; [cbn; lia|].
    apply Z.log2_lt_pow2; lia. }
  assert (Z.shiftr t j <= t).
  { rewrite Z.shiftr_div_pow2 by done. apply Z.div_le_upper_bound; [lia|]. nia. }
  assert (t <> 0) by (intros ->; by rewrite Z.shiftr_0_l in Hne).
  assert (0 < k) by (destruct (decide (k = 0)) as [->|]; lia).
  pose proof (Z.shiftr_nonneg t j). apply Z.max_lub_lt; apply Hl; lia.
Qed.

(** The bits below the top one, bit by bit. *)
Lemma fill_bits t k n j : 0 <= j <= n ->
  (forall i, 0 <= i -> k - n < i <= k -> Z.testbit t i = true) ->
  forall i, 0 <= i -> k - (n + j) < i <= k -> Z.testbit (Z.lor t (Z.shiftr t j)) i = true.
Proof.
  intros Hj H i Hi Hik. rewrite Z.lor_spec, Z.shiftr_spec by done.
  destruct (decide (k - n < i)); [rewrite H; [done|lia..]|].
  rewrite (H (i + j)) by lia. apply orb_true_r.
Qed.

Lemma GET_PARENT_eq b k : 0 <= k < 64 -> 2 ^ k <= b < 2 ^ (k + 1) -> GET_PARENT b = b mod 2 ^ k.
Proof.
  intros Hk Hb. pose proof (Z.pow_pos_nonneg 2 k).
  assert (forall i, 0 <= i -> k - 1 < i <= k -> Z.testbit b i = true) as Htop.
  { intros i _ Hi. replace i with (Z.log2 b); [apply Z.bit_log2; lia|].
    rewrite (Z.log2_unique b k); lia. }
  unfold GET_PARENT. match goal with |- context [Z.shiftr ?x 1] =>
    lazymatch x with context [Z.shiftr _ 32] => set (t := x) end end.
  assert (0 <= t < 2 ^ (k + 1)) as Ht by (repeat (apply lor_shiftr_lt; [lia|]); lia).
  assert (forall i, 0 <= i -> k - (1 + 1 + 2 + 4 + 8 + 16 + 32) < i <= k -> Z.testbit t i = true) as Hbits.
  { by repeat (apply fill_bits; [lia|]). }
  assert (Z.shiftr t 1 = Z.ones k) as ->; [|by rewrite Z.land_ones by lia].
  apply Z.bits_inj'. intros i Hi. rewrite Z.shiftr_spec, Z.testbit_ones_nonneg by lia.
  destruct (Z.ltb_spec i k); [apply Hbits; lia|apply (small_bits t (k + 1)); lia].
Qed.

Lemma parent_of b : 0 < b < 2 ^ 31 ->
  exists k, 0 <= k < 31 /\ 2 ^ k <= b < 2 ^ (k + 1) /\ GET_PARENT b = b mod 2 ^ k.
Proof.
  intros Hb. exists (Z.log2 b). pose proof (Z.log2_spec b ltac:(lia)) as Hs.
  assert (0 <= Z.log2 b < 31) as Hl by (split; [apply Z.log2_nonneg|apply Z.log2_lt_pow2; lia]).
  split_and!; [lia..|]. apply GET_PARENT_eq; lia.
Qed.

Lemma GET_PARENT_lt b : 0 < b < 2 ^ 31 -> 0 <= GET_PARENT b < b.
Proof.
  intros Hb. destruct (parent_of b Hb) as (k & Hk & Hb' & ->).
  pose proof (Z.mod_pos_bound b (2 ^ k) ltac:(lia)). lia.
Qed.

Lemma so_dummykey_parent b : 0 < b < 2 ^ 31 -> so_dummykey (GET_PARENT b) < so_dummykey b.
Proof.
  intros Hb. pose proof (GET_PARENT_lt b Hb) as Hp.
  assert (so_dummykey (GET_PARENT b) <> so_dummykey b).
  { intros E. apply so_dummykey_inj in E; lia. }
  assert (so_dummykey (GET_PARENT b) <= so_dummykey b); [|lia].
  apply REVERSE_le. intros i _. rewrite !int_word by lia. apply GET_PARENT_bits.
Qed.

Lemma qt_hashword_range k : 0 <= qt_hashword k < 2 ^ 63.
Proof.
  unfold qt_hashword. cbv zeta. change (2 ^ 64 - 1 - MSB) with (Z.ones 63).
  rewrite Z.land_ones by lia. by apply Z.mod_pos_bound.
Qed.

(** ** The list in the store *)

Record node : Type := Node { n_addr : Z; n_key : Z; n_val : Z }.
#[export] Instance node_eq_dec : EqDecision node.
Proof. solve_decision. Defined.

Implicit Types (L A C P : list node) (m : gmap Z hash_entry) (s : lf_t).

Definition first L : Z := match L with [] => NULL | x :: _ => n_addr x end.

Fixpoint chain m L : Prop :=
  match L with
  | [] => True
  | x :: C => m !! n_addr x = Some (Entry (n_key x) (n_val x) (first C)) /\ chain m C
  end.

Definition address (a : Z) : Prop := (2 | a) /\ a <> NULL.
Definition addrs L : list Z := n_addr <$> L.
Definition keys L : list Z := n_key <$> L.

Lemma address_first L : Forall address (addrs L) -> (2 | first L).
Proof. intros H. destruct L; [by exists 0|]. by apply Forall_cons in H as [[? _] _]. Qed.

Lemma chain_frame m L a e : a ∉ addrs L -> chain m L -> chain (<[a := e]> m) L.
Proof.
  induction L as [|x L IH]; [done|]. cbn. intros [Hne Ha]%not_elem_of_cons [Hx Hc].
  rewrite lookup_insert_ne by done. auto.
Qed.

Lemma chain_frame_delete m L a : a ∉ addrs L -> chain m L -> chain (delete a m) L.
Proof.
  induction L as [|x L IH]; [done|]. cbn. intros [Hne Ha]%not_elem_of_cons [Hx Hc].
  rewrite lookup_delete_ne by done. auto.
Qed.

Lemma chain_app m A C : chain m (A ++ C) -> chain m C.
Proof. induction A as [|x A IH]; [done|]. cbn. intros [_ H]. auto. Qed.

Lemma chain_lookup m A x C :
  chain m (A ++ x :: C) -> m !! n_addr x = Some (Entry (n_key x) (n_val x) (first C)).
Proof. by intros [? _]%chain_app. Qed.

(** An entry linked in behind [x], and the entry behind [x] unlinked. *)
Lemma chain_insert m P x y C :
  NoDup (addrs (P ++ x :: C)) -> n_addr y ∉ addrs (P ++ x :: C) -> chain m (P ++ x :: C) ->
  chain (<[n_addr x := Entry (n_key x) (n_val x) (n_addr y)]>
          (<[n_addr y := Entry (n_key y) (n_val y) (first C)]> m)) (P ++ x :: y :: C).
Proof.
  induction P as [|p P IH]; cbn; intros [Hnot Hnd]%NoDup_cons [Hne Hy]%not_elem_of_cons [Hx Hc].
  - rewrite lookup_insert_eq, lookup_insert_ne, lookup_insert_eq by done.
    split_and!; [done..|]. by repeat apply chain_frame.
  - split; [|by apply IH].
    rewrite !lookup_insert_ne; [|done|intros E; apply Hnot; rewrite <- E; unfold addrs; rewrite fmap_app;
      set_solver].
    rewrite Hx. by destruct P.
Qed.

Lemma chain_delete m P x y C :
  NoDup (addrs (P ++ x :: y :: C)) -> chain m (P ++ x :: y :: C) ->
  chain (delete (n_addr y) (<[n_addr x := Entry (n_key x) (n_val x) (first C)]> m)) (P ++ x :: C).
Proof.
  induction P as [|p P IH]; cbn; intros [Hnot Hnd]%NoDup_cons [Hx Hc].
  - apply NoDup_cons in Hnd as [Hy Hnd]. apply not_elem_of_cons in Hnot as [Hxy Hnot].
    rewrite lookup_delete_ne, lookup_insert_eq by done. split; [done|].
    apply chain_frame_delete; [done|]. apply chain_frame; [done|]. apply Hc.
  - split; [|by apply IH]. unfold addrs in Hnot. rewrite fmap_app in Hnot.
    rewrite lookup_delete_ne, lookup_insert_ne by set_solver. rewrite Hx. by destruct P.
Qed.

(** ** The search *)

Section search.
Context (s : lf_t) (key : Z).

(** The word at which a search that passed over [A] from [prev] stops. *)
Definition last_cell (prev : lf_cell) A : lf_cell :=
  match last A with Some x => CellNext (n_addr x) | None => prev end.
Definition found C : Z :=
  match C with x :: _ => if n_key x =? key then n_val x else NULL | [] => NULL end.
Definition stops C : Prop := match C with x :: _ => key <= n_key x | [] => True end.

Lemma find_loop_finds fuel head L prev next :
  chain (entries s) L -> Forall address (addrs L) -> (length L < fuel)%nat ->
  lf_read prev s = Ok (first L, s) ->
  exists A C next', L = A ++ C /\ Forall (fun x => n_key x < key) A /\ stops C /\
    find_loop fuel head key prev (first L) next s =
      Ok ((found C, last_cell prev A, first C, next'), s) /\
    (C <> [] -> next' = first (tail C)).
Proof.
  revert fuel prev next. induction L as [|x L IH]; intros [|fuel] prev next Hc Ha Hf Hr; try (cbn in Hf; lia).
  - exists [], [], next. by rewrite app_nil_r.
  - cbn in Hc. destruct Hc as [Hx Hc]. apply Forall_cons in Ha as [[H2 Hnz] Ha]. cbn in Hf.
    pose proof (address_first L Ha) as H2'. cbn [find_loop first].
    rewrite PTR_OF_even by done. destruct (Z.eqb_spec (n_addr x) NULL) as [|_]; [done|].
    erewrite st_bind_run by (unfold get_entry; by rewrite Hx).
    erewrite st_bind_run by exact Hr. cbn [first e_next e_key e_value].
    rewrite CONSTRUCT_even, Z.eqb_refl, MARK_OF_even by done. cbn [negb truth].
    destruct (Z.leb_spec key (n_key x)) as [Hle|Hgt].
    + exists [], (x :: L), (first L). by split_and!.
    + destruct (IH fuel (CellNext (n_addr x)) (first L)) as (A & C & next' & -> & HA & HC & E & Hn);
        [done|done|lia| |].
      { cbn. unfold mbind, ST_bind, get_entry. by rewrite Hx. }
      exists (x :: A), C, next'. split_and!; [done|by constructor|done| |done].
      cbn. rewrite E. unfold last_cell. rewrite last_cons. by destruct (last A).
Qed.

Lemma list_find_finds fuel head L :
  chain (entries s) L -> Forall address (addrs L) -> (length L < fuel)%nat ->
  lf_read head s = Ok (first L, s) ->
  exists A C next', L = A ++ C /\ Forall (fun x => n_key x < key) A /\ stops C /\
    qt_lf_list_find fuel head key s = Ok ((found C, last_cell head A, first C, next'), s) /\
    (C <> [] -> next' = first (tail C)).
Proof.
  intros Hc Ha Hf Hr. unfold qt_lf_list_find. erewrite st_bind_run by exact Hr.
  by apply find_loop_finds.
Qed.
End search.

(** ** The heap

    The entries are those of the list [L] and the loose ones [X], not yet linked in; [T]
    counts the blocks, used or not. *)
Record list_heap (T : Z) s L (X : list Z) : Prop := {
  hp_chain : chain (entries s) L;
  hp_dom : forall a, is_Some (entries s !! a) <-> a ∈ X ++ addrs L;
  hp_nodup : NoDup (X ++ addrs L);
  hp_addr : Forall (fun a => address a /\ a < lf_brk s) (X ++ addrs L);
  hp_brk : (2 | lf_brk s) /\ 0 < lf_brk s;
  hp_sorted : StronglySorted Z.lt (keys L);
  hp_blocks : lf_blocks s + Z.of_nat (length X + length L) = T }.

(** Only the heap has changed. *)
Definition table s : list Z * Z * Z * Z := (lf_B s, lf_count s, lf_size s, hard_max_buckets s).

Section heap.
Context (T : Z).
Implicit Types (X : list Z).

Lemma heap_addresses s L X : list_heap T s L X -> Forall address (addrs L).
Proof.
  intros H. pose proof (hp_addr _ _ _ _ H) as Ha. apply Forall_app in Ha as [_ Ha].
  by eapply Forall_impl; [exact Ha|]; intros ? [].
Qed.

Lemma heap_list_nodup s L X : list_heap T s L X -> NoDup (addrs L).
Proof. intros H. pose proof (hp_nodup _ _ _ _ H) as Hn. by apply NoDup_app in Hn as (_ & _ & ?). Qed.

Lemma sorted_above P x C :
  StronglySorted Z.lt (keys (P ++ x :: C)) -> Forall (fun z => n_key x < n_key z) C.
Proof.
  unfold keys. rewrite fmap_app, fmap_cons.
  intros [_ Hs]%StronglySorted_app_1_r%StronglySorted_inv. apply Forall_forall. intros z Hz.
  rewrite Forall_forall in Hs. apply Hs. by apply list_elem_of_fmap_2.
Qed.

(** The keys around a place of the list. *)
Lemma sorted_around P x C y :
  StronglySorted Z.lt (keys (P ++ x :: C)) -> y ∈ P ++ x :: C ->
  (n_key y <= n_key x /\ (y = x \/ y ∈ P)) \/ (n_key x < n_key y /\ y ∈ C).
Proof.
  unfold keys. rewrite fmap_app, fmap_cons. intros Hs Hy.
  apply elem_of_app in Hy as [Hy|[-> |Hy]%elem_of_cons]; [|by left; split; [lia|left]|].
  - left. split; [|by right]. apply StronglySorted_app in Hs as (Hs & _ & _).
    assert (n_key y < n_key x); [|lia].
    apply Hs; [by apply list_elem_of_fmap_2|by apply elem_of_cons; left].
  - right. split; [|done]. rewrite <- fmap_cons, <- fmap_app in Hs.
    apply sorted_above in Hs. rewrite Forall_forall in Hs. by apply Hs.
Qed.

Lemma stops_above key P x C y :
  StronglySorted Z.lt (keys (P ++ x :: C)) -> n_key x < key -> stops key C ->
  y ∈ P ++ x :: C -> n_key y = key -> exists C', C = y :: C'.
Proof.
  intros Hs Hx Hst Hy Hk. destruct (sorted_around P x C y Hs Hy) as [[? _]|[_ Hin]]; [lia|].
  destruct C as [|z C]; [by apply elem_of_nil in Hin|].
  apply elem_of_cons in Hin as [-> |Hin]; [by eexists|]. cbn in Hst.
  replace (P ++ x :: z :: C) with ((P ++ [x]) ++ z :: C) in Hs by by rewrite <- app_assoc.
  apply sorted_above in Hs. rewrite Forall_forall in Hs. specialize (Hs y Hin). lia.
Qed.

(** A search that starts at an entry [d] below the key. *)
Lemma bucket_find s L X fuel head key d :
  list_heap T s L X -> d ∈ L -> lf_read head s = Ok (n_addr d, s) -> n_key d < key ->
  (length L < fuel)%nat ->
  exists P x C, L = P ++ x :: C /\ n_key x < key /\ stops key C /\
    exists next, qt_lf_list_find fuel head key s =
      Ok ((found key C, CellNext (n_addr x), first C, next), s) /\
      (C <> [] -> next = first (tail C)).
Proof.
  intros Hh Hd Hr Hk Hf. apply list_elem_of_split in Hd as (P & D & ->).
  pose proof (heap_addresses _ _ _ Hh) as Ha. pose proof (hp_chain _ _ _ _ Hh) as Hc.
  destruct (list_find_finds s key fuel head (d :: D)) as (A & C & next & E & HA & HC & Ef & Hn).
  - by apply chain_app in Hc.
  - unfold addrs in Ha. rewrite fmap_app in Ha. by apply Forall_app in Ha as [_ ?].
  - rewrite length_app in Hf. cbn in *. lia.
  - done.
  - destruct A as [|x A _] using rev_ind.
    + cbn in E. subst C. cbn in HC. lia.
    + apply Forall_app in HA as [_ HA]. apply Forall_cons in HA as [Hx _].
      rewrite <- app_assoc in E. exists (P ++ A), x, C. rewrite <- app_assoc, E.
      split_and!; [done..|]. exists next. split; [|done]. rewrite Ef. unfold last_cell. by rewrite last_snoc.
Qed.

Lemma found_in key L P x C y :
  L = P ++ x :: C -> StronglySorted Z.lt (keys L) -> n_key x < key -> stops key C ->
  y ∈ L -> n_key y = key -> (exists C', C = y :: C') /\ found key C = n_val y.
Proof.
  intros -> Hs Hx Hst Hy Hk. destruct (stops_above key P x C y) as [C' ->]; try done.
  split; [by eexists|]. cbn. by rewrite (proj2 (Z.eqb_eq _ _) Hk).
Qed.

Lemma found_absent key P x C :
  (forall y, y ∈ P ++ x :: C -> n_key y <> key) -> found key C = NULL.
Proof.
  intros H. destruct C as [|y C]; [done|]. cbn. rewrite (proj2 (Z.eqb_neq _ _)); [done|].
  apply H. set_solver.
Qed.

(** What an operation leaves alone: the table's own words and the loose entries. *)
Definition keeps s s' X : Prop :=
  table s' = table s /\ forall a, a ∈ X -> entries s' !! a = entries s !! a.

Lemma malloc_spec s L X :
  list_heap T s L X -> 0 < lf_blocks s ->
  exists s', malloc_entry s = Ok (lf_brk s, s') /\ list_heap T s' L (lf_brk s :: X) /\
    keeps s s' X /\ is_Some (entries s' !! lf_brk s) /\ lf_blocks s' = lf_blocks s - 1.
Proof.
  intros [Hc Hd Hn Ha [Hb2 Hb0] Hs Ht] Hb. unfold malloc_entry.
  rewrite (proj2 (Z.leb_gt _ _)) by done. eexists. split; [done|].
  assert (lf_brk s ∉ X ++ addrs L) as Hnew.
  { intros Hin. rewrite Forall_forall in Ha. destruct (Ha _ Hin) as [_ ?]. lia. }
  split; [|split_and!; cbn; [split; [done|]|by rewrite lookup_insert_eq|done]].
  - constructor; cbn.
    + apply chain_frame; [|done]. set_solver.
    + intros a. destruct (decide (lf_brk s = a)) as [<-|Hne].
      * rewrite lookup_insert_eq. split; [by left|done].
      * rewrite lookup_insert_ne, Hd by done. set_solver.
    + by constructor.
    + constructor; [split; [split; [done|unfold NULL; lia]|lia]|].
      eapply Forall_impl; [exact Ha|]. cbn. intros a []. split; [done|lia].
    + split; [apply Z.divide_add_r; [done|by exists 16]|lia].
    + done.
    + lia.
  - intros a Hin. cbn. rewrite lookup_insert_ne; [done|]. intros <-. set_solver.
Qed.

Lemma put_loose s L X a e :
  list_heap T s L (a :: X) ->
  exists s', put_entry a e s = Ok (tt, s') /\ list_heap T s' L (a :: X) /\ keeps s s' X /\
    entries s' !! a = Some e /\ lf_blocks s' = lf_blocks s.
Proof.
  intros [Hc Hd Hn Ha Hb Hs Ht]. eexists. split; [done|].
  cbn in Hn. apply NoDup_cons in Hn as [Hnew Hn].
  split; [|split_and!; cbn; [split; [done|]|by rewrite lookup_insert_eq|done]].
  - constructor; cbn; try done.
    + apply chain_frame; [set_solver|done].
    + intros b. destruct (decide (a = b)) as [<-|Hne].
      * rewrite lookup_insert_eq. split; [by left|done].
      * by rewrite lookup_insert_ne, Hd.
    + by constructor.
  - intros b Hin. cbn. rewrite lookup_insert_ne; [done|]. intros <-. set_solver.
Qed.

Lemma free_loose s L X a :
  list_heap T s L (a :: X) -> a <> NULL ->
  exists s', free_entry a s = Ok (tt, s') /\ list_heap T s' L X /\ keeps s s' X /\
    lf_blocks s' = lf_blocks s + 1.
Proof.
  intros [Hc Hd Hn Ha Hb Hs Ht] Hnz. unfold free_entry. rewrite (proj2 (Z.eqb_neq _ _)) by done.
  destruct (proj2 (Hd a)) as [e He]; [by left|].
  eexists. split; [erewrite st_bind_run by (unfold get_entry; by rewrite He); done|].
  cbn in Hn. apply NoDup_cons in Hn as [Hnew Hn]. cbn in Ha. apply Forall_cons in Ha as [_ Ha].
  split; [|split_and!; [split; [done|]|done]].
  - constructor; cbn in *; try done; [|  |lia].
    + apply chain_frame_delete; [set_solver|done].
    + intros b. destruct (decide (a = b)) as [<-|Hne].
      * rewrite lookup_delete_eq. split; [by intros []|done].
      * rewrite lookup_delete_ne, Hd by done. set_solver.
  - intros b Hin. cbn. rewrite lookup_delete_ne; [done|]. intros <-. set_solver.
Qed.

Lemma rd_next s a e : entries s !! a = Some e -> lf_read (CellNext a) s = Ok (e_next e, s).
Proof. intros He. cbn. unfold mbind, ST_bind, get_entry. by rewrite He. Qed.

Lemma wr_next s a e w : entries s !! a = Some e ->
  lf_write (CellNext a) w s = Ok (tt, set_entries (<[a := Entry (e_key e) (e_value e) w]>) s).
Proof. intros He. cbn. unfold mbind, ST_bind, get_entry. by rewrite He. Qed.

Lemma CAS_next s a e new : entries s !! a = Some e ->
  CAS (CellNext a) (e_next e) new s =
    Ok (e_next e, set_entries (<[a := Entry (e_key e) (e_value e) new]>) s).
Proof.
  intros He. unfold CAS. erewrite st_bind_run by (by apply rd_next).
  rewrite Z.eqb_refl. cbn [st_when]. by erewrite st_bind_run by (by apply wr_next).
Qed.

(** A list with an element put in its place. *)
Lemma sorted_insert P x y C :
  StronglySorted Z.lt (keys (P ++ x :: C)) -> n_key x < n_key y ->
  Forall (fun z => n_key y < n_key z) C -> StronglySorted Z.lt (keys (P ++ x :: y :: C)).
Proof.
  unfold keys. rewrite !fmap_app, !fmap_cons. intros Hs Hxy HC.
  apply StronglySorted_app in Hs as (Hlr & Hl & Hr). apply StronglySorted_inv in Hr as [Hr Hx].
  assert (Forall (Z.lt (n_key y)) (n_key <$> C)) as HC'.
  { by apply Forall_fmap. }
  apply StronglySorted_app. split_and!; [|done|].
  - intros k1 k2 H1 [-> |[-> |H2]%elem_of_cons]%elem_of_cons.
    + apply Hlr; [done|by left].
    + pose proof (Hlr k1 (n_key x) H1 ltac:(by left)). lia.
    + apply Hlr; [done|by right].
  - constructor; [constructor; [done|done]|]. constructor; done.
Qed.

Lemma stops_strict key P x C :
  StronglySorted Z.lt (keys (P ++ x :: C)) -> stops key C ->
  (forall y, y ∈ P ++ x :: C -> n_key y <> key) -> Forall (fun z => key < n_key z) C.
Proof.
  intros Hs Hst Hne. destruct C as [|z C]; [constructor|]. cbn in Hst.
  assert (key < n_key z) as Hz by (pose proof (Hne z ltac:(set_solver)); lia).
  constructor; [done|].
  replace (P ++ x :: z :: C) with ((P ++ [x]) ++ z :: C) in Hs by by rewrite <- app_assoc.
  eapply Forall_impl; [by eapply sorted_above|]. cbn. intros; lia.
Qed.

Lemma insert_new s L X fuel head d a key v nx :
  list_heap T s L (a :: X) -> d ∈ L -> lf_read head s = Ok (n_addr d, s) -> n_key d < key ->
  entries s !! a = Some (Entry key v nx) -> (forall y, y ∈ L -> n_key y <> key) ->
  (S (length L) < fuel)%nat ->
  exists s' L' cur, qt_lf_list_insert fuel head a s = Ok ((true, cur), s') /\
    list_heap T s' L' X /\ L' ≡ₚ Node a key v :: L /\ keeps s s' X /\ lf_blocks s' = lf_blocks s.
Proof.
  intros Hh Hd Hr Hk He Hne Hf. destruct fuel as [|fuel]; [lia|].
  destruct (bucket_find s L (a :: X) fuel head key d Hh Hd Hr Hk ltac:(lia))
    as (P & x & C & -> & Hx & Hst & next & Ef & _).
  rewrite (found_absent key P x C Hne) in Ef.
  pose proof Hh as [Hc Hdom Hn Ha Hb Hs Ht]. cbn in Hn. apply NoDup_cons in Hn as [Hnew Hn].
  pose proof (heap_addresses _ _ _ Hh) as Haddr. pose proof (chain_lookup _ _ _ _ Hc) as Hlx.
  assert (a ∉ addrs (P ++ x :: C)) as Hal by set_solver.
  assert (n_addr x <> a) as Hxa.
  { intros <-. apply Hal. unfold addrs. rewrite fmap_app. set_solver. }
  cbn in Ha. apply Forall_cons in Ha as [[[Ha2 Hanz] Hab] Ha].
  assert (2 | first C) as HC2.
  { apply address_first. unfold addrs in Haddr. rewrite fmap_app in Haddr.
    apply Forall_app in Haddr as [_ Haddr]. by apply Forall_cons in Haddr as [_ ?]. }
  set (m1 := <[a := Entry key v (first C)]> (entries s)).
  assert (P ++ x :: Node a key v :: C ≡ₚ Node a key v :: P ++ x :: C) as HL by solve_Permutation.
  assert (X ++ addrs (P ++ x :: Node a key v :: C) ≡ₚ (a :: X) ++ addrs (P ++ x :: C)) as Hp.
  { unfold addrs. rewrite HL. cbn. by rewrite Permutation_middle. }
  exists (set_entries (fun _ => <[n_addr x := Entry (n_key x) (n_val x) a]> m1) s),
    (P ++ x :: Node a key v :: C), (first C).
  split_and!; [|constructor; cbn [set_entries entries lf_brk lf_blocks]|done| |done].
  - unfold qt_lf_list_insert. erewrite st_bind_run by (unfold get_entry; by rewrite He).
    cbn [e_key lf_insert_loop]. erewrite st_bind_run by exact Ef. cbn [truth negb Z.eqb NULL].
    erewrite st_bind_run by (apply wr_next; exact He). rewrite !CONSTRUCT_even by done.
    erewrite st_bind_run.
    2: { apply (CAS_next _ _ (Entry (n_key x) (n_val x) (first C))). cbn.
         rewrite lookup_insert_ne by done. exact Hlx. }
    cbn [e_next]. by rewrite Z.eqb_refl.
  - apply (chain_insert _ _ _ (Node a key v)); [|done|done]. by apply NoDup_app in Hn as (_ & _ & ?).
  - intros b. rewrite Hp, <- Hdom. unfold m1. destruct (decide (b = n_addr x)) as [->|].
    + rewrite lookup_insert_eq, Hlx. done.
    + rewrite lookup_insert_ne by done. destruct (decide (b = a)) as [->|].
      * by rewrite lookup_insert_eq, He.
      * by rewrite lookup_insert_ne.
  - rewrite Hp. cbn. by constructor.
  - rewrite Hp. cbn. by repeat constructor.
  - done.
  - apply sorted_insert; [done..|]. by eapply stops_strict.
  - rewrite !length_app in *. cbn in *. lia.
  - split; [done|]. intros b Hb'. cbn. unfold m1.
    assert (b <> a) by (intros ->; set_solver).
    assert (b <> n_addr x).
    { intros ->. apply NoDup_app in Hn as (_ & Hn & _). apply (Hn (n_addr x)); [done|].
      unfold addrs. rewrite fmap_app. set_solver. }
    by rewrite !lookup_insert_ne.
Qed.

Lemma insert_present s L X fuel head d a key v nx y :
  list_heap T s L (a :: X) -> d ∈ L -> lf_read head s = Ok (n_addr d, s) -> n_key d < key ->
  entries s !! a = Some (Entry key v nx) -> y ∈ L -> n_key y = key -> n_val y <> NULL ->
  (S (length L) < fuel)%nat ->
  qt_lf_list_insert fuel head a s = Ok ((false, n_addr y), s).
Proof.
  intros Hh Hd Hr Hk He Hy Hky Hv Hf. destruct fuel as [|fuel]; [lia|].
  destruct (bucket_find s L (a :: X) fuel head key d Hh Hd Hr Hk ltac:(lia))
    as (P & x & C & E & Hx & Hst & next & Ef & _).
  destruct (found_in key L P x C y E (hp_sorted _ _ _ _ Hh) Hx Hst Hy Hky) as [[C' ->] Hfound].
  unfold qt_lf_list_insert. erewrite st_bind_run by (unfold get_entry; by rewrite He).
  cbn [e_key lf_insert_loop]. erewrite st_bind_run by exact Ef. rewrite Hfound.
  unfold truth. by rewrite (proj2 (Z.eqb_neq _ _)) by done.
Qed.

Lemma find_absent s L X fuel head d key :
  list_heap T s L X -> d ∈ L -> lf_read head s = Ok (n_addr d, s) -> n_key d < key ->
  (forall y, y ∈ L -> n_key y <> key) -> (length L < fuel)%nat ->
  exists p cur next, qt_lf_list_find fuel head key s = Ok ((NULL, p, cur, next), s).
Proof.
  intros Hh Hd Hr Hk Hne Hf.
  destruct (bucket_find s L X fuel head key d Hh Hd Hr Hk Hf) as (P & x & C & -> & _ & _ & next & Ef & _).
  rewrite (found_absent key P x C Hne) in Ef. by do 3 eexists.
Qed.

Lemma find_present s L X fuel head d key y :
  list_heap T s L X -> d ∈ L -> lf_read head s = Ok (n_addr d, s) -> n_key d < key ->
  y ∈ L -> n_key y = key -> (length L < fuel)%nat ->
  exists P x C, L = P ++ x :: y :: C /\ qt_lf_list_find fuel head key s =
    Ok ((n_val y, CellNext (n_addr x), n_addr y, first C), s).
Proof.
  intros Hh Hd Hr Hk Hy Hky Hf.
  destruct (bucket_find s L X fuel head key d Hh Hd Hr Hk Hf) as (P & x & C & E & Hx & Hst & next & Ef & Hn).
  destruct (found_in key L P x C y E (hp_sorted _ _ _ _ Hh) Hx Hst Hy Hky) as [[C' ->] Hfound].
  exists P, x, C'. split; [done|]. rewrite Ef, Hfound, Hn by done. done.
Qed.

Lemma delete_absent s L X fuel head d key :
  list_heap T s L X -> d ∈ L -> lf_read head s = Ok (n_addr d, s) -> n_key d < key ->
  (forall y, y ∈ L -> n_key y <> key) -> (S (length L) < fuel)%nat ->
  qt_lf_list_delete fuel head key s = Ok (false, s).
Proof.
  intros Hh Hd Hr Hk Hne Hf. destruct fuel as [|fuel]; [lia|].
  destruct (find_absent s L X fuel head d key Hh Hd Hr Hk Hne ltac:(lia)) as (p & cur & next & Ef).
  cbn [qt_lf_list_delete]. by erewrite st_bind_run by exact Ef.
Qed.

(** Marking, unlinking and freeing an entry unlinks it. *)
Lemma delete_chain m P x y C e :
  NoDup (addrs (P ++ x :: y :: C)) -> chain m (P ++ x :: y :: C) ->
  chain (delete (n_addr y) (<[n_addr x := Entry (n_key x) (n_val x) (first C)]>
           (<[n_addr y := e]> m))) (P ++ x :: C).
Proof.
  intros Hn Hc. assert (n_addr x <> n_addr y) as Hxy.
  { unfold addrs in Hn. rewrite fmap_app, !fmap_cons in Hn. apply NoDup_app in Hn as (_ & _ & Hn).
    apply NoDup_cons in Hn as [Hn _]. intros E. apply Hn. rewrite E. by left. }
  rewrite insert_insert_ne, delete_insert_eq by done. by apply chain_delete.
Qed.

Lemma unlink_heap s L X P x y C e :
  list_heap T s L X -> L = P ++ x :: y :: C ->
  let s' := set_blocks (lf_blocks s + 1) (set_entries (fun m => delete (n_addr y)
    (<[n_addr x := Entry (n_key x) (n_val x) (first C)]> (<[n_addr y := e]> m))) s) in
  list_heap T s' (P ++ x :: C) X /\ keeps s s' X.
Proof.
  intros [Hc Hdom Hn Ha Hb Hs Ht] -> s'.
  assert (X ++ addrs (P ++ x :: y :: C) ≡ₚ n_addr y :: (X ++ addrs (P ++ x :: C))) as Hp.
  { unfold addrs. rewrite Permutation_middle, <- fmap_cons. f_equiv. apply fmap_Permutation.
    solve_Permutation. }
  assert (NoDup (addrs (P ++ x :: y :: C))) as HnL by (by apply NoDup_app in Hn as (_ & _ & ?)).
  rewrite Hp in Hn, Ha. apply NoDup_cons in Hn as [Hy Hn]. apply Forall_cons in Ha as [_ Ha].
  assert (n_addr x ∈ X ++ addrs (P ++ x :: C)) as Hxin.
  { apply elem_of_app. right. unfold addrs. rewrite fmap_app. set_solver. }
  assert (n_addr x <> n_addr y) as Hxy by (intros E; by rewrite E in Hxin).
  assert (forall b, b <> n_addr y -> b <> n_addr x -> entries s' !! b = entries s !! b) as Hsame.
  { intros b H1 H2. cbn. by rewrite lookup_delete_ne, !lookup_insert_ne by done. }
  split; [constructor; try done|split; [done|]].
  - by apply delete_chain.
  - intros b. destruct (decide (b = n_addr y)) as [->|Hby].
    { cbn. rewrite lookup_delete_eq. by split; [intros []|]. }
    destruct (decide (b = n_addr x)) as [->|Hbx].
    { cbn. rewrite lookup_delete_ne, lookup_insert_eq by done. by split. }
    rewrite Hsame, Hdom, Hp by done. set_solver.
  - unfold keys in *. rewrite fmap_app, !fmap_cons in *. apply StronglySorted_app in Hs as (Hlr & Hl & Hr).
    apply StronglySorted_app. split_and!; [|done|].
    + intros k1 k2 H1 H2. apply Hlr; [done|]. set_solver.
    + apply StronglySorted_inv in Hr as [Hr Hx]. apply StronglySorted_inv in Hr as [Hr _].
      apply Forall_cons in Hx as [_ Hx]. by constructor.
  - cbn. rewrite !length_app in *. cbn in *. lia.
  - intros b HbX. apply Hsame; intros ->; [set_solver|].
    apply NoDup_app in Hn as (_ & Hn & _). apply (Hn (n_addr x)); [done|].
    unfold addrs. rewrite fmap_app. set_solver.
Qed.

Lemma delete_present s L X fuel head d key y :
  list_heap T s L X -> d ∈ L -> lf_read head s = Ok (n_addr d, s) -> n_key d < key ->
  y ∈ L -> n_key y = key -> n_val y <> NULL -> (S (length L) < fuel)%nat ->
  exists s' L', qt_lf_list_delete fuel head key s = Ok (true, s') /\ list_heap T s' L' X /\
    L ≡ₚ y :: L' /\ keeps s s' X /\ lf_blocks s' = lf_blocks s + 1.
Proof.
  intros Hh Hd Hr Hk Hy Hky Hv Hf. destruct fuel as [|fuel]; [lia|].
  destruct (find_present s L X fuel head d key y Hh Hd Hr Hk Hy Hky ltac:(lia)) as (P & x & C & E & Ef).
  pose proof (hp_chain _ _ _ _ Hh) as Hc. rewrite E in Hc.
  pose proof (chain_lookup _ _ _ _ Hc) as Hlx. cbn [first] in Hlx.
  pose proof (heap_addresses _ _ _ Hh) as Ha. rewrite E in Ha. unfold addrs in Ha.
  rewrite fmap_app, !fmap_cons in Ha. apply Forall_app in Ha as [_ Ha].
  apply Forall_cons in Ha as [_ Ha]. apply Forall_cons in Ha as [[Hy2 Hynz] Ha].
  assert (entries s !! n_addr y = Some (Entry (n_key y) (n_val y) (first C))) as Hly.
  { apply (chain_lookup _ (P ++ [x])). by rewrite <- app_assoc. }
  assert (n_addr x <> n_addr y) as Hxy.
  { pose proof (heap_list_nodup _ _ _ Hh) as Hn. rewrite E in Hn. unfold addrs in Hn.
    rewrite fmap_app, !fmap_cons in Hn. apply NoDup_app in Hn as (_ & _ & Hn).
    apply NoDup_cons in Hn as [Hn _]. set_solver. }
  destruct (unlink_heap s L X P x y C (Entry (n_key y) (n_val y) (first C + 1)) Hh E) as [Hh' Hkeep].
  eexists _, (P ++ x :: C). split; [|split; [exact Hh'|split; [|split; [exact Hkeep|done]]]].
  - cbn [qt_lf_list_delete]. erewrite st_bind_run by exact Ef. unfold truth.
    rewrite (proj2 (Z.eqb_neq _ _)) by done. cbn [negb].
    pose proof (address_first C Ha) as HC2.
    rewrite PTR_OF_even, !CONSTRUCT_even, CONSTRUCT_1 by done.
    erewrite st_bind_run by (apply (CAS_next _ _ _ _ Hly)). cbn [e_next].
    rewrite Z.eqb_refl. cbn [negb].
    erewrite st_bind_run.
    2: { apply (CAS_next _ _ (Entry (n_key x) (n_val x) (n_addr y))). cbn.
         rewrite lookup_insert_ne by done. exact Hlx. }
    cbn [e_next]. rewrite Z.eqb_refl. unfold free_entry. rewrite (proj2 (Z.eqb_neq _ _)) by done.
    unfold get_entry, mbind, ST_bind. cbn. rewrite lookup_insert_ne, lookup_insert_eq by done. done.
  - rewrite E. solve_Permutation.
Qed.
End heap.
