(* ===== verification/LfHashSpec.v ===== *)
(** * The split-ordered hash table refines a map (LfHash.v)

    The buckets, and the operations against a map from the hash words the table tells
    apart. *)
From stdpp Require Import gmap sorting.
From S2P Require Import Prelude LfHash LfList.

Implicit Types (L A C P : list node) (s : lf_t).

(** ** Buckets *)

(** The buckets not used yet. *)
Definition unused (B : list Z) : Z := Z.of_nat (length (filter (fun w => w = UNINITIALIZED) B)).

Lemma unused_insert (B : list Z) i a :
  B !! i = Some UNINITIALIZED -> a <> UNINITIALIZED -> unused (<[i := a]> B) = unused B - 1.
Proof.
  intros Hi Ha. unfold unused. rewrite <- (take_drop_middle B i UNINITIALIZED Hi) at 2.
  rewrite insert_take_drop by (by eapply lookup_lt_Some).
  rewrite !filter_app, !filter_cons, !length_app, decide_False, decide_True by done. cbn. lia.
Qed.

Lemma unused_replicate n : unused (replicate n UNINITIALIZED) = Z.of_nat n.
Proof.
  unfold unused. induction n as [|n IH]; [done|].
  cbn [replicate]. rewrite filter_cons, decide_True by done. cbn [length]. lia.
Qed.

(** What the operations keep: [M] maps the hash words of the keys to their values. *)
Record inv (T : Z) (M : gmap Z Z) (X : list Z) s L : Prop := {
  iv_heap : list_heap T s L X;
  iv_max : 2 <= hard_max_buckets s <= 2 ^ 31 /\ length (lf_B s) = Z.to_nat (hard_max_buckets s);
  iv_size : exists n, 1 <= n /\ lf_size s = 2 ^ n /\ 2 ^ n <= hard_max_buckets s;
  iv_root : exists w, lf_B s !! 0%nat = Some w /\ w <> UNINITIALIZED;
  iv_start : forall i w, lf_B s !! i = Some w -> w <> UNINITIALIZED ->
    exists d, d ∈ L /\ n_addr d = w /\ n_key d = so_dummykey (Z.of_nat i);
  iv_nodes : forall x, x ∈ L ->
    (exists i, lf_B s !! i = Some (n_addr x) /\ n_key x = so_dummykey (Z.of_nat i)) \/
    (exists r, M !! r = Some (n_val x) /\ n_key x = so_regularkey r);
  iv_map : forall r v, M !! r = Some v -> 0 <= r < 2 ^ 32 /\ v <> NULL /\
    exists x, x ∈ L /\ n_key x = so_regularkey r /\ n_val x = v;
  iv_blocks : unused (lf_B s) <= lf_blocks s;
  iv_count : lf_count s = u64 (Z.of_nat (size M));
  iv_length : Z.of_nat (length L) = Z.of_nat (length (lf_B s)) - unused (lf_B s) + Z.of_nat (size M) }.

Definition settings s : Z * Z * Z := (lf_count s, lf_size s, hard_max_buckets s).

(** A bucket has been made ready for use. *)
Record readied T M X (i : nat) s s' L' : Prop := {
  rd_inv : inv T M X s' L';
  rd_settings : settings s' = settings s;
  rd_bucket : exists w, lf_B s' !! i = Some w /\ w <> UNINITIALIZED;
  rd_above : forall j, (i < j)%nat -> lf_B s' !! j = lf_B s !! j;
  rd_loose : forall a, a ∈ X -> entries s' !! a = entries s !! a;
  rd_blocks : lf_blocks s' - unused (lf_B s') = lf_blocks s - unused (lf_B s) }.

Section buckets.
Context (T : Z) (M : gmap Z Z).

Lemma rd_bucket_cell s i w : lf_B s !! i = Some w -> lf_read (CellB (Z.of_nat i)) s = Ok (w, s).
Proof. intros Hi. cbn. rewrite (proj2 (aget_ok _ _ w)); [done|]. split; [lia|]. by rewrite Nat2Z.id. Qed.

Lemma bucket_bound X s L i : inv T M X s L -> (i < length (lf_B s))%nat -> 0 <= Z.of_nat i < 2 ^ 31.
Proof. intros [] Hi. lia. Qed.

Lemma list_bound X s L : inv T M X s L -> Z.of_nat (length L) <= T - lf_blocks s /\ 0 <= lf_blocks s.
Proof. intros []. destruct iv_heap0. unfold unused in *. lia. Qed.

(** No entry has the key of a bucket that is not ready. *)
Lemma unready_absent X s L i y :
  inv T M X s L -> lf_B s !! i = Some UNINITIALIZED -> y ∈ L -> n_key y <> so_dummykey (Z.of_nat i).
Proof.
  intros Hi HB Hy E. pose proof (bucket_bound X s L i Hi (lookup_lt_Some _ _ _ HB)) as Hb.
  destruct (iv_nodes _ _ _ _ _ Hi y Hy) as [(j & Hj & Hk)|(r & _ & Hk)].
  - pose proof (bucket_bound X s L j Hi (lookup_lt_Some _ _ _ Hj)).
    rewrite E in Hk. apply so_dummykey_inj in Hk; [|done..]. apply Nat2Z.inj in Hk as <-.
    rewrite HB in Hj. injection Hj as Hj. pose proof (heap_addresses _ _ _ _ (iv_heap _ _ _ _ _ Hi)) as Ha.
    rewrite Forall_forall in Ha. destruct (Ha (n_addr y)) as [_ Hnz]; [by apply list_elem_of_fmap_2|].
    by rewrite <- Hj in Hnz.
  - rewrite E in Hk. by eapply so_dummy_regular.
Qed.

Lemma address_in X s L y : inv T M X s L -> y ∈ L -> n_addr y <> UNINITIALIZED.
Proof.
  intros Hi Hy. pose proof (heap_addresses _ _ _ _ (iv_heap _ _ _ _ _ Hi)) as Ha.
  rewrite Forall_forall in Ha. by destruct (Ha (n_addr y)) as [_ Hnz]; [apply list_elem_of_fmap_2|].
Qed.

(** A new dummy entry in the list, and its bucket. *)
Lemma inv_dummy X s L s' L' a i :
  inv T M X s L -> lf_B s !! i = Some UNINITIALIZED -> list_heap T s' L' X -> a <> UNINITIALIZED ->
  L' ≡ₚ Node a (so_dummykey (Z.of_nat i)) NULL :: L -> table s' = table s ->
  lf_blocks s' = lf_blocks s - 1 -> inv T M X (set_B (<[i := a]> (lf_B s)) s') L'.
Proof.
  intros Hi HB Hh Ha HL [= E1 E2 E3 E4] Hbl.
    pose proof Hi as [_ Hmax Hsize Hroot Hstart Hnodes Hmap Hblk Hcount Hlen].
  pose proof (lookup_lt_Some _ _ _ HB) as Hlt.
  constructor; cbn [set_B lf_B lf_size hard_max_buckets lf_blocks lf_count];
    rewrite ?E2, ?E3, ?E4, ?length_insert;
    [by destruct Hh; constructor|done|done| | | | | |done|].
  - destruct Hroot as (w & Hw & Hnz). exists w. split; [|done].
    rewrite list_lookup_insert_ne; [done|]. intros ->. by rewrite HB in Hw; injection Hw as <-.
  - intros j w Hw Hnz. destruct (decide (i = j)) as [<-|Hne].
    + rewrite list_lookup_insert_eq in Hw by done. injection Hw as <-.
      eexists. rewrite HL. split; [by left|]. done.
    + rewrite list_lookup_insert_ne in Hw by done. destruct (Hstart j w Hw Hnz) as (d & Hd & ?).
      exists d. rewrite HL. split; [by right|done].
  - intros x. rewrite HL. intros [->|Hx]%elem_of_cons.
    + left. exists i. by rewrite list_lookup_insert_eq.
    + destruct (Hnodes x Hx) as [(j & Hj & Hk)|?]; [left; exists j|by right].
      rewrite list_lookup_insert_ne; [done|]. intros ->. rewrite HB in Hj. injection Hj as Hj.
      symmetry in Hj. revert Hj. by eapply address_in.
  - intros r v Hr. destruct (Hmap r v Hr) as (? & ? & x & Hx & ?). split_and!; [lia..|done|].
    exists x. rewrite HL. split; [by right|done].
  - rewrite (unused_insert _ _ _ HB Ha). lia.
  - rewrite (unused_insert _ _ _ HB Ha), HL. cbn. lia.
Qed.

Lemma readied_refl X s L i w :
  inv T M X s L -> lf_B s !! i = Some w -> w <> UNINITIALIZED -> readied T M X i s s L.
Proof. intros Hi Hw Hnz. constructor; [done|done|by exists w|done..]. Qed.

Lemma add_dummy_ready fuel X s L i p w :
  inv T M X s L -> T + 1 < Z.of_nat fuel -> lf_B s !! i = Some UNINITIALIZED ->
  lf_B s !! p = Some w -> w <> UNINITIALIZED ->
  so_dummykey (Z.of_nat p) < so_dummykey (Z.of_nat i) ->
  exists s' L', add_dummy fuel (Z.of_nat i) (Z.of_nat p) s = Ok (tt, s') /\ readied T M X i s s' L'.
Proof.
  intros Hi Hf HB Hp Hw Hlt. pose proof Hi as [Hh Hmax Hsize Hroot Hstart Hnodes Hmap Hblk _ _].
  assert (1 <= unused (lf_B s)) as Hu.
  { pose proof (unused_insert _ _ 1 HB ltac:(done)). unfold unused in *. lia. }
  destruct (Hstart p w Hp Hw) as (d & Hd & Hda & Hdk).
  destruct (malloc_spec T s L X Hh ltac:(lia)) as (s1 & E1 & Hh1 & [Ht1 Hk1] & [e He] & Hb1).
  destruct (put_loose T s1 L X (lf_brk s) (Entry (so_dummykey (Z.of_nat i)) NULL UNINITIALIZED) Hh1)
    as (s2 & E2 & Hh2 & [Ht2 Hk2] & He2 & Hb2).
  pose proof (list_bound X s L Hi) as Hl.
  assert (lf_B s2 = lf_B s) as HB2 by (unfold table in *; congruence).
  destruct (insert_new T s2 L X fuel (CellB (Z.of_nat p)) d (lf_brk s)
    (so_dummykey (Z.of_nat i)) NULL UNINITIALIZED Hh2 Hd) as
    (s3 & L' & cur & E3 & Hh3 & HL & [Ht3 Hk3] & Hb3); [|by rewrite Hdk|exact He2| |lia|].
  { rewrite Hda. apply rd_bucket_cell. by rewrite HB2. }
  { intros y Hy. by eapply unready_absent. }
  assert (address (lf_brk s)) as [Ha2 Hanz].
  { pose proof (hp_addr _ _ _ _ Hh1) as Ha. by apply Forall_cons in Ha as [[? _] _]. }
  assert (table s3 = table s) as Ht by congruence.
  assert (lf_B s3 = lf_B s) as HB3 by (unfold table in Ht; congruence).
  exists (set_B (<[i := lf_brk s]> (lf_B s)) s3), L'. split.
  - unfold add_dummy. erewrite st_bind_run by exact E1.
    erewrite st_bind_run by (unfold get_entry; by rewrite He).
    erewrite st_bind_run by exact E2. erewrite st_bind_run by exact E3. cbn [negb lf_write].
    rewrite CONSTRUCT_even, aset_in, Nat2Z.id, HB3 by (done || rewrite HB3; apply lookup_lt_Some in HB; lia).
    done.
  - constructor; cbn [set_B lf_B entries lf_blocks].
    + apply (inv_dummy X s L s3 L' (lf_brk s) i); try done. lia.
    + unfold settings, table in *. cbn. congruence.
    + exists (lf_brk s). split; [|done]. apply list_lookup_insert_eq. by eapply lookup_lt_Some.
    + intros j Hj. apply list_lookup_insert_ne. lia.
    + intros a Ha. rewrite Hk3, Hk2, Hk1 by done. done.
    + rewrite (unused_insert _ _ _ HB Hanz). lia.
Qed.

Lemma initialize_bucket_ready fuel depth i : forall X s L,
  inv T M X s L -> T + 1 < Z.of_nat fuel -> lf_B s !! i = Some UNINITIALIZED ->
  Z.of_nat i < 2 ^ Z.of_nat depth ->
  exists s' L', initialize_bucket fuel depth (Z.of_nat i) s = Ok (tt, s') /\ readied T M X i s s' L'.
Proof.
  revert i. induction depth as [|depth IH]; intros i X s L Hi Hf HB Hd.
  { exfalso. destruct (iv_root _ _ _ _ _ Hi) as (w & Hw & Hnz). replace i with 0%nat in HB by (cbn in Hd; lia).
    congruence. }
  assert (0 < Z.of_nat i < 2 ^ 31) as Hib.
  { pose proof (bucket_bound X s L i Hi (lookup_lt_Some _ _ _ HB)).
    assert (i <> 0%nat); [|lia]. intros ->. destruct (iv_root _ _ _ _ _ Hi) as (w & Hw & Hnz). congruence. }
  pose proof (GET_PARENT_lt _ Hib) as Hp. pose proof (so_dummykey_parent _ Hib) as Hlt.
  cbn [initialize_bucket]. destruct (Z_of_nat_complete (GET_PARENT (Z.of_nat i)) ltac:(lia)) as [p Ep].
  rewrite Ep in *. pose proof (lookup_lt_Some _ _ _ HB) as Hli.
  destruct (lookup_lt_is_Some_2 (lf_B s) p ltac:(lia)) as [w Hw].
  erewrite st_bind_run by (by apply rd_bucket_cell).
  assert (exists s1 L1, st_when (w =? UNINITIALIZED) (initialize_bucket fuel depth (Z.of_nat p)) s = Ok (tt, s1)
    /\ readied T M X p s s1 L1) as (s1 & L1 & E1 & Hr1).
  { destruct (Z.eqb_spec w UNINITIALIZED) as [->|Hnz]; [|by exists s, L; split; [|by eapply readied_refl]].
    apply (IH p X s L); [done..|]. destruct (parent_of _ Hib) as (k & Hk & Hik & Epk).
    rewrite Ep in Epk. pose proof (Z.mod_pos_bound (Z.of_nat i) (2 ^ k) ltac:(lia)).
    assert (2 ^ k <= 2 ^ Z.of_nat depth); [|lia]. apply Z.pow_le_mono_r; [lia|].
    assert (k < Z.of_nat (S depth)); [|lia]. apply (Z.pow_lt_mono_r_iff 2); lia. }
  erewrite st_bind_run by exact E1. destruct Hr1 as [Hi1 Hs1 (w1 & Hw1 & Hnz1) Hab1 Hlo1 Hbl1].
  destruct (add_dummy_ready fuel X s1 L1 i p w1 Hi1 Hf) as (s' & L' & E' & []); [|done..|].
  { rewrite Hab1 by lia. done. }
  exists s', L'. split; [done|]. constructor; [done|congruence|done| | |lia].
  - intros j Hj. rewrite rd_above0, Hab1 by lia. done.
  - intros a Ha. by rewrite rd_loose0, Hlo1.
Qed.

(** The bucket an operation starts at. *)
Lemma bucket_ready_spec fuel X s L k :
  inv T M X s L -> T + 1 < Z.of_nat fuel -> 0 <= k ->
  exists b s' L' d, bucket_of k s = Ok (b, s) /\ bucket_ready fuel b s = Ok (tt, s') /\
    inv T M X s' L' /\ settings s' = settings s /\
    (forall a, a ∈ X -> entries s' !! a = entries s !! a) /\
    lf_blocks s' - unused (lf_B s') = lf_blocks s - unused (lf_B s) /\
    d ∈ L' /\ lf_read (CellB b) s' = Ok (n_addr d, s') /\ n_key d < so_regularkey k.
Proof.
  intros Hi Hf Hk. destruct (iv_size _ _ _ _ _ Hi) as (n & Hn & En & Hmax).
  destruct (iv_max _ _ _ _ _ Hi) as [Hmax2 Hlen].
  pose proof (Z.mod_pos_bound k (2 ^ n) ltac:(lia)) as Hb.
  destruct (Z_of_nat_complete (k mod 2 ^ n) ltac:(lia)) as [b Eb].
  destruct (lookup_lt_is_Some_2 (lf_B s) b ltac:(lia)) as [w Hw].
  assert (exists s' L', bucket_ready fuel (Z.of_nat b) s = Ok (tt, s') /\ readied T M X b s s' L')
    as (s' & L' & E & [Hi' Hs' (w' & Hw' & Hnz') _ Hl' Hb']).
  { unfold bucket_ready. erewrite st_bind_run by (by apply rd_bucket_cell).
    destruct (Z.eqb_spec w UNINITIALIZED) as [->|Hnz]; [|by exists s, L; split; [|by eapply readied_refl]].
    apply (initialize_bucket_ready fuel 64 b X s L); [done..|]. change (2 ^ Z.of_nat 64) with (2 ^ 64). lia. }
  destruct (iv_start _ _ _ _ _ Hi' b w' Hw' Hnz') as (d & Hd & Hda & Hdk).
  exists (Z.of_nat b), s', L', d. split_and!; try done.
  - unfold bucket_of, st_get, mbind, ST_bind. by rewrite En, Eb.
  - rewrite Hda. by apply rd_bucket_cell.
  - rewrite Hdk, <- Eb. apply so_dummykey_lt. split; [lia|].
    apply (Z.pow_le_mono_r_iff 2); lia.
Qed.
End buckets.

(** ** Operations *)

(** The part of the hash of a key that reaches the table: a key_t of it. *)
Definition hash_word (key : Z) : Z := u32 (qt_hashword key).

Section operations.
Context (T : Z).
Implicit Types (M : gmap Z Z).

Lemma so_key_word key : so_regularkey (qt_hashword key) = so_regularkey (hash_word key).
Proof. symmetry. apply so_regularkey_u32. Qed.

Lemma hash_word_range key : 0 <= hash_word key < 2 ^ 32.
Proof. apply u32_range. Qed.

(** The entry of a key in the map, and that there is none of another key. *)
Lemma present_in M X s L key v :
  inv T M X s L -> M !! hash_word key = Some v ->
  exists y, y ∈ L /\ n_key y = so_regularkey (qt_hashword key) /\ n_val y = v /\ v <> NULL.
Proof.
  intros Hi Hv. destruct (iv_map _ _ _ _ _ Hi _ _ Hv) as (_ & Hnz & y & Hy & Hk & Hval).
  exists y. by rewrite so_key_word.
Qed.

Lemma absent_in M X s L key y :
  inv T M X s L -> M !! hash_word key = None -> y ∈ L -> n_key y <> so_regularkey (qt_hashword key).
Proof.
  intros Hi Hnone Hy E. destruct (iv_nodes _ _ _ _ _ Hi y Hy) as [(i & Hj & Hk)|(r & Hr & Hk)].
  - rewrite E in Hk. symmetry in Hk. revert Hk. apply so_dummy_regular.
    eapply bucket_bound; [done|by eapply lookup_lt_Some].
  - rewrite E, so_key_word in Hk. apply so_regularkey_inj in Hk.
    destruct (iv_map _ _ _ _ _ Hi _ _ Hr) as [Hrange _]. pose proof (hash_word_range key).
    rewrite !u32_small in Hk by done. congruence.
Qed.

Lemma get_spec fuel M s L key :
  inv T M [] s L -> T + 1 < Z.of_nat fuel ->
  exists s' L', qt_hash_get fuel key s = Ok (default NULL (M !! hash_word key), s') /\
    inv T M [] s' L' /\
    lf_blocks s' - unused (lf_B s') = lf_blocks s - unused (lf_B s).
Proof.
  intros Hi Hf. pose proof (qt_hashword_range key) as Hk.
  destruct (bucket_ready_spec T M fuel [] s L (qt_hashword key) Hi Hf ltac:(lia))
    as (b & s' & L' & d & E1 & E2 & Hi' & _ & _ & Hb & Hd & Hr & Hlt).
  pose proof (list_bound _ _ _ _ _ Hi') as Hl.
  exists s', L'. split; [|done]. unfold qt_hash_get.
  erewrite st_bind_run by exact E1. erewrite st_bind_run by exact E2.
  destruct (M !! hash_word key) as [v|] eqn:Ev; cbn [default].
  - destruct (present_in _ _ _ _ _ _ Hi' Ev) as (y & Hy & Hky & <- & _).
    destruct (find_present T s' L' [] fuel (CellB b) d _ y (iv_heap _ _ _ _ _ Hi') Hd Hr Hlt Hy Hky ltac:(lia))
      as (P & x & C & _ & Ef). by erewrite st_bind_run by exact Ef.
  - destruct (find_absent T s' L' [] fuel (CellB b) d _ (iv_heap _ _ _ _ _ Hi') Hd Hr Hlt) as (p & cur & nx & Ef);
      [intros y Hy; by eapply absent_in|lia|]. by erewrite st_bind_run by exact Ef.
Qed.

Lemma keys_differ s L X y L' x : list_heap T s L X -> L ≡ₚ y :: L' -> x ∈ L' -> n_key x <> n_key y.
Proof.
  intros Hh HL Hx E. assert (NoDup (keys L)) as Hn.
  { pose proof (hp_sorted _ _ _ _ Hh) as Hs. induction Hs as [|k l Hs IH Hall]; constructor; [|done].
    intros Hin. rewrite Forall_forall in Hall. specialize (Hall k Hin). lia. }
  unfold keys in Hn. rewrite HL, fmap_cons in Hn. apply NoDup_cons in Hn as [Hn _].
  apply Hn. rewrite <- E. by apply list_elem_of_fmap_2.
Qed.

Lemma word_differs M X s L r v key : inv T M X s L -> M !! r = Some v ->
  so_regularkey r = so_regularkey (qt_hashword key) -> r = hash_word key.
Proof.
  intros Hi Hr E. rewrite so_key_word in E. apply so_regularkey_inj in E.
  destruct (iv_map _ _ _ _ _ Hi _ _ Hr) as [Hrange _]. pose proof (hash_word_range key).
  by rewrite !u32_small in E by done.
Qed.

Lemma inv_remove M s L s' L' key v y :
  inv T M [] s L -> M !! hash_word key = Some v -> n_key y = so_regularkey (qt_hashword key) ->
  list_heap T s' L' [] -> L ≡ₚ y :: L' -> table s' = table s -> lf_blocks s' = lf_blocks s + 1 ->
  inv T (delete (hash_word key) M) [] (set_count (u64 (lf_count s' - 1)) s') L'.
Proof.
  intros Hi Hv Hky Hh HL [= E1 E2 E3 E4] Hbl.
  pose proof Hi as [Hh0 Hmax Hsize Hroot Hstart Hnodes Hmap Hblk Hcount Hlen].
  pose proof (map_size_delete_Some _ _ (ex_intro _ v Hv)) as Hsz.
  assert (size M <> 0%nat) as Hsz0.
  { intros E%map_size_empty_iff. subst M. by rewrite lookup_empty in Hv. }
  constructor; cbn [set_count lf_B lf_size hard_max_buckets lf_blocks lf_count];
    rewrite ?E1, ?E3, ?E4; [by destruct Hh; constructor|done|done|done| | | |lia| |].
  - intros i w Hw Hnz. destruct (Hstart i w Hw Hnz) as (d & Hd & Ha & Hk). exists d.
    rewrite HL in Hd. apply elem_of_cons in Hd as [-> |Hd]; [|done].
    rewrite Hky in Hk. symmetry in Hk. apply so_dummy_regular in Hk as [].
    eapply bucket_bound; [done|by eapply lookup_lt_Some].
  - intros x Hx. pose proof (keys_differ s L [] y L' x Hh0 HL Hx) as Hne.
    destruct (Hnodes x ltac:(rewrite HL; by right)) as [?|(r & Hr & Hk)]; [by left|].
    right. exists r. rewrite lookup_delete_ne; [done|]. intros <-. apply Hne. by rewrite Hk, Hky, so_key_word.
  - intros r w Hr. apply lookup_delete_Some in Hr as [Hne Hr].
    destruct (Hmap r w Hr) as (? & ? & x & Hx & Hk & Hval). split_and!; [lia..|done|]. exists x.
    rewrite HL in Hx. apply elem_of_cons in Hx as [-> |Hx]; [|done].
    rewrite Hky in Hk. destruct Hne. symmetry. symmetry in Hk. by eapply word_differs.
  - rewrite E2, Hcount, Hsz. unfold u64. rewrite Zminus_mod_idemp_l. f_equal. lia.
  - rewrite HL in Hlen. cbn in Hlen. lia.
Qed.

Lemma remove_spec fuel M s L key :
  inv T M [] s L -> T + 1 < Z.of_nat fuel ->
  exists s' L', qt_hash_remove fuel key s = Ok (bool_decide (is_Some (M !! hash_word key)), s') /\
    inv T (delete (hash_word key) M) [] s' L' /\
    lf_blocks s - unused (lf_B s) <= lf_blocks s' - unused (lf_B s').
Proof.
  intros Hi Hf. pose proof (qt_hashword_range key) as Hk.
  destruct (bucket_ready_spec T M fuel [] s L (qt_hashword key) Hi Hf ltac:(lia))
    as (b & s' & L' & d & E1 & E2 & Hi' & _ & _ & Hb & Hd & Hr & Hlt).
  pose proof (list_bound _ _ _ _ _ Hi') as Hl. unfold qt_hash_remove.
  destruct (M !! hash_word key) as [v|] eqn:Ev.
  - destruct (present_in _ _ _ _ _ _ Hi' Ev) as (y & Hy & Hky & Hval & Hnz).
    destruct (delete_present T s' L' [] fuel (CellB b) d _ y (iv_heap _ _ _ _ _ Hi') Hd Hr Hlt Hy Hky)
      as (s2 & L2 & E3 & Hh2 & HL2 & [Ht2 _] & Hb2); [by subst v|lia|].
    exists (set_count (u64 (lf_count s2 - 1)) s2), L2. split_and!.
    + erewrite st_bind_run by exact E1. erewrite st_bind_run by exact E2. by erewrite st_bind_run by exact E3.
    + by eapply inv_remove.
    + cbn. unfold table in Ht2. injection Ht2 as -> _ _ _. lia.
  - exists s', L'. rewrite delete_id by done. split_and!; [|done|lia].
    assert (qt_lf_list_delete fuel (CellB b) (so_regularkey (qt_hashword key)) s' = Ok (false, s')) as E3.
    { eapply (delete_absent T s' L' []); [by destruct Hi'|done..| |lia].
      intros y Hy. by eapply absent_in. }
    erewrite st_bind_run by exact E1. erewrite st_bind_run by exact E2. by erewrite st_bind_run by exact E3.
Qed.

(** A table under a heap that has changed only by loose entries. *)
Lemma inv_heap_change M X X' s L s' :
  inv T M X s L -> list_heap T s' L X' -> table s' = table s -> unused (lf_B s) <= lf_blocks s' ->
  inv T M X' s' L.
Proof.
  intros Hi Hh [= E1 E2 E3 E4] Hb. destruct Hi.
  by constructor; rewrite ?E1, ?E2, ?E3, ?E4.
Qed.

Lemma inv_put M s L s' L' a key v sz :
  inv T M [a] s L -> M !! hash_word key = None -> v <> NULL ->
  list_heap T s' L' [] -> L' ≡ₚ Node a (so_regularkey (qt_hashword key)) v :: L -> table s' = table s ->
  lf_blocks s' = lf_blocks s ->
  (exists n, 1 <= n /\ sz = 2 ^ n /\ 2 ^ n <= hard_max_buckets s) ->
  inv T (<[hash_word key := v]> M) [] (set_size sz (set_count (u64 (lf_count s + 1)) s')) L'.
Proof.
  intros Hi Hnone Hv Hh HL [= E1 E2 E3 E4] Hbl Hsz.
  pose proof Hi as [_ Hmax _ Hroot Hstart Hnodes Hmap Hblk Hcount Hlen].
  pose proof (map_size_insert_None _ v _ Hnone) as Hsize.
  constructor; cbn [set_count set_size lf_B lf_size hard_max_buckets lf_blocks lf_count];
    rewrite ?E1, ?E4; [by destruct Hh; constructor|done|done|done| | | |lia| |].
  - intros i w Hw Hnz. destruct (Hstart i w Hw Hnz) as (d & Hd & ?). exists d.
    rewrite HL. split; [by right|done].
  - intros x Hx. rewrite HL in Hx. apply elem_of_cons in Hx as [-> |Hx].
    + right. exists (hash_word key). by rewrite lookup_insert_eq, <- so_key_word.
    + destruct (Hnodes x Hx) as [?|(r & Hr & Hk)]; [by left|]. right. exists r.
      rewrite lookup_insert_ne; [done|]. intros <-. by rewrite Hnone in Hr.
  - intros r w Hr. apply lookup_insert_Some in Hr as [[<- <-]|[Hne Hr]].
    + split_and!; [apply hash_word_range..|done|]. eexists. rewrite HL. split; [by left|].
      by rewrite <- so_key_word.
    + destruct (Hmap r w Hr) as (? & ? & x & Hx & ?). split_and!; [lia..|done|].
      exists x. rewrite HL. split; [by right|done].
  - rewrite Hcount, Hsize. unfold u64. rewrite Zplus_mod_idemp_l. f_equal. lia.
  - rewrite HL. cbn. rewrite Hsize. lia.
Qed.

Lemma count_entry_spec s n :
  lf_size s = 2 ^ n -> 1 <= n -> 2 ^ n <= hard_max_buckets s <= 2 ^ 31 ->
  exists sz, count_entry s = Ok (tt, set_size sz (set_count (u64 (lf_count s + 1)) s)) /\
    exists n, 1 <= n /\ sz = 2 ^ n /\ 2 ^ n <= hard_max_buckets s.
Proof.
  intros Hsz Hn Hmax. unfold count_entry, st_when.
  destruct s as [es B c sz mx brk bl]; cbn in *. subst sz.
  unfold mbind, ST_bind, st_get, st_set. cbn -[Z.mul u64].
  rewrite (u64_small (2 * 2 ^ n)) by lia.
  destruct (_ && _) eqn:E; cbn.
  - rewrite Z.eqb_refl. exists (2 * 2 ^ n). split; [done|]. exists (n + 1).
    rewrite Z.pow_add_r by lia. zbool. split_and!; lia.
  - exists (2 ^ n). split; [done|]. by exists n; split_and!; [..|lia].
Qed.

Lemma assert_true {V : Type} (k : unit -> LM V) s : mbind k (st_lift (c_assert true)) s = k tt s.
Proof. done. Qed.

Lemma bucket_of_size k b s s' :
  lf_size s = lf_size s' -> bucket_of k s = Ok (b, s) -> bucket_of k s' = Ok (b, s').
Proof.
  unfold bucket_of, mbind, ST_bind, st_get. intros E [= <-]. by rewrite E.
Qed.

(** The new entry of a put, and its bucket. *)
Lemma put_start fuel M s L key value :
  inv T M [] s L -> T + 1 < Z.of_nat fuel -> unused (lf_B s) + 1 <= lf_blocks s ->
  exists a b s' L' d, inv T M [a] s' L' /\ address a /\
    entries s' !! a = Some (Entry (so_regularkey (qt_hashword key)) value UNINITIALIZED) /\
    lf_blocks s' - unused (lf_B s') = lf_blocks s - unused (lf_B s) - 1 /\
    d ∈ L' /\ lf_read (CellB b) s' = Ok (n_addr d, s') /\ n_key d < so_regularkey (qt_hashword key) /\
    qt_hash_put fuel key value s =
      (('(inserted, rs) ← qt_lf_list_insert fuel (CellB b) a;
        if negb inserted then
          _ ← free_entry a;
          e ← get_entry (PTR_OF rs);
          mret (e_value e)
        else
          _ ← count_entry;
          mret value) : LM Z) s'.
Proof.
  intros Hi Hf Hb. pose proof (qt_hashword_range key) as Hk.
  destruct (malloc_spec T s L [] (iv_heap _ _ _ _ _ Hi)) as (s1 & E1 & Hh1 & [Ht1 _] & _ & Hb1);
    [unfold unused in *; lia|].
  set (e := Entry (so_regularkey (qt_hashword key)) value UNINITIALIZED).
  destruct (put_loose T s1 L [] (lf_brk s) e Hh1) as (s2 & E2 & Hh2 & [Ht2 _] & He & Hb2).
  assert (inv T M [lf_brk s] s2 L) as Hi2.
  { eapply inv_heap_change; [exact Hi|done|congruence|lia]. }
  assert (address (lf_brk s)) as Ha.
  { pose proof (hp_addr _ _ _ _ Hh1) as Ha. by apply Forall_cons in Ha as [[? _] _]. }
  destruct (bucket_ready_spec T M fuel _ s2 L (qt_hashword key) Hi2 Hf ltac:(lia))
    as (b & s3 & L3 & d & E3 & E4 & Hi3 & _ & Hl3 & Hb3 & Hd & Hr & Hlt).
  assert (bucket_of (qt_hashword key) s1 = Ok (b, s1)) as E3'.
  { eapply bucket_of_size; [|exact E3]. unfold table in Ht2. congruence. }
  exists (lf_brk s), b, s3, L3, d. split_and!; try done; [by rewrite Hl3 by (by left)| |].
  - rewrite Hb3. unfold table in *. replace (lf_B s2) with (lf_B s) by congruence. lia.
  - unfold qt_hash_put. erewrite st_bind_run by exact E1. cbv zeta. erewrite st_bind_run by exact E3'.
    assert (truth (lf_brk s) = true) as -> by (by apply negb_true_iff, Z.eqb_neq; destruct Ha).
    assert (Z.land (qt_hashword key) MSB = 0) as ->.
    { apply Z.bits_inj'. intros i H0. rewrite Z.land_spec, MSB_bits, Z.bits_0 by done.
      case_bool_decide; [subst|apply andb_false_r]. by rewrite (small_bits _ 63) by lia. }
    rewrite Z.eqb_refl, !assert_true.
    erewrite st_bind_run by exact E2. erewrite st_bind_run by exact E4. reflexivity.
Qed.

Lemma put_spec fuel M s L key value :
  inv T M [] s L -> T + 1 < Z.of_nat fuel -> unused (lf_B s) + 1 <= lf_blocks s -> value <> NULL ->
  exists s' L', qt_hash_put fuel key value s = Ok (default value (M !! hash_word key), s') /\
    inv T (match M !! hash_word key with Some _ => M | None => <[hash_word key := value]> M end) [] s' L' /\
    lf_blocks s - unused (lf_B s) - 1 <= lf_blocks s' - unused (lf_B s').
Proof.
  intros Hi Hf Hb Hv.
  destruct (put_start fuel M s L key value Hi Hf Hb)
    as (a & b & s3 & L3 & d & Hi3 & [Ha2 Hanz] & He & Hb3 & Hd & Hr & Hlt & ->).
  pose proof (list_bound _ _ _ _ _ Hi3) as Hl. pose proof (iv_heap _ _ _ _ _ Hi3) as Hh3.
  assert (S (length L3) < fuel)%nat by lia.
  destruct (M !! hash_word key) as [w|] eqn:Ew; cbn [default].
  - destruct (present_in _ _ _ _ _ _ Hi3 Ew) as (y & Hy & Hky & Hval & Hnz).
    pose proof (insert_present T s3 L3 [] fuel (CellB b) d a _ _ _ y Hh3 Hd Hr Hlt He Hy Hky
      ltac:(by subst w) ltac:(done)) as E5.
    destruct (free_loose T s3 L3 [] a Hh3 Hanz) as (s4 & E6 & Hh4 & [Ht4 _] & Hb4).
    exists s4, L3. split_and!.
    + erewrite st_bind_run by exact E5. cbn [negb]. erewrite st_bind_run by exact E6.
      pose proof (heap_addresses _ _ _ _ Hh4) as Hal. rewrite Forall_forall in Hal.
      destruct (Hal (n_addr y)) as [Hy2 _]; [by apply list_elem_of_fmap_2|].
      pose proof (hp_chain _ _ _ _ Hh4) as Hc. apply list_elem_of_split in Hy as (P & C & ->).
      rewrite PTR_OF_even by done. apply chain_lookup in Hc.
      erewrite st_bind_run by (unfold get_entry; by rewrite Hc). cbn. by rewrite Hval.
    + eapply inv_heap_change; [exact Hi3|done|done|]. pose proof (iv_blocks _ _ _ _ _ Hi3). lia.
    + unfold table in Ht4. replace (lf_B s4) with (lf_B s3) by congruence. lia.
  - destruct (insert_new T s3 L3 [] fuel (CellB b) d a _ _ _ Hh3 Hd Hr Hlt He) as
      (s4 & L4 & cur & E5 & Hh4 & HL4 & [Ht4 _] & Hb4); [intros y Hy; by eapply absent_in|done|].
    destruct (iv_size _ _ _ _ _ Hi3) as (n & Hn & En & Hmax).
    pose proof (iv_max _ _ _ _ _ Hi3) as [Hmax2 _]. pose proof Ht4 as Ht4'.
    injection Ht4' as EB Ec Es Em.
    destruct (count_entry_spec s4 n) as (sz & E6 & Hsz); [congruence|done|lia|].
    exists (set_size sz (set_count (u64 (lf_count s4 + 1)) s4)), L4. split_and!.
    + erewrite st_bind_run by exact E5. cbn [negb]. by erewrite st_bind_run by exact E6.
    + rewrite Ec. eapply inv_put; try done. by rewrite <- Em.
    + cbn. rewrite EB. lia.
Qed.
End operations.

(** ** Calls against a map *)

Inductive call : Type := Put (key value : Z) | Get (key : Z) | Remove (key : Z).

Definition lf_call (fuel : nat) (c : call) : LM Z :=
  match c with
  | Put key value => qt_hash_put fuel key value
  | Get key => qt_hash_get fuel key
  | Remove key => b ← qt_hash_remove fuel key; mret (Z.b2z b)
  end.
Fixpoint lf_run (fuel : nat) (cs : list call) : LM (list Z) :=
  match cs with
  | [] => mret []
  | c :: cs => v ← lf_call fuel c; vs ← lf_run fuel cs; mret (v :: vs)
  end.

(** A call on a map from hash words to values: a put keeps a value that is there. *)
Definition map_call (c : call) (M : gmap Z Z) : Z * gmap Z Z :=
  match c with
  | Put key value =>
      match M !! hash_word key with
      | Some w => (w, M)
      | None => (value, <[hash_word key := value]> M)
      end
  | Get key => (default NULL (M !! hash_word key), M)
  | Remove key => (Z.b2z (bool_decide (is_Some (M !! hash_word key))), delete (hash_word key) M)
  end.
Fixpoint map_run (cs : list call) (M : gmap Z Z) : list Z * gmap Z Z :=
  match cs with
  | [] => ([], M)
  | c :: cs => let '(v, M) := map_call c M in let '(vs, M) := map_run cs M in (v :: vs, M)
  end.

(** NULL says that there is no value: it cannot be one. *)
Definition valid_call (c : call) : Prop := match c with Put _ value => value <> NULL | _ => True end.

Definition fresh_process (blocks : Z) : lf_t := Lf ∅ [] 0 0 0 4096 blocks.

Section calls.
Context (T : Z).
Implicit Types (M : gmap Z Z).

Definition slack s : Z := lf_blocks s - unused (lf_B s).

Lemma call_spec fuel M s L c :
  inv T M [] s L -> T + 1 < Z.of_nat fuel -> 1 <= slack s -> valid_call c ->
  exists s' L', lf_call fuel c s = Ok ((map_call c M).1, s') /\
    inv T (map_call c M).2 [] s' L' /\ slack s - 1 <= slack s'.
Proof.
  intros Hi Hf Hs Hc. unfold slack in *. destruct c as [key value|key|key]; cbn [lf_call map_call].
  - destruct (put_spec T fuel M s L key value Hi Hf ltac:(lia) Hc) as (s' & L' & E & Hi' & Hb).
    exists s', L'. rewrite E. destruct (M !! hash_word key); split_and!; done || lia.
  - destruct (get_spec T fuel M s L key Hi Hf) as (s' & L' & E & Hi' & Hb).
    exists s', L'. rewrite E. split_and!; done || (cbn; lia).
  - destruct (remove_spec T fuel M s L key Hi Hf) as (s' & L' & E & Hi' & Hb).
    exists s', L'. split_and!; [by erewrite st_bind_run by exact E|done|lia].
Qed.

Lemma run_spec fuel cs : forall M s L,
  inv T M [] s L -> T + 1 < Z.of_nat fuel -> Z.of_nat (length cs) <= slack s -> Forall valid_call cs ->
  exists s' L', lf_run fuel cs s = Ok ((map_run cs M).1, s') /\ inv T (map_run cs M).2 [] s' L'.
Proof.
  induction cs as [|c cs IH]; intros M s L Hi Hf Hs Hv; [by exists s, L|].
  apply Forall_cons in Hv as [Hc Hv]. cbn in Hs.
  destruct (call_spec fuel M s L c Hi Hf ltac:(lia) Hc) as (s1 & L1 & E1 & Hi1 & Hs1).
  destruct (IH _ s1 L1 Hi1 Hf ltac:(lia) Hv) as (s2 & L2 & E2 & Hi2).
  exists s2, L2. cbn [lf_run map_run]. erewrite st_bind_run by exact E1.
  erewrite st_bind_run by exact E2. destruct (map_call c M) as [v M']. cbn in *.
  by destruct (map_run cs M').
Qed.

Lemma heap_singleton B c sz mx :
  list_heap T (Lf {[4096 := Entry 0 0 0]} B c sz mx (4096 + 32) (T - 1)) [Node 4096 0 0] [].
Proof.
  constructor; cbn.
  - by rewrite lookup_singleton_eq.
  - intros a. rewrite list_elem_of_singleton. destruct (decide (a = 4096)) as [->|Hne].
    + by rewrite lookup_singleton_eq.
    + rewrite lookup_singleton_ne by done. by split; [intros []|].
  - apply NoDup_singleton.
  - repeat constructor; [by exists 2048|done].
  - split; [by exists 2064|done].
  - repeat constructor.
  - lia.
Qed.

(** A new table is the empty map. *)
Lemma create_spec pagesize :
  16 <= pagesize <= 2 ^ 34 -> pagesize / 8 <= T ->
  exists s L, qt_hash_create pagesize (fresh_process T) = Ok (tt, s) /\ inv T ∅ [] s L /\
    slack s = T - pagesize / 8.
Proof.
  intros Hp HT. assert (2 <= pagesize / 8 <= 2 ^ 31) as Hmax.
  { split; [apply Z.div_le_lower_bound; lia|apply Z.div_le_upper_bound; lia]. }
  set (max := pagesize / 8) in *. destruct (Z.to_nat max) as [|n] eqn:En; [lia|].
  set (B := 4096 :: replicate n UNINITIALIZED).
  exists (Lf {[4096 := Entry 0 0 0]} B 0 2 max (4096 + 32) (T - 1)), [Node 4096 0 0].
  assert (unused B = max - 1) as Hu.
  { unfold unused, B. rewrite filter_cons, decide_False by done.
    pose proof (unused_replicate n) as Hn. unfold unused in Hn. lia. }
  assert (so_dummykey 0 = 0) as Hk by by vm_compute.
  split_and!.
  - unfold qt_hash_create, fresh_process. do 6 (erewrite st_bind_run by reflexivity).
    cbn [set_count set_size set_B set_max hard_max_buckets]. fold max. rewrite En. cbn [replicate].
    erewrite st_bind_run by (unfold malloc_entry; cbn -[replicate]; rewrite (proj2 (Z.leb_gt T 0)) by lia;
      reflexivity).
    by rewrite assert_true.
  - constructor; cbn [lf_B lf_size lf_count lf_blocks hard_max_buckets entries].
    + apply heap_singleton.
    + split; [done|]. unfold B. cbn [length]. rewrite length_replicate. lia.
    + by exists 1; split_and!; [..|lia].
    + by exists 4096.
    + intros [|i] w Hw Hnz; cbn in Hw.
      * injection Hw as <-. eexists. by split; [left|].
      * apply lookup_replicate in Hw as [-> _]. done.
    + intros x ->%list_elem_of_singleton. left. by exists 0%nat.
    + intros r v Hr. by rewrite lookup_empty in Hr.
    + lia.
    + done.
    + rewrite map_size_empty. unfold B in *. cbn [length] in *. rewrite length_replicate. lia.
  - unfold slack. cbn [lf_blocks lf_B]. lia.
Qed.

(** The whole list is what the loops over it see. *)
Lemma root_first M X s L : inv T M X s L -> lf_read (CellB 0) s = Ok (first L, s) /\ L <> [].
Proof.
  intros Hi. destruct (iv_root _ _ _ _ _ Hi) as (w & Hw & Hnz).
  destruct (iv_start _ _ _ _ _ Hi 0%nat w Hw Hnz) as (d & Hd & <- & Hk).
  pose proof (rd_bucket_cell s 0 _ Hw) as Er. change (Z.of_nat 0) with 0 in Er. rewrite Er. clear Er.
  destruct L as [|x L]; [by apply elem_of_nil in Hd|].
  split; [|done]. cbn [first]. apply elem_of_cons in Hd as [-> |Hd]; [done|]. exfalso.
  assert (n_key x < n_key d) as Hlt.
  { pose proof (sorted_above [] x L (hp_sorted _ _ _ _ (iv_heap _ _ _ _ _ Hi))) as Ha.
    rewrite Forall_forall in Ha. by apply Ha. }
  assert (0 <= n_key x).
  { destruct (iv_nodes _ _ _ _ _ Hi x ltac:(by left)) as [(i & _ & ->)|(r & _ & ->)]; apply REVERSE_nonneg. }
  change (so_dummykey (Z.of_nat 0)) with (so_dummykey 0) in Hk.
  assert (so_dummykey 0 = 0) by by vm_compute. lia.
Qed.

Lemma heap_head s x L : list_heap T s (x :: L) [] -> list_heap T s L [n_addr x].
Proof.
  intros [Hc Hd Hn Ha Hb Hs Ht]. constructor; try done.
  - apply Hc.
  - by apply StronglySorted_inv in Hs as [? _].
Qed.

Lemma destroy_loop_spec fuel L : forall s,
  list_heap T s L [] -> (length L < fuel)%nat ->
  exists s', destroy_loop fuel (fun _ => mret tt) (first L) s = Ok (tt, s') /\
    list_heap T s' [] [] /\ table s' = table s.
Proof.
  revert fuel. induction L as [|x L IH]; intros [|fuel] s Hh Hf; [cbn in Hf; lia|by exists s|cbn in Hf; lia|].
  pose proof (hp_chain _ _ _ _ Hh) as [Hx _]. pose proof (heap_addresses _ _ _ _ Hh) as Ha.
  apply Forall_cons in Ha as [[Ha2 Hanz] _].
  destruct (free_loose T s L [] (n_addr x) (heap_head s x L Hh) Hanz) as (s1 & E1 & Hh1 & [Ht1 _] & _).
  destruct (IH fuel s1 Hh1 ltac:(cbn in Hf; lia)) as (s2 & E2 & Hh2 & Ht2).
  exists s2. split; [|split; [done|congruence]]. cbn [first destroy_loop].
  rewrite PTR_OF_even, (proj2 (Z.eqb_neq _ _)), MARK_OF_even, assert_true by done.
  erewrite st_bind_run by (unfold get_entry; by rewrite Hx). erewrite st_bind_run by reflexivity.
  erewrite st_bind_run by exact E1. exact E2.
Qed.

Lemma heap_empty s : list_heap T s [] [] -> entries s = ∅ /\ lf_blocks s = T.
Proof.
  intros [_ Hd _ _ _ _ Ht]. cbn in *. split; [|lia]. apply map_empty. intros a.
  apply eq_None_not_Some. rewrite Hd. by intros ?%elem_of_nil.
Qed.

(** Destroying a table gives all its blocks back. *)
Lemma destroy_spec fuel M s L :
  inv T M [] s L -> T + 1 < Z.of_nat fuel ->
  exists s', qt_hash_destroy fuel s = Ok (tt, s') /\ entries s' = ∅ /\ lf_blocks s' = T.
Proof.
  intros Hi Hf. destruct (root_first M [] s L Hi) as [Hr _]. pose proof (list_bound _ _ _ _ _ Hi) as Hl.
  destruct (destroy_loop_spec fuel L s (iv_heap _ _ _ _ _ Hi) ltac:(lia)) as (s1 & E1 & Hh1 & _).
  destruct (heap_empty s1 Hh1) as [He Hb]. exists (set_B [] s1). split_and!; [|done..].
  unfold qt_hash_destroy, qt_hash_destroy_deallocate. erewrite st_bind_run by exact Hr.
  by erewrite st_bind_run by exact E1.
Qed.

(** What the callback is given for a hash word: its int's bits, without the highest. *)
Definition callback_key (r : Z) : Z := REVERSE (Z.lxor (so_regularkey r) 1).

Definition visit {V : Type} (f : Z -> Z -> V -> V) (arg : V) (x : node) : V :=
  if truth (Z.land (n_key x) 1) then f (REVERSE (Z.lxor (n_key x) 1)) (n_val x) arg else arg.

Lemma callback_loop_spec {V : Type} (f : Z -> Z -> V -> V) L s fuel : forall arg,
  chain (entries s) L -> Forall address (addrs L) -> (length L < fuel)%nat ->
  callback_loop fuel f arg (first L) s = Ok (fold_left (visit f) L arg, s).
Proof.
  revert fuel. induction L as [|x L IH]; intros [|fuel] arg Hc Ha Hf; [cbn in Hf; lia|done|cbn in Hf; lia|].
  destruct Hc as [Hx Hc]. apply Forall_cons in Ha as [[Ha2 Hanz] Ha]. cbn [first callback_loop fold_left].
  rewrite PTR_OF_even, (proj2 (Z.eqb_neq _ _)), MARK_OF_even, Z.eqb_refl by done.
  erewrite st_bind_run by (unfold get_entry; by rewrite Hx). rewrite assert_true.
  cbn [e_key e_value e_next]. rewrite IH; [done|done|done|cbn in Hf; lia].
Qed.

Lemma odd_key k : truth (Z.land k 1) = Z.testbit k 0.
Proof.
  change 1 with (Z.ones 1). rewrite Z.land_ones, Z.bit0_odd by lia. change (2 ^ 1) with 2.
  rewrite Zmod_odd. by destruct (Z.odd k).
Qed.

Definition odd_node (x : node) : Prop := Z.testbit (n_key x) 0 = true.
Definition pair_of (x : node) : Z * Z := (n_key x, n_val x).

Lemma fold_visit L : forall (acc : list (Z * Z)),
  fold_left (visit (fun k v l => (k, v) :: l)) L acc ≡ₚ
  acc ++ ((fun p => (REVERSE (Z.lxor p.1 1), p.2)) <$> (pair_of <$> filter odd_node L)).
Proof.
  induction L as [|x L IH]; intros acc; cbn [fold_left]; [by rewrite app_nil_r|].
  rewrite IH, filter_cons. unfold visit. rewrite odd_key.
  case_decide as H; unfold odd_node in H; [rewrite H|by rewrite (not_true_is_false _ H)].
  cbn. by rewrite Permutation_middle.
Qed.

(** The regular entries of the list are the pairs of the map. *)
Lemma regular_pairs M X s L :
  inv T M X s L ->
  pair_of <$> filter odd_node L ≡ₚ (fun p => (so_regularkey p.1, p.2)) <$> map_to_list M.
Proof.
  intros Hi. pose proof (hp_sorted _ _ _ _ (iv_heap _ _ _ _ _ Hi)) as Hs. apply NoDup_Permutation.
  - apply NoDup_fmap_1 with (f := fst). rewrite <- list_fmap_compose. cbn.
    change (fst ∘ pair_of) with n_key. clear Hi.
    induction L as [|x L IH]; [constructor|]. pose proof (sorted_above [] x L Hs) as Ha.
    apply StronglySorted_inv in Hs as [Hs _]. rewrite filter_cons. case_decide; [|auto].
    constructor; [|auto]. intros (y & E & [_ Hy]%list_elem_of_filter)%list_elem_of_fmap.
    rewrite Forall_forall in Ha. specialize (Ha y Hy). lia.
  - apply NoDup_fmap_2_strong; [|apply NoDup_map_to_list].
    intros [r v] [r' v'] Hr Hr' [= E ->]. apply elem_of_map_to_list in Hr, Hr'.
    apply so_regularkey_inj in E. destruct (iv_map _ _ _ _ _ Hi _ _ Hr) as [? _].
    destruct (iv_map _ _ _ _ _ Hi _ _ Hr') as [? _]. rewrite !u32_small in E by done. congruence.
  - intros [k v]. rewrite !list_elem_of_fmap. split.
    + intros (x & [= -> ->] & [Hodd Hx]%list_elem_of_filter).
      destruct (iv_nodes _ _ _ _ _ Hi x Hx) as [(i & Hj & Hk)|(r & Hr & Hk)].
      * unfold odd_node in Hodd. rewrite Hk, so_dummykey_even in Hodd; [done|].
        eapply bucket_bound; [done|by eapply lookup_lt_Some].
      * exists (r, n_val x). cbn. rewrite Hk. split; [done|]. by apply elem_of_map_to_list.
    + intros ([r w] & [= -> ->] & Hr%elem_of_map_to_list). cbn in *.
      destruct (iv_map _ _ _ _ _ Hi _ _ Hr) as (_ & _ & x & Hx & Hk & Hv).
      exists x. split; [unfold pair_of; congruence|]. apply list_elem_of_filter. split; [|done].
      unfold odd_node. rewrite Hk. apply so_regularkey_odd.
Qed.

Lemma callback_spec fuel M s L :
  inv T M [] s L -> T + 1 < Z.of_nat fuel ->
  exists l, qt_hash_callback fuel (fun k v l => (k, v) :: l) [] s = Ok (l, s) /\
    l ≡ₚ (fun p => (callback_key p.1, p.2)) <$> map_to_list M.
Proof.
  intros Hi Hf. destruct (root_first M [] s L Hi) as [Hr _]. pose proof (list_bound _ _ _ _ _ Hi) as Hl.
  pose proof (iv_heap _ _ _ _ _ Hi) as Hh. eexists. split.
  - unfold qt_hash_callback. erewrite st_bind_run by exact Hr.
    apply (callback_loop_spec _ L); [by destruct Hh|by eapply heap_addresses|lia].
  - rewrite fold_visit, (regular_pairs _ _ _ _ Hi), <- list_fmap_compose. cbn [app].
    unfold callback_key. apply reflexive_eq, list_fmap_ext. intros i [r v] _. reflexivity.
Qed.
End calls.

Section refinement.
Context (pagesize blocks : Z) (fuel : nat).
Context (Hpage : 16 <= pagesize <= 2 ^ 34) (Hfuel : blocks + 1 < Z.of_nat fuel).

(** C31: Any sequence of puts, gets and removes on a new table ends, without a fault, and
    gives what a map from the hash words of the keys gives; the table's count is the size of
    the map (modulo 2^64), every block is free, an entry of the map or a bucket's, the
    callback sees exactly the map, and destroying the table gives every block back. *)
Theorem lf_hash_refines cs :
  pagesize / 8 + Z.of_nat (length cs) <= blocks -> Forall valid_call cs ->
  let M := (map_run cs ∅).2 in
  exists s, (_ ← qt_hash_create pagesize; lf_run fuel cs) (fresh_process blocks) =
      Ok ((map_run cs ∅).1, s) /\
    lf_count s = u64 (Z.of_nat (size M)) /\
    lf_blocks s + Z.of_nat (size M) + (Z.of_nat (length (lf_B s)) - unused (lf_B s)) = blocks /\
    (exists l, qt_hash_callback fuel (fun k v l => (k, v) :: l) [] s = Ok (l, s) /\
      l ≡ₚ (fun p => (callback_key p.1, p.2)) <$> map_to_list M) /\
    exists s', qt_hash_destroy fuel s = Ok (tt, s') /\ entries s' = ∅ /\ lf_blocks s' = blocks.
Proof.
  intros Hb Hv M.
  destruct (create_spec blocks pagesize Hpage ltac:(lia)) as (s1 & L1 & E1 & Hi1 & Hs1).
  destruct (run_spec blocks fuel cs ∅ s1 L1 Hi1 Hfuel ltac:(lia) Hv) as (s2 & L2 & E2 & Hi2).
  exists s2. split; [by erewrite st_bind_run by exact E1|]. fold M in Hi2. split_and!.
  - by destruct Hi2.
  - pose proof (iv_length _ _ _ _ _ Hi2). pose proof (hp_blocks _ _ _ _ (iv_heap _ _ _ _ _ Hi2)) as Ht.
    cbn in Ht. lia.
  - by eapply callback_spec.
  - by eapply destroy_spec.
Qed.
End refinement.

(** hash words apart, the pairing of hashtbl_lf.h: a value waits, or goes with the one that
    waits, unless the two are equal. *)
Lemma lf_insert_spec T fuel M s L key value :
  inv T M [] s L -> T + 1 < Z.of_nat fuel -> 1 <= slack s -> value <> NULL ->
  exists s' L', inv T (match M !! hash_word key with
                       | Some w => if w =? value then M else delete (hash_word key) M
                       | None => <[hash_word key := value]> M
                       end) [] s' L' /\
    lf_insert fuel key value s = Ok (match M !! hash_word key with
                                     | Some w => (w =? value, w)
                                     | None => (true, value)
                                     end, s').
Proof.
  intros Hi Hf Hs Hv. unfold slack in Hs.
  destruct (put_spec T fuel M s L key value Hi Hf ltac:(lia) Hv) as (s1 & L1 & E1 & Hi1 & _).
  destruct (M !! hash_word key) as [w|] eqn:Ew; cbn [default] in E1.
  - destruct (Z.eqb_spec w value) as [->|Hne].
    + exists s1, L1. split; [done|]. unfold lf_insert. erewrite st_bind_run by exact E1. by rewrite Z.eqb_refl.
    + destruct (remove_spec T fuel M s1 L1 key Hi1 Hf) as (s2 & L2 & E2 & Hi2 & _).
      exists s2, L2. split; [done|]. unfold lf_insert. erewrite st_bind_run by exact E1.
      rewrite (proj2 (Z.eqb_neq _ _)) by done. by erewrite st_bind_run by exact E2.
  - exists s1, L1. split; [done|]. unfold lf_insert. erewrite st_bind_run by exact E1. by rewrite Z.eqb_refl.
Qed.

(** ** Runs *)

Definition demo_calls : list call :=
  [Put 9 1; Put 42 2; Put 43 3; Get 9; Get 10; Remove 42; Get 42; Put 9 7].

Lemma lf_hash_refines_witness :
  exists s, (_ ← qt_hash_create 4096; lf_run 600 demo_calls) (fresh_process 520) =
      Ok ([1; 2; 3; 1; 0; 1; 0; 1], s) /\ lf_count s = 2.
Proof.
  destruct (lf_hash_refines 4096 520 600 ltac:(lia) ltac:(lia) demo_calls) as (s & E & Hc & _).
  - by vm_compute.
  - by repeat constructor.
  - assert ((map_run demo_calls ∅).1 = [1; 2; 3; 1; 0; 1; 0; 1]) as Ho by by vm_compute.
    assert (u64 (Z.of_nat (size (map_run demo_calls ∅).2)) = 2) as Hn by by vm_compute.
    exists s. rewrite <- Ho, <- Hn. by split.
Defined.

(** The outputs of a run on a new table. *)
Definition outputs {V : Type} (d : V) (m : LM V) : V :=
  match (_ ← qt_hash_create 4096; m) (fresh_process 520) with Ok (v, _) => v | Err _ => d end.

(** Two keys with one hash word are one key. *)
Lemma keys_collide :
  outputs [] (lf_run 600 [Put 116421 1; Get 142339]) = [1; 1].
Proof. by vm_compute. Qed.

(** NULL values are stored, more than once, and not removed. *)
Lemma null_values_pile_up :
  outputs ([], 0) (vs ← lf_run 600 [Put 9 0; Put 9 0; Get 9; Remove 9]; n ← st_get lf_count; mret (vs, n)) =
  ([0; 0; 0; 0], 2).
Proof. by vm_compute. Qed.

(** qt_hash_count is the number of buckets. *)
Lemma count_is_size :
  outputs (0, 0) (_ ← lf_run 600 [Put 9 1]; a ← qt_hash_count; b ← st_get lf_count; mret (a, b)) = (2, 1).
Proof. by vm_compute. Qed.

(** qt_hash_destroy_deallocate hands the next entry, not the value, to the deallocator:
    with free the walk goes on in freed memory. *)
Lemma deallocate_frees_next :
  (_ ← qt_hash_create 4096; _ ← lf_run 600 [Put 9 1]; qt_hash_destroy_deallocate 600 free_entry)
    (fresh_process 520) = Err NullDeref.
Proof. by vm_compute. Qed.
