(* ===== verification/State.v ===== *)
(** * The state of a process and the monad of its operations

    The globals of lc.c, the structures of include/lc_priv.h and include/packet.h as
    one record, the memory user buffers live in, and what the process asked of the
    network server and of the client's own functions. *)
From stdpp Require Import gmap.
From S2P Require Import Prelude Config Pool Hashtable CompQueue.

(** ** Structures *)

(** enum lc_proto *)
Definition LC_PROTO_DATA : Z := 0.
Definition LC_PROTO_RTR : Z := 1.
Definition LC_PROTO_RTS : Z := 2.
Definition LC_PROTO_LONG : Z := 3.

(** struct lc_req *)
Record lc_req : Type := LcReq {
  sync : Z; buffer : Z; ctx : Z; parent : Z; rhandle : Z; size : Z; rank : Z; meta : Z;
  send_cb : Z }.

Definition lc_req0 : lc_req := LcReq 0 0 0 0 0 0 0 0 0.

(** struct packet_rts; its [tgt_addr] is neither written nor read. *)
Record packet_rts : Type := Rts { rts_cb : Z; rts_ce : Z; rts_src_addr : Z; rts_size : Z }.

(** struct packet_data: the arm of the union last written.  The first fields of
    [packet_rtr] are those of [packet_rts] and keep their values under it. *)
Inductive packet_data : Type :=
| DataBuffer (bytes : list Z)
| DataRts (r : packet_rts)
| DataRtr (r : packet_rts) (tgt_addr rkey comm_id : Z).

(** struct lc_packet: the [packet_context] less [hwctx], which is the server's.
    [req_s] is the request at address [req_s_of p]. *)
Record lc_packet : Type := LcPacket {
  pk_req : Z; pk_ep : Z; pk_rma_mem : Z; pk_proto : Z; pk_poolid : Z; pk_ref : Z;
  pk_data : packet_data }.

Definition lc_packet0 : lc_packet := LcPacket 0 0 0 0 0 0 (DataBuffer []).

(** Layout: offsets and sizes of the packed structures. *)
Definition sizeof_packet_context : Z := 108.
Definition sizeof_packet_rts : Z := 40.
Definition sizeof_packet_rtr : Z := 48.
Definition req_s_of (p : Z) : Z := p + 16.
Definition data_of (p : Z) : Z := p + sizeof_packet_context.
Definition SHORT_MSG_SIZE : Z := LC_PACKET_SIZE - sizeof_packet_context.

(** struct lci_rep *)
Record lci_rep : Type := LciRep { handle : Z; rep_rank : Z; base : Z; rkey : Z }.

(** struct lc_server: what the layer above reads of it. *)
Record lc_server : Type := LcServer {
  pkpool : lc_pool; rep : list lci_rep; curr_addr : Z; heap_ptr : Z }.

(** The unions of struct lci_ep: the arm last assigned. *)
Inductive ep_src : Type := NoSrc | Alloc (f : Z) | Tbl (h : lc_hash).
Inductive ep_dst : Type := NoDst | Handler (f : Z) | Cq (q : comp_q).

(** struct lci_ep; [server] is the number of its device. *)
Record lci_ep : Type := LciEp {
  cap : Z; gid : Z; completed : Z; server : Z; ep_from : ep_src; ep_to : ep_dst }.

(** ** What leaves the process *)

(** Calls of the server's interface (include/server/server.h) and of the client's
    functions, in the order made. *)
Inductive event : Type :=
| EvSends (dev rep : Z) (bytes : list Z) (proto : Z)
| EvSendm (dev rep size p proto : Z)
| EvPuts (dev rep : Z) (bytes : list Z) (base offset rkey : Z)
| EvPutss (dev rep : Z) (bytes : list Z) (base offset rkey meta : Z)
| EvPutm (dev rep base offset rkey size p : Z)
| EvPutms (dev rep base offset rkey size meta p : Z)
| EvPutl (dev rep buf base offset rkey size p : Z)
| EvPutls (dev rep buf base offset rkey size meta p : Z)
| EvRmaRtr (dev rep buf addr rkey size sid p : Z)
| EvRmaReg (dev buf size mem : Z)
| EvRmaDereg (mem : Z)
| EvAlloc (f size buf : Z)
| EvCallback (cb ce : Z)
| EvHandler (f req : Z)
| EvFree (p : Z).

(** ** The state *)

Record lci : Type := Lci {
  packets : gmap Z lc_packet;
  reqs : gmap Z lc_req;
  memory : gmap Z Z;                 (* bytes of user memory *)
  eps : gmap Z lci_ep;               (* endpoints by address *)
  lcg_ep : list Z;                   (* lcg_ep[LC_MAX_EP] *)
  lcg_dev : gmap Z lc_server;
  lcg_nep : Z;
  lcg_deadlock : Z;
  next_ptr : Z;                      (* what posix_memalign returns next *)
  pool_g : pool_globals;
  wid : Z;                           (* lc_worker_id of the running thread *)
  rands : list Z;                    (* results rand() will return, then 0 *)
  trace : list event }.

Definition set_packets f s := Lci (f (packets s)) (reqs s) (memory s) (eps s) (lcg_ep s)
  (lcg_dev s) (lcg_nep s) (lcg_deadlock s) (next_ptr s) (pool_g s) (wid s) (rands s) (trace s).
Definition set_reqs f s := Lci (packets s) (f (reqs s)) (memory s) (eps s) (lcg_ep s)
  (lcg_dev s) (lcg_nep s) (lcg_deadlock s) (next_ptr s) (pool_g s) (wid s) (rands s) (trace s).
Definition set_memory f s := Lci (packets s) (reqs s) (f (memory s)) (eps s) (lcg_ep s)
  (lcg_dev s) (lcg_nep s) (lcg_deadlock s) (next_ptr s) (pool_g s) (wid s) (rands s) (trace s).
Definition set_eps f s := Lci (packets s) (reqs s) (memory s) (f (eps s)) (lcg_ep s)
  (lcg_dev s) (lcg_nep s) (lcg_deadlock s) (next_ptr s) (pool_g s) (wid s) (rands s) (trace s).
Definition set_dev d v s := Lci (packets s) (reqs s) (memory s) (eps s) (lcg_ep s)
  (<[d := v]> (lcg_dev s)) (lcg_nep s) (lcg_deadlock s) (next_ptr s) (pool_g s) (wid s)
  (rands s) (trace s).
Definition set_globals l n q s := Lci (packets s) (reqs s) (memory s) (eps s) l
  (lcg_dev s) n (lcg_deadlock s) q (pool_g s) (wid s) (rands s) (trace s).
Definition set_pool_g g s := Lci (packets s) (reqs s) (memory s) (eps s) (lcg_ep s)
  (lcg_dev s) (lcg_nep s) (lcg_deadlock s) (next_ptr s) g (wid s) (rands s) (trace s).
Definition set_rands l s := Lci (packets s) (reqs s) (memory s) (eps s) (lcg_ep s)
  (lcg_dev s) (lcg_nep s) (lcg_deadlock s) (next_ptr s) (pool_g s) (wid s) l (trace s).
Definition set_deadlock x s := Lci (packets s) (reqs s) (memory s) (eps s) (lcg_ep s)
  (lcg_dev s) (lcg_nep s) x (next_ptr s) (pool_g s) (wid s) (rands s) (trace s).
Definition set_trace f s := Lci (packets s) (reqs s) (memory s) (eps s) (lcg_ep s)
  (lcg_dev s) (lcg_nep s) (lcg_deadlock s) (next_ptr s) (pool_g s) (wid s) (rands s) (f (trace s)).

(** ** The monad *)

Definition M (A : Type) : Type := lci -> result (A * lci).

#[export] Instance M_ret : MRet M := fun A a s => Ok (a, s).
#[export] Instance M_bind : MBind M := fun A B k m s =>
  match m s with Ok (a, s') => k a s' | Err f => Err f end.

Definition lift {A} (r : result A) : M A := fun s =>
  match r with Ok a => Ok (a, s) | Err f => Err f end.
Definition gets {A} (f : lci -> A) : M A := fun s => Ok (f s, s).
Definition modify (f : lci -> lci) : M unit := fun s => Ok (tt, f s).
Definition throw {A} (f : fault) : M A := fun _ => Err f.
Definition emit (e : event) : M unit := modify (set_trace (fun t => t ++ [e])).

(** ** Objects *)

Definition get_packet (p : Z) : M lc_packet := fun s =>
  lift (get_or NullDeref (packets s !! p)) s.
Definition put_packet (p : Z) (k : lc_packet) : M unit :=
  modify (set_packets (fun m => <[p := k]> m)).
Definition get_req (r : Z) : M lc_req := fun s => lift (get_or NullDeref (reqs s !! r)) s.
Definition put_req (r : Z) (q : lc_req) : M unit := modify (set_reqs (fun m => <[r := q]> m)).
Definition get_ep (e : Z) : M lci_ep := fun s => lift (get_or NullDeref (eps s !! e)) s.
Definition put_ep (e : Z) (v : lci_ep) : M unit := modify (set_eps (fun m => <[e := v]> m)).
Definition get_dev (d : Z) : M lc_server := fun s => lift (get_or NullDeref (lcg_dev s !! d)) s.

(** Field assignments. *)
Definition pk_set_req v k := LcPacket v (pk_ep k) (pk_rma_mem k) (pk_proto k) (pk_poolid k) (pk_ref k) (pk_data k).
Definition pk_set_ep v k := LcPacket (pk_req k) v (pk_rma_mem k) (pk_proto k) (pk_poolid k) (pk_ref k) (pk_data k).
Definition pk_set_rma_mem v k := LcPacket (pk_req k) (pk_ep k) v (pk_proto k) (pk_poolid k) (pk_ref k) (pk_data k).
Definition pk_set_proto v k := LcPacket (pk_req k) (pk_ep k) (pk_rma_mem k) v (pk_poolid k) (pk_ref k) (pk_data k).
Definition pk_set_poolid v k := LcPacket (pk_req k) (pk_ep k) (pk_rma_mem k) (pk_proto k) v (pk_ref k) (pk_data k).
Definition pk_set_ref v k := LcPacket (pk_req k) (pk_ep k) (pk_rma_mem k) (pk_proto k) (pk_poolid k) v (pk_data k).
Definition pk_set_data v k := LcPacket (pk_req k) (pk_ep k) (pk_rma_mem k) (pk_proto k) (pk_poolid k) (pk_ref k) v.
Definition rq_set_sync v q := LcReq v (buffer q) (ctx q) (parent q) (rhandle q) (size q) (rank q) (meta q) (send_cb q).
Definition rq_set_buffer v q := LcReq (sync q) v (ctx q) (parent q) (rhandle q) (size q) (rank q) (meta q) (send_cb q).
Definition rq_set_ctx v q := LcReq (sync q) (buffer q) v (parent q) (rhandle q) (size q) (rank q) (meta q) (send_cb q).
Definition rq_set_parent v q := LcReq (sync q) (buffer q) (ctx q) v (rhandle q) (size q) (rank q) (meta q) (send_cb q).
Definition rq_set_rhandle v q := LcReq (sync q) (buffer q) (ctx q) (parent q) v (size q) (rank q) (meta q) (send_cb q).
Definition rq_set_size v q := LcReq (sync q) (buffer q) (ctx q) (parent q) (rhandle q) v (rank q) (meta q) (send_cb q).
Definition rq_set_rank v q := LcReq (sync q) (buffer q) (ctx q) (parent q) (rhandle q) (size q) v (meta q) (send_cb q).
Definition rq_set_meta v q := LcReq (sync q) (buffer q) (ctx q) (parent q) (rhandle q) (size q) (rank q) v (send_cb q).

Definition upd_packet (p : Z) (f : lc_packet -> lc_packet) : M unit :=
  k ← get_packet p; put_packet p (f k).
Definition upd_req (r : Z) (f : lc_req -> lc_req) : M unit :=
  q ← get_req r; put_req r (f q).

(** [p->context.req = &p->context.req_s] *)
Definition own_req (p : Z) : M unit := upd_packet p (pk_set_req (req_s_of p)).

(** ** Memory: [memcpy] out of and into the bytes of user memory *)

Fixpoint load_bytes (m : gmap Z Z) (addr : Z) (n : nat) : result (list Z) :=
  match n with
  | O => Ok []
  | S n => b ← get_or OutOfBounds (m !! addr); l ← load_bytes m (addr + 1) n; Ok (b :: l)
  end.

Fixpoint store_bytes (m : gmap Z Z) (addr : Z) (l : list Z) : result (gmap Z Z) :=
  match l with
  | [] => Ok m
  | b :: l =>
      match m !! addr with
      | None => Err OutOfBounds
      | Some _ => store_bytes (<[addr := b]> m) (addr + 1) l
      end
  end.

Definition mem_load (addr n : Z) : M (list Z) := fun s =>
  lift (load_bytes (memory s) addr (Z.to_nat n)) s.
Definition mem_store (addr : Z) (l : list Z) : M unit := fun s =>
  match store_bytes (memory s) addr l with
  | Ok m => Ok (tt, set_memory (fun _ => m) s)
  | Err f => Err f
  end.

(** The block [client_alloc] returned is memory the process may write. *)
Definition mem_map (addr n : Z) : M unit :=
  modify (set_memory (fun m => m ∪ list_to_map ((fun i => (i, 0)) <$> seqZ addr n))).

(** The first [n] bytes of [p->data.buffer]. *)
Definition packet_bytes (k : lc_packet) (n : Z) : result (list Z) :=
  match pk_data k with
  | DataBuffer l => if n <=? Z.of_nat (length l) then Ok (take (Z.to_nat n) l) else Err OutOfBounds
  | _ => Err OutOfBounds
  end.

(** [p->data.rts]: the view of the union the rendezvous messages have. *)
Definition packet_as_rts (k : lc_packet) : result packet_rts :=
  match pk_data k with
  | DataBuffer _ => Err OutOfBounds
  | DataRts r | DataRtr r _ _ _ => Ok r
  end.

(** [memcpy(p->data.buffer, src, size)]: a packet has room for [SHORT_MSG_SIZE] bytes,
    the next packet's context follows. *)
Definition packet_fill (p src sz : Z) : M unit :=
  l ← mem_load src sz;
  if sz <=? SHORT_MSG_SIZE then upd_packet p (pk_set_data (DataBuffer l))
  else throw OutOfBounds.
