(* ===== verification/Proto.v ===== *)
(** * The protocol of the communication layer (include/proto.h)

    What a process does with the packets and completions the network server hands it:
    the eager and the rendezvous protocol, matching, and completion. *)
From stdpp Require Import gmap.
From S2P Require Import Prelude Config Pool Hashtable CompQueue State.

(** ** What the build and the other sides provide *)

(** The [LC_SERVER_HAS_*] options of the Makefile, with their defaults in config.mk. *)
Class Build : Type := {
  has_exp : bool; has_dyn : bool; has_imm : bool;
  has_sync : bool; has_cq : bool; has_am : bool; has_glob : bool }.
Definition default_build : Build := Build_Build true true false true true false false.

(** The parts of the server's interface that return a value. *)
Class Server : Type := {
  lc_server_rma_reg : Z -> Z -> Z -> list event -> Z;   (* device, buffer, size *)
  lc_server_rma_key : Z -> Z }.

(** The client's functions: its allocator (function, size, history; the buffer and its
    context), its reduction operators (function, destination, source) and the address of
    [lc_signal], which it may pass as a callback. *)
Class Client : Type := {
  client_alloc : Z -> Z -> list event -> Z * Z;
  client_op : Z -> list Z -> list Z -> list Z;
  lc_signal_fn : Z }.

(** ** Protocol words *)

Definition MAKE_PROTO (rgid proto meta : Z) : Z :=
  u32 (Z.lor (Z.lor proto (Z.shiftl rgid 2)) (Z.shiftl meta 16)).
Definition PROTO_GET_PROTO (proto : Z) : Z := Z.land proto 3.
Definition PROTO_GET_RGID (proto : Z) : Z := Z.land (Z.shiftr proto 2) 16383.
Definition PROTO_GET_META (proto : Z) : Z := Z.land (Z.shiftr proto 16) 65535.

(** crc32c of debug traces: [crc] after the bytes [buf] of type char. *)
Definition POLY : Z := 0x82f63b78.
Definition crc32c_bit (crc : Z) : Z :=
  if truth (Z.land crc 1) then Z.lxor (Z.shiftr crc 1) POLY else Z.shiftr crc 1.
Definition crc32c_byte (crc b : Z) : Z :=
  Nat.iter 8 crc32c_bit (Z.lxor crc (u32 (i8 b))).
Definition crc32c (buf : list Z) : Z :=
  u32 (Z.lnot (fold_left crc32c_byte buf (u32 (Z.lnot 0)))).

Section proto.
Context `{Build, Server, Client}.

(** A call of a client's callback.  The functions of the client are recorded; [lc_signal]
    sets the flag its argument, the first field of a request, points to. *)
Definition run_callback (cb ce : Z) : M unit :=
  _ ← emit (EvCallback cb ce);
  if cb =? lc_signal_fn then upd_req ce (rq_set_sync 1) else mret tt.

(** ** Requests and packets *)

Definition lci_init_req (buf sz req : Z) : M unit :=
  upd_req req (fun q => rq_set_sync 0 (rq_set_size sz (rq_set_buffer buf q))).

(** lci_pk_init: [proto] is an int16_t and [poolid] an int8_t. *)
Definition lci_pk_init (ep pid proto p : Z) : M unit :=
  upd_packet p (fun k =>
    pk_set_proto (i16 proto) (pk_set_ref 1 (pk_set_poolid (i8 pid) (pk_set_ep ep k)))).

Definition lci_prepare_rtr (ep src sz p : Z) : M unit :=
  e ← get_ep ep;
  d ← get_dev (server e);
  h ← gets trace;
  let rma_mem := lc_server_rma_reg (server e) src sz h in
  _ ← emit (EvRmaReg (server e) src sz rma_mem);
  k ← get_packet p;
  r ← lift (packet_as_rts k);
  put_packet p (pk_set_data (DataRtr r src (lc_server_rma_key rma_mem) (u32 (p - heap_ptr d)))
    (pk_set_ref 2 (pk_set_rma_mem rma_mem k))).

Definition lci_prepare_rts (src sz cb ce p : Z) : M unit :=
  upd_packet p (pk_set_data (DataRts (Rts cb ce src sz))).

(** The pool of a device, and of an endpoint's device. *)
Definition pool_put (dev p : Z) : M unit :=
  d ← get_dev dev;
  g ← gets pool_g;
  w ← gets wid;
  '(g, pool) ← lift (lc_pool_put g (pkpool d) w p);
  _ ← modify (set_pool_g g);
  modify (set_dev dev (LcServer pool (rep d) (curr_addr d) (heap_ptr d))).
Definition ep_pool_put (e : lci_ep) (p : Z) : M unit := pool_put (server e) p.

Definition ep_pool_put_to (e : lci_ep) (p pid : Z) : M unit :=
  d ← get_dev (server e);
  pool ← lift (lc_pool_put_to (pkpool d) p pid);
  modify (set_dev (server e) (LcServer pool (rep d) (curr_addr d) (heap_ptr d))).

Definition lci_pk_free (ep p : Z) : M unit :=
  e ← get_ep ep; ep_pool_put e p.

Definition lci_pk_free_data (ep p : Z) : M unit :=
  e ← get_ep ep;
  k ← get_packet p;
  if negb (pk_poolid k =? -1) then ep_pool_put_to e p (pk_poolid k)
  else ep_pool_put e p.

(** ** Completions *)

Definition lci_ce_glob (ep : Z) : M unit :=
  e ← get_ep ep;
  put_ep ep (LciEp (cap e) (gid e) (i32 (completed e + 1)) (server e) (ep_from e) (ep_to e)).

Definition lci_ce_am (ep p : Z) : M unit :=
  k ← get_packet p;
  e ← get_ep ep;
  match ep_to e with
  | Handler f => _ ← emit (EvHandler f (pk_req k)); lci_pk_free_data ep p
  | _ => throw NullDeref
  end.

Definition lci_ce_signal (ep p : Z) : M unit :=
  k ← get_packet p;
  _ ← upd_req (pk_req k) (rq_set_sync 1);
  lci_pk_free_data ep p.

(** A completion queue [cq_init] was not called on is not a queue. *)
Definition lci_ce_queue (ep p : Z) : M unit :=
  k ← get_packet p;
  _ ← upd_req (pk_req k) (rq_set_parent p);
  e ← get_ep ep;
  match ep_to e with
  | Cq q =>
      q ← lift (cq_push q (pk_req k));
      put_ep ep (LciEp (cap e) (gid e) (completed e) (server e) (ep_from e) (Cq q))
  | _ => throw NullDeref
  end.

Definition lci_ce_dispatch (ep p cap : Z) : M unit :=
  _ ← (if has_sync && has_cap cap EP_CE_SYNC then lci_ce_signal ep p
       else if has_cq && has_cap cap EP_CE_CQ then lci_ce_queue ep p
       else if has_am && has_cap cap EP_CE_AM then lci_ce_am ep p
       else lci_pk_free_data ep p);
  if has_glob && has_cap cap EP_CE_GLOB then lci_ce_glob ep else mret tt.

(** ** Rendezvous *)

Definition lci_handle_rtr (ep p : Z) : M unit :=
  _ ← lci_pk_init ep (-1) LC_PROTO_LONG p;
  e ← get_ep ep;
  k ← get_packet p;
  q ← get_req (pk_req k);
  match pk_data k with
  | DataRtr r tgt_addr rkey comm_id =>
      emit (EvRmaRtr (server e) (rhandle q) (rts_src_addr r) tgt_addr rkey (rts_size r)
              comm_id p)
  | _ => throw OutOfBounds
  end.

Definition lci_handle_rts (ep p : Z) : M unit :=
  _ ← lci_pk_init ep (-1) LC_PROTO_RTR p;
  e ← get_ep ep;
  let proto := MAKE_PROTO (gid e) LC_PROTO_RTR 0 in
  k ← get_packet p;
  q ← get_req (pk_req k);
  r ← lift (packet_as_rts k);
  _ ← lci_prepare_rtr ep (buffer q) (rts_size r) p;
  emit (EvSendm (server e) (rhandle q) sizeof_packet_rtr p proto).

(** ** Arrivals *)

Definition lci_serve_recv_imm (ep p proto cap : Z) : M unit :=
  k ← get_packet p;
  _ ← upd_req (pk_req k) (rq_set_meta (PROTO_GET_META proto));
  _ ← upd_req (pk_req k) (rq_set_buffer (data_of p));
  lci_ce_dispatch ep p cap.

(** [ep->alloc(size, &req->ctx)]: the client's allocator. *)
Definition ep_alloc (e : lci_ep) (sz req : Z) : M Z :=
  match ep_from e with
  | Alloc f =>
      h ← gets trace;
      let '(buf, c) := client_alloc f sz h in
      _ ← emit (EvAlloc f sz buf);
      _ ← mem_map buf sz;
      _ ← upd_req req (rq_set_ctx c);
      mret buf
  | _ => throw NullDeref
  end.

Definition lci_serve_recv_dyn (ep p proto cap : Z) : M unit :=
  k ← get_packet p;
  _ ← upd_req (pk_req k) (rq_set_meta (PROTO_GET_META proto));
  let proto := PROTO_GET_PROTO proto in
  e ← get_ep ep;
  if proto =? LC_PROTO_DATA then
    q ← get_req (pk_req k);
    buf ← ep_alloc e (size q) (pk_req k);
    l ← lift (packet_bytes k (size q));
    _ ← mem_store buf l;
    _ ← upd_req (pk_req k) (rq_set_buffer buf);
    lci_ce_dispatch ep p cap
  else if proto =? LC_PROTO_RTS then
    r ← lift (packet_as_rts k);
    buf ← ep_alloc e (rts_size r) (pk_req k);
    _ ← lci_init_req buf (rts_size r) (pk_req k);
    lci_handle_rts ep p
  else if proto =? LC_PROTO_RTR then lci_handle_rtr ep p
  else mret tt.

(** [lc_hash_insert(ep->tbl, key, &value, type)]. *)
Definition ep_hash_insert (ep key value : Z) (type : insert_type) : M (Z * Z) :=
  e ← get_ep ep;
  match ep_from e with
  | Tbl h =>
      '(h, v, code) ← lift (lc_hash_insert h key value type);
      _ ← put_ep ep (LciEp (cap e) (gid e) (completed e) (server e) (Tbl h) (ep_to e));
      mret (v, code)
  | _ => throw NullDeref
  end.

Definition lci_serve_recv_expl (ep p proto cap : Z) : M unit :=
  k ← get_packet p;
  _ ← upd_req (pk_req k) (rq_set_meta (PROTO_GET_META proto));
  let proto := PROTO_GET_PROTO proto in
  _ ← upd_packet p (pk_set_proto (i16 proto));
  q ← get_req (pk_req k);
  let key := lc_make_key (rank q) (meta q) in
  if proto =? LC_PROTO_DATA then
    '(value, code) ← ep_hash_insert ep key p SERVER;
    if code =? 0 then
      let req := value in
      _ ← upd_req req (rq_set_size (size q));
      q' ← get_req req;
      l ← lift (packet_bytes k (size q));
      _ ← mem_store (buffer q') l;
      _ ← upd_packet p (pk_set_req req);
      lci_ce_dispatch ep p cap
    else mret tt
  else if proto =? LC_PROTO_RTS then
    '(value, code) ← ep_hash_insert ep key p SERVER;
    if code =? 0 then
      _ ← upd_packet p (pk_set_req value);
      lci_handle_rts ep p
    else mret tt
  else if proto =? LC_PROTO_RTR then lci_handle_rtr ep p
  else mret tt.

Definition lci_serve_recv_dispatch (ep p proto cap : Z) : M unit :=
  if has_exp && has_cap cap EP_AR_EXP then lci_serve_recv_expl ep p proto cap
  else if has_dyn && has_cap cap EP_AR_DYN then lci_serve_recv_dyn ep p proto cap
  else if has_imm && has_cap cap EP_AR_IMM then lci_serve_recv_imm ep p proto cap
  else mret tt.

(** lcg_ep[PROTO_GET_RGID(proto)] *)
Definition ep_of_proto (proto : Z) : M Z :=
  l ← gets lcg_ep; lift (aget l (PROTO_GET_RGID proto)).

Definition lci_serve_recv (p proto : Z) : M unit :=
  ep ← ep_of_proto proto;
  e ← get_ep ep;
  lci_serve_recv_dispatch ep p proto (cap e).

Definition lci_serve_recv_rdma (p proto : Z) : M unit :=
  ep ← ep_of_proto proto;
  k ← get_packet p;
  _ ← upd_req (pk_req k) (rq_set_meta (PROTO_GET_META proto));
  e ← get_ep ep;
  lci_ce_dispatch ep p (cap e).

(** ** Local completions *)

(** [--p->context.ref == 0], [ref] an int8_t. *)
Definition pk_unref (p : Z) : M bool :=
  k ← get_packet p;
  let r := i8 (pk_ref k - 1) in
  _ ← put_packet p (pk_set_ref r k);
  mret (r =? 0).

Definition dispatch_if (z : bool) (ep p : Z) : M unit :=
  if z then e ← get_ep ep; lci_ce_dispatch ep p (cap e) else mret tt.

Definition lci_serve_send (p : Z) : M unit :=
  k ← get_packet p;
  let ep := pk_ep k in
  let proto := pk_proto k in
  if proto =? LC_PROTO_RTR then
    z ← pk_unref p;
    dispatch_if z ep p
  else if proto =? LC_PROTO_LONG then
    r ← lift (packet_as_rts k);
    _ ← run_callback (rts_cb r) (rts_ce r);
    lci_pk_free ep p
  else if proto =? LC_PROTO_RTS then lci_pk_free ep p
  else lci_pk_free_data ep p.

Definition lci_serve_imm (p : Z) : M unit :=
  k ← get_packet p;
  let ep := pk_ep k in
  _ ← emit (EvRmaDereg (pk_rma_mem k));
  z ← pk_unref p;
  dispatch_if z ep p.

End proto.
