(* ===== verification/Api.v ===== *)
(** * The operations of the communication layer (lc.c, include/lc_priv.h, ep.c, short.c,
    medium.c, long.c, tag.c, cq.c, misc.c, glob.c) *)
From stdpp Require Import gmap.
From S2P Require Import Prelude Config Pool Hashtable CompQueue State Proto.

(** What the machine and the process manager give: the page size, a server's remote
    endpoints and heap, and the sizes of the tables the build fixes. *)
Class Platform : Type := {
  lcg_page_size : Z;
  lc_server_init : Z -> list lci_rep * Z;     (* device id: rep, heap *)
  LC_MAX_EP : Z;
  LC_MAX_DEV : Z }.

(** struct lc_opt *)
Record lc_opt : Type := LcOpt {
  opt_dev : Z; opt_desc : lc_ep_desc; opt_alloc : Z; opt_handler : Z; opt_glob : bool }.

Section api.
Context `{Build, Server, Client, Platform}.

(** ** Devices and endpoints (lc_priv.h, lc.c, ep.c) *)

(** The body of the loop of [lci_dev_init] that makes packet [i]. *)
Definition dev_init_packet (id base_packet i : Z) : M unit :=
  let p := base_packet + i * LC_PACKET_SIZE in
  _ ← put_packet p (pk_set_poolid 0 lc_packet0);
  _ ← put_req (req_s_of p) (rq_set_parent p lc_req0);
  d ← get_dev id;
  g ← gets pool_g;
  w ← gets wid;
  '(g, pool) ← lift (lc_pool_put g (pkpool d) w p);
  _ ← modify (set_pool_g g);
  modify (set_dev id (LcServer pool (rep d) (curr_addr d) (heap_ptr d))).

Fixpoint dev_init_packets (id base_packet i : Z) (n : nat) : M unit :=
  match n with
  | O => mret tt
  | S n => _ ← dev_init_packet id base_packet i; dev_init_packets id base_packet (i + 1) n
  end.

Definition lci_dev_init (id : Z) : M unit :=
  let '(reps, heap) := lc_server_init id in
  let base_packet := heap + lcg_page_size - sizeof_packet_context in
  g ← gets pool_g;
  '(g, pool) ← lift (lc_pool_create g);
  _ ← modify (set_pool_g g);
  _ ← modify (set_dev id (LcServer pool reps 0 heap));
  _ ← dev_init_packets id base_packet 0 (Z.to_nat LC_SERVER_NUM_PKTS);
  d ← get_dev id;
  let curr := base_packet + LC_SERVER_NUM_PKTS * LC_PACKET_SIZE in
  let curr := (curr + lcg_page_size - 1) / lcg_page_size * lcg_page_size in
  modify (set_dev id (LcServer (pkpool d) (rep d) curr (heap_ptr d))).

Definition lci_ep_open (dev cap : Z) : M Z :=
  _ ← get_dev dev;
  ep ← gets next_ptr;
  n ← gets lcg_nep;
  l ← gets lcg_ep;
  l ← lift (aset l n ep);
  _ ← modify (set_globals l (n + 1) (ep + 1));
  _ ← (if has_cap cap EP_AR_EXP
       then put_ep ep (LciEp cap n 0 dev (Tbl lc_hash_create) NoDst)
       else put_ep ep (LciEp cap n 0 dev NoSrc (Cq cq_init)));
  mret ep.

Fixpoint init_devs (i : Z) (n : nat) : M unit :=
  match n with
  | O => mret tt
  | S n => _ ← (if i <? LC_MAX_DEV then lci_dev_init i else throw OutOfBounds);
           init_devs (i + 1) n
  end.

Definition lc_init (ndev : Z) : M (lc_status * Z) :=
  _ ← init_devs 0 (Z.to_nat ndev);
  ep ← lci_ep_open 0 (Z.lor (desc_addr LC_EXP_SYNC) (desc_ce LC_EXP_SYNC));
  mret (LC_OK, ep).

Definition lc_ep_dup (opt : lc_opt) : M (lc_status * Z) :=
  let desc := opt_desc opt in
  oep ← lci_ep_open (opt_dev opt) (Z.lor (desc_addr desc) (desc_ce desc));
  e ← get_ep oep;
  let e := if desc_addr desc =? EP_AR_DYN
           then LciEp (cap e) (gid e) (completed e) (server e) (Alloc (opt_alloc opt)) (ep_to e)
           else e in
  let e := if desc_ce desc =? EP_CE_AM
           then LciEp (cap e) (gid e) (completed e) (server e) (ep_from e) (Handler (opt_handler opt))
           else e in
  let e := if opt_glob opt
           then LciEp (Z.lor (cap e) EP_CE_GLOB) (gid e) 0 (server e) (ep_from e) (ep_to e)
           else e in
  _ ← put_ep oep e;
  mret (LC_OK, oep).

Definition lc_ep_get_baseaddr (ep sz : Z) : M (lc_status * Z) :=
  e ← get_ep ep;
  d ← get_dev (server e);
  _ ← modify (set_dev (server e) (LcServer (pkpool d) (rep d) (curr_addr d + sz) (heap_ptr d)));
  mret (LC_OK, curr_addr d).

(** ** Packets for sending (macro.h) *)

Definition next_rand : M Z :=
  l ← gets rands;
  match l with [] => mret 0 | r :: l => _ ← modify (set_rands l); mret r end.

Definition pool_get_nb (dev : Z) : M Z :=
  d ← get_dev dev;
  g ← gets pool_g;
  w ← gets wid;
  r ← next_rand;
  '(g, pool, p) ← lift (lc_pool_get_nb g (pkpool d) w r);
  _ ← modify (set_pool_g g);
  _ ← modify (set_dev dev (LcServer pool (rep d) (curr_addr d) (heap_ptr d)));
  mret p.
Definition ep_pool_get_nb (e : lci_ep) : M Z := pool_get_nb (server e).

(** LC_POOL_GET_OR_RETN(ep->pkpool, p); k *)
Definition LC_POOL_GET_OR_RETN (e : lci_ep) (k : Z -> M lc_status) : M lc_status :=
  dl ← gets lcg_deadlock;
  if truth dl then mret LC_ERR_RETRY
  else
    p ← ep_pool_get_nb e;
    if Z.eqb p NULL then mret LC_ERR_RETRY else k p.

Definition pool_get_local (dev : Z) : M Z :=
  d ← get_dev dev;
  g ← gets pool_g;
  w ← gets wid;
  '(g, pool, pid) ← lift (lc_pool_get_local g (pkpool d) w);
  _ ← modify (set_pool_g g);
  _ ← modify (set_dev dev (LcServer pool (rep d) (curr_addr d) (heap_ptr d)));
  mret pid.
Definition ep_pool_get_local (e : lci_ep) : M Z := pool_get_local (server e).

(** &(ep->rep[rank]) *)
Definition ep_rep (e : lci_ep) (rank : Z) : M lci_rep :=
  d ← get_dev (server e); lift (aget (rep d) rank).

(** [(size > 1024) ? lc_pool_get_local(ep->pkpool) : -1] *)
Definition medium_poolid (e : lci_ep) (sz : Z) : M Z :=
  if 1024 <? sz then ep_pool_get_local e else mret (-1).

(** ** Short messages (short.c) *)

Definition lc_sends (src sz rank tag ep : Z) : M lc_status :=
  e ← get_ep ep;
  r ← ep_rep e rank;
  l ← mem_load src sz;
  _ ← emit (EvSends (server e) (handle r) l (MAKE_PROTO (gid e) LC_PROTO_DATA tag));
  mret LC_OK.

Definition lc_puts (src sz rank addr ep : Z) : M lc_status :=
  e ← get_ep ep;
  r ← ep_rep e rank;
  l ← mem_load src sz;
  _ ← emit (EvPuts (server e) (handle r) l (base r) (u32 (addr - base r)) (rkey r));
  mret LC_OK.

Definition lc_putss (src sz rank addr meta ep : Z) : M lc_status :=
  e ← get_ep ep;
  r ← ep_rep e rank;
  l ← mem_load src sz;
  _ ← emit (EvPutss (server e) (handle r) l (base r) (u32 (addr - base r)) (rkey r)
              (MAKE_PROTO (gid e) LC_PROTO_LONG meta));
  mret LC_OK.

(** ** Medium messages (medium.c) *)

Definition lc_sendm (src sz rank tag ep : Z) : M lc_status :=
  e ← get_ep ep;
  LC_POOL_GET_OR_RETN e (fun p =>
    pid ← medium_poolid e sz;
    _ ← lci_pk_init ep pid LC_PROTO_DATA p;
    r ← ep_rep e rank;
    _ ← packet_fill p src sz;
    _ ← emit (EvSendm (server e) (handle r) sz p (MAKE_PROTO (gid e) LC_PROTO_DATA tag));
    mret LC_OK).

Definition lc_putm (src sz rank addr ep : Z) : M lc_status :=
  e ← get_ep ep;
  LC_POOL_GET_OR_RETN e (fun p =>
    pid ← medium_poolid e sz;
    _ ← lci_pk_init ep pid LC_PROTO_DATA p;
    r ← ep_rep e rank;
    _ ← packet_fill p src sz;
    _ ← emit (EvPutm (server e) (handle r) (base r) (u32 (addr - base r)) (rkey r) sz p);
    mret LC_OK).

Definition lc_putms (src sz rank addr meta ep : Z) : M lc_status :=
  e ← get_ep ep;
  LC_POOL_GET_OR_RETN e (fun p =>
    pid ← medium_poolid e sz;
    _ ← lci_pk_init ep pid LC_PROTO_DATA p;
    r ← ep_rep e rank;
    _ ← packet_fill p src sz;
    _ ← emit (EvPutms (server e) (handle r) (base r) (u32 (addr - base r)) (rkey r) sz
                (MAKE_PROTO (gid e) LC_PROTO_LONG meta) p);
    mret LC_OK).

(** [memcpy(src, p->data.buffer, p->context.req->size)] and the completion, when a
    receive finds its message already there. *)
Definition recv_eager (e : lci_ep) (src ep req p : Z) : M unit :=
  k ← get_packet p;
  q ← get_req (pk_req k);
  l ← lift (packet_bytes k (size q));
  _ ← mem_store src l;
  _ ← upd_req req (rq_set_size (size q));
  _ ← upd_packet p (pk_set_req req);
  lci_ce_dispatch ep p (cap e).

Definition lc_recvm (src sz rank tag ep req : Z) : M lc_status :=
  _ ← lci_init_req src sz req;
  '(value, code) ← ep_hash_insert ep (lc_make_key rank tag) req CLIENT;
  _ ← (if code =? 0 then e ← get_ep ep; recv_eager e src ep req value else mret tt);
  mret LC_OK.

(** ** Long messages (long.c) *)

Definition lc_sendl (src sz rank tag ep cb ce : Z) : M lc_status :=
  e ← get_ep ep;
  LC_POOL_GET_OR_RETN e (fun p =>
    _ ← lci_pk_init ep (-1) LC_PROTO_RTS p;
    r ← ep_rep e rank;
    _ ← lci_prepare_rts src sz cb ce p;
    _ ← emit (EvSendm (server e) (handle r) sizeof_packet_rts p
                (MAKE_PROTO (gid e) LC_PROTO_RTS tag));
    mret LC_OK).

(** [p->data.rts.cb = cb; p->data.rts.ce = ce], the rest of the structure unwritten. *)
Definition put_prepare (p cb ce : Z) : M unit :=
  upd_packet p (fun k =>
    pk_set_data (DataRts match packet_as_rts k with
      | Ok r => Rts cb ce (rts_src_addr r) (rts_size r) | Err _ => Rts cb ce 0 0 end) k).

Definition lc_putl (src sz rank addr ep cb ce : Z) : M lc_status :=
  e ← get_ep ep;
  LC_POOL_GET_OR_RETN e (fun p =>
    _ ← lci_pk_init ep (-1) LC_PROTO_LONG p;
    _ ← put_prepare p cb ce;
    r ← ep_rep e rank;
    _ ← emit (EvPutl (server e) (handle r) src (base r) (u32 (addr - base r)) (rkey r) sz p);
    mret LC_OK).

Definition lc_putls (src sz rank addr meta ep cb ce : Z) : M lc_status :=
  e ← get_ep ep;
  LC_POOL_GET_OR_RETN e (fun p =>
    _ ← lci_pk_init ep (-1) LC_PROTO_LONG p;
    _ ← put_prepare p cb ce;
    r ← ep_rep e rank;
    _ ← emit (EvPutls (server e) (handle r) src (base r) (u32 (addr - base r)) (rkey r) sz
                (MAKE_PROTO (gid e) LC_PROTO_LONG meta) p);
    mret LC_OK).

(** [req->size = p->data.rts.size; p->context.req = req; lci_handle_rts(ep, p)]. *)
Definition recv_rendezvous (ep req p : Z) : M unit :=
  k ← get_packet p;
  r ← lift (packet_as_rts k);
  _ ← upd_req req (rq_set_size (rts_size r));
  _ ← upd_packet p (pk_set_req req);
  lci_handle_rts ep p.

(** [rep = &ep->rep[rank]; req->rhandle = rep->handle]. *)
Definition recv_init (src sz rank ep req : Z) : M unit :=
  _ ← lci_init_req src sz req;
  e ← get_ep ep;
  r ← ep_rep e rank;
  upd_req req (rq_set_rhandle (handle r)).

Definition lc_recvl (src sz rank tag ep req : Z) : M lc_status :=
  _ ← recv_init src sz rank ep req;
  '(value, code) ← ep_hash_insert ep (lc_make_key rank tag) req CLIENT;
  _ ← (if code =? 0 then recv_rendezvous ep req value else mret tt);
  mret LC_OK.

(** ** Messages of any size (tag.c) *)

(** [if (ret == LC_OK) cb(ce); return ret;] *)
Definition then_callback (cb ce : Z) (ret : lc_status) : M lc_status :=
  _ ← (if decide (ret = LC_OK) then run_callback cb ce else mret tt);
  mret ret.

Definition lc_send (src sz rank tag ep cb ce : Z) : M lc_status :=
  if sz <=? LC_MAX_INLINE then
    ret ← lc_sends src sz rank tag ep; then_callback cb ce ret
  else if sz <=? LC_PACKET_SIZE then
    ret ← lc_sendm src sz rank tag ep; then_callback cb ce ret
  else lc_sendl src sz rank tag ep cb ce.

Definition lc_recv (src sz rank tag ep req : Z) : M lc_status :=
  _ ← recv_init src sz rank ep req;
  '(value, code) ← ep_hash_insert ep (lc_make_key rank tag) req CLIENT;
  _ ← (if code =? 0 then
         k ← get_packet value;
         if pk_proto k =? LC_PROTO_RTS then recv_rendezvous ep req value
         else e ← get_ep ep; recv_eager e src ep req value
       else mret tt);
  mret LC_OK.

(** ** Completions the client polls (cq.c, glob.c, thread.h, misc.c) *)

Definition lc_cq_pop (ep : Z) : M (lc_status * Z) :=
  e ← get_ep ep;
  match ep_to e with
  | Cq q =>
      '(q, req) ← lift (cq_pop q);
      _ ← put_ep ep (LciEp (cap e) (gid e) (completed e) (server e) (ep_from e) (Cq q));
      if Z.eqb req NULL then mret (LC_ERR_RETRY, NULL) else mret (LC_OK, req)
  | _ => throw NullDeref
  end.

Definition lc_cq_reqfree (ep req : Z) : M lc_status :=
  q ← get_req req;
  e ← get_ep ep;
  _ ← ep_pool_put e (parent q);
  mret LC_OK.

Definition lc_glob_mark (ep : Z) : M Z := e ← get_ep ep; mret (completed e).

(** [while (!*sync);] on a request of the running thread. *)
Definition lc_wait (req : Z) : M unit :=
  q ← get_req req; if truth (sync q) then mret tt else throw Spin.

Definition lc_max_short (dev : Z) : Z := LC_MAX_INLINE.
Definition lc_max_medium (dev : Z) : Z := LC_PACKET_SIZE.

End api.
