(* ===== verification/ProtoSpec.v ===== *)
(** * What the protocol guarantees (about Proto.v and Api.v) *)
From stdpp Require Import gmap.
From S2P Require Import Prelude Config Lock Dequeue Pool Hashtable CompQueue State Proto Api.

#[local] Arguments lc_make_key : simpl never.
#[local] Arguments lc_hash_insert : simpl never.
#[local] Arguments lc_pool_put : simpl never.
#[local] Arguments lc_pool_put_to : simpl never.
#[local] Arguments MAKE_PROTO : simpl never.
#[local] Arguments PROTO_GET_META : simpl never.
#[local] Arguments PROTO_GET_PROTO : simpl never.
#[local] Arguments PROTO_GET_RGID : simpl never.
#[local] Arguments req_s_of : simpl never.
#[local] Arguments i8 : simpl never.
#[local] Arguments i16 : simpl never.
#[local] Arguments u32 : simpl never.

(** ** Protocol words *)

Lemma make_proto_val rgid proto meta :
  0 <= rgid < 2 ^ 14 -> 0 <= proto < 4 ->
  MAKE_PROTO rgid proto meta = proto + 4 * rgid + 2 ^ 16 * (meta mod 2 ^ 16).
Proof.
  intros Hr Hp. unfold MAKE_PROTO, u32. rewrite !Z.shiftl_mul_pow2 by lia.
  rewrite (lor_disjoint 2), (lor_disjoint 16) by lia.
  rewrite (Z.div_mod meta (2 ^ 16)) at 1 by lia.
  pose proof (Z.mod_pos_bound meta (2 ^ 16) ltac:(lia)).
  symmetry. apply Z.mod_unique with (meta / 2 ^ 16); lia.
Qed.

Lemma get_meta_make rgid proto meta :
  0 <= rgid < 2 ^ 14 -> 0 <= proto < 4 ->
  PROTO_GET_META (MAKE_PROTO rgid proto meta) = meta mod 2 ^ 16.
Proof.
  intros Hr Hp. rewrite make_proto_val by done.
  pose proof (Z.mod_pos_bound meta (2 ^ 16) ltac:(lia)) as Hm.
  unfold PROTO_GET_META. rewrite Z.shiftr_div_pow2 by lia.
  change 65535 with (2 ^ 16 - 1). rewrite land_mask by lia.
  assert ((proto + 4 * rgid + 2 ^ 16 * (meta mod 2 ^ 16)) / 2 ^ 16 = meta mod 2 ^ 16) as ->.
  { symmetry. apply Z.div_unique with (proto + 4 * rgid); lia. }
  apply Z.mod_small. lia.
Qed.

Lemma get_proto_make rgid proto meta :
  0 <= rgid < 2 ^ 14 -> 0 <= proto < 4 ->
  PROTO_GET_PROTO (MAKE_PROTO rgid proto meta) = proto.
Proof.
  intros Hr Hp. rewrite make_proto_val by done.
  unfold PROTO_GET_PROTO. change 3 with (2 ^ 2 - 1). rewrite land_mask by lia.
  symmetry. apply Z.mod_unique with (rgid + 2 ^ 14 * (meta mod 2 ^ 16)); lia.
Qed.

Lemma get_rgid_make rgid proto meta :
  0 <= rgid < 2 ^ 14 -> 0 <= proto < 4 ->
  PROTO_GET_RGID (MAKE_PROTO rgid proto meta) = rgid.
Proof.
  intros Hr Hp. rewrite make_proto_val by done.
  unfold PROTO_GET_RGID. rewrite Z.shiftr_div_pow2 by lia.
  change 16383 with (2 ^ 14 - 1). rewrite land_mask by lia.
  assert ((proto + 4 * rgid + 2 ^ 16 * (meta mod 2 ^ 16)) / 2 ^ 2 =
    rgid + 2 ^ 14 * (meta mod 2 ^ 16)) as ->.
  { symmetry. apply Z.div_unique with proto; lia. }
  symmetry. apply Z.mod_unique with (meta mod 2 ^ 16); lia.
Qed.

(** What an endpoint writes in a protocol word is what the receiver reads back, for the
    endpoints, protocols and tags that fit their 14, 2 and 16 bits. *)
Theorem proto_roundtrip rgid proto meta :
  0 <= rgid < 2 ^ 14 -> 0 <= proto < 4 -> 0 <= meta < 2 ^ 16 ->
  PROTO_GET_PROTO (MAKE_PROTO rgid proto meta) = proto /\
  PROTO_GET_RGID (MAKE_PROTO rgid proto meta) = rgid /\
  PROTO_GET_META (MAKE_PROTO rgid proto meta) = meta.
Proof.
  intros Hr Hp Hm. rewrite get_proto_make, get_rgid_make, get_meta_make by done.
  by rewrite Z.mod_small.
Qed.

(** A tag that does not fit 16 bits arrives truncated, while the receive looks for the
    whole tag: the two keys differ and the message is never matched. *)
Theorem large_tag_never_matches rgid proto rank tag :
  0 <= rgid < 2 ^ 14 -> 0 <= proto < 4 -> 0 <= rank < 2 ^ 31 - 1 -> 2 ^ 16 <= tag < 2 ^ 31 ->
  lc_make_key rank (PROTO_GET_META (MAKE_PROTO rgid proto tag)) <> lc_make_key rank tag.
Proof.
  intros Hr Hp Hrk Ht. rewrite get_meta_make by done.
  pose proof (Z.mod_pos_bound tag (2 ^ 16) ltac:(lia)) as Hm.
  rewrite !lc_make_key_val by lia. lia.
Qed.

(** ** Running the monad *)

Lemma bind_run {A B} (m : M A) (k : A -> M B) s a s' :
  m s = Ok (a, s') -> (mbind k m) s = k a s'.
Proof. intros E. unfold mbind, M_bind. by rewrite E. Qed.

Lemma bind_fail {A B} (m : M A) (k : A -> M B) s f : m s = Err f -> (mbind k m) s = Err f.
Proof. intros E. unfold mbind, M_bind. by rewrite E. Qed.

Lemma bind_inv {A B} (m : M A) (k : A -> M B) s b s' :
  (mbind k m) s = Ok (b, s') -> exists a s1, m s = Ok (a, s1) /\ k a s1 = Ok (b, s').
Proof. unfold mbind, M_bind. destruct (m s) as [[a s1]|]; [eauto|done]. Qed.

Lemma run_get_packet s p k : packets s !! p = Some k -> get_packet p s = Ok (k, s).
Proof. intros E. unfold get_packet. by rewrite E. Qed.
Lemma run_get_req s r q : reqs s !! r = Some q -> get_req r s = Ok (q, s).
Proof. intros E. unfold get_req. by rewrite E. Qed.
Lemma run_get_ep s ep e : eps s !! ep = Some e -> get_ep ep s = Ok (e, s).
Proof. intros E. unfold get_ep. by rewrite E. Qed.
Lemma run_get_dev s i d : lcg_dev s !! i = Some d -> get_dev i s = Ok (d, s).
Proof. intros E. unfold get_dev. by rewrite E. Qed.
Lemma run_upd_packet s p k f : packets s !! p = Some k ->
  upd_packet p f s = Ok (tt, set_packets (fun m => <[p := f k]> m) s).
Proof. intros E. unfold upd_packet. by erewrite bind_run by by apply run_get_packet. Qed.
Lemma run_upd_req s r q f : reqs s !! r = Some q ->
  upd_req r f s = Ok (tt, set_reqs (fun m => <[r := f q]> m) s).
Proof. intros E. unfold upd_req. by erewrite bind_run by by apply run_get_req. Qed.

(** Finds an object of the state in the hypotheses, behind updates of other objects. *)
Ltac mlook :=
  cbn [packets reqs memory eps lcg_ep lcg_dev pool_g wid trace set_packets set_reqs set_memory
       set_eps set_dev set_pool_g set_trace set_rands];
  repeat first
    [ eassumption
    | rewrite lookup_insert_eq; reflexivity
    | rewrite lookup_insert_ne by congruence ].

(** Runs the first operation of a bind, its object being found among the hypotheses. *)
Ltac mrun :=
  (lazymatch goal with
  | |- mbind _ (get_packet _) _ = _ => erewrite bind_run by (apply run_get_packet; mlook)
  | |- mbind _ (get_req _) _ = _ => erewrite bind_run by (apply run_get_req; mlook)
  | |- mbind _ (get_ep _) _ = _ => erewrite bind_run by (apply run_get_ep; mlook)
  | |- mbind _ (get_dev _) _ = _ => erewrite bind_run by (apply run_get_dev; mlook)
  | |- mbind _ (upd_packet _ _) _ = _ => erewrite bind_run by (apply run_upd_packet; mlook)
  | |- mbind _ (upd_req _ _) _ = _ => erewrite bind_run by (apply run_upd_req; mlook)
  | |- mbind _ (put_packet _ _) _ = _ => erewrite bind_run by reflexivity
  | |- mbind _ (put_req _ _) _ = _ => erewrite bind_run by reflexivity
  | |- mbind _ (put_ep _ _) _ = _ => erewrite bind_run by reflexivity
  | |- mbind _ (emit _) _ = _ => erewrite bind_run by reflexivity
  | |- mbind _ (gets _) _ = _ => erewrite bind_run by reflexivity
  | |- mbind _ (modify _) _ = _ => erewrite bind_run by reflexivity
  | |- mbind _ (lift (Ok _)) _ = _ => erewrite bind_run by reflexivity
  end); cbn beta iota.

#[local] Arguments lci_ce_dispatch : simpl never.

(** ** Rendezvous *)

Section rendezvous.
Context `{Build, Server, Client}.
Implicit Types (s : lci) (p : Z) (k : lc_packet).

Lemma run_unref s p k : packets s !! p = Some k ->
  pk_unref p s = Ok (i8 (pk_ref k - 1) =? 0,
                     set_packets (fun m => <[p := pk_set_ref (i8 (pk_ref k - 1)) k]> m) s).
Proof. intros E. unfold pk_unref. mrun. done. Qed.

Lemma serve_send_rtr s p k r : packets s !! p = Some k -> pk_proto k = LC_PROTO_RTR ->
  pk_ref k = r + 1 -> 0 <= r < 2 ->
  lci_serve_send p s = dispatch_if (r =? 0) (pk_ep k) p
                         (set_packets (fun m => <[p := pk_set_ref r k]> m) s).
Proof.
  intros E Hp Hr Hb. unfold lci_serve_send. mrun. rewrite Hp. cbn [Z.eqb LC_PROTO_RTR Pos.eqb].
  erewrite bind_run by (by apply run_unref). rewrite Hr.
  by replace (i8 (r + 1 - 1)) with r by (rewrite i8_small; lia).
Qed.

Lemma serve_imm_rtr s p k r : packets s !! p = Some k ->
  pk_ref k = r + 1 -> 0 <= r < 2 ->
  lci_serve_imm p s = dispatch_if (r =? 0) (pk_ep k) p
    (set_trace (fun t => t ++ [EvRmaDereg (pk_rma_mem k)])
       (set_packets (fun m => <[p := pk_set_ref r k]> m) s)).
Proof.
  intros E Hr Hb. unfold lci_serve_imm. do 2 mrun.
  erewrite bind_run by (by apply run_unref). rewrite Hr.
  by replace (i8 (r + 1 - 1)) with r by (rewrite i8_small; lia).
Qed.

(** C21: A rendezvous receive completes exactly once: of the completion of its RTR packet and
    the arrival of the data the first only drops the count (and releases the memory
    registration), the second completes the receive, and the result is the same in
    either order. *)
Theorem rendezvous_completes_once s p k e :
  packets s !! p = Some k -> pk_proto k = LC_PROTO_RTR -> pk_ref k = 2 ->
  eps s !! pk_ep k = Some e ->
  let s1 := set_packets (fun m => <[p := pk_set_ref 1 k]> m) s in
  let dereg := set_trace (fun t => t ++ [EvRmaDereg (pk_rma_mem k)]) in
  let s2 := dereg (set_packets (fun m => <[p := pk_set_ref 0 k]> m) s) in
  lci_serve_send p s = Ok (tt, s1) /\ lci_serve_imm p s = Ok (tt, dereg s1) /\
  (_ ← lci_serve_send p; lci_serve_imm p) s = lci_ce_dispatch (pk_ep k) p (cap e) s2 /\
  (_ ← lci_serve_imm p; lci_serve_send p) s = lci_ce_dispatch (pk_ep k) p (cap e) s2.
Proof.
  intros E Hp Hr He s1 dereg s2.
  assert (lci_serve_send p s = Ok (tt, s1)) as E1 by (by rewrite (serve_send_rtr _ _ k 1)).
  assert (lci_serve_imm p s = Ok (tt, dereg s1)) as E2 by (by rewrite (serve_imm_rtr _ _ k 1)).
  split; [done|]. split; [done|].
  assert (packets s1 !! p = Some (pk_set_ref 1 k)) as Es1 by (cbn; apply lookup_insert_eq).
  assert (forall f, <[p := pk_set_ref 0 (pk_set_ref 1 k)]> (<[p := pk_set_ref 1 k]> f)
    = <[p := pk_set_ref 0 k]> f) as Hins by (intros; apply insert_insert_eq).
  split; (erewrite bind_run by done).
  - rewrite (serve_imm_rtr _ _ _ 0 Es1) by done. cbn [dispatch_if Z.eqb].
    erewrite bind_run by (by apply run_get_ep). unfold s1, s2, dereg, set_packets. cbn.
    by rewrite Hins.
  - rewrite (serve_send_rtr _ _ (pk_set_ref 1 k) 0) by done. cbn [dispatch_if Z.eqb].
    erewrite bind_run by (by apply run_get_ep). unfold s1, s2, dereg, set_packets. cbn.
    by rewrite Hins.
Qed.
End rendezvous.

(** ** Packets and their pool *)

(** A device whose pool is in order, seen by the running thread. *)
Record dev_wf (s : lci) (i : Z) (d : lc_server) : Prop := {
  dwf_dev : lcg_dev s !! i = Some d;
  dwf_pool : pool_wf (pool_g s) (pkpool d);
  dwf_wid : 0 <= wid s < MAX_NPOOLS;
  dwf_nonnull : Forall (fun p => p <> NULL) (pool_elems (pkpool d)) }.

(** Only the pool of device [i] changed: from the packets [l] to the packets [l']. *)
Definition pool_step (i : Z) (s s' : lci) (l l' : list Z) : Prop :=
  exists d g' pool', dev_wf s i d /\ l ≡ₚ pool_elems (pkpool d) /\
    s' = set_dev i (LcServer pool' (rep d) (curr_addr d) (heap_ptr d)) (set_pool_g g' s) /\
    dev_wf s' i (LcServer pool' (rep d) (curr_addr d) (heap_ptr d)) /\
    l' ≡ₚ pool_elems pool'.

Section packets.
Context `{Build, Server, Client, Platform}.
Implicit Types (s : lci) (p : Z) (k : lc_packet) (e : lci_ep).

Lemma run_ep_pool_put s e p d :
  dev_wf s (server e) d -> p <> NULL -> (length (pool_elems (pkpool d)) < dq_capacity)%nat ->
  exists s', ep_pool_put e p s = Ok (tt, s') /\
    pool_step (server e) s s' (pool_elems (pkpool d)) (p :: pool_elems (pkpool d)).
Proof.
  intros Hd Hp Hroom. pose proof Hd as [Hdev Hpool Hw Hnn].
  destruct (lc_pool_put_spec _ _ (wid s) p Hpool Hw Hroom) as (g' & pool' & E & Hwf & Hel).
  eexists. split; [unfold ep_pool_put, pool_put; do 3 mrun; rewrite E; do 2 mrun; reflexivity|].
  exists d, g', pool'. split; [done|]. split; [done|]. split; [done|]. split; [|by rewrite Hel].
  split; cbn; [apply lookup_insert_eq|done|done|]. rewrite Hel. by constructor.
Qed.

Lemma run_ep_pool_put_to s e p pid d :
  dev_wf s (server e) d -> p <> NULL -> (length (pool_elems (pkpool d)) < dq_capacity)%nat ->
  0 <= pid < pool_npools (pkpool d) ->
  exists s', ep_pool_put_to e p pid s = Ok (tt, s') /\
    pool_step (server e) s s' (pool_elems (pkpool d)) (p :: pool_elems (pkpool d)).
Proof.
  intros Hd Hp Hroom Hpid. pose proof Hd as [Hdev Hpool Hw Hnn].
  destruct (lc_pool_put_to_spec _ _ p pid Hpool Hpid Hroom) as (pool' & E & Hwf & Hel).
  exists (set_dev (server e) (LcServer pool' (rep d) (curr_addr d) (heap_ptr d)) s).
  split; [unfold ep_pool_put_to; mrun; rewrite E; mrun; reflexivity|].
  exists d, (pool_g s), pool'. split; [done|]. split; [done|]. split; [done|].
  split; [|by rewrite Hel].
  split; cbn; [apply lookup_insert_eq|done|done|]. rewrite Hel. by constructor.
Qed.

(** The pool a packet says it goes back to exists. *)
Definition poolid_ok (d : lc_server) (k : lc_packet) : Prop :=
  pk_poolid k = -1 \/ 0 <= pk_poolid k < pool_npools (pkpool d).

Lemma run_pk_free s ep e p d :
  eps s !! ep = Some e -> dev_wf s (server e) d -> p <> NULL ->
  (length (pool_elems (pkpool d)) < dq_capacity)%nat ->
  exists s', lci_pk_free ep p s = Ok (tt, s') /\
    pool_step (server e) s s' (pool_elems (pkpool d)) (p :: pool_elems (pkpool d)).
Proof.
  intros He Hd Hp Hroom. destruct (run_ep_pool_put _ _ _ _ Hd Hp Hroom) as (s' & E & Hs).
  exists s'. split; [unfold lci_pk_free; by mrun|done].
Qed.

Lemma run_pk_free_data s ep e p k d :
  eps s !! ep = Some e -> dev_wf s (server e) d -> packets s !! p = Some k -> p <> NULL ->
  (length (pool_elems (pkpool d)) < dq_capacity)%nat -> poolid_ok d k ->
  exists s', lci_pk_free_data ep p s = Ok (tt, s') /\
    pool_step (server e) s s' (pool_elems (pkpool d)) (p :: pool_elems (pkpool d)).
Proof.
  intros He Hd Hk Hp Hroom Hpid.
  destruct (Z.eqb_spec (pk_poolid k) (-1)) as [E|E].
  - destruct (run_ep_pool_put _ _ _ _ Hd Hp Hroom) as (s' & E' & Hs). exists s'.
    split; [unfold lci_pk_free_data; do 2 mrun; by rewrite E|done].
  - destruct Hpid as [|Hpid]; [done|].
    destruct (run_ep_pool_put_to _ _ _ _ _ Hd Hp Hroom Hpid) as (s' & E' & Hs). exists s'.
    split; [unfold lci_pk_free_data; do 2 mrun; by rewrite (proj2 (Z.eqb_neq _ _) E)|done].
Qed.

(** A medium message freed by a worker whose deque has a number between 128 and 254: the
    number does not fit the int8_t it is stored in, and the packet goes to a deque that
    does not exist. *)
Theorem poolid_truncation s ep p k e d pid :
  packets s !! p = Some k -> eps s !! ep = Some e -> lcg_dev s !! server e = Some d ->
  128 <= pid < 255 ->
  (_ ← lci_pk_init ep pid LC_PROTO_DATA p; lci_serve_send p) s = Err OutOfBounds.
Proof.
  intros Hk He Hd Hpid. unfold lci_pk_init. mrun. unfold lci_serve_send. mrun.
  cbn -[i8]. change (i16 LC_PROTO_DATA) with 0. cbn -[i8]. unfold lci_pk_free_data. do 2 mrun.
  cbn -[i8 lc_pool_put_to].
  assert (i8 pid = pid - 256) as E.
  { unfold i8. rewrite <- (Z.mod_unique (pid + 2 ^ 7) (2 ^ 8) 1 (pid - 128)); lia. }
  rewrite E, (proj2 (Z.eqb_neq _ _)) by lia. cbn [negb]. unfold ep_pool_put_to. mrun.
  apply bind_fail. unfold lc_pool_put_to, lpool_at. by rewrite aget_out by lia.
Qed.

(** The device [server e] is in order and its pool holds the packets [l]. *)
Definition holds (s : lci) (e : lci_ep) (l : list Z) : Prop :=
  exists d, dev_wf s (server e) d /\ pool_elems (pkpool d) ≡ₚ l.

Lemma run_next_rand s : Forall (fun r => 0 <= r) (rands s) ->
  exists r l, next_rand s = Ok (r, set_rands l s) /\ 0 <= r.
Proof.
  intros Hr. unfold next_rand. destruct (rands s) as [|r l] eqn:E.
  - exists 0, []. split; [|lia]. mrun. rewrite E. destruct s. cbn in E. by subst.
  - exists r, l. split; [mrun; by rewrite E|]. by inversion Hr.
Qed.

Lemma run_pool_get_nb s e d :
  dev_wf s (server e) d -> Forall (fun r => 0 <= r) (rands s) ->
  exists p g pool l, ep_pool_get_nb e s =
      Ok (p, set_dev (server e) (LcServer pool (rep d) (curr_addr d) (heap_ptr d))
               (set_pool_g g (set_rands l s))) /\
    pool_wf g pool /\ pool_npools pool <= pool_npools (pkpool d) + 1 /\
    Forall (fun p => p <> NULL) (pool_elems pool) /\
    (p = NULL /\ pool_elems pool ≡ₚ pool_elems (pkpool d) \/
     p <> NULL /\ pool_elems (pkpool d) ≡ₚ p :: pool_elems pool).
Proof.
  intros [Hdev Hpool Hw Hnn] Hr. destruct (run_next_rand s Hr) as (r & l & Er & Hr0).
  destruct (lc_pool_get_nb_spec _ _ (wid s) r Hpool Hw Hr0 Hnn)
    as (g & pool & p & E & Hwf & Hn & Hcase).
  exists p, g, pool, l. split.
  { unfold ep_pool_get_nb, pool_get_nb. do 3 mrun. erewrite bind_run by exact Er. rewrite E. by do 3 mrun. }
  split; [done|]. split; [done|]. split; [|done].
  destruct Hcase as [[_ ->]|[_ Hel]]; [done|]. rewrite Hel in Hnn. by inversion Hnn.
Qed.

(** The worker finds no packet: its deque is empty, and so is that of the worker the next
    random number picks. *)
Definition finds_none (s : lci) (d : lc_server) : Prop :=
  own_deque (pool_g s) (pkpool d) (wid s) = [] /\
  victim_deque (pool_g s) (pkpool d) (wid s) (hd 0 (rands s)) = [].

Lemma pool_get_nb_null s e d p s' :
  dev_wf s (server e) d -> Forall (fun r => 0 <= r) (rands s) -> ep_pool_get_nb e s = Ok (p, s') ->
  p = NULL <-> finds_none s d.
Proof.
  intros [Hdev Hpool Hw Hnn] Hr E. unfold ep_pool_get_nb, pool_get_nb in E.
  rewrite (bind_run _ _ _ _ _ (run_get_dev _ _ _ Hdev)) in E.
  rewrite (bind_run _ _ s (pool_g s) s), (bind_run _ _ s (wid s) s) in E by done.
  apply bind_inv in E as (r & s1 & Er & E).
  assert (r = hd 0 (rands s)) as ->.
  { unfold next_rand in Er. apply bind_inv in Er as (l & s2 & [= <- <-] & Er).
    destruct (rands s); by injection Er as <- _. }
  apply bind_inv in E as ([[g pool] p'] & s2 & El & E). unfold lift in El.
  destruct (lc_pool_get_nb _ _ _ _) as [x|] eqn:Eg; [|done]. injection El as -> ->.
  injection E as <- _. eapply get_nb_null; try done. by destruct Hr; cbn; [|lia].
Qed.

Lemma run_pool_get_local s e d :
  dev_wf s (server e) d ->
  exists pid g pool, ep_pool_get_local e s =
      Ok (pid, set_dev (server e) (LcServer pool (rep d) (curr_addr d) (heap_ptr d))
               (set_pool_g g s)) /\
    pool_wf g pool /\ 0 <= pid < pool_npools pool /\
    pool_npools pool <= pool_npools (pkpool d) + 1 /\
    pool_elems pool = pool_elems (pkpool d).
Proof.
  intros [Hdev Hpool Hw Hnn].
  destruct (lc_pool_get_local_spec _ _ (wid s) Hpool Hw)
    as (g & pool & pid & E & Hwf & Hpid & Hel & _ & _ & Hn).
  exists pid, g, pool. split; [|done].
  unfold ep_pool_get_local, pool_get_local. do 3 mrun. rewrite E. by do 3 mrun.
Qed.

(** The pool number a medium message is given: none or that of a deque of the pool. *)
Lemma run_medium_poolid s e d sz :
  dev_wf s (server e) d -> pool_npools (pkpool d) < 127 ->
  exists pid g pool, medium_poolid e sz s =
      Ok (pid, set_dev (server e) (LcServer pool (rep d) (curr_addr d) (heap_ptr d))
               (set_pool_g g s)) /\
    pool_wf g pool /\ pool_elems pool = pool_elems (pkpool d) /\
    (i8 pid = -1 \/ 0 <= i8 pid < pool_npools pool).
Proof.
  intros Hd Hn. unfold medium_poolid. destruct (_ <? sz).
  - destruct (run_pool_get_local _ _ _ Hd) as (pid & g & pool & E & Hwf & Hpid & Hn' & Hel).
    exists pid, g, pool. do 3 (split; [done|]). right. rewrite i8_small; lia.
  - destruct Hd as [Hdev Hpool Hw Hnn]. exists (-1), (pool_g s), (pkpool d).
    split; [|by auto]. unfold mret, M_ret, set_dev, set_pool_g. destruct s, d. cbn in *.
    by rewrite insert_id.
Qed.

(** Ready to send [sz] bytes at [src], which are [l], to [rank]. *)
Record send_ready (s : lci) (ep : Z) (e : lci_ep) (d : lc_server) (src sz rank : Z)
    (l : list Z) (r : lci_rep) : Prop := {
  sr_ep : eps s !! ep = Some e;
  sr_dev : dev_wf s (server e) d;
  sr_rep : aget (rep d) rank = Ok r;
  sr_load : load_bytes (memory s) src (Z.to_nat sz) = Ok l;
  sr_alloc : Forall (fun p => is_Some (packets s !! p)) (pool_elems (pkpool d));
  sr_rands : Forall (fun r => 0 <= r) (rands s);
  sr_room : (length (pool_elems (pkpool d)) <= dq_capacity)%nat;
  sr_npools : pool_npools (pkpool d) < 126;
  sr_running : lcg_deadlock s = 0 }.


(** A message longer than a packet's room but not longer than [lc_max_medium] is never
    sent: where it finds a packet, [lc_sendm] copies past the end of it. *)
Theorem medium_overflow s s' dev src sz rank tag ep cb ce :
  SHORT_MSG_SIZE < sz <= lc_max_medium dev ->
  lc_send src sz rank tag ep cb ce s <> Ok (LC_OK, s').
Proof.
  intros [Hsz Hmax] E. unfold lc_max_medium in Hmax.
  assert (LC_MAX_INLINE < sz) as Hin by (unfold SHORT_MSG_SIZE, LC_PACKET_SIZE, sizeof_packet_context,
    LC_MAX_INLINE in *; lia).
  unfold lc_send in E. rewrite (proj2 (Z.leb_gt _ _) Hin), (proj2 (Z.leb_le _ _) Hmax) in E.
  apply bind_inv in E as (ret & s1 & E & E').
  apply bind_inv in E' as (u & s2 & _ & E'). injection E' as -> ->.
  unfold lc_sendm in E. apply bind_inv in E as (e & s3 & _ & E).
  unfold LC_POOL_GET_OR_RETN in E. apply bind_inv in E as (dl & s4 & _ & E).
  destruct (truth dl); [done|]. apply bind_inv in E as (p & s5 & _ & E).
  destruct (p =? NULL); [done|]. apply bind_inv in E as (pid & s6 & _ & E).
  apply bind_inv in E as ([] & s7 & _ & E). apply bind_inv in E as (r & s8 & _ & E).
  apply bind_inv in E as ([] & s9 & E & _). unfold packet_fill in E.
  apply bind_inv in E as (l & s10 & _ & E).
  by rewrite (proj2 (Z.leb_gt _ _) Hsz) in E.
Qed.

(** ** Endpoints *)

(** Opening an endpoint on an existing device registers it under the next number as long as
    the table of endpoints has room, and writes past the table otherwise; it makes a
    matching table for explicit addressing and a completion queue for every other, never
    both. *)
Theorem ep_open_effect s dev d c :
  lcg_dev s !! dev = Some d -> 0 <= lcg_nep s ->
  let ep := next_ptr s in
  match lci_ep_open dev c s with
  | Ok (ep', s') =>
      lcg_nep s < Z.of_nat (length (lcg_ep s)) /\ ep' = ep /\
      aget (lcg_ep s') (lcg_nep s) = Ok ep /\ lcg_nep s' = lcg_nep s + 1 /\
      eps s' !! ep = Some (LciEp c (lcg_nep s) 0 dev
        (if has_cap c EP_AR_EXP then Tbl lc_hash_create else NoSrc)
        (if has_cap c EP_AR_EXP then NoDst else Cq cq_init)) /\
      (forall ep', ep' <> ep -> eps s' !! ep' = eps s !! ep') /\
      (forall i, 0 <= i -> i <> lcg_nep s -> aget (lcg_ep s') i = aget (lcg_ep s) i)
  | Err f => f = OutOfBounds /\ Z.of_nat (length (lcg_ep s)) <= lcg_nep s
  end.
Proof.
  intros Hd Hn ep. unfold lci_ep_open. unfold mbind at 1, M_bind at 1. rewrite (run_get_dev _ _ _ Hd).
  unfold mbind at 1, M_bind at 1, gets at 1. unfold mbind at 1, M_bind at 1, gets at 1.
  unfold mbind at 1, M_bind at 1, gets at 1. unfold mbind at 1, M_bind at 1.
  destruct (Z.lt_ge_cases (lcg_nep s) (Z.of_nat (length (lcg_ep s)))) as [Hlt|Hge].
  - rewrite aset_in by lia. cbn -[has_cap lc_hash_create cq_init aget].
    assert (forall (l : list Z) i v, 0 <= i < Z.of_nat (length l) ->
      aget (<[Z.to_nat i := v]> l) i = Ok v /\
      forall j, 0 <= j -> j <> i -> aget (<[Z.to_nat i := v]> l) j = aget l j) as Hset.
    { intros l i v Hi. unfold aget. split.
      - rewrite length_insert. rewrite (proj2 (andb_true_iff _ _)) by (split; lia).
        rewrite list_lookup_insert_eq by lia. done.
      - intros j Hj Hne. rewrite length_insert, list_lookup_insert_ne by lia. done. }
    destruct (Hset (lcg_ep s) (lcg_nep s) ep ltac:(lia)) as [H1' H2'].
    destruct (has_cap c EP_AR_EXP); unfold put_ep, modify, mbind, M_bind, mret, M_ret;
      cbn [eps set_eps set_globals lcg_ep lcg_nep]; rewrite lookup_insert_eq;
      (split_and!; [done..|intros ep' Hne; by rewrite lookup_insert_ne|]);
      intros i Hi Hne; by apply H2'.
  - rewrite aset_out by lia. cbn. split; [done|lia].
Qed.

(** An endpoint with explicit addressing and a completion queue: [lc_ep_dup] opens it
    without initialising the queue, and the first completion goes into what the memory
    happened to hold. *)
Theorem exp_cq_uninitialised s dev d alloc handler :
  lcg_dev s !! dev = Some d -> 0 <= lcg_nep s < Z.of_nat (length (lcg_ep s)) ->
  has_cq = true ->
  exists ep s' e, lc_ep_dup (LcOpt dev LC_EXP_CQ alloc handler false) s = Ok ((LC_OK, ep), s') /\
    eps s' !! ep = Some e /\
    forall p k q, packets s !! p = Some k -> reqs s !! pk_req k = Some q ->
      lci_ce_dispatch ep p (cap e) s' = Err NullDeref.
Proof.
  intros Hd Hn Hcq. unfold lc_ep_dup. cbn [opt_dev opt_desc LC_EXP_CQ desc_addr desc_ce].
  eexists _, _, _. split.
  - unfold lci_ep_open. erewrite bind_run.
    2:{ mrun. do 3 mrun. rewrite aset_in by lia. do 2 mrun.
        change (has_cap (Z.lor EP_AR_EXP EP_CE_CQ) EP_AR_EXP) with true. cbn iota. mrun. done. }
    erewrite bind_run by (apply run_get_ep; cbn -[lc_hash_create]; apply lookup_insert_eq).
    cbn [opt_glob opt_alloc opt_handler].
    change (EP_AR_EXP =? EP_AR_DYN) with false. change (EP_CE_CQ =? EP_CE_AM) with false.
    cbn iota. mrun. done.
  - split; [cbn -[lc_hash_create]; apply lookup_insert_eq|].
    intros p k q Hk Hq. cbn [cap]. unfold lci_ce_dispatch. apply bind_fail.
    change (has_cap (Z.lor EP_AR_EXP EP_CE_CQ) EP_CE_SYNC) with false.
    change (has_cap (Z.lor EP_AR_EXP EP_CE_CQ) EP_CE_CQ) with true.
    rewrite Hcq, andb_false_r. cbn [andb]. unfold lci_ce_queue.
    erewrite bind_run by (apply run_get_packet; cbn -[lc_hash_create]; exact Hk).
    erewrite bind_run by (apply run_upd_req; cbn -[lc_hash_create]; exact Hq).
    erewrite bind_run by (apply run_get_ep; cbn -[lc_hash_create]; apply lookup_insert_eq).
    done.
Qed.
End packets.

(** ** Eager messages *)

Section eager.
Context `{Build, Server, Client, Platform}.
Implicit Types (s : lci) (p : Z) (k : lc_packet) (e : lci_ep).

(** An endpoint that addresses explicitly and signals completions, with its table. *)
Record sync_ep (s : lci) (ep : Z) (e : lci_ep) (h : lc_hash) (d : lc_server) : Prop := {
  se_ep : eps s !! ep = Some e;
  se_tbl : ep_from e = Tbl h;
  se_wf : table_wf h;
  se_exp : has_cap (cap e) EP_AR_EXP = true;
  se_sync : has_cap (cap e) EP_CE_SYNC = true;
  se_glob : has_cap (cap e) EP_CE_GLOB = false;
  se_dev : dev_wf s (server e) d;
  se_room : (length (pool_elems (pkpool d)) < dq_capacity)%nat }.

Lemma pool_step_frame i s s' l l' : pool_step i s s' l l' ->
  packets s' = packets s /\ reqs s' = reqs s /\ memory s' = memory s /\ eps s' = eps s /\
  trace s' = trace s /\ rands s' = rands s.
Proof. by intros (d & g & pool & _ & _ & -> & _). Qed.

(** The completion of a receive by a signal: the request is marked, the packet returned. *)
Lemma run_ce_signal s ep e h d p k q :
  sync_ep s ep e h d -> has_sync = true -> packets s !! p = Some k -> p <> NULL ->
  poolid_ok d k -> reqs s !! pk_req k = Some q ->
  exists s', lci_ce_dispatch ep p (cap e) s = Ok (tt, s') /\
    pool_step (server e) (set_reqs (fun m => <[pk_req k := rq_set_sync 1 q]> m) s) s'
      (pool_elems (pkpool d)) (p :: pool_elems (pkpool d)).
Proof.
  intros [He Ht Hwf Hexp Hsync Hglob Hd Hroom] Hbs Hk Hp Hpid Hq.
  set (s1 := set_reqs (fun m => <[pk_req k := rq_set_sync 1 q]> m) s).
  assert (dev_wf s1 (server e) d) as Hd1 by (by destruct Hd).
  destruct (run_pk_free_data s1 ep e p k d) as (s' & E & Hs); try done.
  exists s'. split; [|done]. unfold lci_ce_dispatch. rewrite Hbs, Hsync. cbn [andb].
  erewrite (bind_run _ _ _ tt s'); [by rewrite Hglob, andb_false_r|].
  unfold lci_ce_signal. mrun. by mrun.
Qed.

Lemma run_hash_insert s ep e h key v type h' v' code :
  eps s !! ep = Some e -> ep_from e = Tbl h -> lc_hash_insert h key v type = Ok (h', v', code) ->
  ep_hash_insert ep key v type s = Ok ((v', code),
    set_eps (fun m => <[ep := LciEp (cap e) (gid e) (completed e) (server e) (Tbl h') (ep_to e)]> m) s).
Proof.
  intros He Ht Hi. unfold ep_hash_insert. mrun. rewrite Ht, Hi. by do 2 mrun.
Qed.

(** A receive of [sz] bytes at [src] with the request [req], and the packet [p] that holds
    the message of [bytes] it should match, neither of them seen by the layer yet. *)
Record eager_ready (s : lci) (ep : Z) (e : lci_ep) (h : lc_hash) (d : lc_server)
    (src rank tag req proto p : Z) (bytes : list Z) (m' : gmap Z Z) : Prop := {
  er_ep : sync_ep s ep e h d;
  er_rep : is_ok (aget (rep d) rank) = true;
  er_rank : 0 <= rank < 2 ^ 31 - 1;
  er_tag : 0 <= tag < 2 ^ 16;
  er_idle : forall type, waiting h (lc_make_key rank tag) type = [];
  er_req : is_Some (reqs s !! req);
  er_own : req <> req_s_of p;
  er_p : p <> NULL;
  er_proto : proto = MAKE_PROTO (PROTO_GET_RGID proto) LC_PROTO_DATA tag;
  er_rgid : aget (lcg_ep s) (PROTO_GET_RGID proto) = Ok ep /\ 0 <= PROTO_GET_RGID proto < 2 ^ 14;
  er_packet : exists k q0, packets s !! p = Some k /\ poolid_ok d k /\
    pk_data k = DataBuffer bytes /\ pk_req k = req_s_of p /\
    reqs s !! req_s_of p = Some q0 /\ State.rank q0 = rank /\
    size q0 = Z.of_nat (length bytes);
  er_store : store_bytes (memory s) src bytes = Ok m' }.

(** The message is in the buffer, its length in the request, which is signalled; the packet
    is in the pool again; the queues of the table are what they were. *)
Record delivered (s s' : lci) (ep : Z) (e : lci_ep) (h : lc_hash) (d : lc_server)
    (src req p : Z) (bytes : list Z) (m' : gmap Z Z) : Prop := {
  de_memory : memory s' = m';
  de_req : exists q, reqs s' !! req = Some q /\ sync q = 1 /\ buffer q = src /\
    size q = Z.of_nat (length bytes);
  de_pool : holds s' e (p :: pool_elems (pkpool d));
  de_trace : trace s' = trace s;
  de_rands : rands s' = rands s;
  de_tbl : exists e' h', eps s' !! ep = Some e' /\ ep_from e' = Tbl h' /\ table_wf h' /\
    cap e' = cap e /\ server e' = server e /\
    forall key type, valid_key key -> waiting h' key type = waiting h key type;
  de_packets : forall a, is_Some (packets s !! a) -> is_Some (packets s' !! a) }.

Lemma make_key_valid rank tag :
  0 <= rank < 2 ^ 31 - 1 -> 0 <= tag < 2 ^ 16 -> valid_key (lc_make_key rank tag).
Proof. intros Hr Ht. unfold valid_key. rewrite lc_make_key_val by lia. lia. Qed.

(** Both queues of a key empty: whichever side comes first waits, the other finds it. *)
Lemma insert_both h key v1 v2 t1 :
  table_wf h -> valid_key key -> (forall type, waiting h key type = []) ->
  exists h1 h2, lc_hash_insert h key v1 t1 = Ok (h1, v1, 1) /\ table_wf h1 /\
    lc_hash_insert h1 key v2 (other_type t1) = Ok (h2, v1, 0) /\ table_wf h2 /\
    forall key' type, valid_key key' -> waiting h2 key' type = waiting h key' type.
Proof.
  intros Hwf Hk Hidle.
  destruct (lc_hash_insert_spec h key v1 t1 Hwf Hk) as (h1 & w1 & c1 & E1 & Hwf1 & Hm1 & Ho1).
  rewrite (Hidle (other_type t1)) in Hm1. destruct Hm1 as (-> & -> & Hoth & Hown).
  rewrite (Hidle t1) in Hown. cbn in Hown.
  destruct (lc_hash_insert_spec h1 key v2 (other_type t1) Hwf1 Hk)
    as (h2 & w2 & c2 & E2 & Hwf2 & Hm2 & Ho2).
  assert (other_type (other_type t1) = t1) as Ht by (by destruct t1). rewrite Ht in Hm2.
  rewrite Hown in Hm2. destruct Hm2 as (-> & -> & Hm1' & Hm2').
  exists h1, h2. do 4 (split; [done|]). intros key' type Hk'.
  destruct (decide (key' = key)) as [->|Hne].
  - rewrite (Hidle type). destruct type, t1; cbn in *; congruence.
  - by rewrite Ho2, Ho1.
Qed.

(** The end both orders share: the receive and the packet have met. *)
Lemma eager_end s0 s ep e e' h h' d src req p k q bytes m' :
  sync_ep s0 ep e h d -> has_sync = true -> p <> NULL -> poolid_ok d k ->
  e' = LciEp (cap e) (gid e) (completed e) (server e) (Tbl h') (ep_to e) ->
  table_wf h' -> (forall key type, valid_key key -> waiting h' key type = waiting h key type) ->
  eps s !! ep = Some e' -> dev_wf s (server e) d -> memory s = m' -> trace s = trace s0 ->
  rands s = rands s0 -> packets s !! p = Some k -> pk_req k = req -> reqs s !! req = Some q ->
  buffer q = src -> size q = Z.of_nat (length bytes) ->
  (forall a, is_Some (packets s0 !! a) -> is_Some (packets s !! a)) ->
  exists s', lci_ce_dispatch ep p (cap e) s = Ok (tt, s') /\
    delivered s0 s' ep e h d src req p bytes m'.
Proof.
  intros Hse Hbs Hp Hpid -> Hwf Hw He Hd Hm Ht Hrn Hk Hr Hq Hb Hs Hps.
  set (e' := LciEp _ _ _ _ _ _) in *.
  assert (sync_ep s ep e' h' d) as Hse'.
  { destruct Hse. split; done. }
  change (cap e) with (cap e'). rewrite <- Hr in Hq.
  destruct (run_ce_signal s ep e' h' d p k q Hse' Hbs Hk Hp Hpid Hq) as (s' & E & Hst).
  exists s'. split; [exact E|].
  destruct (pool_step_frame _ _ _ _ _ Hst) as (Ep & Er & Em & Ee & Et & En).
  cbn in Ep, Er, Em, Ee, Et, En. split.
  - by rewrite Em.
  - exists (rq_set_sync 1 q). rewrite Er, Hr, lookup_insert_eq. done.
  - destruct Hst as (d0 & g & pool & _ & _ & _ & Hd' & Hl). eexists. split; [exact Hd'|].
    by symmetry.
  - by rewrite Et.
  - by rewrite En.
  - exists e', h'. by rewrite Ee.
  - intros a Ha. rewrite Ep. by apply Hps.
Qed.

(** Running the store of a message. *)
Lemma run_mem_store s addr l m : store_bytes (memory s) addr l = Ok m ->
  mem_store addr l s = Ok (tt, set_memory (fun _ => m) s).
Proof. intros E. unfold mem_store. by rewrite E. Qed.

Lemma run_packet_bytes k bytes : pk_data k = DataBuffer bytes ->
  packet_bytes k (Z.of_nat (length bytes)) = Ok bytes.
Proof.
  intros E. unfold packet_bytes. rewrite E, Z.leb_refl, Nat2Z.id. by rewrite take_ge.
Qed.

(** [recv_init]: the request is set up and remembers the sender's handle. *)
Lemma run_recv_init s ep e d r src sz rank req q :
  eps s !! ep = Some e -> lcg_dev s !! server e = Some d -> aget (rep d) rank = Ok r ->
  reqs s !! req = Some q ->
  recv_init src sz rank ep req s = Ok (tt, set_reqs (fun m => <[req := rq_set_rhandle (handle r)
    (rq_set_sync 0 (rq_set_size sz (rq_set_buffer src q)))]> m) s).
Proof.
  intros He Hd Hr Hq. unfold recv_init, lci_init_req. mrun. mrun.
  erewrite (bind_run _ _ _ r) by (unfold ep_rep; mrun; by rewrite Hr).
  erewrite run_upd_req by mlook. unfold set_reqs. cbn. by rewrite insert_insert_eq.
Qed.

(** Arrival of the message: what [lci_serve_recv] does before it looks for a match. *)
Lemma serve_recv_data s ep e src rank tag req proto p k q0 (h : lc_hash) d bytes m' :
  eager_ready s ep e h d src rank tag req proto p bytes m' -> has_exp = true ->
  packets s !! p = Some k -> pk_req k = req_s_of p -> reqs s !! req_s_of p = Some q0 ->
  State.rank q0 = rank -> size q0 = Z.of_nat (length bytes) -> pk_data k = DataBuffer bytes ->
  forall s', packets s' = packets s -> reqs s' !! req_s_of p = Some q0 -> lcg_ep s' = lcg_ep s ->
  forall e', eps s' !! ep = Some e' -> cap e' = cap e ->
  lci_serve_recv p proto s' =
    ('(value, code) ← ep_hash_insert ep (lc_make_key rank tag) p SERVER;
     if code =? 0 then
       _ ← upd_req value (rq_set_size (size q0));
       q' ← get_req value;
       l ← lift (packet_bytes k (size q0));
       _ ← mem_store (buffer q') l;
       _ ← upd_packet p (pk_set_req value);
       lci_ce_dispatch ep p (cap e)
     else mret tt : M unit)
    (set_packets (fun m => <[p := pk_set_proto 0 k]> m)
       (set_reqs (fun m => <[req_s_of p := rq_set_meta tag q0]> m) s')).
Proof.
  intros [Hse _ _ Htag _ _ _ _ Hpr [Hrg Hrg'] _ _] Hbe Hk Hkr Hq0 Hrank Hsz Hdata
    s' Es Hq0' El e' He' Hc.
  unfold lci_serve_recv. erewrite (bind_run _ _ _ ep) by
    (unfold ep_of_proto; erewrite bind_run by reflexivity; rewrite El; by rewrite Hrg).
  mrun. unfold lci_serve_recv_dispatch. rewrite Hbe, Hc, (se_exp _ _ _ _ _ Hse). cbn [andb].
  unfold lci_serve_recv_expl.
  erewrite bind_run by (apply run_get_packet; rewrite Es; exact Hk). rewrite Hkr.
  mrun. erewrite bind_run by (apply run_upd_packet; cbn; rewrite Es; exact Hk).
  rewrite Hpr, get_meta_make, get_proto_make by (unfold LC_PROTO_DATA; lia).
  rewrite Z.mod_small by lia. erewrite bind_run by (apply run_get_req; mlook).
  cbn [State.rank meta rq_set_meta size]. rewrite Hrank.
  change (LC_PROTO_DATA =? LC_PROTO_DATA) with true. cbn iota.
  change (i16 LC_PROTO_DATA) with 0. done.
Qed.

Lemma eager_posted_first s ep e h d src sz rank tag req proto p bytes m' :
  eager_ready s ep e h d src rank tag req proto p bytes m' ->
  has_exp = true -> has_sync = true ->
  exists s1, lc_recv src sz rank tag ep req s = Ok (LC_OK, s1) /\
    exists s2, lci_serve_recv p proto s1 = Ok (tt, s2) /\
      delivered s s2 ep e h d src req p bytes m'.
Proof.
  intros Hr Hbe Hbs. pose proof Hr as [Hse Hrep Hrank Htag Hidle [q Hq] Hown Hp Hpr _ Hpk Hst].
  destruct Hpk as (k & q0 & Hk & Hpid & Hdata & Hkr & Hq0 & Hq0r & Hq0s).
  pose proof Hse as [He Ht Hwf _ _ _ Hd _].
  destruct (aget (rep d) rank) as [r|] eqn:Er; [|done].
  destruct (insert_both h _ req p CLIENT Hwf (make_key_valid _ _ Hrank Htag) Hidle)
    as (h1 & h2 & E1 & Hwf1 & E2 & Hwf2 & Hw).
  eexists. split.
  { unfold lc_recv. erewrite bind_run by (eapply run_recv_init; eauto using dwf_dev).
    erewrite bind_run by (eapply run_hash_insert; [exact He|exact Ht|exact E1]).
    cbn iota beta. change (1 =? 0) with false. reflexivity. }
  set (q1 := rq_set_rhandle _ _). set (e1 := LciEp _ _ _ _ _ _).
  set (s1 := set_eps (fun m => <[ep := e1]> m) (set_reqs (fun m => <[req := q1]> m) s)).
  set (e2 := LciEp (cap e1) (gid e1) (completed e1) (server e1) (Tbl h2) (ep_to e1)).
  rewrite (serve_recv_data s ep e src rank tag req proto p k q0 h d bytes m' Hr Hbe Hk Hkr Hq0
    Hq0r Hq0s Hdata s1 eq_refl) with (e' := e1); cycle 1.
  { cbn. by rewrite lookup_insert_ne. } { done. } { cbn. apply lookup_insert_eq. }
  { done. }
  erewrite bind_run by (eapply run_hash_insert; [cbn; apply lookup_insert_eq|reflexivity|exact E2]).
  cbn beta iota. change (0 =? 0) with true. cbn iota. rewrite Hq0s.
  erewrite bind_run by (apply (run_upd_req _ _ q1); cbn; rewrite lookup_insert_ne by congruence;
    apply lookup_insert_eq).
  erewrite bind_run by (apply run_get_req; cbn; apply lookup_insert_eq).
  rewrite (run_packet_bytes _ _ Hdata). erewrite (bind_run (lift _)) by reflexivity.
  erewrite bind_run by (apply run_mem_store; exact Hst).
  erewrite bind_run by (apply run_upd_packet; cbn; apply lookup_insert_eq).
  match goal with |- context [lci_ce_dispatch ep p (cap e) ?s3] =>
    destruct (eager_end s s3 ep e e2 h h2 d src req p (pk_set_req req (pk_set_proto 0 k))
      (rq_set_size (Z.of_nat (length bytes)) q1) bytes m' Hse Hbs Hp) as (s' & E & Hdel) end;
    try done.
  - cbn. apply lookup_insert_eq.
  - by destruct Hd.
  - cbn. apply lookup_insert_eq.
  - cbn. apply lookup_insert_eq.
  - intros a Ha. cbn. rewrite !lookup_insert_is_Some'. by do 2 right.
  - exists s'. split; [exact E|exact Hdel].
Qed.

Lemma eager_arrived_first s ep e h d src sz rank tag req proto p bytes m' :
  eager_ready s ep e h d src rank tag req proto p bytes m' ->
  has_exp = true -> has_sync = true ->
  exists s1, lci_serve_recv p proto s = Ok (tt, s1) /\
    exists s2, lc_recv src sz rank tag ep req s1 = Ok (LC_OK, s2) /\
      delivered s s2 ep e h d src req p bytes m'.
Proof.
  intros Hr Hbe Hbs. pose proof Hr as [Hse Hrep Hrank Htag Hidle [q Hq] Hown Hp Hpr _ Hpk Hst].
  destruct Hpk as (k & q0 & Hk & Hpid & Hdata & Hkr & Hq0 & Hq0r & Hq0s).
  pose proof Hse as [He Ht Hwf _ _ _ Hd _].
  destruct (aget (rep d) rank) as [r|] eqn:Er; [|done].
  destruct (insert_both h _ p req SERVER Hwf (make_key_valid _ _ Hrank Htag) Hidle)
    as (h1 & h2 & E1 & Hwf1 & E2 & Hwf2 & Hw).
  eexists. split.
  { erewrite (serve_recv_data s ep e src rank tag req proto p k q0 h d bytes m' Hr Hbe Hk Hkr
      Hq0 Hq0r Hq0s Hdata s eq_refl Hq0 eq_refl e He eq_refl).
    erewrite bind_run by (eapply run_hash_insert; [exact He|exact Ht|exact E1]).
    cbn beta iota. change (1 =? 0) with false. reflexivity. }
  set (q1 := rq_set_meta tag q0). set (k1 := pk_set_proto 0 k). set (e1 := LciEp _ _ _ _ _ _).
  set (e2 := LciEp (cap e1) (gid e1) (completed e1) (server e1) (Tbl h2) (ep_to e1)).
  unfold lc_recv.
  erewrite bind_run by (eapply (run_recv_init _ _ e1); [cbn; apply lookup_insert_eq
    |cbn; exact (dwf_dev _ _ _ Hd)|exact Er|cbn; rewrite lookup_insert_ne by congruence; exact Hq]).
  set (q2 := rq_set_rhandle _ _).
  erewrite bind_run by (eapply run_hash_insert; [cbn; apply lookup_insert_eq|reflexivity|exact E2]).
  cbn beta iota. change (0 =? 0) with true. cbn iota.
  match goal with |- context [mbind _ (mbind _ (get_packet p)) ?s3] =>
    assert (exists s4, lci_ce_dispatch ep p (cap e)
      (set_packets (fun m => <[p := pk_set_req req k1]> m)
        (set_reqs (fun m => <[req := rq_set_size (size q1) q2]> m)
          (set_memory (fun _ => m') s3))) = Ok (tt, s4) /\
      delivered s s4 ep e h d src req p bytes m') as (s4 & E & Hdel)
  end.
  { match goal with |- context [lci_ce_dispatch ep p (cap e) ?s4] =>
      apply (eager_end s s4 ep e e2 h h2 d src req p (pk_set_req req k1)
        (rq_set_size (size q1) q2) bytes m' Hse Hbs Hp) end; try done;
      try (cbn; apply lookup_insert_eq); [by destruct Hd|].
    intros a Ha. cbn. rewrite !lookup_insert_is_Some'. by do 2 right. }
  exists s4. split; [|exact Hdel].
  erewrite (bind_run _ _ _ tt); [reflexivity|].
  erewrite bind_run by (apply run_get_packet; cbn; apply lookup_insert_eq).
  change (pk_proto k1 =? LC_PROTO_RTS) with false. cbn iota.
  erewrite bind_run by (apply run_get_ep; cbn; apply lookup_insert_eq).
  unfold recv_eager.
  erewrite bind_run by (apply run_get_packet; cbn; apply lookup_insert_eq).
  change (pk_req k1) with (pk_req k). rewrite Hkr.
  erewrite bind_run by (apply (run_get_req _ _ q1); cbn; rewrite lookup_insert_ne by congruence;
    apply lookup_insert_eq).
  change (size q1) with (size q0) in *. rewrite Hq0s in *.
  rewrite (run_packet_bytes k1 bytes Hdata). erewrite (bind_run (lift _)) by reflexivity.
  erewrite bind_run by (apply run_mem_store; exact Hst).
  erewrite bind_run by (apply run_upd_req; cbn; apply lookup_insert_eq).
  erewrite bind_run by (apply run_upd_packet; cbn; apply lookup_insert_eq).
  exact E.
Qed.

(** C19: An eager message is delivered whichever comes first.  Posted before the message
    arrives, or arriving before it is posted, a receive ends with the bytes in its
    buffer, their length in the request and the request signalled, the packet back in
    the pool and every queue of the matching table as it was: nothing left over. *)
Theorem eager_delivery s ep e h d src sz rank tag req proto p bytes m' :
  eager_ready s ep e h d src rank tag req proto p bytes m' ->
  has_exp = true -> has_sync = true ->
  (exists s2, (_ ← lc_recv src sz rank tag ep req; lci_serve_recv p proto) s = Ok (tt, s2) /\
     delivered s s2 ep e h d src req p bytes m') /\
  (exists s2, (_ ← lci_serve_recv p proto; lc_recv src sz rank tag ep req) s = Ok (LC_OK, s2) /\
     delivered s s2 ep e h d src req p bytes m').
Proof.
  intros Hr Hbe Hbs. split.
  - destruct (eager_posted_first _ _ _ _ _ _ sz _ _ _ _ _ _ _ Hr Hbe Hbs)
      as (s1 & E1 & s2 & E2 & Hd).
    exists s2. split; [|exact Hd]. by erewrite bind_run by exact E1.
  - destruct (eager_arrived_first _ _ _ _ _ _ sz _ _ _ _ _ _ _ Hr Hbe Hbs)
      as (s1 & E1 & s2 & E2 & Hd).
    exists s2. split; [|exact Hd]. by erewrite bind_run by exact E1.
Qed.

(** A receive without a message waits in the table. *)
Lemma recv_waits s ep e h h1 d r src sz rank tag req q :
  eps s !! ep = Some e -> ep_from e = Tbl h -> lcg_dev s !! server e = Some d ->
  aget (rep d) rank = Ok r -> reqs s !! req = Some q ->
  lc_hash_insert h (lc_make_key rank tag) req CLIENT = Ok (h1, req, 1) ->
  lc_recv src sz rank tag ep req s = Ok (LC_OK,
    set_eps (fun m => <[ep := LciEp (cap e) (gid e) (completed e) (server e) (Tbl h1) (ep_to e)]> m)
      (set_reqs (fun m => <[req := rq_set_rhandle (handle r)
         (rq_set_sync 0 (rq_set_size sz (rq_set_buffer src q)))]> m) s)).
Proof.
  intros He Ht Hd Hr Hq Ei. unfold lc_recv.
  erewrite bind_run by (eapply run_recv_init; eauto).
  erewrite bind_run by (eapply run_hash_insert; [exact He|exact Ht|exact Ei]). reflexivity.
Qed.

(** What a server writes in packet [p] and its request before it serves an arrival. *)
Definition noted_at (p : Z) (k : lc_packet) (q : lc_req) (s : lci) : lci :=
  set_reqs (fun m => <[req_s_of p := q]> m) (set_packets (fun m => <[p := pk_set_req (req_s_of p) k]> m) s).

(** A receive posted before the message arrives in packet [p]. *)
Lemma eager_arrival s ep e h d src sz rank tag req proto p bytes m' k q q' :
  eager_ready (noted_at p k q' s) ep e h d src rank tag req proto p bytes m' ->
  has_exp = true -> has_sync = true -> packets s !! p = Some k -> reqs s !! req_s_of p = Some q ->
  exists s1 s2, lc_recv src sz rank tag ep req s = Ok (LC_OK, s1) /\
    packets s1 !! p = Some k /\ reqs s1 !! req_s_of p = Some q /\
    lci_serve_recv p proto (noted_at p k q' s1) = Ok (tt, s2) /\
    delivered (noted_at p k q' s) s2 ep e h d src req p bytes m'.
Proof.
  intros Hready Hbe Hbs Hk Hq.
  destruct (eager_posted_first _ _ _ _ _ _ sz _ _ _ _ _ _ _ Hready Hbe Hbs) as (x1 & E1 & x2 & E2 & Hdel).
  pose proof Hready as [Hse Hrep Hrank Htag Hidle [q0 Hq0] Hown _ _ _ _ _].
  pose proof Hse as [He Ht Hwf _ _ _ Hd _].
  destruct (aget (rep d) rank) as [r|] eqn:Er; [|done].
  destruct (insert_both h _ req p CLIENT Hwf (make_key_valid _ _ Hrank Htag) Hidle) as (h1 & h2 & Ei & _).
  cbn in He, Hq0. rewrite lookup_insert_ne in Hq0 by congruence.
  rewrite (recv_waits (noted_at p k q' s) _ _ _ h1 d r _ _ _ _ _ q0 He Ht (dwf_dev _ _ _ Hd) Er) in E1.
  2: { cbn. by rewrite lookup_insert_ne by congruence. } 2: { done. }
  injection E1 as <-.
  pose proof (recv_waits s _ _ _ h1 d r src sz _ _ _ q0 He Ht (dwf_dev _ _ _ Hd) Er Hq0 Ei) as E1.
  set (s1 := set_eps _ _) in E1. exists s1, x2. split; [done|]. split; [done|].
  split; [cbn; by rewrite lookup_insert_ne|]. split; [|done]. rewrite <- E2. f_equal.
  unfold noted_at, s1, set_reqs, set_eps, set_packets. cbn. f_equal. by apply insert_insert_ne.
Qed.

Lemma sends_run s ep e d to r buf sz tag bytes : eps s !! ep = Some e -> lcg_dev s !! server e = Some d ->
  aget (rep d) to = Ok r -> load_bytes (memory s) buf (Z.to_nat sz) = Ok bytes ->
  lc_sends buf sz to tag ep s = Ok (LC_OK, set_trace (fun t => t ++
    [EvSends (server e) (handle r) bytes (MAKE_PROTO (gid e) LC_PROTO_DATA tag)]) s).
Proof.
  intros He Hd Hr Hl. unfold lc_sends. erewrite bind_run by (apply run_get_ep; exact He).
  erewrite bind_run by (unfold ep_rep; erewrite bind_run by (apply run_get_dev; exact Hd);
    unfold lift; by rewrite Hr).
  by erewrite bind_run by (unfold mem_load, lift; by rewrite Hl).
Qed.

End eager.

(** ** Devices *)

Section devices.
Context `{Build, Server, Client, Platform}.
Implicit Types (s : lci) (d : lc_server).

(** The packets [i], ..., [i + n - 1] of a device whose first packet is at [b]. *)
Definition packets_from (b i : Z) (n : nat) : list Z :=
  (fun j => b + j * LC_PACKET_SIZE) <$> seqZ i (Z.of_nat n).

Lemma packets_from_S b i n :
  packets_from b i (S n) = (b + i * LC_PACKET_SIZE) :: packets_from b (i + 1) n.
Proof. unfold packets_from. rewrite seqZ_cons by lia. cbn. do 3 f_equal; lia. Qed.

Lemma dev_init_packet_run id b i s d :
  dev_wf s id d -> 0 < b -> 0 <= i -> (length (pool_elems (pkpool d)) < dq_capacity)%nat ->
  let p := b + i * LC_PACKET_SIZE in
  exists s' pool, dev_init_packet id b i s = Ok (tt, s') /\
    dev_wf s' id (LcServer pool (rep d) (curr_addr d) (heap_ptr d)) /\
    pool_elems pool ≡ₚ p :: pool_elems (pkpool d) /\
    packets s' = <[p := pk_set_poolid 0 lc_packet0]> (packets s) /\
    reqs s' = <[req_s_of p := rq_set_parent p lc_req0]> (reqs s).
Proof.
  intros Hd Hb Hi Hroom p. pose proof Hd as [Hdev Hpool Hw Hnn].
  destruct (lc_pool_put_spec _ _ (wid s) p Hpool Hw Hroom) as (g & pool & E & Hwf & Hel).
  eexists _, pool. split.
  - unfold dev_init_packet. do 2 mrun. erewrite bind_run by (apply run_get_dev; cbn; exact Hdev).
    do 2 mrun. cbn [pool_g wid set_packets set_reqs]. fold p. rewrite E. do 2 mrun. reflexivity.
  - split; [|split; [done|split; reflexivity]].
    split; cbn; [apply lookup_insert_eq|done|done|]. rewrite Hel. constructor; [|done].
    unfold p, NULL, LC_PACKET_SIZE. lia.
Qed.

Lemma dev_init_packets_run id b n : forall i s d,
  dev_wf s id d -> 0 < b -> 0 <= i ->
  (length (pool_elems (pkpool d)) + n <= dq_capacity)%nat ->
  exists s' pool, dev_init_packets id b i n s = Ok (tt, s') /\
    dev_wf s' id (LcServer pool (rep d) (curr_addr d) (heap_ptr d)) /\
    pool_elems pool ≡ₚ packets_from b i n ++ pool_elems (pkpool d) /\
    (forall p, p ∈ packets_from b i n ->
       packets s' !! p = Some (pk_set_poolid 0 lc_packet0) /\
       reqs s' !! req_s_of p = Some (rq_set_parent p lc_req0)) /\
    (forall p, p ∉ packets_from b i n -> packets s' !! p = packets s !! p /\
       reqs s' !! req_s_of p = reqs s !! req_s_of p).
Proof.
  induction n as [|n IH]; intros i s d Hd Hb Hi Hroom.
  { exists s, (pkpool d). split; [done|]. split; [by destruct d|]. split; [done|].
    split; [intros p Hp; by apply elem_of_nil in Hp|done]. }
  destruct (dev_init_packet_run id b i s d Hd Hb Hi) as (s1 & pool1 & E1 & Hd1 & Hel1 & Hp1 & Hr1);
    [lia|].
  assert (length (pool_elems pool1) = S (length (pool_elems (pkpool d)))) as Hlen
    by (by rewrite Hel1).
  destruct (IH (i + 1) s1 _ Hd1 Hb) as (s2 & pool2 & E2 & Hd2 & Hel2 & Hin & Hout);
    [lia|cbn; lia|].
  exists s2, pool2. split; [cbn; by erewrite bind_run by exact E1|]. split; [exact Hd2|].
  rewrite packets_from_S. set (p1 := b + i * LC_PACKET_SIZE) in *. cbn [pkpool] in Hel2.
  split; [rewrite Hel2, Hel1; symmetry; apply Permutation_middle|]. split.
  - intros p Hp. destruct (decide (p ∈ packets_from b (i + 1) n)) as [Hp'|Hp']; [auto|].
    apply elem_of_cons in Hp as [->|Hp]; [|done]. destruct (Hout _ Hp') as [-> ->].
    by rewrite Hp1, Hr1, !lookup_insert_eq.
  - intros p Hp. rewrite elem_of_cons in Hp.
    destruct (Hout p) as [-> ->]; [tauto|]. rewrite Hp1, Hr1, !lookup_insert_ne; [done|..].
    + unfold req_s_of. intros E. apply Hp. left. lia.
    + intros E. apply Hp. by left.
Qed.

Lemma packets_from_nodup b i n : NoDup (packets_from b i n).
Proof.
  apply NoDup_fmap; [|apply NoDup_seqZ]. intros j j' E. unfold LC_PACKET_SIZE in E. lia.
Qed.

(** C24: A device starts with 1024 packets in its pool, all different, inside its heap and not
    overlapping; the free part of the heap starts on a page after the last of them, well
    before the end of what the server allocates. *)
Theorem dev_init_packets_ok s id :
  globals_wf (pool_g s) -> keys_fresh (pool_g s) ->
  0 <= lc_pool_nkey (pool_g s) < MAX_LOCAL_POOL -> 0 <= wid s < MAX_NPOOLS ->
  128 <= lcg_page_size <= 2 ^ 20 -> 0 < snd (lc_server_init id) ->
  exists s' d, lci_dev_init id s = Ok (tt, s') /\ dev_wf s' id d /\
    heap_ptr d = snd (lc_server_init id) /\ rep d = fst (lc_server_init id) /\
    length (pool_elems (pkpool d)) = Z.to_nat LC_SERVER_NUM_PKTS /\
    NoDup (pool_elems (pkpool d)) /\
    (forall p, p ∈ pool_elems (pkpool d) ->
       packets s' !! p = Some (pk_set_poolid 0 lc_packet0) /\
       reqs s' !! req_s_of p = Some (rq_set_parent p lc_req0) /\
       heap_ptr d <= p /\ p + LC_PACKET_SIZE <= curr_addr d) /\
    (forall p p', p ∈ pool_elems (pkpool d) -> p' ∈ pool_elems (pkpool d) -> p < p' ->
       p + LC_PACKET_SIZE <= p') /\
    curr_addr d mod lcg_page_size = 0 /\
    curr_addr d <= heap_ptr d + (LC_SERVER_NUM_PKTS * LC_PACKET_SIZE * 2 + LC_DEV_MEM_SIZE).
Proof.
  intros Hg Hf Hk Hw Hps Hh. unfold lci_dev_init.
  destruct (lc_server_init id) as [reps heap] eqn:Einit. cbn [fst snd] in *.
  destruct (lc_pool_create_spec _ Hg Hf Hk) as (g & pool & E & Hwf & Hel & _).
  set (b := heap + lcg_page_size - sizeof_packet_context).
  set (s1 := set_dev id (LcServer pool reps 0 heap) (set_pool_g g s)).
  assert (dev_wf s1 id (LcServer pool reps 0 heap)) as Hd1.
  { split; cbn; [apply lookup_insert_eq|done|done|by rewrite Hel]. }
  assert (0 < b) as Hb by (unfold b, sizeof_packet_context; lia).
  destruct (dev_init_packets_run id b (Z.to_nat LC_SERVER_NUM_PKTS) 0 s1 _ Hd1 Hb)
    as (s2 & pool2 & E2 & Hd2 & Hel2 & Hin & _); [lia|cbn [pkpool]; rewrite Hel; apply Nat.leb_le;
      reflexivity|].
  cbn [pkpool rep curr_addr heap_ptr] in *. rewrite Hel, app_nil_r in Hel2.
  eexists _, _. split; [|split].
  { mrun. rewrite E. do 3 mrun. erewrite bind_run by exact E2.
    erewrite bind_run by (apply run_get_dev, Hd2). reflexivity. }
  { destruct Hd2. split; cbn; [apply lookup_insert_eq|done..]. }
  cbn [pkpool rep curr_addr heap_ptr packets reqs set_dev].
  set (P := lcg_page_size) in *.
  set (last := b + LC_SERVER_NUM_PKTS * LC_PACKET_SIZE).
  assert (last <= (last + P - 1) / P * P < last + P /\ ((last + P - 1) / P * P) mod P = 0) as [Hc Hm].
  { split; [|apply Z.mod_mul; lia]. pose proof (Z.div_mod (last + P - 1) P ltac:(lia)).
    pose proof (Z.mod_pos_bound (last + P - 1) P ltac:(lia)). lia. }
  assert (forall p, p ∈ pool_elems pool2 <-> exists j, 0 <= j < LC_SERVER_NUM_PKTS /\
    p = b + j * LC_PACKET_SIZE) as Hmem.
  { intros p. rewrite Hel2. unfold packets_from. rewrite list_elem_of_fmap.
    split; intros (j & Hj1 & Hj2); exists j; rewrite ?elem_of_seqZ in *;
      unfold LC_SERVER_NUM_PKTS in *; split; lia. }
  do 2 (split; [done|]).
  split; [rewrite Hel2; unfold packets_from; by rewrite length_fmap, length_seqZ|].
  split; [rewrite Hel2; apply packets_from_nodup|]. split.
  { intros p Hp. rewrite Hel2 in Hp. destruct (Hin p Hp) as [? ?]. split; [done|].
    split; [done|]. rewrite <- Hel2 in Hp. apply Hmem in Hp as (j & Hj & ->).
    unfold last, b, LC_SERVER_NUM_PKTS, LC_PACKET_SIZE, sizeof_packet_context in *. lia. }
  split.
  { intros p p' (j & Hj & ->)%Hmem (j' & Hj' & ->)%Hmem Hlt.
    unfold LC_PACKET_SIZE in *. lia. }
  split; [done|].
  unfold last, b, LC_SERVER_NUM_PKTS, LC_PACKET_SIZE, sizeof_packet_context,
    LC_DEV_MEM_SIZE in *. lia.
Qed.
End devices.

(** ** Memory *)

Lemma store_bytes_other l : forall m addr m' a,
  store_bytes m addr l = Ok m' -> a < addr -> m' !! a = m !! a.
Proof.
  induction l as [|b l IH]; intros m addr m' a E Ha; cbn in E; [by injection E as <-|].
  destruct (m !! addr) eqn:Em; [|done]. rewrite (IH _ _ _ _ E) by lia.
  by rewrite lookup_insert_ne by lia.
Qed.

Lemma store_load l : forall m addr m',
  store_bytes m addr l = Ok m' -> load_bytes m' addr (length l) = Ok l.
Proof.
  induction l as [|b l IH]; intros m addr m' E; cbn in E |- *; [done|].
  destruct (m !! addr) eqn:Em; [|done].
  rewrite (store_bytes_other _ _ _ _ _ E) by lia. rewrite lookup_insert_eq. cbn.
  by rewrite (IH _ _ _ E).
Qed.

Lemma store_mapped l : forall m addr,
  (forall i, 0 <= i < Z.of_nat (length l) -> is_Some (m !! (addr + i))) ->
  exists m', store_bytes m addr l = Ok m'.
Proof.
  induction l as [|b l IH]; intros m addr Hm; cbn; [eauto|].
  destruct (Hm 0) as [b0 Hb0]; [cbn; lia|]. rewrite Z.add_0_r in Hb0. rewrite Hb0.
  apply IH. intros i Hi. destruct (decide (addr + 1 + i = addr)) as [|Hne]; [lia|].
  rewrite lookup_insert_ne by lia. replace (addr + 1 + i) with (addr + (1 + i)) by lia.
  apply Hm. cbn. lia.
Qed.

Lemma map_block_mapped (m : gmap Z Z) addr n i : 0 <= i < n ->
  is_Some ((m ∪ list_to_map ((fun i => (i, 0)) <$> seqZ addr n)) !! (addr + i)).
Proof.
  intros Hi. destruct (m !! (addr + i)) as [b|] eqn:E.
  - exists b. by apply lookup_union_Some_l.
  - exists 0. rewrite lookup_union_r by done. apply elem_of_list_to_map_1.
    + rewrite <- list_fmap_compose. cbn. rewrite list_fmap_id. apply NoDup_seqZ.
    + apply list_elem_of_fmap. exists (addr + i). split; [done|]. apply elem_of_seqZ. lia.
Qed.

(** ** Dynamic receives *)

Section dynamic.
Context `{Build, Server, Client, Platform}.

(** An endpoint that allocates arrivals and queues completions, and the packet [p] with a
    message for it. *)
Record dyn_ready (s : lci) (ep : Z) (e : lci_ep) (f : Z) (cq : comp_q) (d : lc_server)
    (proto p : Z) (q0 : lc_req) (bytes : list Z) (tag : Z) : Prop := {
  dr_ep : eps s !! ep = Some e;
  dr_from : ep_from e = Alloc f;
  dr_to : ep_to e = Cq cq;
  dr_cq : cq_wf cq;
  dr_space : length (cq_elems cq) <> cq_capacity;
  dr_exp : has_cap (cap e) EP_AR_EXP = false;
  dr_dyn : has_cap (cap e) EP_AR_DYN = true;
  dr_sync : has_cap (cap e) EP_CE_SYNC = false;
  dr_cap : has_cap (cap e) EP_CE_CQ = true;
  dr_glob : has_cap (cap e) EP_CE_GLOB = false;
  dr_tag : 0 <= tag < 2 ^ 16;
  dr_proto : proto = MAKE_PROTO (PROTO_GET_RGID proto) LC_PROTO_DATA tag;
  dr_rgid : aget (lcg_ep s) (PROTO_GET_RGID proto) = Ok ep;
  dr_range : 0 <= PROTO_GET_RGID proto < 2 ^ 14;
  dr_packet : exists k, packets s !! p = Some k /\ pk_data k = DataBuffer bytes /\
    pk_req k = req_s_of p;
  dr_req : reqs s !! req_s_of p = Some q0;
  dr_size : size q0 = Z.of_nat (length bytes) }.

(** An endpoint that queues completions, with room in its queue. *)
Record queue_ep (s : lci) (ep : Z) (e : lci_ep) (cq : comp_q) : Prop := {
  qe_ep : eps s !! ep = Some e;
  qe_to : ep_to e = Cq cq;
  qe_wf : cq_wf cq;
  qe_space : length (cq_elems cq) <> cq_capacity;
  qe_sync : has_cap (cap e) EP_CE_SYNC = false;
  qe_cq : has_cap (cap e) EP_CE_CQ = true;
  qe_glob : has_cap (cap e) EP_CE_GLOB = false }.

(** The completion of a receive by a queue: the request is queued last. *)
Lemma run_ce_queue s ep e cq p k q :
  queue_ep s ep e cq -> has_cq = true -> packets s !! p = Some k -> reqs s !! pk_req k = Some q ->
  exists cq', cq_wf cq' /\ cq_elems cq' = cq_elems cq ++ [pk_req k] /\
    lci_ce_dispatch ep p (cap e) s = Ok (tt,
      set_eps (fun m => <[ep := LciEp (cap e) (gid e) (completed e) (server e) (ep_from e) (Cq cq')]> m)
        (set_reqs (fun m => <[pk_req k := rq_set_parent p q]> m) s)).
Proof.
  intros [He Hto Hcq Hspace Hsync Hcap Hglob] Hbq Hk Hq.
  pose proof (cq_push_spec cq (pk_req k) Hcq) as Hpush. rewrite decide_False in Hpush by done.
  destruct Hpush as (cq' & Ecq & Hcq' & Hel). exists cq'. split; [done|]. split; [done|].
  unfold lci_ce_dispatch. rewrite Hsync, andb_false_r, Hbq, Hcap, Hglob. cbn [andb].
  erewrite (bind_run _ _ _ tt); [by rewrite andb_false_r|].
  unfold lci_ce_queue. mrun. mrun. mrun. rewrite Hto, Ecq. by mrun.
Qed.

(** C23: A message to a dynamic endpoint: the client's allocator is called once, with the
    length of the message; the bytes are copied into its buffer; the request describes
    them (buffer, context, length, sender and tag) and is queued last. *)
Theorem dynamic_delivery s ep e f cq d proto p q0 bytes tag buf c :
  dyn_ready s ep e f cq d proto p q0 bytes tag -> has_dyn = true -> has_cq = true ->
  client_alloc f (Z.of_nat (length bytes)) (trace s) = (buf, c) ->
  exists s' e' cq' q', lci_serve_recv p proto s = Ok (tt, s') /\
    trace s' = trace s ++ [EvAlloc f (Z.of_nat (length bytes)) buf] /\
    load_bytes (memory s') buf (length bytes) = Ok bytes /\
    eps s' !! ep = Some e' /\ ep_to e' = Cq cq' /\ cq_wf cq' /\
    cq_elems cq' = cq_elems cq ++ [req_s_of p] /\
    reqs s' !! req_s_of p = Some q' /\ buffer q' = buf /\ ctx q' = c /\
    size q' = Z.of_nat (length bytes) /\ rank q' = rank q0 /\ meta q' = tag /\ parent q' = p.
Proof.
  intros [He Hf Hto Hcq Hspace Hexp Hdyn Hsync Hcapq Hglob Htag Hpr Hrg Hrange
    (k & Hk & Hdata & Hkr) Hq0 Hsz] Hbd Hbq Hal.
  set (n := Z.of_nat (length bytes)) in *.
  set (m1 := memory s ∪ list_to_map ((fun i => (i, 0)) <$> seqZ buf n)).
  destruct (store_mapped bytes m1 buf) as [m2 Em]; [intros i Hi; by apply map_block_mapped|].
  pose proof (cq_push_spec cq (req_s_of p) Hcq) as Hpush. rewrite decide_False in Hpush by done.
  destruct Hpush as (cq' & Ecq & Hcq' & Hel).
  set (q1 := rq_set_meta tag q0). set (q2 := rq_set_ctx c q1). set (q3 := rq_set_buffer buf q2).
  set (q4 := rq_set_parent p q3).
  set (e' := LciEp (cap e) (gid e) (completed e) (server e) (ep_from e) (Cq cq')).
  eexists _, e', cq', q4. split.
  { unfold lci_serve_recv. erewrite (bind_run _ _ _ ep) by
      (unfold ep_of_proto; erewrite bind_run by reflexivity; by rewrite Hrg).
    mrun. unfold lci_serve_recv_dispatch. rewrite Hexp, andb_false_r, Hbd, Hdyn. cbn [andb].
    unfold lci_serve_recv_dyn. mrun. rewrite Hkr. mrun.
    rewrite Hpr, get_meta_make, get_proto_make by (unfold LC_PROTO_DATA; lia).
    rewrite Z.mod_small by done. mrun. change (LC_PROTO_DATA =? LC_PROTO_DATA) with true.
    cbn iota. mrun. change (size (rq_set_meta tag q0)) with (size q0). rewrite Hsz.
    erewrite (bind_run _ _ _ buf).
    2:{ unfold ep_alloc. rewrite Hf. mrun. cbn [trace set_reqs]. rewrite Hal. mrun.
        unfold mem_map. mrun. erewrite bind_run by (apply run_upd_req; cbn; apply lookup_insert_eq).
        reflexivity. }
    unfold n. rewrite (run_packet_bytes _ _ Hdata). mrun.
    erewrite bind_run by (apply run_mem_store; exact Em).
    erewrite bind_run by (apply run_upd_req; cbn; apply lookup_insert_eq).
    unfold lci_ce_dispatch. rewrite Hsync, andb_false_r, Hbq, Hcapq. cbn [andb].
    erewrite (bind_run _ _ _ tt).
    2:{ unfold lci_ce_queue. mrun. rewrite Hkr.
        erewrite bind_run by (apply run_upd_req; cbn; apply lookup_insert_eq).
        mrun. rewrite Hto, Ecq. mrun. reflexivity. }
    rewrite Hglob, andb_false_r. reflexivity. }
  cbn [trace memory eps reqs set_eps set_reqs set_memory set_trace].
  split; [done|]. split; [by eapply store_load|].
  split; [apply lookup_insert_eq|]. split; [done|]. split; [done|]. split; [done|].
  split; [by rewrite lookup_insert_eq|]. done.
Qed.

(** [lc_cq_pop] hands out the queued requests in order and asks to retry on an empty queue;
    [lc_cq_reqfree] of a request then returns its packet to the pool. *)
Theorem cq_pop_reqfree s ep e d cq q req :
  eps s !! ep = Some e -> ep_to e = Cq cq -> cq_wf cq -> dev_wf s (server e) d ->
  (length (pool_elems (pkpool d)) < dq_capacity)%nat ->
  reqs s !! req = Some q -> req <> NULL -> parent q <> NULL ->
  match cq_elems cq with
  | [] => exists s', lc_cq_pop ep s = Ok ((LC_ERR_RETRY, NULL), s')
  | r :: rest =>
      r = req -> exists s1 e1 cq1 s2, lc_cq_pop ep s = Ok ((LC_OK, req), s1) /\
        eps s1 !! ep = Some e1 /\ ep_to e1 = Cq cq1 /\ cq_wf cq1 /\ cq_elems cq1 = rest /\
        lc_cq_reqfree ep req s1 = Ok (LC_OK, s2) /\
        holds s2 e (parent q :: pool_elems (pkpool d))
  end.
Proof.
  intros He Hto Hcq Hd Hroom Hq Hreq Hpar.
  destruct (cq_pop_spec cq Hcq) as (cq1 & ret & E & Hwf1 & Hcase).
  set (e1 := LciEp (cap e) (gid e) (completed e) (server e) (ep_from e) (Cq cq1)).
  assert (lc_cq_pop ep s = (if ret =? NULL then mret (LC_ERR_RETRY, NULL) else mret (LC_OK, ret) : M _)
    (set_eps (fun m => <[ep := e1]> m) s)) as Epop.
  { unfold lc_cq_pop. mrun. rewrite Hto, E. do 2 mrun. done. }
  destruct (cq_elems cq) as [|r rest].
  { destruct Hcase as [-> _]. rewrite Epop. eexists. reflexivity. }
  intros ->. destruct Hcase as [-> Hrest]. rewrite (proj2 (Z.eqb_neq _ _) Hreq) in Epop.
  set (s1 := set_eps (fun m => <[ep := e1]> m) s) in *.
  assert (dev_wf s1 (server e) d) as Hd1 by (by destruct Hd).
  destruct (run_ep_pool_put s1 e1 (parent q) d) as (s2 & E2 & Hst); [done..|].
  exists s1, e1, cq1, s2. split; [exact Epop|]. split; [cbn; apply lookup_insert_eq|].
  do 3 (split; [done|]). split.
  - unfold lc_cq_reqfree. mrun. erewrite bind_run by (apply run_get_ep; cbn; apply lookup_insert_eq).
    by erewrite bind_run by exact E2.
  - destruct Hst as (d0 & g & pool & _ & _ & _ & Hd' & Hl). eexists. split; [exact Hd'|].
    by symmetry.
Qed.
End dynamic.
