(* ===== verification/Rendezvous.v ===== *)
(** * The rendezvous of a long message (about Proto.v and Api.v)

    The announcement of the sender, the answer of the receiver, the order to write the data,
    and the completions at both ends, each as the process runs it. *)
From stdpp Require Import gmap.
From S2P Require Import Prelude Config Lock Dequeue Pool Hashtable CompQueue State.
From S2P Require Import Proto Api ProtoSpec.

#[local] Arguments lci_ce_dispatch : simpl never.

(** What the steps of a rendezvous leave alone. *)
Definition surroundings (s : lci) := (lcg_ep s, lcg_dev s, pool_g s, wid s, rands s, lcg_deadlock s).

Lemma dev_wf_surroundings s s' i d : surroundings s' = surroundings s -> dev_wf s i d -> dev_wf s' i d.
Proof. intros [= _ E1 E2 E3 _ _] []. by split; rewrite ?E1, ?E2, ?E3. Qed.

Section rendezvous.
Context `{Build, Server, Client, Platform}.
Implicit Types (s : lci) (p : Z) (k : lc_packet) (e : lci_ep).

(** ** The receiver *)

(** The packet of an answer: it waits for two completions. *)
Definition answer (ep p req mem : Z) (R : packet_rts) (src hp : Z) : lc_packet :=
  LcPacket req ep mem LC_PROTO_RTR (-1) 2
    (DataRtr R src (lc_server_rma_key mem) (u32 (p - hp))).

Definition memory_of_reg s e src (R : packet_rts) : Z :=
  lc_server_rma_reg (server e) src (rts_size R) (trace s).

(** The calls of the server an answer takes. *)
Definition answered s e src (R : packet_rts) (rep p : Z) : list event :=
  [EvRmaReg (server e) src (rts_size R) (memory_of_reg s e src R);
   EvSendm (server e) rep sizeof_packet_rtr p (MAKE_PROTO (gid e) LC_PROTO_RTR 0)].

Lemma handle_rts_run s ep e d p k q R :
  eps s !! ep = Some e -> lcg_dev s !! server e = Some d -> packets s !! p = Some k ->
  reqs s !! pk_req k = Some q -> packet_as_rts k = Ok R ->
  lci_handle_rts ep p s = Ok (tt,
    set_trace (fun t => t ++ answered s e (buffer q) R (rhandle q) p)
      (set_packets (fun m => <[p := answer ep p (pk_req k) (memory_of_reg s e (buffer q) R) R
         (buffer q) (heap_ptr d)]> m) s)).
Proof.
  intros He Hd Hk Hq HR. unfold lci_handle_rts, lci_pk_init. mrun. mrun. mrun.
  erewrite bind_run by (apply run_get_req; mlook).
  set (k1 := pk_set_proto _ _). change (packet_as_rts k1) with (packet_as_rts k). rewrite HR. mrun.
  unfold lci_prepare_rtr. erewrite (bind_run _ _ _ tt); cycle 1.
  { do 5 mrun. change (packet_as_rts k1) with (packet_as_rts k). rewrite HR. mrun. reflexivity. }
  unfold answered, memory_of_reg, answer, emit, modify, set_trace, set_packets. cbn.
  rewrite !insert_insert_eq, <- (app_assoc (trace s)). reflexivity.
Qed.

(** A receive of [sz] bytes at [src], and the packet [p] that brings the announcement [R] of
    the message it should match, neither of them seen by the layer yet. *)
Record long_ready (s : lci) (ep : Z) (e : lci_ep) (h : lc_hash) (d : lc_server)
    (src rank tag req proto p : Z) (R : packet_rts) : Prop := {
  lr_ep : sync_ep s ep e h d;
  lr_rep : is_ok (aget (rep d) rank) = true;
  lr_rank : 0 <= rank < 2 ^ 31 - 1;
  lr_tag : 0 <= tag < 2 ^ 16;
  lr_idle : forall type, waiting h (lc_make_key rank tag) type = [];
  lr_req : is_Some (reqs s !! req);
  lr_own : req <> req_s_of p;
  lr_p : p <> NULL;
  lr_proto : proto = MAKE_PROTO (PROTO_GET_RGID proto) LC_PROTO_RTS tag;
  lr_rgid : aget (lcg_ep s) (PROTO_GET_RGID proto) = Ok ep /\ 0 <= PROTO_GET_RGID proto < 2 ^ 14;
  lr_packet : exists k q0, packets s !! p = Some k /\ pk_data k = DataRts R /\
    pk_req k = req_s_of p /\ reqs s !! req_s_of p = Some q0 /\ State.rank q0 = rank }.

(** The receive and the announcement have met: the buffer is registered, the answer goes
    back to the sender and keeps the packet until its two completions; the queues of the
    table are what they were. *)
Record met (s s' : lci) (ep : Z) (e : lci_ep) (h : lc_hash) (d : lc_server)
    (src sz rank req p rep : Z) (R : packet_rts) : Prop := {
  mt_fixed : surroundings s' = surroundings s;
  mt_memory : memory s' = memory s;
  mt_trace : trace s' = trace s ++ answered s e src R rep p;
  mt_packet : packets s' !! p = Some (answer ep p req (memory_of_reg s e src R) R src (heap_ptr d));
  mt_req : exists q, reqs s' !! req = Some q /\ sync q = 0 /\ buffer q = src /\ size q = sz;
  mt_reqs : forall a, is_Some (reqs s !! a) -> is_Some (reqs s' !! a);
  mt_tbl : exists h', sync_ep s' ep (LciEp (cap e) (gid e) (completed e) (server e) (Tbl h') (ep_to e)) h' d /\
    forall key type, valid_key key -> waiting h' key type = waiting h key type }.

(** Arrival of the announcement: what [lci_serve_recv] does before it looks for a match. *)
Lemma serve_recv_rts s ep e h d src rank tag req proto p R k q0 :
  long_ready s ep e h d src rank tag req proto p R -> has_exp = true ->
  pk_req k = req_s_of p -> State.rank q0 = rank ->
  forall s', packets s' !! p = Some k -> reqs s' !! req_s_of p = Some q0 -> lcg_ep s' = lcg_ep s ->
  forall e', eps s' !! ep = Some e' -> cap e' = cap e ->
  lci_serve_recv p proto s' =
    ('(value, code) ← ep_hash_insert ep (lc_make_key rank tag) p SERVER;
     if code =? 0 then _ ← upd_packet p (pk_set_req value); lci_handle_rts ep p
     else mret tt : M unit)
    (set_packets (fun m => <[p := pk_set_proto LC_PROTO_RTS k]> m)
       (set_reqs (fun m => <[req_s_of p := rq_set_meta tag q0]> m) s')).
Proof.
  intros [Hse _ _ Htag _ _ _ _ Hpr [Hrg Hrg'] _] Hbe Hkr Hrank s' Hk Hq0 El e' He' Hc.
  unfold lci_serve_recv. erewrite (bind_run _ _ _ ep) by
    (unfold ep_of_proto; erewrite bind_run by reflexivity; rewrite El; by rewrite Hrg).
  mrun. unfold lci_serve_recv_dispatch. rewrite Hbe, Hc, (se_exp _ _ _ _ _ Hse). cbn [andb].
  unfold lci_serve_recv_expl. mrun. rewrite Hkr. mrun. mrun.
  rewrite Hpr, get_meta_make, get_proto_make by (unfold LC_PROTO_RTS; lia).
  rewrite Z.mod_small by lia. erewrite bind_run by (apply run_get_req; mlook).
  cbn [State.rank meta rq_set_meta]. rewrite Hrank. reflexivity.
Qed.

Lemma sync_ep_table s s' ep e h h' d :
  sync_ep s ep e h d -> surroundings s' = surroundings s -> table_wf h' ->
  eps s' !! ep = Some (LciEp (cap e) (gid e) (completed e) (server e) (Tbl h') (ep_to e)) ->
  sync_ep s' ep (LciEp (cap e) (gid e) (completed e) (server e) (Tbl h') (ep_to e)) h' d.
Proof.
  intros [] Hs Hwf He. split; try done. by eapply dev_wf_surroundings.
Qed.

(** The end both orders share: the receive and the announcement have met. *)
Lemma answer_met s0 s ep e h h' d src sz rank req p k q rep R :
  sync_ep s0 ep e h d -> table_wf h' ->
  (forall key type, valid_key key -> waiting h' key type = waiting h key type) ->
  surroundings s = surroundings s0 -> memory s = memory s0 -> trace s = trace s0 ->
  eps s !! ep = Some (LciEp (cap e) (gid e) (completed e) (server e) (Tbl h') (ep_to e)) ->
  packets s !! p = Some k -> pk_req k = req -> pk_data k = DataRts R ->
  reqs s !! req = Some q -> sync q = 0 -> buffer q = src -> size q = sz -> rhandle q = rep ->
  (forall a, is_Some (reqs s0 !! a) -> is_Some (reqs s !! a)) ->
  exists s', lci_handle_rts ep p s = Ok (tt, s') /\ met s0 s' ep e h d src sz rank req p rep R.
Proof.
  intros Hse Hwf Hw Hset Hm Ht He Hk Hkr Hdata Hq Hsync Hbuf Hsz Hrep Hreqs.
  set (e' := LciEp _ _ _ _ _ _) in *.
  assert (lcg_dev s !! server e' = Some d) as Hd.
  { unfold surroundings in Hset. injection Hset as _ -> _ _ _ _. by destruct Hse as [_ _ _ _ _ _ [] _]. }
  eexists. split.
  { apply (handle_rts_run _ _ e' d _ k q R He Hd Hk); [by rewrite Hkr|].
    unfold packet_as_rts. by rewrite Hdata. }
  assert (memory_of_reg s e' (buffer q) R = memory_of_reg s0 e src R) as Hmem.
  { unfold memory_of_reg. by rewrite Ht, Hbuf. }
  split; cbn [set_trace set_packets trace packets reqs memory eps]; try done.
  - unfold answered. by rewrite Ht, Hmem, Hbuf, Hrep.
  - by rewrite lookup_insert_eq, Hmem, Hkr, Hbuf.
  - by exists q.
  - exists h'. split; [|done]. by apply (sync_ep_table s0 _ _ _ h).
Qed.

(** Posted before the message is announced, a receive keeps the size it was posted with. *)
Lemma long_posted_first s ep e h d src sz rank tag req proto p R r k q' :
  long_ready (noted_at p k q' s) ep e h d src rank tag req proto p R -> has_exp = true ->
  aget (rep d) rank = Ok r ->
  exists s1 s2, lc_recv src sz rank tag ep req s = Ok (LC_OK, s1) /\
    packets s1 = packets s /\ reqs s1 !! req_s_of p = reqs s !! req_s_of p /\
    trace s1 = trace s /\ memory s1 = memory s /\ surroundings s1 = surroundings s /\
    lci_serve_recv p proto (noted_at p k q' s1) = Ok (tt, s2) /\
    met (noted_at p k q' s) s2 ep e h d src sz rank req p (handle r) R.
Proof.
  intros Hl Hbe Er. pose proof Hl as [Hse _ Hrank Htag Hidle [q Hq] Hown Hp _ _ Hpk].
  destruct Hpk as (k' & q0' & Hk' & Hdata & Hkr & Hq0' & Hrk).
  cbn [noted_at packets reqs set_reqs set_packets] in Hk', Hq0', Hq.
  rewrite lookup_insert_eq in Hk'. rewrite lookup_insert_eq in Hq0'. injection Hk' as <-. injection Hq0' as <-.
  rewrite lookup_insert_ne in Hq by congruence.
  pose proof Hse as [He Ht Hwf _ _ _ Hd _]. cbn in He. pose proof (dwf_dev _ _ _ Hd) as Hdev. cbn in Hdev.
  destruct (insert_both h _ req p CLIENT Hwf (make_key_valid _ _ Hrank Htag) Hidle)
    as (h1 & h2 & E1 & Hwf1 & E2 & Hwf2 & Hw).
  pose proof (recv_waits s ep e h h1 d r src sz rank tag req q He Ht Hdev Er Hq E1) as Erecv.
  set (q1 := rq_set_rhandle _ _) in Erecv. set (e1 := LciEp _ _ _ _ _ _) in Erecv.
  set (s1 := set_eps _ _) in Erecv. set (k1 := pk_set_req (req_s_of p) k) in *.
  set (s3 := set_packets (fun m => <[p := pk_set_req req (pk_set_proto LC_PROTO_RTS k1)]> m)
    (set_eps (fun m => <[ep := LciEp (cap e1) (gid e1) (completed e1) (server e1) (Tbl h2) (ep_to e1)]> m)
    (set_packets (fun m => <[p := pk_set_proto LC_PROTO_RTS k1]> m)
       (set_reqs (fun m => <[req_s_of p := rq_set_meta tag q']> m) (noted_at p k q' s1))))).
  destruct (answer_met (noted_at p k q' s) s3 ep e h h2 d src sz rank req p
    (pk_set_req req (pk_set_proto LC_PROTO_RTS k1)) q1 (handle r) R Hse Hwf2 Hw) as (s2 & E & Hmet);
    try done.
  { cbn. apply lookup_insert_eq. }
  { cbn. apply lookup_insert_eq. }
  { cbn. rewrite !lookup_insert_ne by done. apply lookup_insert_eq. }
  { intros a Ha. cbn in *. rewrite !lookup_insert_is_Some' in *. tauto. }
  exists s1, s2. split_and!; try done; [cbn; by rewrite lookup_insert_ne by done|].
  rewrite (serve_recv_rts _ ep e h d src rank tag req proto p R k1 q' Hl Hbe Hkr Hrk) with (e' := e1);
    [|cbn; apply lookup_insert_eq|cbn; apply lookup_insert_eq|done|cbn; apply lookup_insert_eq|done].
  erewrite bind_run by (eapply run_hash_insert; [cbn; apply lookup_insert_eq|reflexivity|exact E2]).
  cbn beta iota. change (0 =? 0) with true. cbn iota. mrun. exact E.
Qed.

(** Posted after the message is announced, a receive takes the size of the message. *)
Lemma long_arrived_first s ep e h d src sz rank tag req proto p R r :
  long_ready s ep e h d src rank tag req proto p R -> has_exp = true -> aget (rep d) rank = Ok r ->
  exists s1 s2, lci_serve_recv p proto s = Ok (tt, s1) /\
    trace s1 = trace s /\ memory s1 = memory s /\ surroundings s1 = surroundings s /\
    lc_recv src sz rank tag ep req s1 = Ok (LC_OK, s2) /\
    met s s2 ep e h d src (rts_size R) rank req p (handle r) R.
Proof.
  intros Hl Hbe Er. pose proof Hl as [Hse _ Hrank Htag Hidle [q Hq] Hown Hp _ _ Hpk].
  destruct Hpk as (k & q0 & Hk & Hdata & Hkr & Hq0 & Hrk).
  pose proof Hse as [He Ht Hwf _ _ _ Hd _]. pose proof (dwf_dev _ _ _ Hd) as Hdev.
  destruct (insert_both h _ p req SERVER Hwf (make_key_valid _ _ Hrank Htag) Hidle)
    as (h1 & h2 & E1 & Hwf1 & E2 & Hwf2 & Hw).
  set (e1 := LciEp (cap e) (gid e) (completed e) (server e) (Tbl h1) (ep_to e)).
  set (k1 := pk_set_proto LC_PROTO_RTS k).
  set (s1 := set_eps (fun m => <[ep := e1]> m) (set_packets (fun m => <[p := k1]> m)
       (set_reqs (fun m => <[req_s_of p := rq_set_meta tag q0]> m) s))).
  set (q1 := rq_set_rhandle (handle r) (rq_set_sync 0 (rq_set_size sz (rq_set_buffer src q)))).
  set (s3 := set_packets (fun m => <[p := pk_set_req req k1]> m)
    (set_reqs (fun m => <[req := rq_set_size (rts_size R) q1]> m)
    (set_eps (fun m => <[ep := LciEp (cap e1) (gid e1) (completed e1) (server e1) (Tbl h2) (ep_to e1)]> m)
      (set_reqs (fun m => <[req := q1]> m) s1)))).
  destruct (answer_met s s3 ep e h h2 d src (rts_size R) rank req p
    (pk_set_req req k1) (rq_set_size (rts_size R) q1) (handle r) R Hse Hwf2 Hw) as (s2 & E & Hmet);
    try done; try (cbn; apply lookup_insert_eq).
  { intros a Ha. cbn in *. rewrite !lookup_insert_is_Some'. tauto. }
  exists s1, s2. split_and!; try done.
  - rewrite (serve_recv_rts _ ep e h d src rank tag req proto p R k q0 Hl Hbe Hkr Hrk) with (e' := e); try done.
    by erewrite bind_run by (eapply run_hash_insert; [exact He|exact Ht|exact E1]).
  - unfold lc_recv.
    erewrite bind_run by (apply (run_recv_init _ _ e1 d r _ _ _ _ q);
      [cbn; apply lookup_insert_eq|exact Hdev|exact Er|cbn; by rewrite lookup_insert_ne by done]).
    erewrite bind_run by (eapply run_hash_insert; [cbn; apply lookup_insert_eq|reflexivity|exact E2]).
    cbn beta iota. change (0 =? 0) with true. cbn iota.
    erewrite (bind_run _ _ _ tt); [reflexivity|].
    erewrite bind_run by (apply run_get_packet; cbn; apply lookup_insert_eq).
    change (pk_proto k1 =? LC_PROTO_RTS) with true. cbn iota. unfold recv_rendezvous.
    erewrite bind_run by (apply run_get_packet; cbn; apply lookup_insert_eq).
    erewrite bind_run by (unfold packet_as_rts; change (pk_data k1) with (pk_data k); by rewrite Hdata).
    erewrite bind_run by (apply run_upd_req; cbn; apply lookup_insert_eq).
    erewrite bind_run by (apply run_upd_packet; cbn; apply lookup_insert_eq).
    exact E.
Qed.

(** The completion of the answer's send, while its data is still to come. *)
Lemma answer_sent s p ep req mem R src hp :
  packets s !! p = Some (answer ep p req mem R src hp) ->
  lci_serve_send p s =
    Ok (tt, set_packets (fun m => <[p := pk_set_ref 1 (answer ep p req mem R src hp)]> m) s).
Proof. intros Hk. by rewrite (serve_send_rtr _ _ _ 1 Hk). Qed.

(** The data after that: the registration is given back, the request signalled and the
    packet put into the pool. *)
Lemma data_arrived s p ep e h d req mem R src hp q :
  sync_ep s ep e h d -> has_sync = true -> p <> NULL ->
  packets s !! p = Some (pk_set_ref 1 (answer ep p req mem R src hp)) -> reqs s !! req = Some q ->
  exists s' d', lci_serve_imm p s = Ok (tt, s') /\ memory s' = memory s /\ eps s' = eps s /\
    trace s' = trace s ++ [EvRmaDereg mem] /\ rands s' = rands s /\
    reqs s' = <[req := rq_set_sync 1 q]> (reqs s) /\
    dev_wf s' (server e) d' /\ pool_elems (pkpool d') ≡ₚ p :: pool_elems (pkpool d).
Proof.
  intros Hse Hbs Hp Hk Hq. pose proof Hse as [He Ht Hwf Hexp Hsync Hglob Hd Hroom].
  set (k := pk_set_ref 0 (pk_set_ref 1 (answer ep p req mem R src hp))).
  set (s1 := set_trace (fun t => t ++ [EvRmaDereg mem]) (set_packets (fun m => <[p := k]> m) s)).
  assert (sync_ep s1 ep e h d) as Hse1 by (split; try done; by destruct Hd).
  destruct (run_ce_signal s1 ep e h d p k q Hse1 Hbs) as (s' & E & Hst); try done.
  { cbn. apply lookup_insert_eq. }
  { by left. }
  destruct (pool_step_frame _ _ _ _ _ Hst) as (_ & Er & Em & Ee & Et & En).
  destruct Hst as (d0 & g & pool & _ & _ & _ & Hd' & Hl).
  exists s'. eexists. split.
  { rewrite (serve_imm_rtr _ _ _ 0 Hk) by done. cbn [dispatch_if Z.eqb].
    erewrite bind_run by (by apply run_get_ep). exact E. }
  split_and!; [by rewrite Em|by rewrite Ee|by rewrite Et|by rewrite En|by rewrite Er|exact Hd'|by symmetry].
Qed.

(** ** The sender *)

Lemma get_nb_rands dev s p s' : pool_get_nb dev s = Ok (p, s') ->
  Forall (fun r => 0 <= r) (rands s) -> Forall (fun r => 0 <= r) (rands s').
Proof.
  intros E Hr. unfold pool_get_nb in E.
  apply bind_inv in E as (d & s1 & E1 & E). unfold get_dev in E1.
  destruct (lcg_dev s !! dev) as [d0|]; [|done]. injection E1 as <- <-.
  apply bind_inv in E as (g & s1 & E1 & E). injection E1 as <- <-.
  apply bind_inv in E as (w & s1 & E1 & E). injection E1 as <- <-.
  apply bind_inv in E as (r & s1 & E1 & E).
  assert (Forall (fun r => 0 <= r) (rands s1)) as Hr1.
  { unfold next_rand in E1. apply bind_inv in E1 as (l & s2 & E2 & E1). injection E2 as <- <-.
    destruct (rands s) as [|x l'] eqn:El; injection E1 as <- <-; [by rewrite El|].
    by apply Forall_cons in Hr as [_ ?]. }
  apply bind_inv in E as ([[g' pool] p'] & s2 & E2 & E). unfold lift in E2.
  destruct (lc_pool_get_nb _ _ _ _) as [x|]; [|done]. injection E2 as -> <-. by injection E as _ <-.
Qed.

Lemma run_ep_rep s e d to r : lcg_dev s !! server e = Some d -> aget (rep d) to = Ok r ->
  ep_rep e to s = Ok (r, s).
Proof. intros Hd Hr. unfold ep_rep. mrun. by rewrite Hr. Qed.

(** A long send that succeeds announces the message in a packet of the pool. *)
Lemma sendl_announces s ep e d r buf sz to tag cb ce s1 :
  eps s !! ep = Some e -> dev_wf s (server e) d -> Forall (fun r => 0 <= r) (rands s) ->
  aget (rep d) to = Ok r -> lc_sendl buf sz to tag ep cb ce s = Ok (LC_OK, s1) ->
  exists p k d1, p <> NULL /\ packets s1 !! p = Some k /\
    pk_ep k = ep /\ pk_proto k = LC_PROTO_RTS /\ pk_data k = DataRts (Rts cb ce buf sz) /\
    (forall a, a <> p -> packets s1 !! a = packets s !! a) /\
    trace s1 = trace s ++ [EvSendm (server e) (handle r) sizeof_packet_rts p
                             (MAKE_PROTO (gid e) LC_PROTO_RTS tag)] /\
    memory s1 = memory s /\ reqs s1 = reqs s /\ eps s1 = eps s /\ lcg_ep s1 = lcg_ep s /\
    Forall (fun r => 0 <= r) (rands s1) /\ dev_wf s1 (server e) d1 /\
    pool_elems (pkpool d) ≡ₚ p :: pool_elems (pkpool d1).
Proof.
  intros He Hd Hr Hto Hrun. unfold lc_sendl, LC_POOL_GET_OR_RETN in Hrun.
  rewrite (bind_run _ _ _ _ _ (run_get_ep _ _ _ He)) in Hrun.
  rewrite (bind_run _ _ s (lcg_deadlock s) s) in Hrun by done.
  destruct (truth (lcg_deadlock s)); [discriminate Hrun|].
  destruct (run_pool_get_nb _ _ _ Hd Hr) as (p & g & pool & rs & E & Hwf & _ & Hnn & Hcase).
  rewrite (bind_run _ _ _ _ _ E) in Hrun. pose proof (get_nb_rands _ _ _ _ E Hr) as Hrs. cbn in Hrs.
  set (d1 := LcServer pool (rep d) (curr_addr d) (heap_ptr d)) in *.
  set (s0 := set_dev (server e) d1 (set_pool_g g (set_rands rs s))) in *.
  destruct Hcase as [[-> _]|[Hp Hel]]; [discriminate Hrun|].
  rewrite (proj2 (Z.eqb_neq _ _) Hp) in Hrun. unfold lci_pk_init in Hrun.
  apply bind_inv in Hrun as ([] & s2 & E2 & Hrun).
  destruct (packets s0 !! p) as [k0|] eqn:Hk0;
    [|by unfold upd_packet, get_packet, mbind, M_bind in E2; rewrite Hk0 in E2].
  rewrite (run_upd_packet _ _ _ _ Hk0) in E2. injection E2 as <-.
  erewrite bind_run in Hrun by (apply (run_ep_rep _ _ d1 _ _ (lookup_insert_eq _ _ _) Hto)).
  unfold lci_prepare_rts in Hrun.
  erewrite bind_run in Hrun by (apply run_upd_packet; cbn; apply lookup_insert_eq).
  injection Hrun as <-. eexists p, _, d1.
  cbn [packets set_trace set_packets trace memory reqs eps lcg_ep rands s0 set_dev set_pool_g set_rands].
  split_and!; [done|apply lookup_insert_eq|done|done|done| |done|done|done|done|done|done| |done].
  - intros a Ha. by rewrite !lookup_insert_ne by done.
  - destruct Hd. split; cbn; [apply lookup_insert_eq|done|done|done].
Qed.

(** What the sender keeps while the data is written: the packet of the answer, with the
    callback of the announcement. *)
Definition writing (k : lc_packet) (ep : Z) (R : packet_rts) : Prop :=
  pk_ep k = ep /\ pk_proto k = LC_PROTO_LONG /\ packet_as_rts k = Ok R.

(** The answer arrives in packet [p]: the data is written where it says. *)
Lemma answer_arrives s ep e p proto R addr key id k q :
  eps s !! ep = Some e -> has_cap (cap e) EP_AR_EXP = true -> has_exp = true ->
  proto = MAKE_PROTO (PROTO_GET_RGID proto) LC_PROTO_RTR 0 ->
  0 <= PROTO_GET_RGID proto < 2 ^ 14 -> aget (lcg_ep s) (PROTO_GET_RGID proto) = Ok ep ->
  packets s !! p = Some k -> pk_data k = DataRtr R addr key id -> reqs s !! pk_req k = Some q ->
  exists s' k', lci_serve_recv p proto s = Ok (tt, s') /\
    trace s' = trace s ++ [EvRmaRtr (server e) (rhandle q) (rts_src_addr R) addr key (rts_size R) id p] /\
    packets s' = <[p := k']> (packets s) /\ writing k' ep R /\
    reqs s' = <[pk_req k := rq_set_meta 0 q]> (reqs s) /\ memory s' = memory s /\ eps s' = eps s /\
    surroundings s' = surroundings s.
Proof.
  intros He Hexp Hbe Hpr Hrg Hep Hk Hdata Hq.
  set (k1 := pk_set_proto (i16 LC_PROTO_RTR) k).
  set (k' := pk_set_proto (i16 LC_PROTO_LONG) (pk_set_ref 1 (pk_set_poolid (i8 (-1)) (pk_set_ep ep k1)))).
  eexists _, k'. split.
  - unfold lci_serve_recv. erewrite (bind_run _ _ _ ep) by
      (unfold ep_of_proto; erewrite bind_run by reflexivity; by rewrite Hep).
    mrun. unfold lci_serve_recv_dispatch. rewrite Hbe, Hexp. cbn [andb].
    unfold lci_serve_recv_expl. mrun. mrun. mrun.
    rewrite Hpr, get_meta_make, get_proto_make by (unfold LC_PROTO_RTR; lia).
    change (0 mod 2 ^ 16) with 0. erewrite bind_run by (apply run_get_req; mlook).
    change (LC_PROTO_RTR =? LC_PROTO_DATA) with false. change (LC_PROTO_RTR =? LC_PROTO_RTS) with false.
    change (LC_PROTO_RTR =? LC_PROTO_RTR) with true. cbn iota.
    unfold lci_handle_rtr, lci_pk_init. mrun. mrun. mrun.
    erewrite bind_run by (apply run_get_req; apply lookup_insert_eq).
    fold k1 k'. change (pk_data k') with (pk_data k). rewrite Hdata. reflexivity.
  - cbn. split_and!; try done.
    + by rewrite insert_insert_eq.
    + split; [done|split; [done|]]. unfold packet_as_rts. change (pk_data k') with (pk_data k).
      by rewrite Hdata.
Qed.

(** The data is written: the callback of the send is called and the packet freed. *)
Lemma data_written s ep e d p k R qc :
  eps s !! ep = Some e -> dev_wf s (server e) d -> p <> NULL ->
  (length (pool_elems (pkpool d)) < dq_capacity)%nat -> packets s !! p = Some k -> writing k ep R ->
  rts_cb R = lc_signal_fn -> reqs s !! rts_ce R = Some qc ->
  exists s' d', lci_serve_send p s = Ok (tt, s') /\
    trace s' = trace s ++ [EvCallback (rts_cb R) (rts_ce R)] /\
    reqs s' = <[rts_ce R := rq_set_sync 1 qc]> (reqs s) /\ packets s' = packets s /\
    eps s' = eps s /\ memory s' = memory s /\ rands s' = rands s /\
    dev_wf s' (server e) d' /\ pool_elems (pkpool d') ≡ₚ p :: pool_elems (pkpool d).
Proof.
  intros He Hd Hp Hroom Hk (Hkep & Hproto & HR) Hcb Hqc.
  set (s1 := set_reqs (fun m => <[rts_ce R := rq_set_sync 1 qc]> m)
    (set_trace (fun t => t ++ [EvCallback (rts_cb R) (rts_ce R)]) s)).
  destruct (run_pk_free s1 ep e p d) as (s' & E & Hst); try done; [by destruct Hd|].
  destruct (pool_step_frame _ _ _ _ _ Hst) as (Ep & Er & Em & Ee & Et & En).
  destruct Hst as (d0 & g & pool & _ & _ & _ & Hd' & Hl).
  exists s'. eexists. split; [|split_and!; [done..|exact Hd'|by symmetry]].
  unfold lci_serve_send. mrun. rewrite Hproto. cbn [Z.eqb LC_PROTO_LONG LC_PROTO_RTR Pos.eqb].
  rewrite HR. mrun. erewrite (bind_run _ _ _ tt s1); [by rewrite Hkep|].
  unfold run_callback. mrun. rewrite (proj2 (Z.eqb_eq _ _) Hcb). by apply run_upd_req.
Qed.

(** The announcement was sent: its packet is freed. *)
Lemma announcement_sent s ep e d p k :
  eps s !! ep = Some e -> dev_wf s (server e) d -> p <> NULL ->
  (length (pool_elems (pkpool d)) < dq_capacity)%nat -> packets s !! p = Some k ->
  pk_ep k = ep -> pk_proto k = LC_PROTO_RTS ->
  exists s' d', lci_serve_send p s = Ok (tt, s') /\ trace s' = trace s /\ reqs s' = reqs s /\
    packets s' = packets s /\ eps s' = eps s /\ memory s' = memory s /\ rands s' = rands s /\
    dev_wf s' (server e) d' /\ pool_elems (pkpool d') ≡ₚ p :: pool_elems (pkpool d).
Proof.
  intros He Hd Hp Hroom Hk Hkep Hproto.
  destruct (run_pk_free s ep e p d) as (s' & E & Hst); try done.
  destruct (pool_step_frame _ _ _ _ _ Hst) as (Ep & Er & Em & Ee & Et & En).
  destruct Hst as (d0 & g & pool & _ & _ & _ & Hd' & Hl).
  exists s'. eexists. split; [|split_and!; [done..|exact Hd'|by symmetry]].
  unfold lci_serve_send. mrun. by rewrite Hproto, Hkep.
Qed.

(** ** The two ends together

    The network is what the server promises: the packet in which a process is given a
    message holds what the packet it was sent from held, and the request beside it the
    sender ([noted_at]). *)
Definition note (p : Z) (k : lc_packet) (q : lc_req) : M unit := modify (noted_at p k q).

(** The receiver: the receive is posted before the announcement is served, or after. *)
Definition receiver_meets (first : bool) (src sz rank tag ep req p proto : Z)
    (k : lc_packet) (q : lc_req) : M lc_status :=
  if first then
    ret ← lc_recv src sz rank tag ep req; _ ← note p k q; _ ← lci_serve_recv p proto; mret ret
  else _ ← note p k q; _ ← lci_serve_recv p proto; lc_recv src sz rank tag ep req.

(** What is left for it to serve: the answer was sent, and the data is there. *)
Definition receiver_ends (p : Z) : M unit := _ ← lci_serve_send p; lci_serve_imm p.

(** The sender serves the answer, in packet [p], and then the completions of its write and
    of its announcement [pa]. *)
Definition sender_ends (p proto pa : Z) (k : lc_packet) (q : lc_req) : M unit :=
  _ ← note p k q; _ ← lci_serve_recv p proto; _ ← lci_serve_send p; lci_serve_send pa.

Lemma receiver_meets_ok first s ep e h d src sz rank tag req proto p R r k q :
  long_ready (noted_at p k q s) ep e h d src rank tag req proto p R -> has_exp = true ->
  aget (rep d) rank = Ok r ->
  exists s', receiver_meets first src sz rank tag ep req p proto k q s = Ok (LC_OK, s') /\
    met (noted_at p k q s) s' ep e h d src (if first then sz else rts_size R) rank req p (handle r) R.
Proof.
  intros Hl Hbe Hr. destruct first; unfold receiver_meets, note.
  - destruct (long_posted_first _ _ _ _ _ _ sz _ _ _ _ _ _ _ _ _ Hl Hbe Hr)
      as (s1 & s2 & E1 & _ & _ & _ & _ & _ & E2 & Hm).
    exists s2. split; [|done]. rewrite (bind_run _ _ _ _ _ E1).
    by erewrite bind_run by reflexivity; rewrite (bind_run _ _ _ _ _ E2).
  - destruct (long_arrived_first _ _ _ _ _ _ sz _ _ _ _ _ _ _ Hl Hbe Hr)
      as (s1 & s2 & E1 & _ & _ & _ & E2 & Hm).
    exists s2. split; [|done]. erewrite bind_run by reflexivity.
    by rewrite (bind_run _ _ _ _ _ E1).
Qed.

(** The receiver has served everything. *)
Definition received (s s' : lci) (e : lci_ep) (d : lc_server) (src sz req p rep : Z)
    (R : packet_rts) : Prop :=
  let mem := memory_of_reg s e src R in
  trace s' = trace s ++ answered s e src R rep p ++ [EvRmaDereg mem] /\
  memory s' = memory s /\
  (exists q, reqs s' !! req = Some q /\ sync q = 1 /\ buffer q = src /\ size q = sz) /\
  exists d', dev_wf s' (server e) d' /\ pool_elems (pkpool d') ≡ₚ p :: pool_elems (pkpool d).

Lemma receiver_ends_ok s s1 ep e h d src sz rank req p rep R :
  met s s1 ep e h d src sz rank req p rep R -> has_sync = true -> p <> NULL ->
  exists s2, receiver_ends p s1 = Ok (tt, s2) /\ received s s2 e d src sz req p rep R.
Proof.
  intros [_ Hm Ht Hk (q & Hq & Hsy & Hb & Hz) _ (h' & Hse & _)] Hbs Hp.
  destruct (data_arrived (set_packets (fun m => <[p := pk_set_ref 1 (answer ep p req
      (memory_of_reg s e src R) R src (heap_ptr d))]> m) s1) p ep (LciEp (cap e) (gid e) (completed e) (server e) (Tbl h') (ep_to e)) h' d req
      (memory_of_reg s e src R) R src (heap_ptr d) q)
    as (s2 & d' & E & Em & _ & Et & _ & Er & Hd & Hl); try done.
  { destruct Hse as [? ? ? ? ? ? [? ? ? ?] ?]. constructor; try assumption. by constructor. }
  { apply lookup_insert_eq. }
  exists s2. split; [|split; [|split; [|split]]].
  - unfold receiver_ends. by rewrite (bind_run _ _ _ _ _ (answer_sent _ _ _ _ _ _ _ _ Hk)).
  - rewrite Et. cbn [trace set_packets]. by rewrite Ht, <- app_assoc.
  - by rewrite Em.
  - exists (rq_set_sync 1 q). rewrite Er. by rewrite lookup_insert_eq.
  - by exists d'.
Qed.

(** The sender has an endpoint for explicit addressing, and a packet posted for arrivals. *)
Record long_sender (s : lci) (ep : Z) (e : lci_ep) (d : lc_server) (ce : Z) (qc : lc_req)
    (p proto : Z) : Prop := {
  ls_ep : eps s !! ep = Some e;
  ls_exp : has_cap (cap e) EP_AR_EXP = true;
  ls_dev : dev_wf s (server e) d;
  ls_room : (length (pool_elems (pkpool d)) < dq_capacity)%nat;
  ls_rands : Forall (fun r => 0 <= r) (rands s);
  ls_posted : p <> NULL /\ p ∉ pool_elems (pkpool d);
  ls_ce : reqs s !! ce = Some qc /\ ce <> req_s_of p;
  ls_proto : proto = MAKE_PROTO (PROTO_GET_RGID proto) LC_PROTO_RTR 0;
  ls_rgid : aget (lcg_ep s) (PROTO_GET_RGID proto) = Ok ep /\ 0 <= PROTO_GET_RGID proto < 2 ^ 14 }.

Lemma sender_ends_ok s ep e d r buf sz to tag ce s1 p proto k q qc addr key id :
  long_sender s ep e d ce qc p proto -> has_exp = true -> aget (rep d) to = Ok r ->
  lc_sendl buf sz to tag ep lc_signal_fn ce s = Ok (LC_OK, s1) ->
  pk_data k = DataRtr (Rts lc_signal_fn ce buf sz) addr key id ->
  exists pa ka s2 d2, packets s1 !! pa = Some ka /\ pk_data ka = DataRts (Rts lc_signal_fn ce buf sz) /\
    sender_ends p proto pa k q s1 = Ok (tt, s2) /\
    trace s2 = trace s ++
      [EvSendm (server e) (handle r) sizeof_packet_rts pa (MAKE_PROTO (gid e) LC_PROTO_RTS tag);
       EvRmaRtr (server e) (rhandle q) buf addr key sz id p; EvCallback lc_signal_fn ce] /\
    reqs s2 !! ce = Some (rq_set_sync 1 qc) /\ memory s2 = memory s /\
    dev_wf s2 (server e) d2 /\ pool_elems (pkpool d2) ≡ₚ p :: pool_elems (pkpool d).
Proof.
  intros [He Hexp Hd Hroom Hrs [Hp Hpost] [Hce Hce'] Hpr [Hep Hrg]] Hbe Hr Hsend Hdata.
  destruct (sendl_announces _ _ _ _ _ _ _ _ _ _ _ _ He Hd Hrs Hr Hsend) as
    (pa & ka & d1 & Hpa & Hka & Hkep & Hkp & Hkd & _ & Ht & Hm & Hq & Hes & Hle & _ & Hd1 & Hl).
  exists pa, ka. pose proof (Permutation_length Hl) as Hlen. cbn in Hlen.
  assert (pa <> p) as Hne by (intros ->; apply Hpost; rewrite Hl; left).
  set (s1' := noted_at p k q s1).
  destruct (answer_arrives s1' ep e p proto (Rts lc_signal_fn ce buf sz) addr key id
      (pk_set_req (req_s_of p) k) q) as (a & k' & E1 & Ht1 & Hpk1 & Hw & Hq1 & Hm1 & He1 & Hs1); try done.
  { cbn. by rewrite Hes. }
  { cbn. by rewrite Hle. }
  { cbn. apply lookup_insert_eq. }
  { cbn. apply lookup_insert_eq. }
  assert (dev_wf a (server e) d1) as Hda.
  { apply (dev_wf_surroundings s1'); [exact Hs1|]. by destruct Hd1. }
  destruct (data_written a ep e d1 p k' (Rts lc_signal_fn ce buf sz) qc) as
    (b & d2 & E2 & Ht2 & Hq2 & Hpk2 & He2 & Hm2 & _ & Hd2 & Hl2); try done.
  { rewrite He1. cbn. by rewrite Hes. }
  { lia. }
  { rewrite Hpk1. apply lookup_insert_eq. }
  { rewrite Hq1. cbn. rewrite !lookup_insert_ne by done. by rewrite Hq. }
  destruct (announcement_sent b ep e d2 pa ka) as
    (c & d3 & E3 & Ht3 & Hq3 & _ & _ & Hm3 & _ & Hd3 & Hl3); try done.
  { rewrite He2, He1. cbn. by rewrite Hes. }
  { rewrite (Permutation_length Hl2). cbn. lia. }
  { rewrite Hpk2, Hpk1. cbn. by rewrite !lookup_insert_ne by done. }
  exists c, d3. split_and!; try done.
  - unfold sender_ends, note. erewrite bind_run by reflexivity.
    by rewrite (bind_run _ _ _ _ _ E1), (bind_run _ _ _ _ _ E2).
  - rewrite Ht3, Ht2, Ht1. cbn. by rewrite Ht, <- !app_assoc.
  - rewrite Hq3, Hq2. apply lookup_insert_eq.
  - by rewrite Hm3, Hm2, Hm1.
  - rewrite Hl3, Hl2, Hl. apply Permutation_swap.
Qed.

(** C20: A long message completes at both ends, the receive posted before its announcement is
    served or after: the buffer is registered and the answer names it; the sender writes
    the bytes announced where the answer says, calls the callback and has its packets back;
    the receiver's request is signalled, the registration given back and the packet in the
    pool.  The request ends with the size of the message when the receive came after, with
    the size it was posted with when it came before. *)
Theorem long_message_completes first a epa ea da ra qc b epb eb hb db rb
    src sz rank tag req p R k q protob buf len to tag' ce a1 p' k' q' protoa :
  has_exp = true -> has_sync = true ->
  long_sender a epa ea da ce qc p' protoa -> aget (rep da) to = Ok ra ->
  lc_sendl buf len to tag' epa lc_signal_fn ce a = Ok (LC_OK, a1) ->
  R = Rts lc_signal_fn ce buf len ->
  long_ready (noted_at p k q b) epb eb hb db src rank tag req protob p R ->
  aget (rep db) rank = Ok rb ->
  pk_data k' = DataRtr R src (lc_server_rma_key (lc_server_rma_reg (server eb) src len (trace b)))
    (u32 (p - heap_ptr db)) ->
  (exists b1 b2 kb,
     receiver_meets first src sz rank tag epb req p protob k q b = Ok (LC_OK, b1) /\
     packets b1 !! p = Some kb /\ pk_data kb = pk_data k' /\
     receiver_ends p b1 = Ok (tt, b2) /\
     received b b2 eb db src (if first then sz else len) req p (handle rb) R) /\
  (exists pa ka a2 d2,
     packets a1 !! pa = Some ka /\ pk_data ka = DataRts R /\
     sender_ends p' protoa pa k' q' a1 = Ok (tt, a2) /\
     trace a2 = trace a ++
       [EvSendm (server ea) (handle ra) sizeof_packet_rts pa (MAKE_PROTO (gid ea) LC_PROTO_RTS tag');
        EvRmaRtr (server ea) (rhandle q') buf src
          (lc_server_rma_key (lc_server_rma_reg (server eb) src len (trace b))) len
          (u32 (p - heap_ptr db)) p'; EvCallback lc_signal_fn ce] /\
     reqs a2 !! ce = Some (rq_set_sync 1 qc) /\ memory a2 = memory a /\
     dev_wf a2 (server ea) d2 /\ pool_elems (pkpool d2) ≡ₚ p' :: pool_elems (pkpool da)).
Proof.
  intros Hbe Hbs Ha Hto Hsend -> Hl Hr Hk'. split; [|by eapply sender_ends_ok].
  destruct (receiver_meets_ok first b epb eb hb db src sz rank tag req protob p _ rb k q Hl Hbe Hr)
    as (b1 & E1 & Hm).
  destruct (receiver_ends_ok _ _ _ _ _ _ _ _ _ _ _ _ _ Hm Hbs (lr_p _ _ _ _ _ _ _ _ _ _ _ _ Hl))
    as (b2 & E2 & Hrecv).
  exists b1, b2, (answer epb p req (memory_of_reg (noted_at p k q b) eb src (Rts lc_signal_fn ce buf len))
    (Rts lc_signal_fn ce buf len) src (heap_ptr db)).
  split_and!; [exact E1|exact (mt_packet _ _ _ _ _ _ _ _ _ _ _ _ _ Hm)|by rewrite Hk'|exact E2|exact Hrecv].
Qed.
End rendezvous.
