(* ===== verification/ProtoDemo.v ===== *)
(** * Witnesses for the properties of ProtoSpec.v

    One process with one device, whose pool holds the packet at 4096, a second packet at
    8192 with an arrived message, and an endpoint of each kind. *)
From stdpp Require Import gmap.
From S2P Require Import Prelude Config Lock Dequeue Pool Hashtable CompQueue State.
From S2P Require Import Proto Api ProtoSpec Rendezvous.

#[local] Instance demo_build : Build := Build_Build true true true true true true true.
#[local] Instance demo_server : Server := {|
  lc_server_rma_reg := fun _ buf _ _ => buf + 1;
  lc_server_rma_key := fun mem => mem mod 1024 |}.
#[local] Instance demo_client : Client := {|
  client_alloc := fun _ _ _ => (500000, 9);
  client_op := fun _ dst _ => dst;
  lc_signal_fn := 64 |}.
#[local] Instance demo_platform : Platform := {|
  lcg_page_size := 4096;
  lc_server_init := fun _ => ([LciRep 70 0 0 0; LciRep 71 1 4096 5], 4096000);
  LC_MAX_EP := 8;
  LC_MAX_DEV := 1 |}.

Definition demo_dev : lc_server :=
  LcServer (snd demo_put) [LciRep 70 0 0 0; LciRep 71 1 4096 5] 0 0.

(** Endpoint 300 addresses explicitly and signals, endpoint 301 allocates and queues. *)
Definition demo_sync_ep : lci_ep :=
  LciEp (Z.lor EP_AR_EXP EP_CE_SYNC) 0 0 0 (Tbl lc_hash_create) NoDst.
Definition demo_dyn_ep : lci_ep :=
  LciEp (Z.lor EP_AR_DYN EP_CE_CQ) 1 0 0 (Alloc 55) (Cq cq_init).

(** The message in packet 8192: three bytes from rank 1. *)
Definition demo_bytes : list Z := [10; 20; 30].
Definition demo_packet : lc_packet :=
  LcPacket (req_s_of 8192) 0 0 0 (-1) 1 (DataBuffer demo_bytes).
Definition demo_req_s : lc_req := LcReq 0 0 0 8192 71 3 1 0 0.

Definition demo_state : lci :=
  Lci {[ 4096 := lc_packet0; 8192 := demo_packet ]}
      {[ req_s_of 8192 := demo_req_s; 900 := lc_req0 ]}
      (list_to_map ((fun i => (i, 0)) <$> seqZ 1000 8))
      {[ 300 := demo_sync_ep; 301 := demo_dyn_ep ]}
      [300; 301; 0; 0; 0; 0; 0; 0] {[ 0 := demo_dev ]} 2 0 400 (fst demo_put) 3 [] [].

Lemma demo_dev_wf : dev_wf demo_state 0 demo_dev.
Proof. split; [reflexivity|apply demo_put_wf|cbn; pool_lia|apply demo_put_nonnull]. Qed.

Lemma demo_elems : pool_elems (pkpool demo_dev) = [4096].
Proof. vm_compute. reflexivity. Qed.

Lemma demo_room : (length (pool_elems (pkpool demo_dev)) < dq_capacity)%nat.
Proof. rewrite demo_elems. apply Nat.ltb_lt. reflexivity. Qed.

Lemma proto_roundtrip_witness :
  PROTO_GET_PROTO (MAKE_PROTO 7 LC_PROTO_RTS 1234) = LC_PROTO_RTS /\
  PROTO_GET_RGID (MAKE_PROTO 7 LC_PROTO_RTS 1234) = 7 /\
  PROTO_GET_META (MAKE_PROTO 7 LC_PROTO_RTS 1234) = 1234.
Proof. apply (proto_roundtrip 7 LC_PROTO_RTS 1234); unfold LC_PROTO_RTS; lia. Defined.

Lemma large_tag_never_matches_witness :
  lc_make_key 1 (PROTO_GET_META (MAKE_PROTO 0 LC_PROTO_DATA 65537)) <> lc_make_key 1 65537.
Proof. apply (large_tag_never_matches 0 LC_PROTO_DATA 1 65537); unfold LC_PROTO_DATA; lia. Defined.

(** A packet whose RTR is posted and whose data is still to come. *)
Definition demo_rtr : lc_packet :=
  LcPacket 900 300 1001 LC_PROTO_RTR (-1) 2 (DataRtr (Rts 0 0 0 3) 1000 0 8192).
Definition demo_rtr_state : lci := set_packets (fun m => <[8192 := demo_rtr]> m) demo_state.

Lemma rendezvous_completes_once_witness :
  lci_serve_send 8192 demo_rtr_state =
    Ok (tt, set_packets (fun m => <[8192 := pk_set_ref 1 demo_rtr]> m) demo_rtr_state).
Proof.
  exact (proj1 (rendezvous_completes_once demo_rtr_state 8192 demo_rtr demo_sync_ep
    eq_refl eq_refl eq_refl eq_refl)).
Defined.

Lemma poolid_truncation_witness :
  (_ ← lci_pk_init 300 130 LC_PROTO_DATA 8192; lci_serve_send 8192) demo_state = Err OutOfBounds.
Proof.
  refine (poolid_truncation demo_state 300 8192 demo_packet demo_sync_ep demo_dev 130
    eq_refl eq_refl eq_refl _). lia.
Defined.

(** The same process with the second endpoint only. *)
Definition demo_send_state : lci := set_eps (fun _ => {[ 301 := demo_dyn_ep ]}) demo_state.

Lemma demo_send_ready : send_ready demo_send_state 301 demo_dyn_ep demo_dev 1000 8 1
  (replicate 8 0) (LciRep 71 1 4096 5).
Proof.
  split; [reflexivity| |reflexivity|reflexivity| |constructor| | |reflexivity].
  - destruct demo_dev_wf. by split.
  - rewrite demo_elems. repeat constructor. by exists lc_packet0.
  - pose proof demo_room. lia.
  - vm_compute. done.
Qed.


Lemma medium_overflow_witness :
  lc_send 1000 12288 1 5 300 0 0 demo_state <> Ok (LC_OK, demo_state).
Proof.
  apply (medium_overflow demo_state demo_state 0 1000 12288 1 5 300 0 0).
  unfold lc_max_medium, SHORT_MSG_SIZE, LC_PACKET_SIZE, sizeof_packet_context. lia.
Defined.

Lemma ep_open_effect_witness :
  match lci_ep_open 0 (Z.lor EP_AR_DYN EP_CE_CQ) demo_state with
  | Ok (ep', s') => ep' = 400 /\ lcg_nep s' = 3
  | Err f => False
  end.
Proof.
  pose proof (ep_open_effect demo_state 0 demo_dev (Z.lor EP_AR_DYN EP_CE_CQ) eq_refl) as H.
  cbn zeta in H. destruct (lci_ep_open _ _ _) as [[ep' s']|f].
  - destruct H as (_ & -> & _ & -> & _); [cbn; lia|]. split; reflexivity.
  - destruct H as [_ H]; cbn in *; lia.
Defined.

Lemma exp_cq_uninitialised_witness :
  exists ep s' e, lc_ep_dup (LcOpt 0 LC_EXP_CQ 0 0 false) demo_state = Ok ((LC_OK, ep), s') /\
    lci_ce_dispatch ep 8192 (cap e) s' = Err NullDeref.
Proof.
  destruct (exp_cq_uninitialised demo_state 0 demo_dev 0 0 eq_refl) as (ep & s' & e & E & _ & H);
    [cbn; lia|reflexivity|].
  exists ep, s', e. split; [exact E|exact (H 8192 demo_packet demo_req_s eq_refl eq_refl)].
Defined.

Lemma demo_eager_ready :
  eager_ready demo_state 300 demo_sync_ep lc_hash_create demo_dev 1000 1 0 900
    (MAKE_PROTO 0 LC_PROTO_DATA 0) 8192 demo_bytes
    (<[1002 := 30]> (<[1001 := 20]> (<[1000 := 10]> (memory demo_state)))).
Proof.
  split; [|reflexivity|lia|lia|intros; apply lc_hash_create_waiting|by exists lc_req0|done|done
    |reflexivity|split; [reflexivity|by vm_compute]| |reflexivity].
  - split; [reflexivity|reflexivity|apply lc_hash_create_wf|reflexivity|reflexivity|reflexivity
      |exact demo_dev_wf|exact demo_room].
  - exists demo_packet, demo_req_s. by repeat split; try left.
Qed.

Lemma eager_delivery_witness :
  exists s2, (_ ← lci_serve_recv 8192 (MAKE_PROTO 0 LC_PROTO_DATA 0);
              lc_recv 1000 8 1 0 300 900) demo_state = Ok (LC_OK, s2) /\
    load_bytes (memory s2) 1000 4 = Ok [10; 20; 30; 0].
Proof.
  assert (has_exp = true) as Hbe by reflexivity. assert (has_sync = true) as Hbs by reflexivity.
  destruct (proj2 (eager_delivery demo_state 300 demo_sync_ep lc_hash_create demo_dev 1000 8 1 0
    900 (MAKE_PROTO 0 LC_PROTO_DATA 0) 8192 demo_bytes _ demo_eager_ready Hbe Hbs))
    as (s2 & E & Hd).
  exists s2. split; [exact E|]. rewrite (de_memory _ _ _ _ _ _ _ _ _ _ _ Hd). reflexivity.
Defined.

(** Before the library is initialised. *)
Definition demo_start : lci :=
  Lci ∅ ∅ ∅ ∅ (replicate 8 0) ∅ 0 0 400
    (PoolGlobals (tls_pool_struct demo_globals) 0 0 true) 3 [] [].

Lemma dev_init_packets_ok_witness :
  exists s' d, lci_dev_init 0 demo_start = Ok (tt, s') /\
    length (pool_elems (pkpool d)) = Z.to_nat LC_SERVER_NUM_PKTS /\
    curr_addr d mod 4096 = 0.
Proof.
  destruct (dev_init_packets_ok demo_start 0) as
    (s' & d & E & Hd & _ & _ & Hlen & _ & _ & _ & Hm & _).
  - destruct demo_globals_wf. by split.
  - intros w key Hw Hk. apply lookup_replicate. split; [done|]. cbn in Hk.
    pose proof (tls_index_range w key Hw). pool_lia.
  - cbn. pool_lia.
  - cbn. pool_lia.
  - cbn. lia.
  - cbn. lia.
  - exists s', d. split; [exact E|]. split; [exact Hlen|exact Hm].
Defined.

Lemma demo_dyn_ready :
  dyn_ready demo_state 301 demo_dyn_ep 55 cq_init demo_dev (MAKE_PROTO 1 LC_PROTO_DATA 77) 8192
    demo_req_s demo_bytes 77.
Proof.
  split; first [reflexivity | apply cq_init_wf | by vm_compute
    | rewrite cq_init_elems; by vm_compute | exists demo_packet; by repeat split].
Qed.

Lemma dynamic_delivery_witness :
  exists s', lci_serve_recv 8192 (MAKE_PROTO 1 LC_PROTO_DATA 77) demo_state = Ok (tt, s') /\
    trace s' = [EvAlloc 55 3 500000] /\ load_bytes (memory s') 500000 3 = Ok demo_bytes.
Proof.
  assert (has_dyn = true) as Hbd by reflexivity. assert (has_cq = true) as Hbq by reflexivity.
  assert (client_alloc 55 3 [] = (500000, 9)) as Hal by reflexivity.
  destruct (dynamic_delivery demo_state 301 demo_dyn_ep 55 cq_init demo_dev
    (MAKE_PROTO 1 LC_PROTO_DATA 77) 8192 demo_req_s demo_bytes 77 500000 9 demo_dyn_ready
    Hbd Hbq Hal) as (s' & e' & cq' & q' & E & Ht & Hl & _).
  exists s'. split; [exact E|]. split; [exact Ht|exact Hl].
Defined.

(** An endpoint whose queue holds the request of packet 8192. *)
Definition demo_cq : comp_q :=
  match cq_push cq_init (req_s_of 8192) with Ok q => q | Err _ => cq_init end.
Definition demo_cq_ep : lci_ep := LciEp (Z.lor EP_AR_DYN EP_CE_CQ) 1 0 0 (Alloc 55) (Cq demo_cq).
Definition demo_cq_state : lci := set_eps (fun m => <[301 := demo_cq_ep]> m) demo_state.

Lemma demo_cq_wf : cq_wf demo_cq /\ cq_elems demo_cq = [req_s_of 8192].
Proof.
  pose proof (cq_push_spec cq_init (req_s_of 8192) cq_init_wf) as H. unfold demo_cq.
  rewrite decide_False in H by (rewrite cq_init_elems; by vm_compute).
  destruct H as (q & -> & Hq & ->). by rewrite cq_init_elems.
Qed.

Lemma cq_pop_reqfree_witness :
  exists s1 s2, lc_cq_pop 301 demo_cq_state = Ok ((LC_OK, req_s_of 8192), s1) /\
    lc_cq_reqfree 301 (req_s_of 8192) s1 = Ok (LC_OK, s2) /\ holds s2 demo_cq_ep [8192; 4096].
Proof.
  assert (dev_wf demo_cq_state 0 demo_dev) as Hd by (destruct demo_dev_wf; by split).
  pose proof (cq_pop_reqfree demo_cq_state 301 demo_cq_ep demo_dev demo_cq demo_req_s
    (req_s_of 8192) eq_refl eq_refl (proj1 demo_cq_wf) Hd demo_room eq_refl) as H.
  rewrite (proj2 demo_cq_wf), demo_elems in H.
  destruct H as (s1 & e1 & cq1 & s2 & E1 & _ & _ & _ & _ & E2 & Hh); [done|done|done|].
  exists s1, s2. auto.
Defined.

(** The same process sends the 3 bytes at 1000 to rank 1, and receives at 1004 what rank 1
    announces. *)
Definition demo_long : packet_rts := Rts lc_signal_fn 900 1000 3.
Definition demo_announcement : lc_packet := pk_set_data (DataRts demo_long) demo_packet.
Definition demo_answer : lc_packet := pk_set_data (DataRtr demo_long 1004 1005 8192) demo_packet.
Definition demo_announced : lci :=
  match lc_sendl 1000 3 1 5 300 lc_signal_fn 900 demo_state with Ok (_, s) => s | Err _ => demo_state end.

Lemma demo_announces : lc_sendl 1000 3 1 5 300 lc_signal_fn 900 demo_state = Ok (LC_OK, demo_announced).
Proof.
  assert ((if lc_sendl 1000 3 1 5 300 lc_signal_fn 900 demo_state is Ok (LC_OK, _) then true else false) = true)
    as Hok by (vm_compute; reflexivity).
  unfold demo_announced. destruct (lc_sendl _ _ _ _ _ _ _ _) as [[[] s]|]; done.
Qed.

Lemma demo_long_sender :
  long_sender demo_state 300 demo_sync_ep demo_dev 900 lc_req0 8192 (MAKE_PROTO 0 LC_PROTO_RTR 0).
Proof.
  split; [reflexivity|reflexivity|exact demo_dev_wf|exact demo_room|constructor| |
    split; [reflexivity|done]|reflexivity|split; [reflexivity|by vm_compute]].
  rewrite demo_elems. split; [done|set_solver].
Qed.

Lemma demo_long_ready q : rank q = 1 ->
  long_ready (noted_at 8192 demo_announcement q demo_state) 300 demo_sync_ep lc_hash_create
    demo_dev 1004 1 5 900 (MAKE_PROTO 0 LC_PROTO_RTS 5) 8192 demo_long.
Proof.
  intros Hq. split; [|reflexivity|lia|lia|intros; apply lc_hash_create_waiting|by exists lc_req0|done|done
    |reflexivity|split; [reflexivity|by vm_compute]|].
  - split; [reflexivity|reflexivity|apply lc_hash_create_wf|reflexivity|reflexivity|reflexivity
      | |exact demo_room]. destruct demo_dev_wf. by split.
  - exists (pk_set_req (req_s_of 8192) demo_announcement), q. by repeat split.
Qed.

Lemma long_message_completes_witness :
  exists b1 b2 pa a2,
    receiver_meets true 1004 5 1 5 300 900 8192 (MAKE_PROTO 0 LC_PROTO_RTS 5)
      demo_announcement demo_req_s demo_state = Ok (LC_OK, b1) /\
    receiver_ends 8192 b1 = Ok (tt, b2) /\
    sender_ends 8192 (MAKE_PROTO 0 LC_PROTO_RTR 0) pa demo_answer demo_req_s demo_announced =
      Ok (tt, a2) /\
    reqs a2 !! 900 = Some (rq_set_sync 1 lc_req0).
Proof.
  assert (has_exp = true) as Hbe by reflexivity. assert (has_sync = true) as Hbs by reflexivity.
  assert (pk_data demo_answer = DataRtr demo_long 1004
    (lc_server_rma_key (lc_server_rma_reg 0 1004 3 [])) (u32 (8192 - heap_ptr demo_dev))) as Hk
    by (vm_compute; reflexivity).
  destruct (long_message_completes true demo_state 300 demo_sync_ep demo_dev (LciRep 71 1 4096 5)
    lc_req0 demo_state 300 demo_sync_ep lc_hash_create demo_dev (LciRep 71 1 4096 5) 1004 5 1 5 900
    8192 demo_long demo_announcement demo_req_s (MAKE_PROTO 0 LC_PROTO_RTS 5) 1000 3 1 5 900
    demo_announced 8192 demo_answer demo_req_s (MAKE_PROTO 0 LC_PROTO_RTR 0)
    Hbe Hbs demo_long_sender eq_refl demo_announces eq_refl
    (demo_long_ready demo_req_s eq_refl) eq_refl Hk)
    as [(b1 & b2 & kb & E1 & _ & _ & E2 & _) (pa & ka & a2 & d2 & _ & _ & E3 & _ & Hce & _)].
  exists b1, b2, pa, a2. auto.
Defined.
