(* ===== verification/Places.v ===== *)
(** * Where packets are (about Proto.v and Api.v)

    A packet is in the pool of a device, under a key of a matching table, in a completion
    queue, in the hand of the client, or with the server, which will hand it back.  This file
    has the pieces: what the pools, the tables and the queues do to places. *)
From stdpp Require Import gmap.
From S2P Require Import Prelude Config Lock Dequeue Pool Hashtable CompQueue State Proto Api ProtoSpec.

(** ** Pools *)

(** Cells beyond the deques of the workers are empty. *)
Definition pool_tight (pool : lc_pool) : Prop :=
  forall i o, pool_npools pool <= Z.of_nat i -> pool_lpools pool !! i = Some o -> o = None.

Definition pool_fine (g : pool_globals) (pool : lc_pool) : Prop := pool_wf g pool /\ pool_tight pool.

(** A deque of a pool, and another in its place. *)
Lemma pool_focus g pool pid : pool_fine g pool -> 0 <= pid < pool_npools pool ->
  exists d rest, (pool_lpools pool).[pid] = Ok (Some d) /\ dq_wf d /\ pool_elems pool ≡ₚ dq_elems d ++ rest /\
    forall d', dq_wf d' -> exists pool', set_lpool pool pid d' = Ok pool' /\ pool_fine g pool' /\
      pool_key pool' = pool_key pool /\ pool_npools pool' = pool_npools pool /\
      pool_elems pool' ≡ₚ dq_elems d' ++ rest.
Proof.
  intros [Hwf Ht] Hp. destruct (lpool_focus _ _ _ Hwf Hp) as (d & rest & Ha & Hd & He & Hset).
  exists d, rest. do 3 (split; [done|]). intros d' Hd'. destruct (Hset d' Hd') as (pool' & E & Hwf' & Hn & He').
  exists pool'. split; [done|]. unfold set_lpool in E. inv_bind. cbn in *.
  split; [|done]. split; [done|]. intros i o Hi Ho. cbn in *. apply aset_ok in Ha0 as [_ ->].
  destruct (decide (i = Z.to_nat pid)) as [->|Hne]; [lia|].
  rewrite list_lookup_insert_ne in Ho by done. by apply (Ht i).
Qed.

Lemma lpool_at_inv g pool pid d : pool_fine g pool -> lpool_at pool pid = Ok d ->
  0 <= pid < pool_npools pool /\ (pool_lpools pool).[pid] = Ok (Some d).
Proof.
  intros [_ Ht] E. unfold lpool_at in E. inv_bind. destruct a as [d'|]; [|done]. cbn in E. injection E as ->.
  split; [|done]. apply aget_ok in Ha as [H0 Hl]. split; [done|].
  destruct (Z_lt_dec pid (pool_npools pool)); [done|]. by apply Ht in Hl; [|lia].
Qed.

(** A pool operation that ended: the pools of other keys are as good as before. *)
Definition others_kept (g g' : pool_globals) (key : Z) : Prop :=
  forall other, pool_fine g other -> pool_key other <> key -> pool_fine g' other.

Lemma others_same g key : others_kept g g key.
Proof. by intros other. Qed.

Lemma put_to_inv g pool elm pid pool' : pool_fine g pool -> lc_pool_put_to pool elm pid = Ok pool' ->
  pool_fine g pool' /\ pool_key pool' = pool_key pool /\ pool_elems pool' ≡ₚ elm :: pool_elems pool.
Proof.
  intros Hf E. unfold lc_pool_put_to in E. inv_bind. destruct (lpool_at_inv _ _ _ _ Hf Ha) as [Hp Hat].
  destruct (pool_focus _ _ _ Hf Hp) as (d & rest & Hd & Hdwf & He & Hset). rewrite Hat in Hd.
  injection Hd as ->.
  pose proof (dq_push_top_spec d elm Hdwf) as Hpush. case_decide; [by rewrite Hpush in Ha0|].
  destruct Hpush as (d' & E1 & Hd' & He'). rewrite E1 in Ha0. injection Ha0 as <-.
  destruct (Hset d' Hd') as (pool1 & E2 & Hf1 & Hk & _ & He1). rewrite E2 in E. injection E as <-.
  split; [done|]. split; [done|]. rewrite He1, He', He, <- app_assoc. symmetry. apply Permutation_middle.
Qed.

Lemma get_local_inv g pool w g' pool' pid : pool_fine g pool -> 0 <= w < MAX_NPOOLS ->
  lc_pool_get_local g pool w = Ok (g', pool', pid) ->
  pool_fine g' pool' /\ pool_key pool' = pool_key pool /\ pool_elems pool' = pool_elems pool /\
  0 <= pid < pool_npools pool' /\ others_kept g g' (pool_key pool).
Proof.
  intros [Hwf Ht] Hw E.
    destruct (lc_pool_get_local_spec _ _ _ Hwf Hw) as (g1 & pool1 & pid1 & E1 & Hwf1 & Hp & He & _ & _).
  rewrite E in E1. injection E1 as <- <- <-.
  assert (others_kept g g' (pool_key pool)) as Ho.
  { intros other [Ho Hot] Hne. split; [|done].
      exact (pool_keys_isolate g pool other w g' pool' pid Hwf Ho Hne Hw E). }
  assert (pool_tight pool' /\ pool_key pool' = pool_key pool) as [Ht' Hk]; [|done].
  unfold lc_pool_get_local in E. inv_bind. destruct (a =? POOL_UNINIT); inv_bind; [|done].
  destruct (a1 =? POOL_UNINIT); inv_bind; [|done]. split; [|done].
  intros i o Hi Ho'. cbn in *. apply aset_ok in Ha2 as [_ ->].
  rewrite list_lookup_insert_ne in Ho' by lia. apply (Ht i); [lia|done].
Qed.

Lemma put_inv g pool w elm g' pool' : pool_fine g pool -> 0 <= w < MAX_NPOOLS ->
  lc_pool_put g pool w elm = Ok (g', pool') ->
  pool_fine g' pool' /\ pool_key pool' = pool_key pool /\ pool_elems pool' ≡ₚ elm :: pool_elems pool /\
  others_kept g g' (pool_key pool).
Proof.
  intros Hf Hw E. unfold lc_pool_put in E. inv_bind. destruct a as [[g1 pool1] pid]. inv_bind.
  destruct (get_local_inv _ _ _ _ _ _ Hf Hw Ha) as (Hf1 & Hk & He & _ & Ho).
  destruct (put_to_inv _ _ _ _ _ Hf1 Ha0) as (Hf2 & Hk2 & He2). rewrite He in He2.
  split; [done|]. split; [congruence|]. done.
Qed.

(** What a get takes, if anything. *)
Definition taken (elm : Z) (l l' : list Z) : Prop := (elm = NULL /\ l ≡ₚ l') \/ (elm <> NULL /\ l ≡ₚ elm :: l').

Lemma pop_inv g pool pid d d' elm pool' : pool_fine g pool -> 0 <= pid < pool_npools pool ->
  (pool_lpools pool).[pid] = Ok (Some d) -> Forall (fun p => p <> NULL) (pool_elems pool) ->
  (dq_pop_top d = Ok (d', elm) \/ dq_pop_bot d = Ok (d', elm)) -> set_lpool pool pid d' = Ok pool' ->
  pool_fine g pool' /\ pool_key pool' = pool_key pool /\ taken elm (pool_elems pool) (pool_elems pool').
Proof.
  intros Hf Hp Hat Hnn Hpop E. destruct (pool_focus _ _ _ Hf Hp) as (d0 & rest & Hd & Hdwf & He & Hset).
  rewrite Hat in Hd. injection Hd as <-.
  assert (Forall (fun p => p <> NULL) (dq_elems d)) as Hnnd by (rewrite He in Hnn;
    by apply Forall_app in Hnn as [? _]).
  assert (dq_wf d' /\ taken elm (dq_elems d) (dq_elems d')) as [Hd' Htk].
  { destruct Hpop as [Hpop|Hpop].
    - destruct (dq_pop_top_spec d Hdwf) as (d1 & e1 & E1 & Hd1 & Hc). rewrite Hpop in E1. injection E1 as <- <-.
      split; [done|]. destruct (dq_elems d) eqn:Ed; [destruct Hc as [-> ->]; left; by rewrite Ed|right].
      rewrite Hc in Hnnd |- *. apply Forall_app in Hnnd as [_ [? _]%Forall_cons]. split; [done|].
      by rewrite Permutation_app_comm.
    - destruct (dq_pop_bot_spec d Hdwf) as (d1 & e1 & E1 & Hd1 & Hc). rewrite Hpop in E1. injection E1 as <- <-.
      split; [done|]. destruct (dq_elems d) eqn:Ed; [destruct Hc as [-> ->]; left; by rewrite Ed|right].
      destruct Hc as [-> ->]. by apply Forall_cons in Hnnd as [? _]. }
  destruct (Hset d' Hd') as (pool1 & E2 & Hf1 & Hk & _ & He1). rewrite E2 in E. injection E as <-.
  split; [done|]. split; [done|]. unfold taken in *. rewrite He, He1.
  destruct Htk as [[-> ->]|[Hne ->]]; [by left|by right].
Qed.

Lemma get_nb_inv g pool w r g' pool' elm : pool_fine g pool -> 0 <= w < MAX_NPOOLS -> 0 <= r ->
  Forall (fun p => p <> NULL) (pool_elems pool) -> lc_pool_get_nb g pool w r = Ok (g', pool', elm) ->
  pool_fine g' pool' /\ pool_key pool' = pool_key pool /\ taken elm (pool_elems pool) (pool_elems pool') /\
  others_kept g g' (pool_key pool).
Proof.
  intros Hf Hw Hr Hnn E. unfold lc_pool_get_nb, lc_pool_pop_local in E.
  apply bind_ok in E as ([[g2 pool2] e2] & E0 & E). apply bind_ok in E0 as ([[g1 pool1] pid] & El & E0).
  apply bind_ok in E0 as (d & Ed & E0). apply bind_ok in E0 as ([d' e1] & Ep & E0).
  apply bind_ok in E0 as (pool0 & Es & [= <- <- <-]).
  destruct (get_local_inv _ _ _ _ _ _ Hf Hw El) as (Hf1 & Hk & He & Hp & Ho).
  destruct (lpool_at_inv _ _ _ _ Hf1 Ed) as [_ Hat]. rewrite <- He in Hnn.
  destruct (pop_inv _ _ _ _ _ _ _ Hf1 Hp Hat Hnn (or_introl Ep) Es) as (Hf2 & Hk2 & Htk).
  rewrite <- He. destruct (Z.eqb_spec e1 NULL) as [->|Hne].
  - apply bind_ok in E as ([pool3 e3] & Est & [= <- <- <-]). destruct Htk as [[_ Hel]|[? _]]; [|done].
    unfold lc_pool_steal in Est. apply bind_ok in Est as ([d2|] & Ha & Est).
    + apply bind_ok in Est as ([d3 e4] & Epb & Est). apply bind_ok in Est as (pool4 & Es2 & [= <- <-]).
      rewrite Hel in Hnn.
      assert (lpool_at pool0 (Z.rem r (pool_npools pool0)) = Ok d2) as Hl by (unfold lpool_at; by rewrite Ha).
      destruct (lpool_at_inv _ _ _ _ Hf2 Hl) as [Hp2 _].
      destruct (pop_inv _ _ _ _ _ _ _ Hf2 Hp2 Ha Hnn (or_intror Epb) Es2) as (Hf3 & Hk3 & Htk3).
      split; [done|]. split; [congruence|]. split; [|done]. unfold taken in *. by rewrite Hel.
    + injection Est as <- <-. split; [done|]. split; [congruence|]. split; [by left|done].
  - injection E as <- <- <-. split; [done|]. split; [congruence|done].
Qed.

(** ** Places *)

Inductive place : Type :=
| InPool (dev : Z)          (* free *)
| InTable (ep key : Z)      (* an arrival no receive has asked for *)
| InQueue (ep : Z)          (* a completion the client has not polled *)
| InHand                    (* polled, for the client to give back *)
| Posted                    (* with the server, for an arrival *)
| Sending                   (* with the server, for a send *)
| Handshake                 (* the same, and the peer will write and signal *)
| Awaiting.                 (* sent, the peer will still write and signal *)

#[export] Instance place_eq_dec : EqDecision place.
Proof. solve_decision. Defined.

(** The places inside the process, and what is there. *)
Definition kept (t : place) : Prop :=
  match t with InPool _ | InTable _ _ | InQueue _ => True | _ => False end.

Definition inside (s : lci) (p : Z) (t : place) : Prop :=
  match t with
  | InPool i => exists d, lcg_dev s !! i = Some d /\ p ∈ pool_elems (pkpool d)
  | InTable ep key => valid_key key /\
      exists e h, eps s !! ep = Some e /\ ep_from e = Tbl h /\ p ∈ waiting h key SERVER
  | InQueue ep => exists e q, eps s !! ep = Some e /\ ep_to e = Cq q /\ req_s_of p ∈ cq_elems q
  | _ => False
  end.

(** The packet completes at an endpoint whose queue would get the packet's own request. *)
Definition back_ok (s : lci) (p : Z) (k : lc_packet) : Prop :=
  exists e, eps s !! pk_ep k = Some e /\ forall q, ep_to e = Cq q -> pk_req k = req_s_of p.

(** What the fields of a packet say of its place. *)
Definition fine (s : lci) (p : Z) (t : place) (k : lc_packet) : Prop :=
  match t with
  | Sending => pk_proto k = LC_PROTO_RTR -> pk_ref k = 1 /\ back_ok s p k
  | Handshake => pk_proto k = LC_PROTO_RTR /\ pk_ref k = 2 /\ back_ok s p k
  | Awaiting => pk_proto k = LC_PROTO_RTR /\ pk_ref k = 1 /\ back_ok s p k
  | InQueue _ | InHand => exists q, reqs s !! req_s_of p = Some q /\ parent q = p
  | _ => True
  end.

Definition from_fine (e : lci_ep) : Prop :=
  match ep_from e with
  | Tbl h => table_wf h /\ (forall key, valid_key key -> NoDup (waiting h key SERVER)) /\
             (forall q, ep_to e <> Cq q)
  | _ => True
  end.
Definition to_fine (e : lci_ep) : Prop :=
  match ep_to e with Cq q => cq_wf q /\ NoDup (cq_elems q) | _ => True end.

(** The pools, the tables and the queues are in order, and [o] gives every packet its place:
    what is inside the process is where [o] says and nowhere else. *)
Record placed (s : lci) (o : gmap Z place) : Prop := {
  pl_pools : forall i d, lcg_dev s !! i = Some d ->
    pool_fine (pool_g s) (pkpool d) /\ NoDup (pool_elems (pkpool d));
  pl_keys : forall i j d e, lcg_dev s !! i = Some d -> lcg_dev s !! j = Some e ->
    pool_key (pkpool d) = pool_key (pkpool e) -> i = j;
  pl_wid : 0 <= wid s < MAX_NPOOLS;
  pl_rands : Forall (fun r => 0 <= r) (rands s);
  pl_eps : forall a e, eps s !! a = Some e -> a < next_ptr s /\ from_fine e /\ to_fine e;
  pl_places : forall p t, kept t -> o !! p = Some t <-> inside s p t;
  pl_packets : forall p t, o !! p = Some t -> 0 < p /\ exists k, packets s !! p = Some k /\ fine s p t k }.

(** ** Steps that leave the places alone *)

(** Only packets, requests, user memory and the trace changed. *)
Record quiet (s s' : lci) : Prop := {
  qt_dev : lcg_dev s' = lcg_dev s; qt_pool : pool_g s' = pool_g s; qt_wid : wid s' = wid s;
  qt_rands : rands s' = rands s; qt_eps : eps s' = eps s; qt_next : next_ptr s' = next_ptr s }.

Lemma quiet_inside s s' p t : quiet s s' -> inside s' p t <-> inside s p t.
Proof. intros []. destruct t; cbn; by rewrite ?qt_dev0, ?qt_eps0. Qed.

Lemma placed_quiet s s' o : placed s o -> quiet s s' ->
  (forall p t k, o !! p = Some t -> packets s !! p = Some k -> fine s p t k ->
     exists k', packets s' !! p = Some k' /\ fine s' p t k') -> placed s' o.
Proof.
  intros [H1 H2 H3 H4 H5 H6 H7] Hq Hf. pose proof Hq as [E1 E2 E3 E4 E5 E6].
  split; rewrite ?E1, ?E2, ?E3, ?E4, ?E5, ?E6; try done.
  - intros p t Ht. rewrite (quiet_inside _ _ p t Hq). by apply H6.
  - intros p t Hp. destruct (H7 p t Hp) as (Hpos & k & Hk & Hfk). split; [done|]. by eapply Hf.
Qed.

Lemma fine_same s s' p t k : eps s' = eps s ->
  (forall q, reqs s !! req_s_of p = Some q -> exists q', reqs s' !! req_s_of p = Some q' /\
    parent q' = parent q) ->
  fine s p t k -> fine s' p t k.
Proof.
  intros He Hr. unfold fine, back_ok. rewrite He. destruct t; try done.
  - intros (q & Hq & <-). by apply Hr in Hq.
  - intros (q & Hq & <-). by apply Hr in Hq.
Qed.

(** A packet at a place without conditions can be written freely. *)
Lemma placed_packet s o p f k : placed s o -> packets s !! p = Some k ->
  (forall t, o !! p = Some t -> fine s p t k -> fine s p t (f k)) ->
  placed (set_packets (fun m => <[p := f k]> m) s) o.
Proof.
  intros Hp Hk Hf. eapply placed_quiet; [exact Hp|by split|]. intros p1 t k1 Ho Hk1 Hfine. cbn.
  destruct (decide (p1 = p)) as [->|Hne].
  - rewrite Hk in Hk1. injection Hk1 as <-. exists (f k). split; [apply lookup_insert_eq|].
    eapply (fine_same s); [done|eauto|]. by apply Hf.
  - exists k1. split; [by rewrite lookup_insert_ne|]. by eapply (fine_same s); [done|eauto|].
Qed.

Lemma placed_req s o r f q : placed s o -> reqs s !! r = Some q -> parent (f q) = parent q ->
  placed (set_reqs (fun m => <[r := f q]> m) s) o.
Proof.
  intros Hp Hq Hf. eapply placed_quiet; [exact Hp|by split|]. intros p1 t k1 Ho Hk1 Hfine. exists k1.
  split; [done|]. eapply (fine_same s); [done| |done]. intros q1 Hq1. cbn.
  destruct (decide (req_s_of p1 = r)) as [<-|Hne].
  - exists (f q). rewrite Hq in Hq1. injection Hq1 as <-. by rewrite lookup_insert_eq.
  - exists q1. by rewrite lookup_insert_ne.
Qed.

Lemma placed_trace s o f : placed s o -> placed (set_trace f s) o.
Proof. intros Hp. eapply placed_quiet; [exact Hp|by split|]. intros p t k _ Hk Hf. exists k. split; [done|].
  by eapply (fine_same s); [done|eauto|]. Qed.

Lemma placed_memory s o f : placed s o -> placed (set_memory f s) o.
Proof. intros Hp. eapply placed_quiet; [exact Hp|by split|]. intros p t k _ Hk Hf. exists k. split; [done|].
  by eapply (fine_same s); [done|eauto|]. Qed.

(** From one place outside the process to another. *)
Lemma placed_move s o p t k : placed s o -> o !! p = Some t -> ~ kept t -> forall t', ~ kept t' ->
  packets s !! p = Some k -> fine s p t' k -> placed s (<[p := t']> o).
Proof.
  intros [H1 H2 H3 H4 H5 H6 H7] Ho Ht t' Ht' Hk Hf. split; try done.
  - intros p1 t1 Hk1. destruct (decide (p1 = p)) as [->|Hne]; [|rewrite lookup_insert_ne by done; by apply H6].
    rewrite lookup_insert_eq. split; [by intros [= <-]|]. intros Hin%(H6 p t1 Hk1). rewrite Ho in Hin.
    by injection Hin as ->.
  - intros p1 t1 Hp1. destruct (decide (p1 = p)) as [->|Hne]; [|rewrite lookup_insert_ne in Hp1 by done;
      by apply H7].
    rewrite lookup_insert_eq in Hp1. injection Hp1 as <-. split; [by destruct (H7 _ _ Ho)|]. by exists k.
Qed.

(** ** The pool of a device *)

Definition with_pool (s : lci) (i : Z) (d : lc_server) (g : pool_globals) (pool : lc_pool) : lci :=
  set_dev i (LcServer pool (rep d) (curr_addr d) (heap_ptr d)) (set_pool_g g s).

Lemma placed_pool s o o' i d g pool : placed s o -> lcg_dev s !! i = Some d -> pool_fine g pool ->
  pool_key pool = pool_key (pkpool d) -> others_kept (pool_g s) g (pool_key (pkpool d)) ->
  NoDup (pool_elems pool) -> (forall p, o' !! p = Some (InPool i) <-> p ∈ pool_elems pool) ->
  (forall p t, kept t -> t <> InPool i -> o' !! p = Some t <-> o !! p = Some t) ->
  (forall p t, o' !! p = Some t -> 0 < p /\ exists k, packets s !! p = Some k /\ fine s p t k) ->
  placed (with_pool s i d g pool) o'.
Proof.
  intros [H1 H2 H3 H4 H5 H6 H7] Hd Hf Hk Ho Hnd Hin Hout Hpk. split; try done.
  - intros j e Hj. cbn in Hj |- *. destruct (decide (j = i)) as [->|Hne].
    + rewrite lookup_insert_eq in Hj. by injection Hj as <-.
    + rewrite lookup_insert_ne in Hj by done. destruct (H1 j e Hj) as [He Hnde]. split; [|done].
      apply Ho; [done|]. intros E. by apply Hne, (H2 j i e d).
  - intros j1 j2 d1 d2 Hj1 Hj2 E. cbn in Hj1, Hj2.
    assert (forall j e, <[i := LcServer pool (rep d) (curr_addr d) (heap_ptr d)]> (lcg_dev s) !! j = Some e ->
      exists e0, lcg_dev s !! j = Some e0 /\ pool_key (pkpool e) = pool_key (pkpool e0)) as Hget.
    { intros j e Hj. destruct (decide (j = i)) as [->|Hne]; [|rewrite lookup_insert_ne in Hj by done;
        by exists e].
      rewrite lookup_insert_eq in Hj. injection Hj as <-. by exists d. }
    destruct (Hget _ _ Hj1) as (e1 & He1 & Ek1). destruct (Hget _ _ Hj2) as (e2 & He2 & Ek2).
    apply (H2 j1 j2 e1 e2); congruence.
  - intros p t Ht. destruct (decide (t = InPool i)) as [->|Hne].
    + rewrite Hin. cbn. rewrite lookup_insert_eq. split; [intros Hp; by eexists|]. by intros (e & [= <-] & Hp).
    + rewrite Hout, H6 by done. destruct t as [j| | | | | | |]; try done. cbn.
      rewrite lookup_insert_ne by congruence. done.
Qed.

Lemma place_nodup s o i d p t : placed s o -> lcg_dev s !! i = Some d -> o !! p = Some t -> ~ kept t ->
  p ∉ pool_elems (pkpool d).
Proof.
  intros Hp Hd Ho Ht Hin. assert (o !! p = Some (InPool i)) as E by (apply (pl_places _ _ Hp);
    [done|by exists d]).
  rewrite Ho in E. by injection E as ->.
Qed.

Lemma elem_of_pool s o i d p : placed s o -> lcg_dev s !! i = Some d ->
  o !! p = Some (InPool i) <-> p ∈ pool_elems (pkpool d).
Proof.
  intros Hp Hd. rewrite (pl_places _ _ Hp p (InPool i) I). cbn. split; [|by exists d].
  intros (e & He & Hin). rewrite Hd in He. by injection He as ->.
Qed.

(** A packet put. *)
Lemma placed_put s o i d g pool p t : placed s o -> lcg_dev s !! i = Some d -> pool_fine g pool ->
  pool_key pool = pool_key (pkpool d) -> others_kept (pool_g s) g (pool_key (pkpool d)) ->
  pool_elems pool ≡ₚ p :: pool_elems (pkpool d) -> o !! p = Some t -> ~ kept t ->
  placed (with_pool s i d g pool) (<[p := InPool i]> o).
Proof.
  intros Hp Hd Hf Hk Ho He Hpt Ht. pose proof (place_nodup _ _ _ _ _ _ Hp Hd Hpt Ht) as Hni.
  pose proof (proj2 (pl_pools _ _ Hp i d Hd)) as Hnd.
  eapply placed_pool; try done.
  - rewrite He. by constructor.
  - intros p1. rewrite He, elem_of_cons, <- (elem_of_pool s o i d p1 Hp Hd).
    destruct (decide (p1 = p)) as [->|Hne]; [rewrite lookup_insert_eq;
      tauto|rewrite lookup_insert_ne by done; tauto].
  - intros p1 t1 Hk1 Hne1. destruct (decide (p1 = p)) as [->|Hne]; [|by rewrite lookup_insert_ne].
    rewrite lookup_insert_eq, Hpt. split; [intros [= <-]; done|intros [= ->]; done].
  - intros p1 t1 Hp1. destruct (decide (p1 = p)) as [->|Hne].
    + rewrite lookup_insert_eq in Hp1. injection Hp1 as <-.
      destruct (pl_packets _ _ Hp p t Hpt) as (Hpos & k & Hpk & _). split; [done|]. by exists k.
    + rewrite lookup_insert_ne in Hp1 by done. by apply (pl_packets _ _ Hp).
Qed.

(** A packet got, or none. *)
Lemma placed_taken s o i d g pool p : placed s o -> lcg_dev s !! i = Some d -> pool_fine g pool ->
  pool_key pool = pool_key (pkpool d) -> others_kept (pool_g s) g (pool_key (pkpool d)) ->
  taken p (pool_elems (pkpool d)) (pool_elems pool) ->
  (p = NULL /\ placed (with_pool s i d g pool) o) \/
  (p <> NULL /\ o !! p = Some (InPool i) /\ placed (with_pool s i d g pool) (<[p := Posted]> o)).
Proof.
  intros Hp Hd Hf Hk Ho Htk. pose proof (proj2 (pl_pools _ _ Hp i d Hd)) as Hnd.
  destruct Htk as [[-> He]|[Hne He]]; [left; split; [done|]|right; split; [done|]].
  - eapply placed_pool; try done.
    + by rewrite <- He.
    + intros p1. rewrite <- He. by apply (elem_of_pool s).
    + apply (pl_packets _ _ Hp).
  - rewrite He in Hnd. apply NoDup_cons in Hnd as [Hni Hnd].
    assert (o !! p = Some (InPool i)) as Hpi by (apply (elem_of_pool s o i d p Hp Hd); rewrite He; left).
    split; [done|]. eapply placed_pool; try done.
    + intros p1. destruct (decide (p1 = p)) as [->|Hne1]; [by rewrite lookup_insert_eq|].
      rewrite lookup_insert_ne, (elem_of_pool s o i d p1 Hp Hd), He, elem_of_cons by done. tauto.
    + intros p1 t1 Hk1 Hne1. destruct (decide (p1 = p)) as [->|]; [|by rewrite lookup_insert_ne].
      rewrite lookup_insert_eq, Hpi. split; [intros [= <-]; done|intros [= <-]; done].
    + intros p1 t1 Hp1. destruct (decide (p1 = p)) as [->|].
      * rewrite lookup_insert_eq in Hp1. injection Hp1 as <-.
        destruct (pl_packets _ _ Hp p _ Hpi) as (Hpos & k & Hpk & _). split; [done|]. by exists k.
      * rewrite lookup_insert_ne in Hp1 by done. by apply (pl_packets _ _ Hp).
Qed.

Lemma pool_nonnull s o i d : placed s o -> lcg_dev s !! i = Some d ->
  Forall (fun p => p <> NULL) (pool_elems (pkpool d)).
Proof.
  intros Hp Hd. apply Forall_forall. intros p Hin%(elem_of_pool s o i d p Hp Hd) ->.
  by destruct (pl_packets _ _ Hp _ _ Hin) as [? _].
Qed.

(** ** An endpoint's table and queue *)

Definition with_ep (s : lci) (ep : Z) (e : lci_ep) : lci := set_eps (fun m => <[ep := e]> m) s.

Lemma fine_ep s ep e e' p t k : eps s !! ep = Some e -> (forall q, ep_to e' = Cq q ->
  exists q0, ep_to e = Cq q0) ->
  fine s p t k -> fine (with_ep s ep e') p t k.
Proof.
  intros He Hto. assert (back_ok s p k -> back_ok (with_ep s ep e') p k) as Hb.
  { intros (e1 & He1 & Hb). cbn. unfold back_ok. cbn.
    destruct (decide (pk_ep k = ep)) as [E|Hne]; [rewrite E in He1 |- *|].
    - exists e'. rewrite lookup_insert_eq. split; [done|]. intros q Hq. destruct (Hto q Hq) as [q0 Hq0].
      rewrite He in He1. injection He1 as <-. by apply (Hb q0).
    - exists e1. by rewrite lookup_insert_ne. }
  destruct t; cbn; try done; naive_solver.
Qed.

Lemma placed_ep s o o' ep e e' : placed s o -> eps s !! ep = Some e -> from_fine e' -> to_fine e' ->
  (forall q, ep_to e' = Cq q -> exists q0, ep_to e = Cq q0) ->
  (forall p t, kept t -> (forall key, t <> InTable ep key) -> t <> InQueue ep ->
    o' !! p = Some t <-> o !! p = Some t) ->
  (forall p key, o' !! p = Some (InTable ep key) <-> inside (with_ep s ep e') p (InTable ep key)) ->
  (forall p, o' !! p = Some (InQueue ep) <-> inside (with_ep s ep e') p (InQueue ep)) ->
  (forall p t, o' !! p = Some t -> 0 < p /\ exists k, packets s !! p = Some k /\ fine s p t k) ->
  placed (with_ep s ep e') o'.
Proof.
  intros [H1 H2 H3 H4 H5 H6 H7] He Hfrom Hto Hcq Hout Htbl Hqueue Hpk. split; try done.
  - intros a e1 Ha. cbn in Ha |- *. destruct (decide (a = ep)) as [->|Hne].
    + rewrite lookup_insert_eq in Ha. injection Ha as <-. split; [by destruct (H5 ep e He)|done].
    + rewrite lookup_insert_ne in Ha by done. by apply H5.
  - intros p t Ht. destruct (decide (t = InQueue ep)) as [->|Hnq]; [apply Hqueue|].
    destruct t as [i|a key|a| | | | |]; try done; cbn.
    + rewrite Hout, H6 by done. done.
    + destruct (decide (a = ep)) as [->|Hne]; [apply Htbl|]. rewrite Hout, H6 by (done || congruence). cbn.
      by rewrite lookup_insert_ne.
    + assert (a <> ep) as Hne by congruence. rewrite Hout, H6 by done. cbn. by rewrite lookup_insert_ne.
  - intros p t Hp. destruct (Hpk p t Hp) as (Hpos & k & Hk & Hf). split; [done|]. exists k. split; [done|].
    by eapply fine_ep.
Qed.

Definition with_tbl (e : lci_ep) (h : lc_hash) : lci_ep :=
  LciEp (cap e) (gid e) (completed e) (server e) (Tbl h) (ep_to e).
Definition with_cq (e : lci_ep) (q : comp_q) : lci_ep :=
  LciEp (cap e) (gid e) (completed e) (server e) (ep_from e) (Cq q).

Lemma elem_of_tbl s o ep e h p key : placed s o -> eps s !! ep = Some e -> ep_from e = Tbl h ->
  o !! p = Some (InTable ep key) <-> valid_key key /\ p ∈ waiting h key SERVER.
Proof.
  intros Hp He Hh. rewrite (pl_places _ _ Hp p (InTable ep key) I). cbn. split.
  - intros (Hv & e1 & h1 & He1 & Hh1 & Hin). rewrite He in He1. injection He1 as <-. rewrite Hh in Hh1.
    by injection Hh1 as <-.
  - intros [Hv Hin]. split; [done|]. by exists e, h.
Qed.

Lemma elem_of_queue s o ep e q p : placed s o -> eps s !! ep = Some e -> ep_to e = Cq q ->
  o !! p = Some (InQueue ep) <-> req_s_of p ∈ cq_elems q.
Proof.
  intros Hp He Hq. rewrite (pl_places _ _ Hp p (InQueue ep) I). cbn. split.
  - intros (e1 & q1 & He1 & Hq1 & Hin). rewrite He in He1. injection He1 as <-. rewrite Hq in Hq1.
    by injection Hq1 as <-.
  - intros Hin. by exists e, q.
Qed.

(** A new table for an endpoint: where packets wait, or stop waiting, is where [o'] says. *)
Lemma placed_tbl s o o' ep e h h' : placed s o -> eps s !! ep = Some e -> ep_from e = Tbl h -> table_wf h' ->
  (forall key, valid_key key -> NoDup (waiting h' key SERVER)) ->
  (forall p t, kept t -> (forall key, t <> InTable ep key) -> o' !! p = Some t <-> o !! p = Some t) ->
  (forall p key, o' !! p = Some (InTable ep key) <-> valid_key key /\ p ∈ waiting h' key SERVER) ->
  (forall p t, o' !! p = Some t -> 0 < p /\ exists k, packets s !! p = Some k /\ fine s p t k) ->
  placed (with_ep s ep (with_tbl e h')) o'.
Proof.
  intros Hp He Hh Hwf Hnd Hout Hin Hpk. destruct (pl_eps _ _ Hp ep e He) as (_ & Hff & Htf).
  unfold from_fine in Hff. rewrite Hh in Hff. destruct Hff as (_ & _ & Hnq).
  eapply (placed_ep s o); try done.
  - intros q Hq. by apply Hnq in Hq.
  - intros p t Ht Hne _. by apply Hout.
  - intros p key. rewrite Hin. cbn. rewrite lookup_insert_eq. split.
    + intros [Hv Hw]. split; [done|]. by exists (with_tbl e h'), h'.
    + intros (Hv & e1 & h1 & [= <-] & [= <-] & Hw). done.
  - intros p. rewrite Hout, (pl_places _ _ Hp) by done. cbn. rewrite lookup_insert_eq. split.
    + intros (e1 & q & He1 & Hq & _). rewrite He in He1. injection He1 as <-. by apply Hnq in Hq.
    + intros (e1 & q & [= <-] & Hq & _). by apply Hnq in Hq.
Qed.

(** The same for its queue. *)
Lemma placed_cq s o o' ep e q q' : placed s o -> eps s !! ep = Some e -> ep_to e = Cq q -> cq_wf q' ->
  NoDup (cq_elems q') -> (forall p t, kept t -> t <> InQueue ep -> o' !! p = Some t <-> o !! p = Some t) ->
  (forall p, o' !! p = Some (InQueue ep) <-> req_s_of p ∈ cq_elems q') ->
  (forall p t, o' !! p = Some t -> 0 < p /\ exists k, packets s !! p = Some k /\ fine s p t k) ->
  placed (with_ep s ep (with_cq e q')) o'.
Proof.
  intros Hp He Hq Hwf Hnd Hout Hin Hpk. destruct (pl_eps _ _ Hp ep e He) as (_ & Hff & _).
  assert (forall h, ep_from e <> Tbl h) as Hnt by (intros h Hh; unfold from_fine in Hff; rewrite Hh in Hff;
    by apply (proj2 (proj2 Hff) q)).
  eapply (placed_ep s o); try done.
  - unfold from_fine. cbn. destruct (ep_from e) as [| |h]; try done. by destruct (Hnt h).
  - by exists q.
  - intros p t Ht _ Hne. by apply Hout.
  - intros p key. rewrite Hout, (pl_places _ _ Hp) by done. cbn. rewrite lookup_insert_eq. split.
    + intros (_ & e1 & h & He1 & Hh & _). rewrite He in He1. injection He1 as <-. by apply Hnt in Hh.
    + intros (_ & e1 & h & [= <-] & Hh & _). by apply Hnt in Hh.
  - intros p. rewrite Hin. cbn. rewrite lookup_insert_eq. split.
    + intros Hw. by exists (with_cq e q'), q'.
    + by intros (e1 & q1 & [= <-] & [= <-] & Hw).
Qed.
