(* ===== verification/Custody.v ===== *)
(** * Who has each packet (about Proto.v and Api.v)

    The operations of the layer, one by one, as moves of packets between places: what a run
    that ends does to the places, and what it then expects of the server. *)
From stdpp Require Import gmap.
From S2P Require Import Prelude Config Lock Dequeue Pool Hashtable CompQueue State Proto Api ProtoSpec Places.

#[local] Arguments lc_make_key : simpl never.
#[local] Arguments lc_hash_insert : simpl never.
#[local] Arguments MAKE_PROTO : simpl never.
#[local] Arguments PROTO_GET_META : simpl never.
#[local] Arguments PROTO_GET_PROTO : simpl never.
#[local] Arguments req_s_of : simpl never.
#[local] Arguments i8 : simpl never.
#[local] Arguments i16 : simpl never.
#[local] Arguments u32 : simpl never.

(** ** Runs that end *)

(** If [m] ends from [s], its result and state satisfy [Q]. *)
Definition post {A} (m : M A) (Q : A -> lci -> Prop) (s : lci) : Prop :=
  forall a s', m s = Ok (a, s') -> Q a s'.

Lemma post_bind {A B} (m : M A) (k : A -> M B) Q s :
  post m (fun a s1 => post (k a) Q s1) s -> post (mbind k m) Q s.
Proof. intros Hm b s' (a & s1 & E1 & E2)%bind_inv. exact (Hm a s1 E1 b s' E2). Qed.

Lemma post_mono {A} (m : M A) (Q Q' : A -> lci -> Prop) s :
  post m Q s -> (forall a s', Q a s' -> Q' a s') -> post m Q' s.
Proof. intros Hm HQ a s' E. by apply HQ, Hm. Qed.

Lemma post_ret {A} (a : A) (Q : A -> lci -> Prop) s : Q a s -> post (mret a) Q s.
Proof. by intros HQ a' s' [= <- <-]. Qed.
Lemma post_throw {A} f (Q : A -> lci -> Prop) s : post (throw f) Q s.
Proof. done. Qed.
Lemma post_gets {A} (f : lci -> A) Q s : Q (f s) s -> post (gets f) Q s.
Proof. by intros HQ a s' [= <- <-]. Qed.
Lemma post_modify f Q s : Q tt (f s) -> post (modify f) Q s.
Proof. by intros HQ a s' [= <- <-]. Qed.
Lemma post_lift {A} (r : result A) (Q : A -> lci -> Prop) s : (forall a, r = Ok a -> Q a s) ->
  post (lift r) Q s.
Proof. intros HQ a s' E. unfold lift in E. destruct r; [|done]. injection E as <- <-. by apply HQ. Qed.

Lemma post_get_packet p (Q : lc_packet -> lci -> Prop) s :
  (forall k, packets s !! p = Some k -> Q k s) -> post (get_packet p) Q s.
Proof. intros HQ a s' E. unfold get_packet, lift in E. destruct (packets s !! p) eqn:Ek; [|done].
  injection E as <- <-. by apply HQ. Qed.
Lemma post_get_req r (Q : lc_req -> lci -> Prop) s :
  (forall q, reqs s !! r = Some q -> Q q s) -> post (get_req r) Q s.
Proof. intros HQ a s' E. unfold get_req, lift in E. destruct (reqs s !! r) eqn:Ek; [|done].
  injection E as <- <-. by apply HQ. Qed.
Lemma post_get_ep ep (Q : lci_ep -> lci -> Prop) s :
  (forall e, eps s !! ep = Some e -> Q e s) -> post (get_ep ep) Q s.
Proof. intros HQ a s' E. unfold get_ep, lift in E. destruct (eps s !! ep) eqn:Ek; [|done].
  injection E as <- <-. by apply HQ. Qed.
Lemma post_get_dev i (Q : lc_server -> lci -> Prop) s :
  (forall d, lcg_dev s !! i = Some d -> Q d s) -> post (get_dev i) Q s.
Proof. intros HQ a s' E. unfold get_dev, lift in E. destruct (lcg_dev s !! i) eqn:Ek; [|done].
  injection E as <- <-. by apply HQ. Qed.
Lemma post_upd_packet p f (Q : unit -> lci -> Prop) s :
  (forall k, packets s !! p = Some k -> Q tt (set_packets (fun m => <[p := f k]> m) s)) ->
    post (upd_packet p f) Q s.
Proof. intros HQ. apply post_bind, post_get_packet. intros k Hk. by apply post_modify, HQ. Qed.
Lemma post_upd_req r f (Q : unit -> lci -> Prop) s :
  (forall q, reqs s !! r = Some q -> Q tt (set_reqs (fun m => <[r := f q]> m) s)) -> post (upd_req r f) Q s.
Proof. intros HQ. apply post_bind, post_get_req. intros k Hk. by apply post_modify, HQ. Qed.
Lemma post_mem_load a n (Q : list Z -> lci -> Prop) s : (forall l, Q l s) -> post (mem_load a n) Q s.
Proof. intros HQ l s' E. unfold mem_load, lift in E. destruct (load_bytes _ _ _); [|done].
  injection E as <- <-. by apply HQ. Qed.
Lemma post_mem_store a l (Q : unit -> lci -> Prop) s :
  (forall m, Q tt (set_memory (fun _ => m) s)) -> post (mem_store a l) Q s.
Proof. intros HQ u s' E. unfold mem_store in E. destruct (store_bytes _ _ _); [|done]. injection E as <- <-.
  by apply HQ. Qed.

(** Runs the first operation, if it is primitive. *)
Ltac mprim :=
  lazymatch goal with
  | |- post (mbind _ _) _ _ => apply post_bind; mprim
  | |- post (mret _) _ _ => apply post_ret
  | |- post (throw _) _ _ => apply post_throw
  | |- post (gets _) _ _ => apply post_gets
  | |- post (modify _) _ _ => apply post_modify
  | |- post (emit _) _ _ => apply post_modify
  | |- post (lift _) _ _ => apply post_lift
  | |- post (get_packet _) _ _ => apply post_get_packet
  | |- post (put_packet _ _) _ _ => apply post_modify
  | |- post (get_req _) _ _ => apply post_get_req
  | |- post (put_req _ _) _ _ => apply post_modify
  | |- post (get_ep _) _ _ => apply post_get_ep
  | |- post (put_ep _ _) _ _ => apply post_modify
  | |- post (get_dev _) _ _ => apply post_get_dev
  | |- post (upd_packet _ _) _ _ => apply post_upd_packet
  | |- post (upd_req _ _) _ _ => apply post_upd_req
  | |- post (mem_load _ _) _ _ => apply post_mem_load
  | |- post (mem_store _ _) _ _ => apply post_mem_store
  | |- _ => idtac
  end.

(** ** What the server owes *)

(** Posted for a message: the server will serve its arrival, or give the packet back.
    Sent: it will serve the completion.  Announced to a peer that then writes: it will serve
    the signal.  Polled: the client will give it back. *)
Inductive ticket : Type := TRecv (p : Z) | TSend (p : Z) | TImm (p : Z) | THand (p : Z).

#[export] Instance ticket_eq_dec : EqDecision ticket.
Proof. solve_decision. Defined.

Definition ticket_of (x : ticket) : Z := match x with TRecv p | TSend p | TImm p | THand p => p end.

(** What a call of the server's interface leads to.  A message that announces a buffer
    lets the peer write there and signal. *)
Definition tickets_of (ev : event) : list ticket :=
  match ev with
  | EvSendm _ _ _ p proto =>
      TSend p :: if PROTO_GET_PROTO proto =? LC_PROTO_RTR then [TImm p] else []
  | EvPutm _ _ _ _ _ _ p | EvPutms _ _ _ _ _ _ _ p | EvPutl _ _ _ _ _ _ _ p
  | EvPutls _ _ _ _ _ _ _ _ p | EvRmaRtr _ _ _ _ _ _ _ p => [TSend p]
  | _ => []
  end.
Definition tickets (evs : list event) : list ticket := concat (tickets_of <$> evs).

Definition owed (p : Z) (t : place) : list ticket :=
  match t with
  | Posted => [TRecv p] | Sending => [TSend p] | Handshake => [TSend p; TImm p]
  | Awaiting => [TImm p] | InHand => [THand p] | _ => []
  end.

Lemma tickets_app l1 l2 : tickets (l1 ++ l2) = tickets l1 ++ tickets l2.
Proof. unfold tickets. by rewrite fmap_app, concat_app. Qed.

Lemma proto_of_make g pr meta : 0 <= pr < 4 -> PROTO_GET_PROTO (MAKE_PROTO g pr meta) = pr.
Proof.
  intros Hp. unfold PROTO_GET_PROTO, MAKE_PROTO, u32. apply Z.bits_inj'. intros n Hn. rewrite Z.land_spec.
  change 3 with (Z.ones 2). rewrite Z.testbit_ones_nonneg by lia. destruct (Z.ltb_spec n 2) as [Hlt|Hge].
  - rewrite andb_true_r, Z.mod_pow2_bits_low, !Z.lor_spec, !Z.shiftl_spec_low by lia. by rewrite !orb_false_r.
  - rewrite andb_false_r. symmetry. apply Z.bits_above_log2; [lia|].
    destruct (decide (pr = 0)) as [->|]; [cbn; lia|]. apply Z.log2_lt_pow2; [lia|].
    apply Z.lt_le_trans with (2 ^ 2); [lia|]. by apply Z.pow_le_mono_r.
Qed.

(** From [s] to [s'] nothing was asked of the server that it must answer for. *)
Definition silent (s s' : lci) : Prop := exists evs, trace s' = trace s ++ evs /\ tickets evs = [].

Lemma silent_same s s' : trace s' = trace s -> silent s s'.
Proof. intros E. exists []. by rewrite app_nil_r. Qed.
Lemma silent_emit s ev : tickets_of ev = [] -> silent s (set_trace (fun t => t ++ [ev]) s).
Proof. intros E. exists [ev]. split; [done|]. unfold tickets. cbn. by rewrite E. Qed.
#[export] Instance silent_trans : Transitive silent.
Proof.
  intros s1 s2 s3 (e1 & E1 & H1) (e2 & E2 & H2). exists (e1 ++ e2).
  rewrite tickets_app, H1, H2, E2, E1. by rewrite app_assoc.
Qed.

(** Packet [p] went to a place where the server owes for it what it was asked. *)
Definition goes (s : lci) (o : gmap Z place) (p : Z) (s' : lci) : Prop :=
  exists t evs, placed s' (<[p := t]> o) /\ trace s' = trace s ++ evs /\ tickets evs = owed p t.

Lemma goes_silent s s1 o p s' : silent s s1 -> goes s1 o p s' -> goes s o p s'.
Proof.
  intros (e1 & E1 & H1) (t & e2 & Hp & E2 & H2). exists t, (e1 ++ e2).
  split; [done|]. by rewrite tickets_app, H1, E2, E1, app_assoc.
Qed.

Lemma goes_kept s o p s' t : placed s' (<[p := t]> o) -> kept t -> silent s s' -> goes s o p s'.
Proof. intros Hp Ht (evs & E & He). exists t, evs. split_and!; [done..|]. rewrite He. by destruct t. Qed.

(** ** The pool of a device *)

Section custody.
Context `{Build, Server, Client, Platform}.
Implicit Types (s : lci) (o : gmap Z place) (p : Z) (k : lc_packet) (e : lci_ep).

Lemma with_pool_eq s i d g pool :
  set_dev i (LcServer pool (rep d) (curr_addr d) (heap_ptr d)) (set_pool_g g s) = with_pool s i d g pool.
Proof. done. Qed.

Lemma pool_put_post dev p s o t : placed s o -> o !! p = Some t -> ~ kept t ->
  post (pool_put dev p) (fun _ s' => placed s' (<[p := InPool dev]> o) /\ trace s' = trace s) s.
Proof.
  intros Hp Ho Ht. unfold pool_put. mprim. intros d Hd. do 3 mprim. intros [g pool] E. do 2 mprim.
  split; [|done].
  destruct (put_inv _ _ _ _ _ _ (proj1 (pl_pools _ _ Hp _ _ Hd)) (pl_wid _ _ Hp) E) as (Hf & Hk & He & Hoth).
  by eapply (placed_put s o dev d g pool p t).
Qed.

Lemma set_pool_g_same s : set_pool_g (pool_g s) s = s.
Proof. by destruct s. Qed.

Lemma put_to_post e p pid s o t : placed s o -> o !! p = Some t -> ~ kept t ->
  post (ep_pool_put_to e p pid) (fun _ s' => placed s' (<[p := InPool (server e)]> o) /\ trace s' = trace s) s.
Proof.
  intros Hp Ho Ht. unfold ep_pool_put_to. mprim. intros d Hd. mprim. intros pool E. mprim. split; [|done].
  destruct (put_to_inv _ _ _ _ _ (proj1 (pl_pools _ _ Hp _ _ Hd)) E) as (Hf & Hk & He).
  rewrite <- (set_pool_g_same s) at 1. rewrite with_pool_eq.
  eapply (placed_put s o _ d _ pool p t); try done. apply others_same.
Qed.

Lemma placed_rands s o l : placed s o -> Forall (fun r => 0 <= r) l -> placed (set_rands l s) o.
Proof. intros [] Hl. by split. Qed.

Lemma next_rand_post s o : placed s o ->
  post next_rand (fun r s' => 0 <= r /\ placed s' o /\ exists l, s' = set_rands l s) s.
Proof.
  intros Hp. unfold next_rand. mprim. pose proof (pl_rands _ _ Hp) as Hr.
  destruct (rands s) as [|r l] eqn:E; mprim.
  - split; [done|]. split; [done|]. exists []. destruct s. cbn in E. by subst.
  - mprim. apply Forall_cons in Hr as [Hr Hl]. split; [done|]. split; [by apply placed_rands|]. by exists l.
Qed.

Lemma get_nb_post dev s o : placed s o ->
  post (pool_get_nb dev) (fun p s' => trace s' = trace s /\
    (p = NULL /\ placed s' o \/
     p <> NULL /\ o !! p = Some (InPool dev) /\ placed s' (<[p := Posted]> o))) s.
Proof.
  intros Hp. unfold pool_get_nb. mprim. intros d Hd. do 3 mprim.
  eapply post_mono; [by eapply next_rand_post|]. cbn beta. intros r s1 (Hr & Hp1 & l & ->). mprim.
  intros [[g pool] p] E.
  do 3 mprim. split; [done|].
  destruct (get_nb_inv _ _ _ _ _ _ _ (proj1 (pl_pools _ _ Hp _ _ Hd)) (pl_wid _ _ Hp) Hr (pool_nonnull _ _ _ _ Hp Hd) E)
    as (Hf & Hk & Htk & Hoth).
  exact (placed_taken (set_rands l s) o dev d g pool p Hp1 Hd Hf Hk Hoth Htk).
Qed.

Lemma get_local_post dev s o : placed s o ->
  post (pool_get_local dev) (fun _ s' => placed s' o /\ trace s' = trace s) s.
Proof.
  intros Hp. unfold pool_get_local. mprim. intros d Hd. do 3 mprim. intros [[g pool] pid] E. do 3 mprim.
  split; [|done].
  destruct (get_local_inv _ _ _ _ _ _ (proj1 (pl_pools _ _ Hp _ _ Hd)) (pl_wid _ _ Hp) E) as (Hf & Hk & He & _ & Hoth).
  assert (taken NULL (pool_elems (pkpool d)) (pool_elems pool)) as Htk by (left; by rewrite He).
  by destruct (placed_taken s o dev d g pool NULL Hp Hd Hf Hk Hoth Htk) as [[_ ?]|[? _]].
Qed.

(** ** Completions *)

Lemma pk_free_post ep p s o : placed s o -> o !! p = Some Posted ->
  post (lci_pk_free ep p) (fun _ s' => goes s o p s') s.
Proof.
  intros Hp Ho. unfold lci_pk_free. mprim. intros e He.
  eapply post_mono; [by eapply pool_put_post; [exact Hp|exact Ho|intros []]|].
  cbn beta. intros [] s' [Hp' Ht]. eapply goes_kept; [exact Hp'|done|by apply silent_same].
Qed.

Lemma pk_free_data_post ep p s o : placed s o -> o !! p = Some Posted ->
  post (lci_pk_free_data ep p) (fun _ s' => goes s o p s') s.
Proof.
  intros Hp Ho. unfold lci_pk_free_data. mprim. intros e He. mprim. intros k Hk. destruct (negb _).
  - eapply post_mono; [by eapply put_to_post; [exact Hp|exact Ho|intros []]|].
    cbn beta. intros [] s' [Hp' Ht]. eapply goes_kept; [exact Hp'|done|by apply silent_same].
  - eapply post_mono; [by eapply pool_put_post; [exact Hp|exact Ho|intros []]|].
    cbn beta. intros [] s' [Hp' Ht]. eapply goes_kept; [exact Hp'|done|by apply silent_same].
Qed.

(** The packet would be queued by its own request. *)
Definition own_back (s : lci) (ep p : Z) : Prop :=
  forall e q k, eps s !! ep = Some e -> ep_to e = Cq q -> packets s !! p = Some k -> pk_req k = req_s_of p.

Lemma req_s_of_inj p p' : req_s_of p = req_s_of p' -> p = p'.
Proof. unfold req_s_of. lia. Qed.

Lemma placed_queued s o ep e q q' p k x : placed s o -> eps s !! ep = Some e -> ep_to e = Cq q ->
  packets s !! p = Some k -> reqs s !! req_s_of p = Some x -> parent x = p ->
  o !! p = Some Posted -> cq_push q (req_s_of p) = Ok q' ->
    placed (with_ep s ep (with_cq e q')) (<[p := InQueue ep]> o).
Proof.
  intros Hp He Hq Hk Hx Hxp Ho E. destruct (pl_eps _ _ Hp ep e He) as (_ & _ & Htf). unfold to_fine in Htf.
  rewrite Hq in Htf. destruct Htf as [Hwf Hnd]. pose proof (cq_push_spec q (req_s_of p) Hwf) as Hpush.
  case_decide; [congruence|]. destruct Hpush as (q1 & E1 & Hwf' & Hel). rewrite E in E1. injection E1 as <-.
  assert (req_s_of p ∉ cq_elems q) as Hni.
  { intros Hin%(elem_of_queue s o ep e q p Hp He Hq). congruence. }
  eapply (placed_cq s o); try done.
  - rewrite Hel. apply NoDup_app. split; [done|]. split; [|apply NoDup_singleton].
    intros r Hr ->%list_elem_of_singleton. done.
  - intros p1 t1 Ht1 Hne. destruct (decide (p1 = p)) as [->|]; [|by rewrite lookup_insert_ne].
    rewrite lookup_insert_eq, Ho. split; [congruence|]. intros [= <-]. by destruct Ht1.
  - intros p1. rewrite Hel, elem_of_app, list_elem_of_singleton, <- (elem_of_queue s o ep e q p1 Hp He Hq).
    destruct (decide (p1 = p)) as [->|Hne]; [rewrite lookup_insert_eq; tauto|rewrite lookup_insert_ne by done].
    split; [by left|]. intros [?|?%req_s_of_inj]; done.
  - intros p1 t1 Hp1. destruct (decide (p1 = p)) as [->|]; [|rewrite lookup_insert_ne in Hp1 by done;
      by apply (pl_packets _ _ Hp)].
    rewrite lookup_insert_eq in Hp1. injection Hp1 as <-. destruct (pl_packets _ _ Hp p _ Ho) as [Hpos _].
    split; [done|]. exists k. split; [done|]. by exists x.
Qed.

Lemma ce_queue_post ep p s o : placed s o -> o !! p = Some Posted -> own_back s ep p ->
  post (lci_ce_queue ep p) (fun _ s' => goes s o p s') s.
Proof.
  intros Hp Ho Hb. unfold lci_ce_queue. mprim. intros k Hk. mprim. intros x Hx. mprim. intros e He. cbn in He.
  destruct (ep_to e) as [| |q] eqn:Hq; try apply post_throw. mprim. intros q' Eq. mprim.
  pose proof (Hb e q k He Hq Hk) as Hr. rewrite Hr in *. set (s1 := set_reqs _ s) in *.
  assert (placed s1 o) as Hp1.
  { eapply placed_quiet; [exact Hp|by split|]. intros p1 t k1 Ho1 Hk1 Hf. exists k1. split; [done|].
    destruct (decide (p1 = p)) as [->|Hne].
    - rewrite Ho in Ho1. by injection Ho1 as <-.
    - eapply (fine_same s); [done| |done]. intros q1 Hq1. cbn. exists q1. rewrite lookup_insert_ne; [done|].
      by intros ?%req_s_of_inj. }
  eapply (goes_kept _ _ _ _ (InQueue ep)); [|done|by apply silent_same].
  eapply (placed_queued s1 o ep e q q' p k (rq_set_parent p x)); try done. apply lookup_insert_eq.
Qed.

Lemma ce_signal_post ep p s o : placed s o -> o !! p = Some Posted ->
  post (lci_ce_signal ep p) (fun _ s' => goes s o p s') s.
Proof.
  intros Hp Ho. unfold lci_ce_signal. mprim. intros k Hk. mprim. intros q Hq.
  eapply post_mono; [by eapply pk_free_data_post; [eapply placed_req|]|]. cbn beta. intros [] s'.
  by apply goes_silent, silent_same.
Qed.

Lemma ce_am_post ep p s o : placed s o -> o !! p = Some Posted ->
  post (lci_ce_am ep p) (fun _ s' => goes s o p s') s.
Proof.
  intros Hp Ho. unfold lci_ce_am. mprim. intros k Hk. mprim. intros e He.
  destruct (ep_to e); try apply post_throw. mprim.
  eapply post_mono; [by eapply pk_free_data_post; [eapply placed_trace|]|]. cbn beta. intros [] s'.
  by apply goes_silent, silent_emit.
Qed.

(** The counters of an endpoint are not about places. *)
Lemma placed_count s o ep e c n : placed s o -> eps s !! ep = Some e ->
  placed (with_ep s ep (LciEp c (gid e) n (server e) (ep_from e) (ep_to e))) o.
Proof.
  intros Hp He. destruct (pl_eps _ _ Hp ep e He) as (_ & Hff & Htf). eapply (placed_ep s o); try done.
  - intros q Hq. by exists q.
  - intros p key. rewrite (pl_places _ _ Hp) by done. cbn. rewrite lookup_insert_eq. naive_solver.
  - intros p. rewrite (pl_places _ _ Hp) by done. cbn. rewrite lookup_insert_eq. naive_solver.
  - apply (pl_packets _ _ Hp).
Qed.

Lemma ce_glob_post ep s o : placed s o -> post (lci_ce_glob ep) (fun _ s' => placed s' o /\
  trace s' = trace s) s.
Proof. intros Hp. unfold lci_ce_glob. mprim. intros e He. mprim. split; [|done]. by apply placed_count. Qed.

Lemma dispatch_post ep p c s o : placed s o -> o !! p = Some Posted -> own_back s ep p ->
  post (lci_ce_dispatch ep p c) (fun _ s' => goes s o p s') s.
Proof.
  intros Hp Ho Hb. unfold lci_ce_dispatch. apply post_bind.
  eapply (post_mono _ (fun _ s1 => goes s o p s1)).
  - destruct (_ && _); [by apply ce_signal_post|]. destruct (_ && _); [by apply ce_queue_post|].
    destruct (_ && _); [by apply ce_am_post|by apply pk_free_data_post].
  - intros [] s1 (t & evs & Hp1 & Ht & He). destruct (_ && _); [|mprim; by exists t, evs].
    eapply post_mono; [by eapply ce_glob_post|]. cbn beta. intros [] s' [Hp' Ht']. exists t, evs.
    by rewrite Ht'.
Qed.

(** ** Rendezvous *)

(** The server takes a packet for a send, with [l] to come of it. *)
Lemma placed_sent s o p k t : placed s o -> o !! p = Some Posted -> packets s !! p = Some k -> ~ kept t ->
  fine s p t k -> placed s (<[p := t]> o).
Proof. intros Hp Ho Hk Ht Hf. eapply placed_move; [exact Hp|exact Ho|intros []|done|done|done]. Qed.

Lemma pk_init_post ep pid proto p s o (Q : unit -> lci -> Prop) : placed s o -> o !! p = Some Posted ->
  (forall k s1, s1 = set_packets (fun m => <[p := k]> m) s -> placed s1 o -> pk_ep k = ep ->
     pk_proto k = i16 proto -> pk_ref k = 1 ->
     (forall k0, packets s !! p = Some k0 -> pk_req k = pk_req k0) -> Q tt s1) ->
  post (lci_pk_init ep pid proto p) Q s.
Proof.
  intros Hp Ho HQ. unfold lci_pk_init. mprim. intros k Hk. eapply HQ; [reflexivity|..]; try done.
  - eapply (placed_packet s o p (fun k => pk_set_proto _ _)); [done|done|].
    intros t. rewrite Ho. by intros [= <-].
  - intros k0. rewrite Hk. by intros [= <-].
Qed.

Lemma handle_rtr_post ep p s o : placed s o -> o !! p = Some Posted ->
  post (lci_handle_rtr ep p) (fun _ s' => goes s o p s') s.
Proof.
  intros Hp Ho. unfold lci_handle_rtr. apply post_bind. eapply pk_init_post; [done|done|].
  intros k s1 -> Hp1 _ Hpr _ _. mprim. intros e He. mprim. intros k1 Hk1. cbn in Hk1.
  rewrite lookup_insert_eq in Hk1.
  injection Hk1 as <-. mprim. intros q Hq. destruct (pk_data k) as [| |r tgt rk sid]; try apply post_throw.
  mprim.
  exists Sending, [EvRmaRtr (server e) (rhandle q) (rts_src_addr r) tgt rk (rts_size r) sid p].
  split; [|done]. apply placed_trace. eapply placed_sent; [done|done|apply lookup_insert_eq|intros []|].
  cbn. rewrite Hpr. done.
Qed.

Lemma handle_rts_post ep p s o : placed s o -> o !! p = Some Posted -> own_back s ep p ->
  post (lci_handle_rts ep p) (fun _ s' => goes s o p s') s.
Proof.
  intros Hp Ho Hb. unfold lci_handle_rts. apply post_bind. eapply pk_init_post; [done|done|].
  intros k s1 -> Hp1 Hep Hpr _ Hreq. mprim. intros e He. cbn in He. mprim. intros k1 Hk1. cbn in Hk1.
  rewrite lookup_insert_eq in Hk1.
  injection Hk1 as <-. mprim. intros q Hq. mprim. intros r _. apply post_bind. unfold lci_prepare_rtr.
  mprim. intros e1 He1. cbn in He1. rewrite He in He1. injection He1 as <-. mprim. intros d Hd. do 2 mprim.
  set (mem := lc_server_rma_reg _ _ _ _). mprim. intros k1 Hk1. cbn in Hk1. rewrite lookup_insert_eq in Hk1.
  injection Hk1 as <-. mprim. intros r' _. do 2 mprim. set (k' := pk_set_data _ _).
  set (s1 := set_packets _ s) in *.
  set (s2 := set_trace _ s1). set (s3 := set_packets (fun m => <[p := k']> m) s2).
  eexists Handshake, [EvRmaReg _ _ _ _; EvSendm _ _ _ p _]. split; [|split].
  - apply placed_trace. eapply placed_sent; [|exact Ho|apply lookup_insert_eq|intros []|].
    + eapply (placed_packet s2 o p (fun _ => k')); [by apply placed_trace|apply lookup_insert_eq|].
      intros t. rewrite Ho. by intros [= <-].
    + cbn -[Z.eqb]. split; [by rewrite Hpr|]. split; [done|]. exists e. change (pk_ep k') with (pk_ep k).
      rewrite Hep. split; [done|].
      intros c Hc. destruct (pl_packets _ _ Hp p _ Ho) as (_ & k0 & Hk0 & _). cbn. rewrite (Hreq k0 Hk0).
      by eapply Hb.
  - cbn [trace set_trace s2 s3 set_packets s1]. rewrite <- app_assoc. reflexivity.
  - unfold tickets. cbn. by rewrite proto_of_make.
Qed.

(** ** Matching *)

Definition servers_nodup (h : lc_hash) : Prop := forall key, valid_key key -> NoDup (waiting h key SERVER).

Lemma hash_server h key p h' v code : table_wf h -> servers_nodup h -> valid_key key ->
  p ∉ waiting h key SERVER -> lc_hash_insert h key p SERVER = Ok (h', v, code) ->
  table_wf h' /\ servers_nodup h' /\ forall key' x, valid_key key' ->
    x ∈ waiting h' key' SERVER <-> x ∈ waiting h key' SERVER \/ code <> 0 /\ key' = key /\ x = p.
Proof.
  intros Hwf Hnd Hk Hni E.
    destruct (lc_hash_insert_spec h key p SERVER Hwf Hk) as (h1 & v1 & c1 & E1 & Hwf1 & Hm & Ho).
  rewrite E in E1. injection E1 as <- <- <-. split; [done|].
  assert (waiting h' key SERVER = if decide (code <> 0) then waiting h key SERVER ++ [p] else waiting h key SERVER) as Hw.
  { cbn in Hm. by destruct (waiting h key CLIENT); destruct Hm as (_ & -> & _ & ->). }
  split; [intros key' Hk'|intros key' x Hk']; (destruct (decide (key' = key)) as [->|Hne];
    [rewrite Hw|rewrite (Ho key') by done]).
  - case_decide; [|by apply Hnd]. apply NoDup_app. split; [by apply Hnd|]. split; [|apply NoDup_singleton].
    by intros x Hx ->%list_elem_of_singleton.
  - by apply Hnd.
  - case_decide; [rewrite elem_of_app, list_elem_of_singleton|]; tauto.
  - tauto.
Qed.

Lemma hash_client h key r h' v code : table_wf h -> servers_nodup h -> valid_key key ->
  lc_hash_insert h key r CLIENT = Ok (h', v, code) ->
  table_wf h' /\ servers_nodup h' /\ (code = 0 -> v ∈ waiting h key SERVER) /\ forall key' x, valid_key key' ->
    x ∈ waiting h' key' SERVER <-> x ∈ waiting h key' SERVER /\ ~ (code = 0 /\ key' = key /\ x = v).
Proof.
  intros Hwf Hnd Hk E.
    destruct (lc_hash_insert_spec h key r CLIENT Hwf Hk) as (h1 & v1 & c1 & E1 & Hwf1 & Hm & Ho).
  rewrite E in E1. injection E1 as <- <- <-. split; [done|].
  assert (waiting h key SERVER = if decide (code = 0) then v :: waiting h' key SERVER else waiting h' key SERVER) as Hw.
  { cbn in Hm. destruct (waiting h key SERVER); destruct Hm as (-> & -> & Hw & _); by rewrite Hw. }
  pose proof (Hnd key Hk) as Hndk. split; [|split].
  - intros key' Hk'. destruct (decide (key' = key)) as [->|Hne]; [|rewrite (Ho key') by done; by apply Hnd].
    rewrite Hw in Hndk. case_decide; [by apply NoDup_cons in Hndk as [_ ?]|done].
  - intros ->. rewrite Hw. by left.
  - intros key' x Hk'. destruct (decide (key' = key)) as [->|Hne]; [|rewrite (Ho key') by done; tauto].
    rewrite Hw in Hndk |- *. case_decide as Hc; [|tauto]. apply NoDup_cons in Hndk as [Hni _].
    rewrite elem_of_cons. split; [intros Hx; split; [by right|intros (_ & _ & ->); done]|].
    intros [[->|Hx] Hn]; [destruct Hn; done|done].
Qed.

(** An endpoint with a table has no queue. *)
Definition no_queue (s : lci) (ep : Z) : Prop := forall e q, eps s !! ep = Some e -> ep_to e <> Cq q.

Lemma tbl_no_queue s o ep e h : placed s o -> eps s !! ep = Some e -> ep_from e = Tbl h -> no_queue s ep.
Proof.
  intros Hp He Hh e1 q He1. rewrite He in He1. injection He1 as <-.
  destruct (pl_eps _ _ Hp ep e He) as (_ & Hff & _). unfold from_fine in Hff. rewrite Hh in Hff. by apply Hff.
Qed.

Lemma no_queue_back s s' ep p : no_queue s ep -> eps s' = eps s -> own_back s' ep p.
Proof. intros Hn E e q k He Hq. rewrite E in He. by destruct (Hn e q He). Qed.

(** What an insertion leaves alone. *)
Record kept_by_insert (s s' : lci) (ep : Z) : Prop := {
  ki_packets : packets s' = packets s; ki_reqs : reqs s' = reqs s; ki_trace : trace s' = trace s;
  ki_queue : no_queue s' ep }.

Lemma insert_server_post ep key p s o : placed s o -> o !! p = Some Posted -> valid_key key ->
  post (ep_hash_insert ep key p SERVER) (fun '(v, code) s' => kept_by_insert s s' ep /\
    placed s' (if code =? 0 then o else <[p := InTable ep key]> o)) s.
Proof.
  intros Hp Ho Hkey. unfold ep_hash_insert. mprim. intros e He.
  destruct (ep_from e) as [| |h] eqn:Hh; try apply post_throw.
  mprim. intros [[h' v] code] E. do 2 mprim. pose proof (pl_eps _ _ Hp ep e He) as (_ & Hff & _).
  unfold from_fine in Hff. rewrite Hh in Hff. destruct Hff as (Hwf & Hnd & Hnq).
  assert (p ∉ waiting h key SERVER) as Hni.
  { intros Hin. assert (o !! p = Some (InTable ep key)) by (by apply (elem_of_tbl s o ep e h)). congruence. }
  destruct (hash_server _ _ _ _ _ _ Hwf Hnd Hkey Hni E) as (Hwf' & Hnd' & Hw).
  set (o' := if code =? 0 then o else _). change (LciEp _ _ _ _ _ _) with (with_tbl e h').
  assert (placed (with_ep s ep (with_tbl e h')) o') as Hp'; [|split; [|done]].
  - eapply (placed_tbl s o); try done.
    + intros p1 t Ht Hne. unfold o'. destruct (code =? 0); [done|].
      destruct (decide (p1 = p)) as [->|]; [|by rewrite lookup_insert_ne].
      rewrite lookup_insert_eq, Ho. split; [intros [= <-]; by destruct (Hne key)|intros [= <-]; by destruct Ht].
    + intros p1 key'. pose proof (elem_of_tbl s o ep e h p1 key' Hp He Hh) as Hel. unfold o'.
      destruct (Z.eqb_spec code 0) as [->|Hc].
      * rewrite Hel. split; (intros [Hv Hin]; split; [done|]); apply Hw in Hin || apply Hw; tauto.
      * destruct (decide (p1 = p)) as [->|Hne];
          [rewrite lookup_insert_eq|rewrite lookup_insert_ne, Hel by done].
        -- split; [intros [= <-]; split; [done|]; apply Hw; tauto|].
           intros [Hv [Hin|(_ & -> & _)]%Hw]; [|done|done].
           by rewrite (proj2 Hel (conj Hv Hin)) in Ho.
        -- split; (intros [Hv Hin]; split; [done|]); apply Hw in Hin || apply Hw; tauto.
    + intros p1 t. unfold o'. destruct (code =? 0); [apply (pl_packets _ _ Hp)|].
      destruct (decide (p1 = p)) as [->|]; [|rewrite lookup_insert_ne by done; apply (pl_packets _ _ Hp)].
      rewrite lookup_insert_eq. intros [= <-]. destruct (pl_packets _ _ Hp p _ Ho) as (? & k & ? & _).
      split; [done|]. by exists k.
  - split; try done. eapply (tbl_no_queue _ o' ep (with_tbl e h') h'); [done|cbn; apply lookup_insert_eq|done].
Qed.

Lemma insert_client_post ep key r s o : placed s o -> valid_key key ->
  post (ep_hash_insert ep key r CLIENT) (fun '(v, code) s' => kept_by_insert s s' ep /\
    if code =? 0 then o !! v = Some (InTable ep key) /\ placed s' (<[v := Posted]> o) else placed s' o) s.
Proof.
  intros Hp Hkey. unfold ep_hash_insert. mprim. intros e He.
  destruct (ep_from e) as [| |h] eqn:Hh; try apply post_throw.
  mprim. intros [[h' v] code] E. do 2 mprim. pose proof (pl_eps _ _ Hp ep e He) as (_ & Hff & _).
  unfold from_fine in Hff. rewrite Hh in Hff. destruct Hff as (Hwf & Hnd & Hnq).
  destruct (hash_client _ _ _ _ _ _ Hwf Hnd Hkey E) as (Hwf' & Hnd' & Hv0 & Hw).
  change (LciEp _ _ _ _ _ _) with (with_tbl e h'). set (s' := set_eps _ s).
  assert (forall o', placed s' o' -> kept_by_insert s s' ep) as Hki.
  { intros o' Hp'. split; try done. eapply (tbl_no_queue _ o' ep (with_tbl e h') h'); [done|cbn;
      apply lookup_insert_eq|done]. }
  pose proof (fun p1 key' => elem_of_tbl s o ep e h p1 key' Hp He Hh) as Hel.
  destruct (Z.eqb_spec code 0) as [->|Hc].
  - assert (o !! v = Some (InTable ep key)) as Hov by (apply Hel; split; [done|by apply Hv0]).
    assert (placed s' (<[v := Posted]> o)) as Hp'; [|by eauto]. eapply (placed_tbl s o); try done.
    + intros p1 t Ht Hne. destruct (decide (p1 = v)) as [->|]; [|by rewrite lookup_insert_ne].
      rewrite lookup_insert_eq, Hov. split; intros [= <-]; [done|by destruct (Hne key)].
    + intros p1 key'. destruct (decide (p1 = v)) as [->|Hne];
        [rewrite lookup_insert_eq|rewrite lookup_insert_ne, Hel by done].
      * split; [done|]. intros [Hv [Hin Hn]%Hw]; [|done].
        assert (o !! v = Some (InTable ep key')) as E' by (by apply Hel).
        rewrite Hov in E'. injection E' as ->. by destruct Hn.
      * split; (intros [Hv Hin]; split; [done|]); apply Hw in Hin || apply Hw; tauto.
    + intros p1 t. destruct (decide (p1 = v)) as [->|]; [|rewrite lookup_insert_ne by done;
        apply (pl_packets _ _ Hp)].
      rewrite lookup_insert_eq. intros [= <-]. destruct (pl_packets _ _ Hp v _ Hov) as (? & k & ? & _).
      split; [done|]. by exists k.
  - assert (placed s' o) as Hp'; [|by eauto]. eapply (placed_tbl s o); try done; [|apply (pl_packets _ _ Hp)].
    intros p1 key'. rewrite Hel. split; (intros [Hv Hin]; split; [done|]); apply Hw in Hin || apply Hw; tauto.
Qed.

(** ** Arrivals *)

(** A protocol word an endpoint of capability [c] takes. *)
Definition takes (c proto : Z) : Prop :=
  has_exp && has_cap c EP_AR_EXP || has_dyn && has_cap c EP_AR_DYN || has_imm && has_cap c EP_AR_IMM = true /\
  PROTO_GET_PROTO proto <> LC_PROTO_LONG.

(** The packet has its own request, and that is from a rank. *)
Definition own (s : lci) (p : Z) : Prop := forall k, packets s !! p = Some k -> pk_req k = req_s_of p.
Definition ranked (s : lci) (p : Z) : Prop :=
  forall q, reqs s !! req_s_of p = Some q -> 0 <= State.rank q < 2 ^ 31 - 1.

Lemma get_proto_cases proto : PROTO_GET_PROTO proto <> LC_PROTO_LONG ->
  PROTO_GET_PROTO proto = LC_PROTO_DATA \/ PROTO_GET_PROTO proto = LC_PROTO_RTS \/ PROTO_GET_PROTO proto = LC_PROTO_RTR.
Proof.
  unfold PROTO_GET_PROTO, LC_PROTO_DATA, LC_PROTO_RTS, LC_PROTO_RTR, LC_PROTO_LONG.
  change 3 with (2 ^ 2 - 1) at 1 3 4 5.
  rewrite land_mask by lia. pose proof (Z.mod_pos_bound proto (2 ^ 2) ltac:(lia)). lia.
Qed.

Lemma get_meta_range proto : 0 <= PROTO_GET_META proto < 2 ^ 16.
Proof. unfold PROTO_GET_META. change 65535 with (2 ^ 16 - 1). rewrite land_mask by lia.
  apply Z.mod_pos_bound. lia. Qed.

(** Writes to the packet at hand. *)
Lemma placed_write s o p f k : placed s o -> o !! p = Some Posted -> packets s !! p = Some k ->
  placed (set_packets (fun m => <[p := f k]> m) s) o.
Proof. intros Hp Ho Hk. eapply placed_packet; [done|done|]. intros t. rewrite Ho. by intros [= <-]. Qed.

Lemma recv_expl_post ep p proto c s o : placed s o -> o !! p = Some Posted -> own s p -> ranked s p ->
  PROTO_GET_PROTO proto <> LC_PROTO_LONG ->
  post (lci_serve_recv_expl ep p proto c) (fun _ s' => goes s o p s') s.
Proof.
  intros Hp Ho Hown Hrk Hpr. unfold lci_serve_recv_expl. mprim. intros k Hk. mprim. intros q Hq.
  pose proof (Hown k Hk) as Hkr. rewrite Hkr in *. pose proof (Hrk q Hq) as Hrank. set (s1 := set_reqs _ s).
  assert (placed s1 o) as Hp1 by (by eapply placed_req). mprim. intros k1 Hk1. cbn in Hk1. rewrite Hk in Hk1.
  injection Hk1 as <-. set (s2 := set_packets _ s1).
  assert (placed s2 o) as Hp2 by (by eapply (placed_write s1 o p (pk_set_proto _))).
  mprim. intros q1 Hq1. cbn in Hq1. rewrite lookup_insert_eq in Hq1. injection Hq1 as <-.
  cbn [State.rank meta rq_set_meta].
  assert (valid_key (lc_make_key (State.rank q) (PROTO_GET_META proto))) as Hkey by (apply make_key_valid;
    [done|apply get_meta_range]).
  destruct (get_proto_cases proto Hpr) as [Epr|[Epr|Epr]]; rewrite Epr;
    cbn [Z.eqb LC_PROTO_DATA LC_PROTO_RTS LC_PROTO_RTR Pos.eqb].
  - apply post_bind. eapply post_mono; [by eapply (insert_server_post ep _ p s2 o)|]. cbn beta.
    intros [v code] s3 [[Ep Er Et Hnq] Hp3].
    destruct (code =? 0); [|mprim; eapply goes_kept; [exact Hp3|done|by apply silent_same]].
    mprim. intros qv Hqv. mprim. intros q' _. mprim. intros l _. mprim. intros m. mprim. intros k3 Hk3.
    eapply post_mono; [eapply dispatch_post; [|exact Ho|by eapply no_queue_back]|].
    + eapply (placed_write _ o p (pk_set_req v)); [|done|done]. by apply placed_memory; eapply placed_req.
    + cbn beta. intros [] s4. by apply goes_silent, silent_same.
  - apply post_bind. eapply post_mono; [by eapply (insert_server_post ep _ p s2 o)|]. cbn beta.
    intros [v code] s3 [[Ep Er Et Hnq] Hp3].
    destruct (code =? 0); [|mprim; eapply goes_kept; [exact Hp3|done|by apply silent_same]].
    mprim. intros k3 Hk3. eapply post_mono; [eapply handle_rts_post; [|exact Ho|by eapply no_queue_back]|].
    + by eapply (placed_write _ o p (pk_set_req v)).
    + cbn beta. intros [] s4. by apply goes_silent, silent_same.
  - eapply post_mono; [by eapply handle_rtr_post|]. cbn beta. intros [] s4. by apply goes_silent, silent_same.
Qed.

(** [s1] is [s] but for what is not about packets. *)
Record aside (s s1 : lci) : Prop := { as_packets : packets s1 = packets s; as_silent : silent s s1 }.

Lemma own_queue s s1 ep p : own s p -> packets s1 = packets s -> own_back s1 ep p.
Proof. intros Ho E e q k _ _. rewrite E. apply Ho. Qed.

Lemma ep_alloc_post e sz r s o : placed s o ->
  post (ep_alloc e sz r) (fun _ s' => placed s' o /\ aside s s') s.
Proof.
  intros Hp. unfold ep_alloc. destruct (ep_from e) as [|f|]; try apply post_throw. mprim.
  destruct (client_alloc _ _ _) as [buf c]. mprim. unfold mem_map. mprim. mprim. intros q Hq. mprim. split.
  - eapply placed_req; [|exact Hq|done]. by apply placed_memory, placed_trace.
  - split; try done. by apply (silent_emit s (EvAlloc f sz buf)).
Qed.

Lemma init_req_post buf sz r s o : placed s o -> post (lci_init_req buf sz r) (fun _ s' => placed s' o /\
  aside s s') s.
Proof.
  intros Hp. unfold lci_init_req. mprim. intros q Hq.
  split; [eapply (placed_req s o r (fun q => rq_set_sync 0 (rq_set_size sz (rq_set_buffer buf q)))); done|].
  split; try done. by apply silent_same.
Qed.

Lemma recv_dyn_post ep p proto c s o : placed s o -> o !! p = Some Posted -> own s p ->
  PROTO_GET_PROTO proto <> LC_PROTO_LONG ->
  post (lci_serve_recv_dyn ep p proto c) (fun _ s' => goes s o p s') s.
Proof.
  intros Hp Ho Hown Hpr. unfold lci_serve_recv_dyn. mprim. intros k Hk. mprim. intros q Hq.
  pose proof (Hown k Hk) as Hkr. rewrite Hkr in *. set (s1 := set_reqs _ s).
  assert (placed s1 o) as Hp1 by (by eapply placed_req).
  assert (forall s2, silent s1 s2 -> forall s', goes s2 o p s' -> goes s o p s') as Hs
    by (intros s2 Hs2 s'; by apply goes_silent).
  mprim. intros e He. destruct (get_proto_cases proto Hpr) as [Epr|[Epr|Epr]]; rewrite Epr;
    cbn [Z.eqb LC_PROTO_DATA LC_PROTO_RTS LC_PROTO_RTR Pos.eqb].
  - mprim. intros q1 Hq1. apply post_bind. eapply post_mono; [by eapply (ep_alloc_post _ _ _ s1 o)|]. cbn beta.
    intros buf s2 [Hp2 [Ep2 Hs2]]. mprim. intros l _. mprim. intros m. mprim. intros q2 Hq2.
    eapply post_mono; [eapply dispatch_post; [|exact Ho|]|].
    + eapply placed_req; [|exact Hq2|done]. by apply placed_memory.
    + by eapply (own_queue s).
    + cbn beta. intros [] s3 Hg. eapply Hs; [exact Hs2|]. eapply goes_silent; [|exact Hg]. by apply silent_same.
  - mprim. intros r _. apply post_bind. eapply post_mono; [by eapply (ep_alloc_post _ _ _ s1 o)|]. cbn beta.
    intros buf s2 [Hp2 [Ep2 Hs2]]. apply post_bind. eapply post_mono; [by eapply init_req_post|]. cbn beta.
    intros [] s3 [Hp3 [Ep3 Hs3]]. eapply post_mono; [eapply handle_rts_post; [exact Hp3|exact Ho|]|].
    + eapply (own_queue s); [done|]. by rewrite Ep3, Ep2.
    + cbn beta. intros [] s4 Hg. eapply Hs; [|exact Hg]. by etrans.
  - eapply post_mono; [by eapply handle_rtr_post|]. cbn beta. intros [] s4. by apply goes_silent, silent_same.
Qed.

Lemma recv_imm_post ep p proto c s o : placed s o -> o !! p = Some Posted -> own s p ->
  post (lci_serve_recv_imm ep p proto c) (fun _ s' => goes s o p s') s.
Proof.
  intros Hp Ho Hown. unfold lci_serve_recv_imm. mprim. intros k Hk. mprim. intros q Hq.
  pose proof (Hown k Hk) as Hkr. mprim. intros q1 Hq1.
  eapply post_mono; [eapply dispatch_post; [|exact Ho|by eapply (own_queue s)]|].
  - eapply placed_req; [|exact Hq1|done]. by eapply placed_req.
  - cbn beta. intros [] s4. by apply goes_silent, silent_same.
Qed.

(** The word addresses an endpoint that takes it. *)
Definition addressed (s : lci) (proto : Z) : Prop :=
  forall ep e, aget (lcg_ep s) (PROTO_GET_RGID proto) = Ok ep -> eps s !! ep = Some e -> takes (cap e) proto.

Lemma serve_recv_post p proto s o : placed s o -> o !! p = Some Posted -> own s p -> ranked s p ->
  addressed s proto ->
  post (lci_serve_recv p proto) (fun _ s' => goes s o p s') s.
Proof.
  intros Hp Ho Hown Hrk Ha. unfold lci_serve_recv, ep_of_proto. apply post_bind. mprim. mprim. intros ep Hep.
  mprim. intros e He. destruct (Ha ep e Hep He) as [Hc Hpr]. unfold lci_serve_recv_dispatch.
  destruct (has_exp && _); [by apply recv_expl_post|]. destruct (has_dyn && _); [by apply recv_dyn_post|].
  destruct (has_imm && _); [by apply recv_imm_post|done].
Qed.

Lemma serve_recv_rdma_post p proto s o : placed s o -> o !! p = Some Posted -> own s p ->
  post (lci_serve_recv_rdma p proto) (fun _ s' => goes s o p s') s.
Proof.
  intros Hp Ho Hown. unfold lci_serve_recv_rdma, ep_of_proto. apply post_bind. mprim. mprim. intros ep Hep.
  mprim. intros k Hk. mprim. intros q Hq. pose proof (Hown k Hk) as Hkr. mprim. intros e He.
  eapply post_mono; [eapply dispatch_post; [|exact Ho|by eapply (own_queue s)]|].
  - by eapply placed_req.
  - cbn beta. intros [] s4. by apply goes_silent, silent_same.
Qed.

(** ** Local completions *)

Lemma placed_loose s o p t : placed s o -> o !! p = Some t -> ~ kept t -> placed s (<[p := Posted]> o).
Proof.
  intros Hp Ho Ht. destruct (pl_packets _ _ Hp p t Ho) as (_ & k & Hk & _).
  eapply (placed_move s o p t k); try done. by intros [].
Qed.

Lemma goes_insert s o p s' t : goes s (<[p := t]> o) p s' -> goes s o p s'.
Proof. intros (t' & evs & Hp & E). exists t', evs. by rewrite insert_insert_eq in Hp. Qed.

(** One of the two events of a rendezvous: the first only drops the count. *)
Lemma unref_post p s o t k r : placed s o -> o !! p = Some t -> ~ kept t -> packets s !! p = Some k ->
  pk_proto k = LC_PROTO_RTR -> pk_ref k = r + 1 -> r = 0 \/ r = 1 -> back_ok s p k ->
  post (z ← pk_unref p; dispatch_if z (pk_ep k) p)
    (fun _ s' => if r =? 0 then goes s o p s' else
       trace s' = trace s /\ forall t', t' = Sending \/ t' = Awaiting -> placed s' (<[p := t']> o)) s.
Proof.
  intros Hp Ho Ht Hk Hpr Href Hr (e & He & Hb). unfold pk_unref. do 2 apply post_bind. apply post_get_packet.
  intros k1 Hk1.
  rewrite Hk in Hk1. injection Hk1 as <-. do 2 mprim. rewrite Href.
  replace (i8 (r + 1 - 1)) with r by (rewrite i8_small; lia). set (s1 := set_packets _ s).
  assert (placed s1 (<[p := Posted]> o)) as Hp1.
  { eapply (placed_write s _ p (fun _ => pk_set_ref r k));
      [by eapply placed_loose|apply lookup_insert_eq|exact Hk]. }
  destruct Hr as [-> | ->]; cbn [Z.eqb dispatch_if].
  - mprim. intros e1 He1. eapply post_mono; [eapply dispatch_post; [exact Hp1|apply lookup_insert_eq|]|].
    + intros e2 q k2 He2 Hq Hk2. cbn in He2, Hk2. rewrite lookup_insert_eq in Hk2. injection Hk2 as <-.
      rewrite He in He2. injection He2 as <-. by eapply Hb.
    + cbn beta. intros [] s' Hg. eapply goes_silent; [|by eapply goes_insert]. by apply silent_same.
  - mprim. split; [done|]. intros t' Ht'. rewrite <- (insert_insert_eq o p t' Posted).
    eapply (placed_sent _ _ p (pk_set_ref 1 k));
      [exact Hp1|apply lookup_insert_eq|apply lookup_insert_eq|by destruct Ht' as [-> | ->]; intros []|].
    assert (back_ok s1 p (pk_set_ref 1 k)) by (by exists e). destruct Ht' as [-> | ->]; cbn; tauto.
Qed.

Lemma run_callback_post cb ce s o : placed s o -> post (run_callback cb ce) (fun _ s' => placed s' o /\
  aside s s') s.
Proof.
  intros Hp. unfold run_callback. mprim. assert (aside s (set_trace (fun t => t ++ [EvCallback cb ce]) s)) as Ha
    by (split; try done; by apply silent_emit).
  destruct (cb =? lc_signal_fn); mprim; [|split; [by apply placed_trace|done]]. intros q Hq.
  split; [eapply (placed_req _ o ce (rq_set_sync 1)); [by apply placed_trace|exact Hq|done]|].
  by split; [|apply Ha].
Qed.

(** The completion of a send, when no signal is still to come. *)
Lemma serve_send_post p s o : placed s o -> o !! p = Some Sending ->
  post (lci_serve_send p) (fun _ s' => goes s o p s') s.
Proof.
  intros Hp Ho. unfold lci_serve_send. mprim. intros k Hk.
  destruct (pl_packets _ _ Hp p _ Ho) as (_ & k1 & Hk1 & Hf). rewrite Hk in Hk1. injection Hk1 as <-.
  assert (placed s (<[p := Posted]> o)) as Hp1 by (eapply placed_loose; [done|done|intros []]).
  pose proof (lookup_insert_eq o p Posted) as Ho1.
  destruct (Z.eqb_spec (pk_proto k) LC_PROTO_RTR) as [Hr|_].
  - destruct (Hf Hr) as [Href Hb]. eapply post_mono; [eapply (unref_post p s o Sending k 0); try done;
      [intros []|by left]|]. done.
  - destruct (pk_proto k =? LC_PROTO_LONG); [|destruct (pk_proto k =? LC_PROTO_RTS)].
    + mprim. intros r _. apply post_bind. eapply post_mono; [by eapply run_callback_post|]. cbn beta.
      intros [] s1 [Hp2 [_ Hs]]. eapply post_mono; [by eapply pk_free_post|]. cbn beta. intros [] s2 Hg.
      eapply goes_silent; [exact Hs|]. by eapply goes_insert.
    + eapply post_mono; [by eapply pk_free_post|]. cbn beta. intros [] s2. apply goes_insert.
    + eapply post_mono; [by eapply pk_free_data_post|]. cbn beta. intros [] s2. apply goes_insert.
Qed.

(** Between the two events of a rendezvous. *)
Lemma serve_send_first p s o : placed s o -> o !! p = Some Handshake ->
  post (lci_serve_send p) (fun _ s' => placed s' (<[p := Awaiting]> o) /\ trace s' = trace s) s.
Proof.
  intros Hp Ho. unfold lci_serve_send. mprim. intros k Hk.
  destruct (pl_packets _ _ Hp p _ Ho) as (_ & k1 & Hk1 & Hf). rewrite Hk in Hk1. injection Hk1 as <-.
  destruct Hf as (Hr & Href & Hb). rewrite Hr. cbn [Z.eqb LC_PROTO_RTR Pos.eqb].
  eapply post_mono; [eapply (unref_post p s o Handshake k 1); try done; [intros []|by right]|]. cbn.
  intros [] s' [Ht Hp']. auto.
Qed.

Lemma serve_imm_first p s o : placed s o -> o !! p = Some Handshake ->
  post (lci_serve_imm p) (fun _ s' => placed s' (<[p := Sending]> o) /\ silent s s') s.
Proof.
  intros Hp Ho. unfold lci_serve_imm. mprim. intros k Hk. mprim.
  destruct (pl_packets _ _ Hp p _ Ho) as (_ & k1 & Hk1 & Hf). rewrite Hk in Hk1. injection Hk1 as <-.
  destruct Hf as (Hr & Href & Hb). set (s1 := set_trace _ s).
  eapply post_mono; [eapply (unref_post p s1 o Handshake k 1); try done;
    [by apply placed_trace|intros []|by right]|]. cbn.
  intros [] s' [Ht Hp']. split; [auto|]. exists [EvRmaDereg (pk_rma_mem k)]. by rewrite Ht.
Qed.

Lemma serve_imm_last p s o : placed s o -> o !! p = Some Awaiting ->
  post (lci_serve_imm p) (fun _ s' => goes s o p s') s.
Proof.
  intros Hp Ho. unfold lci_serve_imm. mprim. intros k Hk. mprim.
  destruct (pl_packets _ _ Hp p _ Ho) as (_ & k1 & Hk1 & Hf). rewrite Hk in Hk1. injection Hk1 as <-.
  destruct Hf as (Hr & Href & Hb). set (s1 := set_trace _ s).
  eapply post_mono; [eapply (unref_post p s1 o Awaiting k 0); try done;
    [by apply placed_trace|intros []|by left]|].
  cbn beta. intros [] s'. apply goes_silent. by exists [EvRmaDereg (pk_rma_mem k)].
Qed.

(** ** The client's calls *)

(** A call moved one packet that nobody was expected to give back, or none. *)
Definition moved (s : lci) (o : gmap Z place) (s' : lci) : Prop :=
  placed s' o /\ silent s s' \/ exists p t, o !! p = Some t /\ owed p t = [] /\ goes s o p s'.

Lemma moved_none s o s' : placed s' o -> trace s' = trace s -> moved s o s'.
Proof. intros Hp E. left. split; [done|]. by apply silent_same. Qed.

Lemma moved_silent s s1 o s' : silent s s1 -> moved s1 o s' -> moved s o s'.
Proof.
  intros Hs [[Hp Hs']|(p & t & Ho & Ht & Hg)]; [left; split; [done|by etrans]|right].
  exists p, t. split_and!; [done..|]. by eapply goes_silent.
Qed.

Lemma retn_post e (f : Z -> M lc_status) s o : placed s o ->
  (forall p s1, trace s1 = trace s -> placed s1 (<[p := Posted]> o) ->
     post (f p) (fun _ s' => goes s1 (<[p := Posted]> o) p s') s1) ->
  post (LC_POOL_GET_OR_RETN e f) (fun _ s' => moved s o s') s.
Proof.
  intros Hp Hf. unfold LC_POOL_GET_OR_RETN. mprim. mprim. destruct (truth _); [by mprim; apply moved_none|].
  apply post_bind. eapply post_mono; [by eapply get_nb_post|]. cbn beta.
  intros p s1 [Ht [[-> Hp1]|(Hne & Ho & Hp1)]]; [by rewrite Z.eqb_refl; mprim; apply moved_none|].
  rewrite (proj2 (Z.eqb_neq p NULL)) by done. eapply post_mono; [by eapply Hf|]. cbn beta. intros st s' Hg.
  right. exists p, (InPool (server e)). split_and!; [done..|]. eapply goes_silent; [by apply silent_same|].
  by eapply goes_insert.
Qed.

Lemma medium_poolid_post e sz s o : placed s o ->
  post (medium_poolid e sz) (fun _ s' => placed s' o /\ trace s' = trace s) s.
Proof. intros Hp. unfold medium_poolid. destruct (_ <? _); [by apply get_local_post|by mprim]. Qed.

Lemma ep_rep_post e r (Q : lci_rep -> lci -> Prop) s : (forall x, Q x s) -> post (ep_rep e r) Q s.
Proof. intros HQ. unfold ep_rep. mprim. intros d Hd. mprim. auto. Qed.

Lemma fill_post p src sz (Q : unit -> lci -> Prop) s :
  (forall k l, packets s !! p = Some k ->
    Q tt (set_packets (fun m => <[p := pk_set_data (DataBuffer l) k]> m) s)) ->
  post (packet_fill p src sz) Q s.
Proof. intros HQ. unfold packet_fill. mprim. intros l. destruct (_ <=? _); [|apply post_throw]. mprim. auto.
  Qed.

(** The packet is handed to the server for a send. *)
Lemma goes_sent s s1 o p k ev : placed s1 o -> o !! p = Some Posted -> trace s1 = trace s ->
  packets s1 !! p = Some k -> pk_proto k <> LC_PROTO_RTR -> tickets_of ev = [TSend p] ->
  goes s o p (set_trace (fun t => t ++ [ev]) s1).
Proof.
  intros Hp Ho Ht Hk Hpr Hev. exists Sending, [ev].
  split_and!; [|cbn; by rewrite Ht|unfold tickets; cbn; by rewrite Hev].
  apply placed_trace. eapply placed_sent; [done|done|done|intros []|]. cbn. done.
Qed.

(** A medium message: number, packet, bytes, and the call [ev] of the server. *)
Lemma medium_post e ep sz rank src p ev s o : placed s o -> o !! p = Some Posted ->
  (forall r, tickets_of (ev r) = [TSend p]) ->
  post (pid ← medium_poolid e sz;
        _ ← lci_pk_init ep pid LC_PROTO_DATA p;
        r ← ep_rep e rank;
        _ ← packet_fill p src sz;
        _ ← emit (ev r);
        mret LC_OK) (fun _ s' => goes s o p s') s.
Proof.
  intros Hp Ho Hev. apply post_bind. eapply post_mono; [by eapply medium_poolid_post|]. cbn beta.
  intros pid s1 [Hp1 Ht1]. apply post_bind. eapply pk_init_post; [done|done|]. intros k s2 -> Hp2 _ Hpr _ _.
  apply post_bind, ep_rep_post. intros r. apply post_bind, fill_post. intros k1 l Hk1. cbn in Hk1.
  rewrite lookup_insert_eq in Hk1. injection Hk1 as <-. do 2 mprim.
  eapply (goes_sent _ _ _ _ (pk_set_data (DataBuffer l) k)); try done.
  - eapply (placed_write _ o p (pk_set_data (DataBuffer l))); [done|done|apply lookup_insert_eq].
  - cbn. apply lookup_insert_eq.
  - cbn. by rewrite Hpr.
Qed.

(** A long one: its word, what [prep] writes in the packet, and the call of the server. *)
Lemma long_post e ep pr rank p (prep : lc_packet -> lc_packet) ev s o : placed s o -> o !! p = Some Posted ->
  (forall r, tickets_of (ev r) = [TSend p]) -> i16 pr <> LC_PROTO_RTR ->
    (forall k, pk_proto (prep k) = pk_proto k) ->
  post (_ ← lci_pk_init ep (-1) pr p; _ ← upd_packet p prep; r ← ep_rep e rank; _ ← emit (ev r); mret LC_OK)
    (fun _ s' => goes s o p s') s /\
  post (_ ← lci_pk_init ep (-1) pr p; r ← ep_rep e rank; _ ← upd_packet p prep; _ ← emit (ev r); mret LC_OK)
    (fun _ s' => goes s o p s') s.
Proof.
  intros Hp Ho Hev Hi Hprep.
  split; (apply post_bind; eapply pk_init_post; [done|done|]; intros k s2 -> Hp2 _ Hpr _ _).
  - mprim. intros k1 Hk1. cbn in Hk1. rewrite lookup_insert_eq in Hk1. injection Hk1 as <-.
    apply post_bind, ep_rep_post. intros r. do 2 mprim. eapply (goes_sent _ _ _ _ (prep k)); try done.
    + eapply (placed_write _ o p prep); [done|done|apply lookup_insert_eq].
    + cbn. apply lookup_insert_eq.
    + by rewrite Hprep, Hpr.
  - apply post_bind, ep_rep_post. intros r. mprim. intros k1 Hk1. cbn in Hk1.
    rewrite lookup_insert_eq in Hk1. injection Hk1 as <-.
    do 2 mprim. eapply (goes_sent _ _ _ _ (prep k)); try done.
    + eapply (placed_write _ o p prep); [done|done|apply lookup_insert_eq].
    + cbn. apply lookup_insert_eq.
    + by rewrite Hprep, Hpr.
Qed.
End custody.
