(* ===== verification/Ledger.v ===== *)
(** * No packet is lost or used twice (about Proto.v and Api.v)

    The calls of the client, the events of the server, and their runs in any order: in every
    state a run reaches, each packet the devices were made with is in one place. *)
From stdpp Require Import gmap.
From S2P Require Import Prelude Config Lock Dequeue Pool Hashtable CompQueue State Proto Api ProtoSpec ProtoDemo Places Custody.

#[local] Arguments lc_make_key : simpl never.
#[local] Arguments lc_hash_insert : simpl never.
#[local] Arguments MAKE_PROTO : simpl never.
#[local] Arguments req_s_of : simpl never.
#[local] Arguments i16 : simpl never.
#[local] Arguments u32 : simpl never.

Section calls.
Context `{Build, Server, Client, Platform}.
Implicit Types (s : lci) (o : gmap Z place) (p : Z) (k : lc_packet) (e : lci_ep).

(** ** Sends *)

Lemma sendm_post src sz rank tag ep s o : placed s o ->
  post (lc_sendm src sz rank tag ep) (fun _ s' => moved s o s') s.
Proof.
  intros Hp. unfold lc_sendm. mprim. intros e He. apply retn_post; [done|]. intros p s1 _ Hp1.
  eapply medium_post; [done|apply lookup_insert_eq|]. intros r. cbn. by rewrite proto_of_make.
Qed.

Lemma putm_post src sz rank addr ep s o : placed s o ->
  post (lc_putm src sz rank addr ep) (fun _ s' => moved s o s') s.
Proof.
  intros Hp. unfold lc_putm. mprim. intros e He. apply retn_post; [done|]. intros p s1 _ Hp1.
  by eapply (medium_post e ep sz rank src p (fun r => EvPutm _ _ _ _ _ _ p)); [done|apply lookup_insert_eq|].
Qed.

Lemma putms_post src sz rank addr meta ep s o : placed s o ->
  post (lc_putms src sz rank addr meta ep) (fun _ s' => moved s o s') s.
Proof.
  intros Hp. unfold lc_putms. mprim. intros e He. apply retn_post; [done|]. intros p s1 _ Hp1.
  by eapply (medium_post e ep sz rank src p (fun r => EvPutms _ _ _ _ _ _ _ p)); [done|apply lookup_insert_eq|].
Qed.

Lemma sendl_post src sz rank tag ep cb ce s o : placed s o ->
  post (lc_sendl src sz rank tag ep cb ce) (fun _ s' => moved s o s') s.
Proof.
  intros Hp. unfold lc_sendl. mprim. intros e He. apply retn_post; [done|]. intros p s1 _ Hp1.
  apply (long_post e ep LC_PROTO_RTS rank p (pk_set_data (DataRts (Rts cb ce src sz))));
    [done|apply lookup_insert_eq|..|done|done].
  intros r. cbn. by rewrite proto_of_make.
Qed.

Lemma putl_post src sz rank addr ep cb ce s o : placed s o ->
  post (lc_putl src sz rank addr ep cb ce) (fun _ s' => moved s o s') s.
Proof.
  intros Hp. unfold lc_putl. mprim. intros e He. apply retn_post; [done|]. intros p s1 _ Hp1.
  by eapply (long_post e ep LC_PROTO_LONG rank p (fun k => pk_set_data (DataRts _) k) (fun r => EvPutl _ _ _ _ _ _ _ p));
    [done|apply lookup_insert_eq|..].
Qed.

Lemma putls_post src sz rank addr meta ep cb ce s o : placed s o ->
  post (lc_putls src sz rank addr meta ep cb ce) (fun _ s' => moved s o s') s.
Proof.
  intros Hp. unfold lc_putls. mprim. intros e He. apply retn_post; [done|]. intros p s1 _ Hp1.
  by eapply (long_post e ep LC_PROTO_LONG rank p (fun k => pk_set_data (DataRts _) k) (fun r => EvPutls _ _ _ _ _ _ _ _ p));
    [done|apply lookup_insert_eq|..].
Qed.

(** A short message takes no packet: one event, and the server has the bytes. *)
Lemma short_post e rank src sz (ev : lci_rep -> list Z -> event) s o : placed s o ->
  (forall r l, tickets_of (ev r l) = []) ->
  post (r ← ep_rep e rank; l ← mem_load src sz; _ ← emit (ev r l); mret LC_OK) (fun _ s' => moved s o s') s.
Proof.
  intros Hp Hev. apply post_bind, ep_rep_post. intros r. mprim. intros l. do 2 mprim.
  left. split; [by apply placed_trace|by apply silent_emit].
Qed.

Lemma sends_post src sz rank tag ep s o : placed s o ->
  post (lc_sends src sz rank tag ep) (fun _ s' => moved s o s') s.
Proof. intros Hp. unfold lc_sends. mprim. intros e He.
  by apply (short_post e rank src sz (fun r l => EvSends _ _ l _)). Qed.
Lemma puts_post src sz rank addr ep s o : placed s o ->
  post (lc_puts src sz rank addr ep) (fun _ s' => moved s o s') s.
Proof. intros Hp. unfold lc_puts. mprim. intros e He.
  by apply (short_post e rank src sz (fun r l => EvPuts _ _ l _ _ _)). Qed.
Lemma putss_post src sz rank addr meta ep s o : placed s o ->
  post (lc_putss src sz rank addr meta ep) (fun _ s' => moved s o s') s.
Proof. intros Hp. unfold lc_putss. mprim. intros e He.
  by apply (short_post e rank src sz (fun r l => EvPutss _ _ l _ _ _ _)). Qed.

Lemma moved_then s o s1 s' : moved s o s1 -> silent s1 s' -> (forall o', placed s1 o' -> placed s' o') ->
  moved s o s'.
Proof.
  intros [[Hp Hs]|(p & t & Ho & Ht & t' & evs & Hp & E & Hev)] Hs' Hpl.
  - left. split; [auto|by etrans].
  - right. exists p, t. do 2 (split; [done|]). destruct Hs' as (evs' & E' & Hev'). exists t', (evs ++ evs').
    split; [auto|]. by rewrite tickets_app, Hev', app_nil_r, E', E, app_assoc.
Qed.

Lemma then_callback_post cb ce ret s o s1 : moved s o s1 ->
  post (then_callback cb ce ret) (fun _ s' => moved s o s') s1.
Proof.
  intros Hm. unfold then_callback. apply post_bind. destruct (decide (ret = LC_OK)); [|by do 2 mprim].
  intros [] s2 E. mprim.
  assert (exists o1, placed s1 o1) as [o1 Hp1] by (destruct Hm as [[Hp _]|(p & t & _ & _ & t' & evs & Hp & _)]; eauto).
  destruct (run_callback_post cb ce s1 o1 Hp1 tt s2 E) as [_ [_ Hs]].
  eapply moved_then; [done|done|]. intros o' Hp'. by apply (run_callback_post cb ce s1 o' Hp' tt s2 E).
Qed.

Lemma send_post src sz rank tag ep cb ce s o : placed s o ->
  post (lc_send src sz rank tag ep cb ce) (fun _ s' => moved s o s') s.
Proof.
  intros Hp. unfold lc_send. destruct (_ <=? _); [|destruct (_ <=? _); [|by apply sendl_post]];
    (apply post_bind; eapply post_mono; [by eapply sends_post || by eapply sendm_post|]; cbn beta;
      intros ret s1;
     apply then_callback_post).
Qed.

(** ** Receives *)

Lemma recv_eager_post e src ep req p s o : placed s o -> o !! p = Some Posted -> no_queue s ep ->
  post (recv_eager e src ep req p) (fun _ s' => goes s o p s') s.
Proof.
  intros Hp Ho Hnq. unfold recv_eager. mprim. intros k Hk. mprim. intros q Hq. mprim. intros l _. mprim.
  intros m.
  mprim. intros q1 Hq1. mprim. intros k1 Hk1. eapply post_mono; [eapply dispatch_post;
    [|exact Ho|by eapply no_queue_back]|].
  - eapply (placed_write _ o p (pk_set_req req)); [|done|exact Hk1].
    eapply placed_req; [by apply placed_memory|exact Hq1|done].
  - cbn beta. intros [] s'. by apply goes_silent, silent_same.
Qed.

Lemma recv_rendezvous_post ep req p s o : placed s o -> o !! p = Some Posted -> no_queue s ep ->
  post (recv_rendezvous ep req p) (fun _ s' => goes s o p s') s.
Proof.
  intros Hp Ho Hnq. unfold recv_rendezvous. mprim. intros k Hk. mprim. intros r _. mprim. intros q Hq. mprim.
  intros k1 Hk1.
  eapply post_mono; [eapply handle_rts_post; [|exact Ho|by eapply no_queue_back]|].
  - eapply (placed_write _ o p (pk_set_req req)); [by eapply placed_req|done|exact Hk1].
  - cbn beta. intros [] s'. by apply goes_silent, silent_same.
Qed.

Lemma recv_init_post src sz rank ep req s o : placed s o ->
  post (recv_init src sz rank ep req) (fun _ s' => placed s' o /\ aside s s') s.
Proof.
  intros Hp. unfold recv_init. apply post_bind. eapply post_mono; [by eapply init_req_post|]. cbn beta.
  intros [] s1 [Hp1 [E1 Hs]]. mprim. intros e He. apply post_bind, ep_rep_post. intros r. mprim. intros q Hq.
  split; [by eapply placed_req|]. by split.
Qed.

(** Looking for a message: [k v] takes packet [v] on, if there is one. *)
Lemma match_post ep key req (f : Z -> M unit) s o : placed s o -> valid_key key ->
  (forall v s1, placed s1 (<[v := Posted]> o) -> no_queue s1 ep ->
     post (f v) (fun _ s' => goes s1 (<[v := Posted]> o) v s') s1) ->
  post ('(value, code) ← ep_hash_insert ep key req CLIENT;
        _ ← (if code =? 0 then f value else mret tt); mret LC_OK) (fun _ s' => moved s o s') s.
Proof.
  intros Hp Hkey Hf. apply post_bind. eapply post_mono; [by eapply insert_client_post|]. cbn beta.
  intros [v code] s1 [[Ep Er Et Hnq] Hc]. destruct (code =? 0); [|do 2 mprim; by apply moved_none].
  destruct Hc as [Ho Hp1]. apply post_bind. eapply post_mono; [by eapply Hf|]. cbn beta. intros [] s2 Hg. mprim.
  right. exists v, (InTable ep key). do 2 (split; [done|]). eapply goes_silent; [by apply silent_same|].
  by eapply goes_insert.
Qed.

Lemma recvm_post src sz rank tag ep req s o : placed s o -> valid_key (lc_make_key rank tag) ->
  post (lc_recvm src sz rank tag ep req) (fun _ s' => moved s o s') s.
Proof.
  intros Hp Hkey. unfold lc_recvm. apply post_bind. eapply post_mono; [by eapply init_req_post|]. cbn beta.
  intros [] s1 [Hp1 [_ Hs]]. eapply post_mono; [eapply (match_post ep _ req); [exact Hp1|done|]|].
  - intros v s2 Hp2 Hnq. mprim. intros e He. eapply recv_eager_post; [done|apply lookup_insert_eq|done].
  - cbn beta. intros st s2. by apply moved_silent.
Qed.

Lemma recvl_post src sz rank tag ep req s o : placed s o -> valid_key (lc_make_key rank tag) ->
  post (lc_recvl src sz rank tag ep req) (fun _ s' => moved s o s') s.
Proof.
  intros Hp Hkey. unfold lc_recvl. apply post_bind. eapply post_mono; [by eapply recv_init_post|]. cbn beta.
  intros [] s1 [Hp1 [_ Hs]]. eapply post_mono; [eapply (match_post ep _ req); [exact Hp1|done|]|].
  - intros v s2 Hp2 Hnq. eapply recv_rendezvous_post; [done|apply lookup_insert_eq|done].
  - cbn beta. intros st s2. by apply moved_silent.
Qed.

Lemma recv_post src sz rank tag ep req s o : placed s o -> valid_key (lc_make_key rank tag) ->
  post (lc_recv src sz rank tag ep req) (fun _ s' => moved s o s') s.
Proof.
  intros Hp Hkey. unfold lc_recv. apply post_bind. eapply post_mono; [by eapply recv_init_post|]. cbn beta.
  intros [] s1 [Hp1 [_ Hs]]. eapply post_mono; [eapply (match_post ep _ req); [exact Hp1|done|]|].
  - intros v s2 Hp2 Hnq. mprim. intros k Hk. destruct (_ =? _); [|mprim; intros e He].
    + eapply recv_rendezvous_post; [done|apply lookup_insert_eq|done].
    + eapply recv_eager_post; [done|apply lookup_insert_eq|done].
  - cbn beta. intros st s2. by apply moved_silent.
Qed.

(** ** Endpoints *)

(** An endpoint where nothing has arrived. *)
Record ep_empty (e : lci_ep) : Prop := {
  ee_from : from_fine e; ee_to : to_fine e;
  ee_tbl : forall h key, ep_from e = Tbl h -> waiting h key SERVER = [];
  ee_cq : forall q, ep_to e = Cq q -> cq_elems q = [] }.

Lemma not_tbl s ep e p key : eps s !! ep = Some e -> ep_empty e -> ~ inside s p (InTable ep key).
Proof.
  intros He [_ _ Ht _] (_ & e1 & h & He1 & Hh & Hin). rewrite He in He1. injection He1 as <-.
  rewrite (Ht h key Hh) in Hin. by apply elem_of_nil in Hin.
Qed.
Lemma not_queue s ep e p : eps s !! ep = Some e -> ep_empty e -> ~ inside s p (InQueue ep).
Proof.
  intros He [_ _ _ Hq] (e1 & q & He1 & Hh & Hin). rewrite He in He1. injection He1 as <-.
  rewrite (Hq q Hh) in Hin. by apply elem_of_nil in Hin.
Qed.

Lemma placed_reopen s o ep e e' : placed s o -> eps s !! ep = Some e -> ep_empty e -> ep_empty e' ->
  (forall q, ep_to e' = Cq q -> exists q0, ep_to e = Cq q0) -> placed (with_ep s ep e') o.
Proof.
  intros Hp He Hee Hee' Hcq. assert (eps (with_ep s ep e') !! ep = Some e') as He' by apply lookup_insert_eq.
  eapply (placed_ep s o); try done; try apply Hee'.
  - intros p key. rewrite (pl_places _ _ Hp) by done.
    by split; intros Hin; [destruct (not_tbl s ep e p key He Hee)|destruct (not_tbl _ ep e' p key He' Hee')].
  - intros p. rewrite (pl_places _ _ Hp) by done.
    by split; intros Hin; [destruct (not_queue s ep e p He Hee)|destruct (not_queue _ ep e' p He' Hee')].
  - apply (pl_packets _ _ Hp).
Qed.

Lemma placed_open s o e l n : placed s o -> ep_empty e ->
  placed (with_ep (set_globals l n (next_ptr s + 1) s) (next_ptr s) e) o.
Proof.
  intros Hp Hee. pose proof Hp as [H1' H2' H3' H4' H5' H6' H7'].
  assert (forall a e1, eps s !! a = Some e1 -> a <> next_ptr s) as Hne by (intros a e1 Ha;
    destruct (H5' a e1 Ha); lia).
  set (s' := with_ep _ _ _). assert (eps s' !! next_ptr s = Some e) as He by apply lookup_insert_eq.
  assert (forall a, a <> next_ptr s -> eps s' !! a = eps s !! a) as Hold by (intros a Ha;
    by apply lookup_insert_ne).
  split; try done.
  - intros a e1 Ha. destruct (decide (a = next_ptr s)) as [->|Hn]; [rewrite He in Ha;
      injection Ha as <-|rewrite Hold in Ha by done].
    + cbn. split; [lia|]. split; apply Hee.
    + cbn. destruct (H5' a e1 Ha) as [? Hfine]. split; [lia|done].
  - intros p t Ht. rewrite H6' by done. destruct t as [i|a key|a| | | | |]; try done.
    + destruct (decide (a = next_ptr s)) as [->|Hn]; [|cbn; by rewrite lookup_insert_ne by done].
      split; intros Hin; exfalso.
      * destruct Hin as (_ & e1 & h & He1 & _). by apply Hne in He1.
      * by eapply (not_tbl s' _ e p).
    + destruct (decide (a = next_ptr s)) as [->|Hn]; [|cbn; by rewrite lookup_insert_ne by done].
      split; intros Hin; exfalso.
      * destruct Hin as (e1 & q & He1 & _). by apply Hne in He1.
      * by eapply (not_queue s' _ e p).
  - intros p t Ho. destruct (H7' p t Ho) as (Hpos & k & Hk & Hf). split; [done|]. exists k. split; [done|].
    assert (back_ok s p k -> back_ok s' p k) as Hb.
    { intros (e1 & He1 & Hb). exists e1. rewrite Hold by (by eapply Hne). done. }
    destruct t; cbn in *; try done; tauto.
Qed.

Lemma ep_open_post dev c s o : placed s o ->
  post (lci_ep_open dev c) (fun ep s' => placed s' o /\ trace s' = trace s /\
    exists e, eps s' !! ep = Some e /\ ep_empty e) s.
Proof.
  intros Hp. unfold lci_ep_open. mprim. intros d Hd. do 4 mprim. intros l Hl. mprim. apply post_bind.
  pose proof lc_hash_create_wf as Hwf. pose proof lc_hash_create_waiting as Hw.
  destruct (has_cap c EP_AR_EXP); do 2 mprim; (split; [|split; [done|eexists; split;
    [apply lookup_insert_eq|]]]);
    try apply placed_open; try done; split; cbn -[lc_hash_create]; try done; try (split; [done|split;
      [intros; rewrite Hw; constructor|done]]);
    try (by intros ? ? [= <-]); try (split; [apply cq_init_wf|rewrite cq_init_elems; constructor]).
  - intros q [= <-]. apply cq_init_elems.
  - intros q [= <-]. apply cq_init_elems.
Qed.

Lemma ep_dup_post opt s o : placed s o -> post (lc_ep_dup opt) (fun _ s' => placed s' o /\
  trace s' = trace s) s.
Proof.
  intros Hp. unfold lc_ep_dup. apply post_bind. eapply post_mono; [by eapply ep_open_post|]. cbn beta.
  intros ep s1 (Hp1 & Ht & e0 & He0 & Hee0). mprim. intros e He. rewrite He0 in He. injection He as ->.
  do 2 mprim. split; [|done].
  set (e1 := if desc_addr _ =? _ then _ else e). assert (ep_empty e1 /\ ep_to e1 = ep_to e) as [Hee1 Ht1].
  { unfold e1. destruct (_ =? _); [|done]. split; [|done]. destruct Hee0. by split. }
  set (e2 := if desc_ce _ =? _ then _ else e1).
  assert (ep_empty e2 /\ forall q, ep_to e2 = Cq q -> ep_to e = Cq q) as [Hee2 Ht2].
  { unfold e2. clearbody e1. destruct (_ =? _); [|split; [done|intros q Hq; by rewrite <- Ht1]].
    split; [|done]. destruct Hee1 as [Hf _ Htb _]. split; try done.
    unfold from_fine in *. cbn. destruct (ep_from e1); try done. split; [apply Hf|]. split; [apply Hf|done]. }
  set (e3 := if opt_glob opt then _ else e2).
  assert (ep_empty e3 /\ ep_to e3 = ep_to e2) as [Hee3 Ht3].
  { unfold e3. destruct (opt_glob opt); [|done]. split; [|done]. by destruct Hee2. }
  eapply placed_reopen; [done|done|done|done|]. intros q. rewrite Ht3. intros Hq. exists q. auto.
Qed.

Lemma placed_dev s o i d d' : placed s o -> lcg_dev s !! i = Some d -> pkpool d' = pkpool d ->
  placed (set_dev i d' s) o.
Proof.
  intros [H1' H2' H3' H4' H5' H6' H7'] Hd Hpool.
  assert (forall j x, lcg_dev (set_dev i d' s) !! j = Some x -> exists x0, lcg_dev s !! j = Some x0 /\
    pkpool x = pkpool x0) as Hget.
  { intros j e Hj. cbn in Hj. destruct (decide (j = i)) as [->|Hne];
      [|rewrite lookup_insert_ne in Hj by done; by exists e].
    rewrite lookup_insert_eq in Hj. injection Hj as <-. by exists d. }
  split; try done.
  - intros j e (e0 & He0 & E)%Hget. rewrite E. by apply (H1' j).
  - intros j1 j2 e1 e2 (d1 & Hd1 & E1)%Hget (d2 & Hd2 & E2)%Hget. rewrite E1, E2. by apply H2'.
  - intros p t Ht. rewrite H6' by done. destruct t as [j| | | | | | |]; try done. cbn.
    destruct (decide (j = i)) as [->|Hne].
    + rewrite lookup_insert_eq. split; [intros (e & He & Hin)|by intros (e & [= <-] & Hin); exists d;
        rewrite Hpool in Hin].
      exists d'. rewrite Hpool. rewrite Hd in He. by injection He as ->.
    + by rewrite lookup_insert_ne.
Qed.

Lemma baseaddr_post ep sz s o : placed s o -> post (lc_ep_get_baseaddr ep sz) (fun _ s' => placed s' o /\
  trace s' = trace s) s.
Proof.
  intros Hp. unfold lc_ep_get_baseaddr. mprim. intros e He. mprim. intros d Hd. do 2 mprim. split; [|done].
  by eapply placed_dev.
Qed.

(** ** Polling *)

Lemma cq_pop_post ep s o : placed s o ->
  post (lc_cq_pop ep) (fun '(st, r) s' => trace s' = trace s /\
    if decide (st = LC_OK) then exists p, r = req_s_of p /\ o !! p = Some (InQueue ep) /\
      placed s' (<[p := InHand]> o)
    else placed s' o) s.
Proof.
  intros Hp. unfold lc_cq_pop. mprim. intros e He. destruct (ep_to e) as [| |q] eqn:Hq; try apply post_throw.
  mprim. intros [q' r] E. mprim. destruct (pl_eps _ _ Hp ep e He) as (_ & _ & Htf). unfold to_fine in Htf.
  rewrite Hq in Htf. destruct Htf as [Hwf Hnd]. change (LciEp _ _ _ _ _ _) with (with_cq e q').
  set (s1 := set_eps _ s).
  destruct (cq_pop_spec q Hwf) as (q1 & r1 & E1 & Hwf1 & Hc). rewrite E in E1. injection E1 as <- <-.
  pose proof (fun p => elem_of_queue s o ep e q p Hp He Hq) as Hel.
  destruct (cq_elems q) as [|x rest] eqn:Ex.
  - destruct Hc as [-> ->]. rewrite Z.eqb_refl. mprim. split; [done|]. cbn.
    eapply (placed_cq s o); try done; [by rewrite Ex|intros p; by rewrite Ex|apply (pl_packets _ _ Hp)].
  - destruct Hc as [-> Hrest]. set (p := x - 16). assert (x = req_s_of p) as Exp by (unfold req_s_of, p; lia).
    assert (o !! p = Some (InQueue ep)) as Ho by (apply Hel; rewrite <- Exp; by left).
    destruct (pl_packets _ _ Hp p _ Ho) as (Hpos & k & Hk & Hf).
    rewrite (proj2 (Z.eqb_neq x NULL)) by (rewrite Exp; unfold req_s_of, NULL; lia). mprim. split; [done|]. cbn.
    apply NoDup_cons in Hnd as [Hni Hnd]. exists p. do 2 (split; [done|]).
    eapply (placed_cq s o); try done; rewrite ?Hrest; [done|..].
    + intros p1 t Ht Hne. destruct (decide (p1 = p)) as [->|]; [|by rewrite lookup_insert_ne].
      rewrite lookup_insert_eq, Ho. split; intros [= <-]; [by destruct Ht|done].
    + intros p1. destruct (decide (p1 = p)) as [->|Hn];
        [rewrite lookup_insert_eq|rewrite lookup_insert_ne, Hel, elem_of_cons by done].
      * split; [done|]. by rewrite <- Exp.
      * rewrite Exp. split; [intros [?%req_s_of_inj|]; done|by right].
    + intros p1 t. destruct (decide (p1 = p)) as [->|]; [|rewrite lookup_insert_ne by done;
        apply (pl_packets _ _ Hp)].
      rewrite lookup_insert_eq. intros [= <-]. split; [done|]. by exists k.
Qed.

Lemma reqfree_post ep p s o : placed s o -> o !! p = Some InHand ->
  post (lc_cq_reqfree ep (req_s_of p)) (fun _ s' => goes s o p s') s.
Proof.
  intros Hp Ho. unfold lc_cq_reqfree. mprim. intros q Hq. mprim. intros e He.
  destruct (pl_packets _ _ Hp p _ Ho) as (_ & k & Hk & q1 & Hq1 & Hpar). rewrite Hq in Hq1. injection Hq1 as <-.
  rewrite Hpar. apply post_bind. eapply post_mono; [by eapply pool_put_post; [exact Hp|exact Ho|intros []]|].
  cbn beta. intros [] s' [Hp' Ht]. mprim. eapply goes_kept; [exact Hp'|done|by apply silent_same].
Qed.
End calls.

(** ** Runs *)

(** The memory of a new process. *)
Record fresh_process (s : lci) : Prop := {
  fp_eps : eps s = ∅; fp_dev : lcg_dev s = ∅; fp_pool : pool_g s = pool_globals0;
  fp_wid : 0 <= wid s < MAX_NPOOLS; fp_rands : Forall (fun r => 0 <= r) (rands s) }.

(** Another thread runs next: its worker number and its random numbers. *)
Definition switch (w : Z) (l : list Z) (s : lci) : lci :=
  Lci (packets s) (reqs s) (memory s) (eps s) (lcg_ep s) (lcg_dev s) (lcg_nep s) (lcg_deadlock s) (next_ptr s)
    (pool_g s) w l (trace s).

Section runs.
Context `{Build, Server, Client, Platform}.
Implicit Types (s : lci) (o : gmap Z place) (p : Z) (net : list ticket).

(** A call of the client that ended, or another thing that is not about packets: requests and
    user memory written, the flag of the server that cannot post.  Receives are from a rank,
    with a tag. *)
Inductive called (s s' : lci) : Prop :=
| c_sends src sz rank tag ep st : lc_sends src sz rank tag ep s = Ok (st, s') -> called s s'
| c_puts src sz rank addr ep st : lc_puts src sz rank addr ep s = Ok (st, s') -> called s s'
| c_putss src sz rank addr meta ep st : lc_putss src sz rank addr meta ep s = Ok (st, s') -> called s s'
| c_sendm src sz rank tag ep st : lc_sendm src sz rank tag ep s = Ok (st, s') -> called s s'
| c_putm src sz rank addr ep st : lc_putm src sz rank addr ep s = Ok (st, s') -> called s s'
| c_putms src sz rank addr meta ep st : lc_putms src sz rank addr meta ep s = Ok (st, s') -> called s s'
| c_sendl src sz rank tag ep cb ce st : lc_sendl src sz rank tag ep cb ce s = Ok (st, s') -> called s s'
| c_putl src sz rank addr ep cb ce st : lc_putl src sz rank addr ep cb ce s = Ok (st, s') -> called s s'
| c_putls src sz rank addr meta ep cb ce st : lc_putls src sz rank addr meta ep cb ce s = Ok (st, s') ->
  called s s'
| c_send src sz rank tag ep cb ce st : lc_send src sz rank tag ep cb ce s = Ok (st, s') -> called s s'
| c_recvm src sz rank tag ep req st : 0 <= rank < 2 ^ 31 - 1 -> 0 <= tag < 2 ^ 31 ->
    lc_recvm src sz rank tag ep req s = Ok (st, s') -> called s s'
| c_recvl src sz rank tag ep req st : 0 <= rank < 2 ^ 31 - 1 -> 0 <= tag < 2 ^ 31 ->
    lc_recvl src sz rank tag ep req s = Ok (st, s') -> called s s'
| c_recv src sz rank tag ep req st : 0 <= rank < 2 ^ 31 - 1 -> 0 <= tag < 2 ^ 31 ->
    lc_recv src sz rank tag ep req s = Ok (st, s') -> called s s'
| c_ep_dup opt r : lc_ep_dup opt s = Ok (r, s') -> called s s'
| c_baseaddr ep sz r : lc_ep_get_baseaddr ep sz s = Ok (r, s') -> called s s'
| c_pop_none ep r : lc_cq_pop ep s = Ok ((LC_ERR_RETRY, r), s') -> called s s'
| c_request r q : packets s !! (r - 16) = None -> s' = set_reqs (fun m => <[r := q]> m) s -> called s s'
| c_memory m : s' = set_memory (fun _ => m) s -> called s s'
| c_deadlock x : s' = set_deadlock x s -> called s s'
| c_switch w l : 0 <= w < MAX_NPOOLS -> Forall (fun r => 0 <= r) l -> s' = switch w l s -> called s s'.

(** What becomes of a ticket.  The word of an arrival addresses an endpoint that takes it. *)
Inductive served (s : lci) : ticket -> lci -> Prop :=
| sv_recv p proto s' : own s p -> ranked s p -> addressed s proto ->
    lci_serve_recv p proto s = Ok (tt, s') -> served s (TRecv p) s'
| sv_rdma p proto s' : own s p -> lci_serve_recv_rdma p proto s = Ok (tt, s') -> served s (TRecv p) s'
| sv_back dev p s' : pool_put dev p s = Ok (tt, s') -> served s (TRecv p) s'
| sv_send p s' : lci_serve_send p s = Ok (tt, s') -> served s (TSend p) s'
| sv_imm p s' : lci_serve_imm p s = Ok (tt, s') -> served s (TImm p) s'
| sv_free ep p st s' : lc_cq_reqfree ep (req_s_of p) s = Ok (st, s') -> served s (THand p) s'.

(** What was asked of the server between two states. *)
Definition asked (s s' : lci) : list event := drop (length (trace s)) (trace s').

Lemma asked_app s s' evs : trace s' = trace s ++ evs -> asked s s' = evs.
Proof. intros E. unfold asked. rewrite E. apply drop_app_length. Qed.

(** A process and the tickets its server and its client hold.  In a packet posted for an
    arrival the server writes what it likes, and in the packet's request all but the pointer
    back. *)
Inductive step : lci * list ticket -> lci * list ticket -> Prop :=
| step_call s s' net : called s s' -> step (s, net) (s', net ++ tickets (asked s s'))
| step_poll ep p s s' net : lc_cq_pop ep s = Ok ((LC_OK, req_s_of p), s') ->
  step (s, net) (s', net ++ [THand p])
| step_post dev p s s' net : pool_get_nb dev s = Ok (p, s') ->
    step (s, net) (s', net ++ if p =? NULL then [] else [TRecv p])
| step_packet p k s net : TRecv p ∈ net -> step (s, net) (set_packets (fun m => <[p := k]> m) s, net)
| step_request p q q0 s net : TRecv p ∈ net -> reqs s !! req_s_of p = Some q0 -> parent q = parent q0 ->
    step (s, net) (set_reqs (fun m => <[req_s_of p := q]> m) s, net)
| step_serve x s s' net net' : net ≡ₚ x :: net' -> served s x s' ->
  step (s, net) (s', net' ++ tickets (asked s s')).

(** For every packet the tickets are those of its place. *)
Definition owed_at (o : gmap Z place) (p : Z) : list ticket := from_option (owed p) [] (o !! p).
Definition settled (o : gmap Z place) (net : list ticket) : Prop :=
  forall p, filter (fun x => ticket_of x = p) net ≡ₚ owed_at o p.

Lemma owed_of p t x : x ∈ owed p t -> ticket_of x = p.
Proof. destruct t; cbn; rewrite ?elem_of_cons, ?elem_of_nil; intros; destruct_or?; by subst. Qed.

(** One packet moves: its tickets [gone] are used, [new] are handed out. *)
Lemma settled_move o p t t' net gone rest : settled o (gone ++ net) -> o !! p = Some t ->
  owed p t ≡ₚ gone ++ rest ->
  forall new, rest ++ new ≡ₚ owed p t' -> Forall (fun x => ticket_of x = p) new ->
    settled (<[p := t']> o) (net ++ new).
Proof.
  intros Hs Ho Hg new Hn Hnew p'. specialize (Hs p'). rewrite filter_app in Hs. rewrite filter_app.
  unfold owed_at in *.
  assert (Forall (fun x => ticket_of x = p) gone) as Hgone.
  { apply Forall_forall. intros x Hx. apply (owed_of p t). rewrite Hg. apply elem_of_app. by left. }
  assert (forall l, Forall (fun x => ticket_of x = p) l ->
    filter (fun x => ticket_of x = p') l = if decide (p = p') then l else []) as Hf.
  { intros l. case_decide as E; [subst|]; induction 1 as [|x l Hx Hl IH]; try done; rewrite filter_cons, IH.
    - by rewrite decide_True.
    - rewrite decide_False by congruence. done. }
  rewrite (Hf new Hnew). rewrite (Hf gone Hgone) in Hs. case_decide as E.
  - subst p'. rewrite lookup_insert_eq. rewrite Ho in Hs. cbn in *. rewrite <- Hn. apply Permutation_app_tail.
    rewrite Hg in Hs. by apply (Permutation_app_inv_l gone).
  - rewrite lookup_insert_ne by done. by rewrite app_nil_r.
Qed.

Lemma settled_perm o net net' : settled o net -> net ≡ₚ net' -> settled o net'.
Proof. intros Hs E p. by rewrite <- E. Qed.

Lemma ticket_place o net x : settled o net -> x ∈ net -> exists t, o !! ticket_of x = Some t /\
  x ∈ owed (ticket_of x) t.
Proof.
  intros Hs Hx. assert (x ∈ owed_at o (ticket_of x)) as Ho by (rewrite <- (Hs (ticket_of x));
    by apply list_elem_of_filter).
  unfold owed_at in Ho. destruct (o !! ticket_of x) as [t|]; [by exists t|by apply elem_of_nil in Ho].
Qed.

(** The state of a run: the packets [D] have their places. *)
Definition accounted (D : list Z) (st : lci * list ticket) : Prop :=
  exists o, placed (fst st) o /\ settled o (snd st) /\ forall p, is_Some (o !! p) <-> p ∈ D.

Lemma move_dom o p t t' (D : list Z) : o !! p = Some t -> (forall p, is_Some (o !! p) <-> p ∈ D) ->
  forall p', is_Some (<[p := t']> o !! p') <-> p' ∈ D.
Proof.
  intros Ho HD p'. rewrite <- HD, lookup_insert_is_Some'. split; [intros [<-|]; [by rewrite Ho|done]|by right].
Qed.

Lemma owed_all p t : Forall (fun x => ticket_of x = p) (owed p t).
Proof. by destruct t; repeat constructor. Qed.

Lemma goes_accounted D s o p t s' gone net : goes s o p s' -> o !! p = Some t ->
  owed p t = gone -> settled o (gone ++ net) -> (forall p, is_Some (o !! p) <-> p ∈ D) ->
  accounted D (s', net ++ tickets (asked s s')).
Proof.
  intros (t' & evs & Hp & E & Hev) Ho Hg Hs HD. rewrite (asked_app _ _ _ E).
  exists (<[p := t']> o). split; [done|]. split; [|by eapply move_dom].
  eapply (settled_move o p t t' net gone []); [done|done|by rewrite Hg, app_nil_r|by rewrite Hev|].
  rewrite Hev. apply owed_all.
Qed.

Lemma moved_accounted D s o s' net : moved s o s' -> settled o net ->
  (forall p, is_Some (o !! p) <-> p ∈ D) -> accounted D (s', net ++ tickets (asked s s')).
Proof.
  intros [[Hp (evs & E & Hev)]|(p & t & Ho & Ht & Hg)] Hs HD.
  - rewrite (asked_app _ _ _ E). exists o. by rewrite Hev, app_nil_r.
  - by eapply (goes_accounted D s o p t s' []).
Qed.

Lemma placed_request s o r q : placed s o -> packets s !! (r - 16) = None ->
  placed (set_reqs (fun m => <[r := q]> m) s) o.
Proof.
  intros Hp Hr. eapply placed_quiet; [done|by split|]. intros p t k Ho Hk Hf. exists k. split; [done|].
  eapply (fine_same s); [done| |done]. intros q1 Hq1. exists q1. split; [|done]. cbn.
  rewrite lookup_insert_ne; [done|].
  intros ->. unfold req_s_of in Hr. replace (p + 16 - 16) with p in Hr by lia. congruence.
Qed.

Lemma placed_switch s o w l : placed s o -> 0 <= w < MAX_NPOOLS -> Forall (fun r => 0 <= r) l ->
  placed (switch w l s) o.
Proof. intros [] Hw Hl. by split. Qed.

Lemma placed_deadlock s o x : placed s o -> placed (set_deadlock x s) o.
Proof. intros []. by split. Qed.

Lemma called_moved s s' o : placed s o -> called s s' -> moved s o s'.
Proof.
  assert (forall rank tag, 0 <= rank < 2 ^ 31 - 1 -> 0 <= tag < 2 ^ 31 ->
    valid_key (lc_make_key rank tag)) as Hkey.
  { intros rank tag Hr Ht. rewrite lc_make_key_val by lia. unfold valid_key. lia. }
  intros Hp Hc. destruct Hc.
  - by eapply sends_post. - by eapply puts_post. - by eapply putss_post. - by eapply sendm_post.
    - by eapply putm_post.
  - by eapply putms_post. - by eapply sendl_post. - by eapply putl_post. - by eapply putls_post.
    - by eapply send_post.
  - by eapply recvm_post; [..|eauto|]. - by eapply recvl_post; [..|eauto|]. - by eapply recv_post; [..|eauto|].
  - edestruct ep_dup_post as [? ?]; [exact Hp|eassumption|by apply moved_none].
  - edestruct baseaddr_post as [? ?]; [exact Hp|eassumption|by apply moved_none].
  - match goal with E : lc_cq_pop _ _ = _ |- _ => destruct (cq_pop_post _ s o Hp _ _ E) as [? ?] end.
    by apply moved_none.
  - subst. apply moved_none; [by apply placed_request|done].
  - subst. apply moved_none; [by apply placed_memory|done].
  - subst. apply moved_none; [by apply placed_deadlock|done].
  - subst. apply moved_none; [by apply placed_switch|done].
Qed.

(** The server writes in a packet posted with it. *)
Lemma posted_place o net p : settled o net -> TRecv p ∈ net -> o !! p = Some Posted.
Proof.
  intros Hs Hx. destruct (ticket_place o _ _ Hs Hx) as (t & Ho & Ht). cbn in Ho, Ht.
  destruct t; cbn in Ht; rewrite ?elem_of_cons, ?elem_of_nil in Ht; by destruct_or? Ht.
Qed.

Lemma placed_write_packet s o p k : placed s o -> o !! p = Some Posted ->
  placed (set_packets (fun m => <[p := k]> m) s) o.
Proof.
  intros Hp Ho. destruct (pl_packets _ _ Hp p _ Ho) as (_ & k0 & Hk0 & _).
  by eapply (placed_write s o p (fun _ => k)).
Qed.

Lemma served_accounted D s x s' net o : placed s o -> settled o (x :: net) ->
  (forall p, is_Some (o !! p) <-> p ∈ D) ->
  served s x s' -> accounted D (s', net ++ tickets (asked s s')) /\ trace s `prefix_of` trace s'.
Proof.
  intros Hp Hs HD Hsv. destruct (ticket_place o _ x Hs) as (t & Ho & Ht); [left|].
  assert (forall p, goes s o p s' -> o !! p = Some t -> owed p t = [x] ->
    accounted D (s', net ++ tickets (asked s s')) /\ trace s `prefix_of` trace s') as Hg.
  { intros p Hg Hop Howed. split; [by eapply (goes_accounted D s o p t s' [x])|].
    destruct Hg as (t' & evs & _ & E & _). by exists evs. }
  assert (forall p t' rest, placed s' (<[p := t']> o) -> silent s s' -> o !! p = Some t ->
    owed p t ≡ₚ [x] ++ rest ->
    owed p t' = rest ->
    accounted D (s', net ++ tickets (asked s s')) /\ trace s `prefix_of` trace s') as Hfirst.
  { intros p t' rest Hp' (evs & E & Hev) Hop Howed Hrest. rewrite (asked_app _ _ _ E), Hev.
    split; [|by exists evs].
    exists (<[p := t']> o). split; [done|]. split; [|by eapply move_dom].
    eapply (settled_move o p t t' net [x] rest); [done|done|done|by rewrite app_nil_r, Hrest|constructor]. }
  destruct Hsv as [p proto s' Hown Hr Ha Es|p proto s' Hown Es|dev p s' Es|p s' Es|p s' Es|ep p st s' Es];
    cbn in Ho, Ht; destruct t; cbn in Ht; rewrite ?elem_of_cons, ?elem_of_nil in Ht; destruct_or? Ht; try done.
  - apply (Hg p); [|done|done]. by eapply serve_recv_post.
  - apply (Hg p); [|done|done]. by eapply serve_recv_rdma_post.
  - apply (Hg p); [|done|done].
      destruct (pool_put_post dev p s o Posted Hp Ho ltac:(intros []) tt s' Es) as [Hp' Ht'].
    eapply goes_kept; [exact Hp'|done|by apply silent_same].
  - apply (Hg p); [|done|done]. by eapply serve_send_post.
  - destruct (serve_send_first p s o Hp Ho tt s' Es) as [Hp' Ht'].
    eapply (Hfirst p Awaiting [TImm p]); try done. by apply silent_same.
  - destruct (serve_imm_first p s o Hp Ho tt s' Es) as [Hp' Ht'].
    eapply (Hfirst p Sending [TSend p]); try done. apply perm_swap.
  - apply (Hg p); [|done|done]. by eapply serve_imm_last.
  - apply (Hg p); [|done|done]. by eapply reqfree_post.
Qed.

Lemma step_accounted D st st' : step st st' -> accounted D st -> accounted D st'.
Proof.
  intros Hst (o & Hp & Hs & HD).
    destruct Hst as [s s' net Hc|ep p s s' net E|dev p s s' net E|p k s net Hx|p q q0 s net Hx Hq Hpar|x s s' net net' Hn Hsv]; cbn in *.
  - eapply moved_accounted; [by eapply called_moved|done..].
  - destruct (cq_pop_post ep s o Hp _ _ E) as (_ & p1 & <-%req_s_of_inj & Ho & Hp').
    exists (<[p := InHand]> o). split; [done|]. split; [|by eapply move_dom].
    by eapply (settled_move o p (InQueue ep) InHand net [] []); [| | | |repeat constructor].
  - destruct (get_nb_post dev s o Hp p s' E) as [_ [[-> Hp']|(Hne & Ho & Hp')]].
    + exists o. cbn. by rewrite app_nil_r.
    + rewrite (proj2 (Z.eqb_neq p NULL)) by done. exists (<[p := Posted]> o). split; [done|].
      split; [|by eapply move_dom].
      by eapply (settled_move o p (InPool dev) Posted net [] []); [| | | |repeat constructor].
  - exists o. split; [|done]. apply placed_write_packet; [done|]. by eapply posted_place.
  - exists o. split; [|done]. by eapply (placed_req s o _ (fun _ => q)).
  - eapply (served_accounted D s x s' net' o); [done|by eapply settled_perm|done..].
Qed.

Lemma steps_accounted D st st' : rtc step st st' -> accounted D st -> accounted D st'.
Proof. induction 1 as [|st st1 st' Hst _ IH]; [done|]. intros Ha. by apply IH, (step_accounted D st). Qed.

(** The holder of a ticket is one of the packets. *)
Lemma ticket_packet D s net x : accounted D (s, net) -> x ∈ net -> ticket_of x ∈ D.
Proof.
  intros (o & _ & Hs & HD) Hx. apply HD. destruct (ticket_place o net x Hs Hx) as (t & Ho & _).
  by exists t.
Qed.

Lemma served_trace D s x s' net : accounted D (s, net) -> x ∈ net -> served s x s' ->
  trace s `prefix_of` trace s'.
Proof.
  intros (o & Hp & Hs & HD) (l1 & l2 & ->)%list_elem_of_split Hsv.
  refine (proj2 (served_accounted D s x s' (l1 ++ l2) o Hp _ HD Hsv)).
  eapply settled_perm; [exact Hs|]. symmetry. apply Permutation_middle.
Qed.

(** ** The start *)

Lemma registered_keys g pool w g' pool' pid : pool_fine g pool -> 0 <= w < MAX_NPOOLS ->
  lc_pool_get_local g pool w = Ok (g', pool', pid) -> keys_fresh g -> pool_key pool < lc_pool_nkey g ->
  keys_fresh g' /\ lc_pool_nkey g' = lc_pool_nkey g /\ globals_wf g'.
Proof.
  intros Hf Hw E Hfr Hk. destruct (get_local_inv _ _ _ _ _ _ Hf Hw E) as ([Hwf _] & _).
  assert (keys_fresh g' /\ lc_pool_nkey g' = lc_pool_nkey g) as [? ?]; [|split_and!; [done..|apply Hwf]].
  unfold lc_pool_get_local in E. inv_bind. destruct (a =? POOL_UNINIT); inv_bind; [|done].
  destruct (a1 =? POOL_UNINIT); inv_bind; [|done]. split; [|done]. intros w' key Hw' Hkey. cbn in *.
  apply aset_ok in Ha3 as [Hr ->]. destruct Hf as [Hpw _]. pose proof (pwf_key _ _ Hpw).
  rewrite list_lookup_insert_ne; [by apply Hfr|]. unfold tls_index in *. pool_lia.
Qed.

Lemma create_inv g g' pool : g = pool_globals0 \/ globals_wf g /\ keys_fresh g ->
  0 <= lc_pool_nkey g < MAX_LOCAL_POOL ->
  lc_pool_create g = Ok (g', pool) ->
  globals_wf g' /\ keys_fresh g' /\ pool_fine g' pool /\ pool_elems pool = [] /\
    pool_key pool = lc_pool_nkey g /\
  lc_pool_nkey g' = lc_pool_nkey g + 1 /\ forall other, pool_fine g other -> pool_fine g' other.
Proof.
  intros Hg Hk E.
  assert (exists g1, globals_wf g1 /\ keys_fresh g1 /\ lc_pool_nkey g1 = lc_pool_nkey g /\
    lc_pool_create g1 = Ok (g', pool) /\
    forall other, pool_fine g other -> pool_fine g1 other) as (g1 & Hwf & Hf & Hn & E1 & Ho).
  { destruct Hg as [->|[Hwf Hf]]; [|by exists g].
    exists (PoolGlobals (replicate (Z.to_nat (MAX_NPOOLS * MAX_LOCAL_POOL)) POOL_UNINIT) 0 LC_SPIN_UNLOCKED true).
    split; [split; [cbn; rewrite length_replicate; pool_lia|done..]|].
    split; [|split; [done|split; [exact E|]]].
    - intros w key Hw Hkey. cbn. apply lookup_replicate. split; [done|].
      pose proof (tls_index_range w key Hw). cbn in Hkey. pool_lia.
    - intros other [[[_ _ Hi] _ _ _ _ _] _]. discriminate Hi. }
  destruct (lc_pool_create_spec g1 Hwf Hf ltac:(lia)) as (g2 & pool2 & E2 & Hpw & He & Hkey & Hf2 & Ho2).
  rewrite E1 in E2. injection E2 as <- <-. rewrite Hn in Hkey.
  assert (lc_pool_nkey g' = lc_pool_nkey g + 1 /\ pool_tight pool) as [Hn' Ht].
  { unfold lc_pool_create in E1. rewrite (gwf_init _ Hwf) in E1. cbn [negb pool_key mbind result_bind] in E1.
    remember (replicate (Z.to_nat MAX_NPOOLS) None) as cells eqn:Ec. destruct (_ || _); [done|].
    injection E1 as <- <-.
    cbn [lc_pool_nkey pool_lpools pool_npools]. rewrite Hn. split; [done|]. intros i o _ Hi. cbn in Hi.
    rewrite Ec in Hi. by apply lookup_replicate in Hi as [-> _]. }
  do 2 (split; [done || apply Hpw|]). split; [done|]. do 3 (split; [done|]). intros other Hother.
  destruct (Ho other Hother) as [? ?]. split; [by apply Ho2|done].
Qed.

(** While [lc_init] has made [n] devices. *)
Record starting (s : lci) (o : gmap Z place) (n : Z) : Prop := {
  st_placed : placed s o;
  st_globals : pool_g s = pool_globals0 \/ globals_wf (pool_g s) /\ keys_fresh (pool_g s);
  st_nkey : lc_pool_nkey (pool_g s) = n;
  st_kept : forall p t, o !! p = Some t -> kept t;
  st_devs : forall i d, lcg_dev s !! i = Some d -> 0 <= i < n /\ pool_key (pkpool d) < n }.

Lemma fresh_starting s : fresh_process s -> starting s ∅ 0.
Proof.
  intros [He Hd Hg Hw Hr]. split; [|by left|by rewrite Hg|intros p t; by rewrite lookup_empty|intros i d;
    by rewrite Hd].
  split; rewrite ?He, ?Hd; try done. intros p t Ht. rewrite lookup_empty. split; [done|].
  destruct t; try done; cbn; rewrite ?He, ?Hd.
  - by intros (d & Hi & _). - by intros (_ & e & h & Hi & _). - by intros (e & q & Hi & _).
Qed.

Lemma placed_new_dev s o i d g : placed s o -> lcg_dev s !! i = None -> pool_fine g (pkpool d) ->
  pool_elems (pkpool d) = [] ->
  (forall j e, lcg_dev s !! j = Some e -> pool_key (pkpool e) <> pool_key (pkpool d)) ->
  (forall other, pool_fine (pool_g s) other -> pool_fine g other) -> placed (set_dev i d (set_pool_g g s)) o.
Proof.
  intros [H1' H2' H3' H4' H5' H6' H7'] Hi Hf Hel Hkey Ho.
  assert (forall j e, lcg_dev (set_dev i d (set_pool_g g s)) !! j = Some e -> (j = i /\
    e = d) \/ lcg_dev s !! j = Some e) as Hget.
  { intros j e Hj. cbn in Hj. destruct (decide (j = i)) as [->|Hne];
      [|rewrite lookup_insert_ne in Hj by done; by right].
    rewrite lookup_insert_eq in Hj. injection Hj as <-. by left. }
  split; try done.
  - intros j e [[-> ->]|Hj]%Hget; cbn; [split; [done|]; rewrite Hel; constructor|]. destruct (H1' j e Hj). auto.
  - intros j1 j2 e1 e2 [[-> ->]|Hj1]%Hget [[-> ->]|Hj2]%Hget E; try done.
    + symmetry in E. by destruct (Hkey _ _ Hj2 E). + by destruct (Hkey _ _ Hj1 E). + by apply (H2' j1 j2 e1 e2).
  - intros p t Ht. rewrite H6' by done. destruct t as [j| | | | | | |]; try done. cbn. split.
    + intros (e & He & Hin). exists e. split; [|done]. rewrite lookup_insert_ne; [done|]. intros ->. congruence.
    + intros (e & He & Hin). destruct (Hget j e He) as [[-> ->]|Hj]; [|by exists e]. rewrite Hel in Hin.
      by apply elem_of_nil in Hin.
Qed.

(** A packet the process did not have. *)
Lemma placed_new s o p k q : placed s o -> o !! p = None -> 0 < p ->
  placed (set_reqs (fun m => <[req_s_of p := q]> m) (set_packets (fun m => <[p := k]> m) s)) (<[p := Posted]> o).
Proof.
  intros Hp Ho Hpos. set (s' := set_reqs _ _).
  assert (placed s' o) as [H1' H2' H3' H4' H5' H6' H7'].
  { eapply placed_quiet; [exact Hp|by split|]. intros p1 t k1 Ho1 Hk1 Hf. exists k1.
    assert (p1 <> p) as Hne by congruence. split; [cbn; by rewrite lookup_insert_ne|].
    eapply (fine_same s); [done| |done]. intros q1 Hq1. exists q1. split; [|done].
    cbn. rewrite lookup_insert_ne; [done|]. by intros ?%req_s_of_inj. }
  split; try done.
  - intros p1 t Ht. destruct (decide (p1 = p)) as [->|Hne]; [|rewrite lookup_insert_ne by done; by apply H6'].
    rewrite lookup_insert_eq. split; [intros [= <-]; by destruct Ht|]. intros Hin%H6'; [congruence|done].
  - intros p1 t. destruct (decide (p1 = p)) as [->|Hne]; [|rewrite lookup_insert_ne by done; apply H7'].
    rewrite lookup_insert_eq. intros [= <-]. split; [done|]. exists k. split; [apply lookup_insert_eq|done].
Qed.

Lemma init_packet_post id b i s o n : starting s o n -> 0 < n -> 0 < b -> 0 <= i ->
  o !! (b + i * LC_PACKET_SIZE) = None ->
  post (dev_init_packet id b i) (fun _ s' => starting s' (<[b + i * LC_PACKET_SIZE := InPool id]> o) n /\
    trace s' = trace s) s.
Proof.
  intros [Hp Hg Hn Hke Hdv] Hn0 Hb Hi Ho. unfold dev_init_packet. set (p := b + i * LC_PACKET_SIZE) in *.
  assert (0 < p) as Hpos by (unfold p, LC_PACKET_SIZE; lia). do 2 mprim.
  match goal with |- post _ _ ?s => set (s1 := s) end.
  assert (placed s1 (<[p := Posted]> o)) as Hp1 by (by apply (placed_new s o p _ _)).
  mprim. intros d Hd. do 3 mprim. intros [g pool] E. do 2 mprim. split; [|done].
  pose proof (proj1 (pl_pools _ _ Hp1 _ _ Hd)) as Hf. destruct (Hdv id d Hd) as [Hid Hkd].
  destruct (put_inv _ _ _ _ _ _ Hf (pl_wid _ _ Hp1) E) as (Hf' & Hk & He & Hoth).
  assert (keys_fresh (pool_g s)) as Hfr.
  { destruct Hg as [Hg|[_ Hfr]]; [|done]. rewrite Hg in Hn. cbn in Hn. lia. }
  unfold lc_pool_put in E. apply bind_ok in E as ([[g1 pool1] pid] & El & E).
  apply bind_ok in E as (pool2 & _ & [= <- <-]).
  destruct (registered_keys _ _ _ _ _ _ Hf (pl_wid _ _ Hp1) El Hfr) as (Hfr' & Hn' & Hgw); [cbn; lia|].
  split; cbn; [|by right|by rewrite Hn'| |].
  - rewrite <- (insert_insert_eq o p (InPool id) Posted).
    exact (placed_put s1 _ id d g1 pool2 p Posted Hp1 Hd Hf' Hk Hoth He (lookup_insert_eq _ _ _) ltac:(intros [])).
  - intros p1 t. destruct (decide (p1 = p)) as [->|]; [|rewrite lookup_insert_ne by done; apply Hke].
    rewrite lookup_insert_eq. by intros [= <-].
  - intros j e Hj. destruct (decide (j = id)) as [->|Hne].
    + rewrite lookup_insert_eq in Hj. injection Hj as <-. cbn. by rewrite Hk.
    + rewrite lookup_insert_ne in Hj by done. by apply Hdv.
Qed.

Lemma init_packets_post id b n cnt : forall i s o, starting s o n -> 0 < n -> 0 < b -> 0 <= i ->
  (forall p, p ∈ packets_from b i cnt -> o !! p = None) ->
  post (dev_init_packets id b i cnt) (fun _ s' => exists o', starting s' o' n /\ trace s' = trace s /\
    forall p, is_Some (o' !! p) <-> is_Some (o !! p) \/ p ∈ packets_from b i cnt) s.
Proof.
  induction cnt as [|cnt IH]; intros i s o Hst Hn Hb Hi Hnew; cbn.
  { mprim. exists o. split; [done|]. split; [done|]. intros p. unfold packets_from. cbn. rewrite elem_of_nil.
    tauto. }
  rewrite packets_from_S in Hnew |- *. set (p0 := b + i * LC_PACKET_SIZE) in *. apply post_bind.
  eapply post_mono.
  { eapply (init_packet_post id b i); try done. apply Hnew. by left. }
  cbn beta. intros [] s1 [Hst1 Ht1]. eapply post_mono.
  { eapply (IH (i + 1)); [exact Hst1|done|done|lia|]. intros p Hp.
    rewrite lookup_insert_ne; [apply Hnew; by right|].
    intros <-. unfold packets_from in Hp. apply list_elem_of_fmap in Hp as (j & E & Hj%elem_of_seqZ).
    unfold LC_PACKET_SIZE in E. lia. }
  cbn beta. intros [] s2 (o2 & Hst2 & Ht2 & Hd2). exists o2. split; [done|]. split; [by rewrite Ht2|]. intros p.
  rewrite Hd2, lookup_insert_is_Some', elem_of_cons. fold p0. split; [intros [[|]|]; auto|intros [|[|]]; auto].
Qed.

(** The packets of a device and of the devices [0] to [n - 1]. *)
Definition heap_base (id : Z) : Z := snd (lc_server_init id) + lcg_page_size - sizeof_packet_context.
Definition heap_packets (id : Z) : list Z := packets_from (heap_base id) 0 (Z.to_nat LC_SERVER_NUM_PKTS).
Definition device_packets (n : Z) : list Z := concat (heap_packets <$> seqZ 0 n).

(** The heaps the server gives do not overlap. *)
Definition heaps_apart (n : Z) : Prop := NoDup (device_packets n) /\ forall i, 0 <= i < n -> 0 < heap_base i.

Lemma dev_init_post id s o : starting s o id -> 0 <= id < MAX_LOCAL_POOL -> 0 < heap_base id ->
  (forall p, p ∈ heap_packets id -> o !! p = None) ->
  post (lci_dev_init id) (fun _ s' => exists o', starting s' o' (id + 1) /\ trace s' = trace s /\
    forall p, is_Some (o' !! p) <-> is_Some (o !! p) \/ p ∈ heap_packets id) s.
Proof.
  intros [Hp Hg Hn Hke Hdv] Hid Hb Hnew. unfold lci_dev_init. unfold heap_packets, heap_base in *.
  destruct (lc_server_init id) as [reps heap]. cbn [snd] in *. do 2 mprim. intros [g pool] E.
  destruct (create_inv _ _ _ Hg ltac:(by rewrite Hn) E) as (Hgw & Hfr & Hf & Hel & Hk & Hn' & Ho). do 2 mprim.
  set (d := LcServer pool reps 0 heap). set (s1 := set_dev id d (set_pool_g g s)).
  assert (lcg_dev s !! id = None) as Hi.
  { destruct (lcg_dev s !! id) as [d'|] eqn:E'; [|done]. apply Hdv in E'. lia. }
  assert (starting s1 o (id + 1)) as Hst1.
  { split; [|by right|cbn; lia|done|].
    - apply placed_new_dev; try done. intros j e Hj. apply Hdv in Hj. cbn. lia.
    - intros j e Hj. cbn in Hj. destruct (decide (j = id)) as [->|Hne].
      + rewrite lookup_insert_eq in Hj. injection Hj as <-. cbn. lia.
      + rewrite lookup_insert_ne in Hj by done. apply Hdv in Hj. lia. }
  apply post_bind. eapply post_mono; [eapply (init_packets_post id _ (id + 1));
    [exact Hst1|lia|exact Hb|done|exact Hnew]|].
  cbn beta. intros [] s2 (o2 & [Hp2 Hg2 Hn2 Hke2 Hdv2] & Ht2 & Hd2). mprim. intros d2 Hd'. mprim. exists o2.
  split; [|split; [exact Ht2|done]]. split; [|done|done|done|].
  - by eapply placed_dev.
  - intros j e Hj. cbn in Hj. destruct (decide (j = id)) as [->|Hne].
    + rewrite lookup_insert_eq in Hj. injection Hj as <-. cbn. by apply (Hdv2 id d2).
    + rewrite lookup_insert_ne in Hj by done. by apply Hdv2.
Qed.

Lemma device_packets_S n : 0 <= n -> device_packets (n + 1) = device_packets n ++ heap_packets n.
Proof.
  intros Hn. unfold device_packets. rewrite seqZ_app by lia. rewrite fmap_app, concat_app. f_equal.
Qed.

Lemma init_devs_post cnt : forall i s o, starting s o i -> 0 <= i -> i + Z.of_nat cnt <= MAX_LOCAL_POOL ->
  heaps_apart (i + Z.of_nat cnt) -> (forall p, is_Some (o !! p) <-> p ∈ device_packets i) ->
  post (init_devs i cnt) (fun _ s' => exists o', starting s' o' (i + Z.of_nat cnt) /\
    forall p, is_Some (o' !! p) <-> p ∈ device_packets (i + Z.of_nat cnt)) s.
Proof.
  induction cnt as [|cnt IH]; intros i s o Hst Hi Hmax Hap Hdom; cbn [init_devs].
  { mprim. exists o. by rewrite Z.add_0_r. }
  apply post_bind. destruct (i <? LC_MAX_DEV); [|apply post_throw].
  assert (heaps_apart (i + 1)) as [Hnd _].
  { destruct Hap as [Hnd Hb]. split; [|intros j Hj; apply Hb; lia]. unfold device_packets in *.
    replace (i + Z.of_nat (S cnt)) with ((i + 1) + Z.of_nat cnt) in Hnd by lia.
    rewrite seqZ_app, fmap_app, concat_app in Hnd by lia. by apply NoDup_app in Hnd as [? _]. }
  eapply post_mono.
  { eapply dev_init_post; [exact Hst|lia|apply Hap; lia|]. intros p Hp. apply eq_None_not_Some. rewrite Hdom.
    rewrite device_packets_S in Hnd by done. apply NoDup_app in Hnd as (_ & Hnd & _). intros Hin.
    by apply (Hnd p). }
  cbn beta. intros [] s1 (o1 & Hst1 & _ & Hd1).
  replace (i + Z.of_nat (S cnt)) with ((i + 1) + Z.of_nat cnt) in * by lia.
  eapply IH; [exact Hst1|lia|lia|done|]. intros p. rewrite Hd1, Hdom, device_packets_S, elem_of_app by done.
  tauto.
Qed.

Lemma init_accounted ndev s0 s1 ep : fresh_process s0 -> 0 <= ndev <= MAX_LOCAL_POOL -> heaps_apart ndev ->
  lc_init ndev s0 = Ok ((LC_OK, ep), s1) -> accounted (device_packets ndev) (s1, []).
Proof.
  intros Hf Hn Hap E. unfold lc_init in E. apply bind_inv in E as ([] & s2 & E1 & E).
  apply bind_inv in E as (ep' & s3 & E2 & [= -> ->]).
  destruct (init_devs_post (Z.to_nat ndev) 0 s0 ∅ (fresh_starting s0 Hf) ltac:(done) ltac:(lia)
    ltac:(by rewrite Z2Nat.id by lia) ltac:(intros p; rewrite lookup_empty; split; [by intros []|]; cbn;
      intros ?%elem_of_nil; done)
    tt s2 E1) as (o & [Hp _ _ Hke _] & Hdom). rewrite Z.add_0_l, Z2Nat.id in Hdom by lia.
  destruct (ep_open_post 0 _ s2 o Hp ep s1 E2) as (Hp' & _ & _). exists o. split; [done|]. split; [|done].
  intros p. cbn. unfold owed_at. destruct (o !! p) as [t|] eqn:Ho; [|done].
  apply Hke in Ho. by destruct t.
Qed.

(** ** Properties *)

(** A process that started with [ndev] devices and ran on to state [s], where its server and
    its client hold the tickets [net]. *)
Record ran (ndev : Z) (s0 s1 s : lci) (ep : Z) (net : list ticket) : Prop := {
  ran_fresh : fresh_process s0;
  ran_ndev : 0 <= ndev <= MAX_LOCAL_POOL;
  ran_heaps : heaps_apart ndev;
  ran_init : lc_init ndev s0 = Ok ((LC_OK, ep), s1);
  ran_steps : rtc step (s1, []) (s, net) }.

Lemma ran_accounted ndev s0 s1 s ep net : ran ndev s0 s1 s ep net -> accounted (device_packets ndev) (s, net).
Proof. intros [Hf Hn Hh Hi Hst]. eapply steps_accounted; [exact Hst|]. by eapply init_accounted. Qed.

(** C1: No packet is lost or used twice.  In every state a process reaches after [lc_init], by
    calls of its client, by arrivals and completions its server serves, in any order and on
    any thread, each of the packets its devices were made with has one place: the pool of one
    device, one key of one endpoint's matching table, one completion queue, or the hands of
    the server or the client, which then hold exactly the tickets of that place; and nothing
    is queued twice. *)
Theorem packets_accounted ndev s0 s1 s ep net : ran ndev s0 s1 s ep net ->
  exists o : gmap Z place,
    (forall p, is_Some (o !! p) <-> p ∈ device_packets ndev) /\
    (forall p t, kept t -> o !! p = Some t <-> inside s p t) /\ settled o net /\
    (forall i d, lcg_dev s !! i = Some d -> NoDup (pool_elems (pkpool d))) /\
    (forall a e q, eps s !! a = Some e -> ep_to e = Cq q -> NoDup (cq_elems q)) /\
    (forall a e h key, eps s !! a = Some e -> ep_from e = Tbl h -> valid_key key ->
      NoDup (waiting h key SERVER)).
Proof.
  intros Hr. destruct (ran_accounted _ _ _ _ _ _ Hr) as (o & [Hpl _ _ _ Hep Hin _] & Hs & HD). cbn in *.
  exists o.
  do 3 (split; [done|]). split; [intros i d Hd; by destruct (Hpl i d Hd)|]. split.
  - intros a e q He Hq. destruct (Hep a e He) as (_ & _ & Ht). unfold to_fine in Ht. rewrite Hq in Ht. apply Ht.
  - intros a e h key He Hh. destruct (Hep a e He) as (_ & Hf & _). unfold from_fine in Hf. rewrite Hh in Hf.
    apply Hf.
Qed.

(** C4: The structures of a process stay well formed.  In every state it reaches after
    [lc_init] the pool of each device is a well-formed pool and no two devices share its key;
    each matching table and completion queue is well formed, no endpoint has both; and a
    packet that waits in a table, or whose request is queued, is one of the process, the
    queued request pointing back to it. *)
Theorem process_well_formed ndev s0 s1 s ep net : ran ndev s0 s1 s ep net ->
  (forall i d, lcg_dev s !! i = Some d -> pool_wf (pool_g s) (pkpool d)) /\
  (forall i j d d', lcg_dev s !! i = Some d -> lcg_dev s !! j = Some d' -> i <> j ->
     pool_key (pkpool d) <> pool_key (pkpool d')) /\
  (forall a e h, eps s !! a = Some e -> ep_from e = Tbl h -> table_wf h /\ (forall q, ep_to e <> Cq q) /\
     forall key p, valid_key key -> p ∈ waiting h key SERVER -> is_Some (packets s !! p)) /\
  (forall a e q, eps s !! a = Some e -> ep_to e = Cq q -> cq_wf q /\
     forall r, r ∈ cq_elems q -> exists p x, r = req_s_of p /\ is_Some (packets s !! p) /\
       reqs s !! r = Some x /\ parent x = p).
Proof.
  intros Hr. destruct (ran_accounted _ _ _ _ _ _ Hr) as (o & Hp & _ & _). cbn in Hp.
  pose proof Hp as [Hpl Hk _ _ Hep Hin Hpk].
  split; [intros i d Hd; by apply (Hpl i d)|]. split; [intros i j d d' Hi Hj Hne E;
    by apply Hne, (Hk i j d d')|]. split.
  - intros a e h He Hh. destruct (Hep a e He) as (_ & Hf & _). unfold from_fine in Hf. rewrite Hh in Hf.
    destruct Hf as (Hwf & _ & Hnq). split; [done|]. split; [done|]. intros key p Hv Hw.
    destruct (Hpk p (InTable a key)) as (_ & k & Hkp & _); [by apply (elem_of_tbl s o a e h)|by rewrite Hkp].
  - intros a e q He Hq. destruct (Hep a e He) as (_ & _ & Ht). unfold to_fine in Ht. rewrite Hq in Ht.
    split; [apply Ht|].
    intros r Hrq. assert (exists p, r = req_s_of p) as [p ->] by (exists (r - 16); unfold req_s_of; lia).
    destruct (Hpk p (InQueue a)) as (_ & k & Hkp & x & Hx & Hpar); [by apply (elem_of_queue s o a e q)|].
    exists p, x. by rewrite Hkp.
Qed.
End runs.

(** ** Witnesses *)

#[local] Existing Instances demo_build demo_server ProtoDemo.demo_client demo_platform.

(** A process of one device after [lc_init], and after its server posted a packet. *)
Definition new_process : lci :=
  Lci ∅ ∅ ∅ ∅ (replicate 8 0) ∅ 0 0 400 pool_globals0 3 [] [].
Definition result_or {A} (d : A) (r : result A) : A := match r with Ok a => a | Err _ => d end.
Definition started_process : lci := snd (result_or ((LC_OK, 0), new_process) (lc_init 1 new_process)).
Definition posted_process : Z * lci := result_or (0, new_process) (pool_get_nb 0 started_process).

Lemma started_ok : lc_init 1 new_process = Ok ((LC_OK, 400), started_process).
Proof.
  assert ((if lc_init 1 new_process is Ok (LC_OK, ep, _) then ep =? 400 else false) = true) as Hb by (vm_compute; reflexivity).
  unfold started_process. destruct (lc_init 1 new_process) as [[[[] ep] s]|]; try discriminate Hb.
  apply Z.eqb_eq in Hb. by rewrite Hb.
Qed.

Lemma posted_ok : pool_get_nb 0 started_process = Ok posted_process /\ (fst posted_process =? NULL) = false.
Proof.
  assert ((if pool_get_nb 0 started_process is Ok (p, _) then p =? NULL else true) = false) as Hb by (vm_compute; reflexivity).
  unfold posted_process. destruct (pool_get_nb 0 started_process) as [[p s]|]; [|discriminate Hb].
  split; [reflexivity|exact Hb].
Qed.

Lemma new_process_fresh : fresh_process new_process.
Proof. split; [reflexivity..|cbn; pool_lia|constructor]. Qed.

Lemma demo_heaps_apart : heaps_apart 1.
Proof.
  split; [|intros i Hi; assert (i = 0) as -> by lia; vm_compute; reflexivity].
  change 1 with (0 + 1). rewrite device_packets_S by lia. apply packets_from_nodup.
Qed.

Lemma posted_step : step (started_process, []) (snd posted_process, [TRecv (fst posted_process)]).
Proof.
  destruct posted_ok as [Hp Hne]. rewrite (surjective_pairing posted_process) in Hp.
  apply (step_post 0 _ _ _ []) in Hp. rewrite Hne in Hp. exact Hp.
Qed.

Lemma demo_ran : ran 1 new_process started_process (snd posted_process) 400 [TRecv (fst posted_process)].
Proof.
  split; [exact new_process_fresh|pool_lia|exact demo_heaps_apart|exact started_ok|].
  apply rtc_once. exact posted_step.
Qed.

Lemma packets_accounted_witness : exists o : gmap Z place,
  (forall p, is_Some (o !! p) <-> p ∈ device_packets 1) /\ settled o [TRecv (fst posted_process)].
Proof.
  destruct (packets_accounted _ _ _ _ _ _ demo_ran) as (o & HD & _ & Hs & _). exists o.
  split; [exact HD|exact Hs].
Defined.

Lemma posted_device : exists d, lcg_dev (snd posted_process) !! 0 = Some d.
Proof.
  assert ((if lcg_dev (snd posted_process) !! 0 is Some _ then true else false) = true) as Hb by (vm_compute;
    reflexivity).
  destruct (lcg_dev (snd posted_process) !! 0) as [d|]; [by exists d|discriminate Hb].
Qed.

Lemma process_well_formed_witness : exists d, lcg_dev (snd posted_process) !! 0 = Some d /\
  pool_wf (pool_g (snd posted_process)) (pkpool d).
Proof.
  destruct posted_device as [d Hd]. exists d. split; [exact Hd|].
  exact (proj1 (process_well_formed _ _ _ _ _ _ demo_ran) 0 d Hd).
Defined.
