(* ===== verification/Psm.v ===== *)
(** * The PSM2 server (include/server/server_psm2.h)

    The server's tags, its posted receives, its registrations and its progress.  The PSM2
    library is not modelled: its calls are logged in the order made, and what
    psm2_mq_ipeek2 found is an argument of the progress. *)
From stdpp Require Import gmap.
From S2P Require Import Prelude Text Config Pool Hashtable CompQueue State Proto Api Lcrq.

(** psm2_mq_tag_t: three 32-bit words. *)
Record psm2_mq_tag : Type := Tag { tag0 : Z; tag1 : Z; tag2 : Z }.

Definition PSM_RECV_DATA : Z := 0x10000000.
Definition PSM_RECV_RDMA : Z := 0x20000000.
Definition PSM_RECV_RDMA_SID : Z := 0x30000000.
Definition PSM_RECV_RDMA_RTP : Z := 0x40000000.
Definition PSM_RDMA_IMM : Z := 2 ^ 31.

Definition LCI_PSM2_TAGSEL : psm2_mq_tag := Tag 0 0 0x0FFFFFFF.

Definition PSM_RECV : Z := 2 ^ 62.
Definition PSM_SEND : Z := 2 ^ 63.

Definition PSM_TAG_TRECV_DATA : psm2_mq_tag := Tag 0 0 PSM_RECV_DATA.
Definition PSM_TAG_TSEND_DATA (proto rank : Z) : psm2_mq_tag := Tag (u32 proto) (u32 rank) PSM_RECV_DATA.
Definition PSM_TAG_SRDMA (offset : Z) : psm2_mq_tag := Tag (u32 offset) 0 PSM_RECV_RDMA.
Definition PSM_TAG_SRDMA_META (offset meta : Z) : psm2_mq_tag :=
  Tag (u32 offset) (u32 meta) PSM_RECV_RDMA_SID.
Definition PSM_TAG_SRDMA_RTS (offset rkey : Z) : psm2_mq_tag :=
  Tag (u32 offset) (u32 rkey) PSM_RECV_RDMA_RTP.
Definition PSM_TAG_SRDMA_DAT (rkey : Z) : psm2_mq_tag := Tag 0 0 (u32 rkey).
Definition PSM_TAG_SRDMA_DAT_META (rkey meta : Z) : psm2_mq_tag := Tag 1 (u32 meta) (u32 rkey).
Definition PSM_TAG_SRDMA_DAT_IMM (rkey sid : Z) : psm2_mq_tag := Tag (u32 sid) PSM_RDMA_IMM (u32 rkey).
Definition PSM_TAG_RRDMA_DAT (rkey : Z) : psm2_mq_tag := Tag 0 0 (u32 rkey).

(** Calls of psm2_mq_irecv2, psm2_mq_send2 (with the bytes sent) and psm2_mq_isend2. *)
Inductive mq_call : Type :=
| MqIrecv (tag sel : psm2_mq_tag) (buf len ctx req : Z)
| MqSend (peer : Z) (tag : psm2_mq_tag) (bytes : list Z)
| MqIsend (peer : Z) (tag : psm2_mq_tag) (buf len ctx req : Z).

(** psm2_mq_status2_t: what is read of it. *)
Record mq_status : Type := MqStatus {
  st_context : Z; msg_tag : psm2_mq_tag; msg_length : Z; msg_peer : Z }.

(** struct psm_mr, less its [server] (there is one) and its [req]. *)
Record psm_mr : Type := PsmMr { mr_addr : Z; mr_size : Z; mr_rkey : Z }.

(** A server with the process it belongs to, [next_key] of lc.c, and the calls of the
    library; the registrations are objects at the addresses below [mr_brk]. *)
Record psm : Type := Psm {
  proc : lci;
  me : Z; heap : Z; heap_rkey : Z; recv_posted : Z;
  free_mr : lcrq_t; mrs : gmap Z psm_mr; mr_brk : Z;
  next_key : Z;
  mq : list mq_call }.

Notation PS := (ST psm).

Definition set_proc x s := Psm x (me s) (heap s) (heap_rkey s) (recv_posted s) (free_mr s) (mrs s)
  (mr_brk s) (next_key s) (mq s).
Definition set_recv_posted x s := Psm (proc s) (me s) (heap s) (heap_rkey s) x (free_mr s) (mrs s)
  (mr_brk s) (next_key s) (mq s).
Definition set_free_mr x s := Psm (proc s) (me s) (heap s) (heap_rkey s) (recv_posted s) x (mrs s)
  (mr_brk s) (next_key s) (mq s).
Definition set_mrs m b s := Psm (proc s) (me s) (heap s) (heap_rkey s) (recv_posted s) (free_mr s) m
  b (next_key s) (mq s).
Definition set_next_key x s := Psm (proc s) (me s) (heap s) (heap_rkey s) (recv_posted s) (free_mr s)
  (mrs s) (mr_brk s) x (mq s).
Definition set_mq x s := Psm (proc s) (me s) (heap s) (heap_rkey s) (recv_posted s) (free_mr s)
  (mrs s) (mr_brk s) (next_key s) x.

(** An operation of the process, and one of the queue of free registrations. *)
Definition on_proc {A} (m : M A) : PS A := fun s =>
  match m (proc s) with Ok (a, x) => Ok (a, set_proc x s) | Err f => Err f end.
Definition on_free_mr {A} (m : QM A) : PS A := fun s =>
  match m (free_mr s) with Ok (a, q) => Ok (a, set_free_mr q s) | Err f => Err f end.

Definition mq_log (c : mq_call) : PS unit := st_set (fun s => set_mq (mq s ++ [c]) s).

(** ** Words of eight bytes, little endian *)

Fixpoint le_bytes (n : nat) (x : Z) : list Z :=
  match n with O => [] | S n => x mod 256 :: le_bytes n (x / 256) end.
Fixpoint le_word (l : list Z) : Z :=
  match l with [] => 0 | b :: l => b + 256 * le_word l end.

(** ** Registrations *)

Definition lc_server_post_recv_rma (addr sz rkey ctx req : Z) : PS unit :=
  mq_log (MqIrecv (PSM_TAG_RRDMA_DAT rkey) LCI_PSM2_TAGSEL addr sz (Z.lor PSM_RECV ctx) req).

(** posix_memalign and malloc of a registration *)
Definition mr_malloc : PS Z := fun s =>
  Ok (mr_brk s, set_mrs (<[mr_brk s := PsmMr 0 0 0]> (mrs s)) (mr_brk s + 1) s).

Definition lc_server_get_free_mr (fuel : nat) : PS Z :=
  mr ← on_free_mr (lcrq_dequeue fuel);
  if mr =? NULL then mr_malloc else mret mr.

Definition lc_server_get_free_key : PS Z :=
  k ← st_get next_key;
  _ ← st_set (set_next_key (u32 (k + 1)));
  mret (Z.land k 0x0fffffff).

Definition get_mr (mr : Z) : PS psm_mr := fun s => st_lift (get_or NullDeref (mrs s !! mr)) s.

(** [&mr->req] is the registration's address here. *)
Definition _real_psm_reg (fuel : nat) (buf sz : Z) : PS Z :=
  mr ← lc_server_get_free_mr fuel;
  _ ← get_mr mr;
  key ← lc_server_get_free_key;
  _ ← st_set (fun s => set_mrs (<[mr := PsmMr buf sz key]> (mrs s)) (mr_brk s) s);
  _ ← lc_server_post_recv_rma buf sz key 0 mr;
  mret mr.

Definition _real_psm_free (fuel : nat) (mem : Z) : PS Z :=
  _ ← get_mr mem;
  _ ← on_free_mr (lcrq_enqueue fuel mem);
  mret 1.

Definition lc_server_rma_reg (fuel : nat) (buf sz : Z) : PS Z := _real_psm_reg fuel buf sz.
Definition lc_server_rma_dereg (fuel : nat) (mem : Z) : PS unit := _ ← _real_psm_free fuel mem; mret tt.
Definition lc_server_rma_key (mem : Z) : PS Z := m ← get_mr mem; mret (mr_rkey m).

(** ** The name of a server: sprintf and sscanf with "%llu-%llu-%d" *)

Definition scan_dash (l : list Z) : option (list Z) :=
  match l with c :: l => if c =? DASH then Some l else None | [] => None end.

Definition print_name (epid heap key : Z) : list Z :=
  print_unsigned epid ++ DASH :: print_unsigned heap ++ DASH :: print_signed (i32 key).

Definition scan_name (l : list Z) : option (Z * Z * Z) :=
  '(epid, l) ← scan_unsigned l; l ← scan_dash l;
  '(heap, l) ← scan_unsigned l; l ← scan_dash l;
  '(key, l) ← scan_int l; Some (epid, heap, u32 key).

(** ** Start *)

Fixpoint fill_free_mr (fuel : nat) (n : nat) : PS unit :=
  match n with
  | O => mret tt
  | S n => mr ← mr_malloc; _ ← on_free_mr (lcrq_enqueue fuel mr); fill_free_mr fuel n
  end.

(** The remote endpoints from rank [i] on: [names] are the names the process manager has, and
    [connect] gives the address of an endpoint's id.  A name that is not one leaves the
    variables without a value. *)
Fixpoint connect_peers (rank : Z) (names : Z -> list Z) (connect : Z -> Z) (i : Z) (n : nat)
    : result (list lci_rep) :=
  match n with
  | O => Ok []
  | S n =>
      r ← (if i =? rank then Ok (LciRep 0 0 0 0)
           else '(epid, base, key) ← get_or OutOfBounds (scan_name (names i));
                Ok (LciRep (connect epid) i base key));
      l ← connect_peers rank names connect (i + 1) n;
      Ok (r :: l)
  end.

(** lc_server_init from the open endpoint [epid] on; [hp] is the memory posix_memalign gave.
    The name published under the own rank is an argument of [publish], which stands for the
    process manager: it gives the names of all. *)
Definition lc_server_init (fuel : nat) (rank size epid hp : Z) (publish : list Z -> Z -> list Z)
    (connect : Z -> Z) : PS (list lci_rep) :=
  _ ← st_set (fun s => Psm (proc s) rank hp (heap_rkey s) 0 (free_mr s) (mrs s) (mr_brk s)
                (next_key s) (mq s));
  _ ← on_free_mr lcrq_init;
  _ ← fill_free_mr fuel 256;
  key ← lc_server_get_free_key;
  _ ← st_set (fun s => Psm (proc s) (me s) (heap s) key (recv_posted s) (free_mr s) (mrs s)
                (mr_brk s) (next_key s) (mq s));
  st_lift (connect_peers rank (publish (print_name epid hp key)) connect 0 (Z.to_nat size)).

(** ** Receives *)

Definition lc_server_post_recv (p : Z) : PS unit :=
  if p =? NULL then
    n ← st_get recv_posted;
    dl ← on_proc (gets lcg_deadlock);
    if (n =? LC_SERVER_MAX_RCVS / 2) && negb (truth dl)
    then on_proc (modify (set_deadlock 1)) else mret tt
  else
    _ ← mq_log (MqIrecv PSM_TAG_TRECV_DATA LCI_PSM2_TAGSEL (data_of p) SHORT_MSG_SIZE
                  (Z.lor PSM_RECV p) p);
    n ← st_get recv_posted;
    _ ← st_set (set_recv_posted (u64 (n + 1)));
    dl ← on_proc (gets lcg_deadlock);
    if (u64 (n + 1) =? LC_SERVER_MAX_RCVS) && truth dl
    then on_proc (modify (set_deadlock 0)) else mret tt.

Definition recv_posted_decr : PS unit := st_set (fun s => set_recv_posted (u64 (recv_posted s - 1)) s).

(** memcpy((void * ) addr, p->data.buffer, len) *)
Definition copy_out (addr p len : Z) : M unit :=
  k ← get_packet p;
  l ← lift (packet_bytes k len);
  mem_store addr l.

Section psm.
Context `{Build, Server, Client}.
Context (dev : Z).    (* the device of the server *)

(** The branch of lc_server_progress for a receive that completed. *)
Definition progress_recv (status : mq_status) (p : Z) : PS unit :=
  let tag := msg_tag status in
  let pk_type := Z.land (tag2 tag) 0xf0000000 in
  heap ← st_get heap;
  if pk_type =? PSM_RECV_DATA then
    _ ← on_proc (own_req p);
    _ ← on_proc (upd_req (req_s_of p) (fun q => rq_set_size (msg_length status)
          (rq_set_rank (i32 (tag1 tag)) (rq_set_rhandle (msg_peer status) q))));
    _ ← on_proc (lci_serve_recv p (tag0 tag));
    recv_posted_decr
  else if pk_type =? PSM_RECV_RDMA then
    _ ← on_proc (own_req p);
    _ ← on_proc (copy_out (tag0 tag + heap) p (msg_length status));
    lc_server_post_recv p
  else if pk_type =? PSM_RECV_RDMA_SID then
    _ ← on_proc (own_req p);
    _ ← on_proc (copy_out (tag0 tag + heap) p (msg_length status));
    _ ← on_proc (lci_serve_recv_rdma p (tag1 tag));
    recv_posted_decr
  else if pk_type =? PSM_RECV_RDMA_RTP then
    k ← on_proc (get_packet p);
    l ← st_lift (packet_bytes k 8);
    _ ← lc_server_post_recv_rma (tag0 tag + heap) (le_word l) (tag1 tag) p p;
    recv_posted_decr
  else if tag1 tag =? PSM_RDMA_IMM then
    on_proc (lci_serve_imm (heap + tag0 tag))
  else if truth (tag0 tag) then
    _ ← on_proc (own_req p);
    on_proc (lci_serve_recv_rdma p (tag1 tag))
  else
    _ ← on_proc (own_req p);
    on_proc (pool_put dev p).

Definition progress_completion (status : mq_status) : PS unit :=
  let ctx := st_context status in
  if truth (Z.land ctx PSM_RECV) then progress_recv status (Z.lxor ctx PSM_RECV)
  else if truth (Z.land ctx PSM_SEND) then
    let p := Z.lxor ctx PSM_SEND in
    if truth p then on_proc (lci_serve_send p) else mret tt
  else mret tt.

(** "Post receive if any." *)
Definition progress_post : PS unit :=
  n ← st_get recv_posted;
  if n <? LC_SERVER_MAX_RCVS then
    p ← on_proc (pool_get_nb dev);
    lc_server_post_recv p
  else mret tt.

Definition lc_server_progress (peek : option mq_status) : PS bool :=
  _ ← match peek with Some status => progress_completion status | None => mret tt end;
  _ ← progress_post;
  mret (bool_decide (is_Some peek)).

End psm.

(** lc.c: the progress of device [id]. *)
Definition lc_progress `{Build, Server, Client} (id : Z) (peek : option mq_status) : PS bool :=
  lc_server_progress id peek.

(** ** Sends: the peer is the handle [rep] *)

Definition lc_server_sendm (rep sz ctx proto : Z) : PS unit :=
  me ← st_get me;
  mq_log (MqIsend rep (PSM_TAG_TSEND_DATA proto me) (data_of ctx) sz (Z.lor PSM_SEND ctx) ctx).
Definition lc_server_sends (rep : Z) (ubuf : list Z) (proto : Z) : PS unit :=
  me ← st_get me;
  mq_log (MqSend rep (PSM_TAG_TSEND_DATA proto me) ubuf).
Definition lc_server_puts (rep : Z) (buf : list Z) (offset : Z) : PS unit :=
  mq_log (MqSend rep (PSM_TAG_SRDMA offset) buf).
Definition lc_server_putss (rep : Z) (buf : list Z) (offset meta : Z) : PS unit :=
  mq_log (MqSend rep (PSM_TAG_SRDMA_META offset meta) buf).
Definition lc_server_putm (rep offset sz ctx : Z) : PS unit :=
  mq_log (MqIsend rep (PSM_TAG_SRDMA offset) (data_of ctx) sz (Z.lor PSM_SEND ctx) ctx).
Definition lc_server_putms (rep offset sz meta ctx : Z) : PS unit :=
  mq_log (MqIsend rep (PSM_TAG_SRDMA_META offset meta) (data_of ctx) sz (Z.lor PSM_SEND ctx) ctx).
Definition lc_server_putl (rep buffer offset rkey sz ctx : Z) : PS unit :=
  _ ← mq_log (MqSend rep (PSM_TAG_SRDMA_RTS offset rkey) (le_bytes 8 sz));
  mq_log (MqIsend rep (PSM_TAG_SRDMA_DAT rkey) buffer sz (Z.lor PSM_SEND ctx) ctx).
Definition lc_server_putls (rep buffer offset rkey sz sid ctx : Z) : PS unit :=
  _ ← mq_log (MqSend rep (PSM_TAG_SRDMA_RTS offset rkey) (le_bytes 8 sz));
  mq_log (MqIsend rep (PSM_TAG_SRDMA_DAT_META rkey sid) buffer sz (Z.lor PSM_SEND ctx) ctx).
Definition lc_server_rma_rtr (rep buf rkey sz sid ctx : Z) : PS unit :=
  mq_log (MqIsend rep (PSM_TAG_SRDMA_DAT_IMM rkey sid) buf sz (Z.lor PSM_SEND ctx) ctx).

(** The calls of the server's interface a process makes, on this server. *)
Definition serve_event (fuel : nat) (e : event) : PS unit :=
  match e with
  | EvSends _ rep bytes proto => lc_server_sends rep bytes proto
  | EvSendm _ rep size p proto => lc_server_sendm rep size p proto
  | EvPuts _ rep bytes _ offset _ => lc_server_puts rep bytes offset
  | EvPutss _ rep bytes _ offset _ meta => lc_server_putss rep bytes offset meta
  | EvPutm _ rep _ offset _ size p => lc_server_putm rep offset size p
  | EvPutms _ rep _ offset _ size meta p => lc_server_putms rep offset size meta p
  | EvPutl _ rep buf _ offset rkey size p => lc_server_putl rep buf offset rkey size p
  | EvPutls _ rep buf _ offset rkey size meta p => lc_server_putls rep buf offset rkey size meta p
  | EvRmaRtr _ rep buf _ rkey size sid p => lc_server_rma_rtr rep buf rkey size sid p
  | EvRmaReg _ buf size _ => _ ← lc_server_rma_reg fuel buf size; mret tt
  | EvRmaDereg mem => lc_server_rma_dereg fuel mem
  | EvAlloc _ _ _ | EvCallback _ _ | EvHandler _ _ | EvFree _ => mret tt
  end.
