(* ===== verification/PsmSpec.v ===== *)
(** * What the PSM2 server guarantees (about Psm.v) *)
From stdpp Require Import gmap.
From S2P Require Import Prelude Text Config Lock Dequeue Pool Hashtable CompQueue State.
From S2P Require Import Proto Api ProtoSpec Lcrq LcrqSpec Psm.

(** ** Running lifted operations *)

Lemma run_on_proc {A} (m : M A) s a x : m (proc s) = Ok (a, x) -> on_proc m s = Ok (a, set_proc x s).
Proof. intros E. unfold on_proc. by rewrite E. Qed.

Lemma run_on_free_mr {A} (m : QM A) s a q : m (free_mr s) = Ok (a, q) ->
  on_free_mr m s = Ok (a, set_free_mr q s).
Proof. intros E. unfold on_free_mr. by rewrite E. Qed.

(** ** Tags *)

(** The low 28 bits, which the receives look at. *)
Definition tag_key (x : Z) : Z := Z.land x 0x0fffffff.

Lemma tag_key_mod x : tag_key x = x mod 2 ^ 28.
Proof. apply (land_mask 28). lia. Qed.

Lemma tag_key_small x : 0 <= x < 2 ^ 28 -> tag_key x = x.
Proof. intros. rewrite tag_key_mod. by apply Z.mod_small. Qed.

Lemma pk_type_key x : 0 <= x < 2 ^ 28 -> Z.land x 0xf0000000 = 0.
Proof.
  intros Hx. change 0xf0000000 with (15 * 2 ^ 28). rewrite <- Z.shiftl_mul_pow2 by lia.
  apply Z.bits_inj'. intros k Hk. rewrite Z.land_spec, Z.bits_0.
  destruct (Z.lt_ge_cases k 28) as [Hlt|Hge].
  - by rewrite Z.shiftl_spec_low, andb_false_r.
  - rewrite (Z.bits_above_log2 x); [done|lia|].
    destruct (Z.eq_dec x 0) as [->|]; [cbn; lia|]. assert (Z.log2 x < 28); [|lia].
    apply Z.log2_lt_pow2; lia.
Qed.

(** A message for a registration: the three tags it can have. *)
Inductive data_tag (key : Z) : psm2_mq_tag -> Prop :=
| DatPlain : data_tag key (PSM_TAG_SRDMA_DAT key)
| DatMeta meta : data_tag key (PSM_TAG_SRDMA_DAT_META key meta)
| DatImm sid : data_tag key (PSM_TAG_SRDMA_DAT_IMM key sid).

(** A message for a packet. *)
Inductive packet_tag : psm2_mq_tag -> Prop :=
| PktData proto rank : packet_tag (PSM_TAG_TSEND_DATA proto rank)
| PktPut offset : packet_tag (PSM_TAG_SRDMA offset)
| PktPutMeta offset meta : packet_tag (PSM_TAG_SRDMA_META offset meta)
| PktRts offset key : packet_tag (PSM_TAG_SRDMA_RTS offset key).

Lemma data_tag_key key t : data_tag key t -> 0 <= key < 2 ^ 28 -> tag_key (tag2 t) = key.
Proof. intros Ht Hk. destruct Ht; cbn [tag2 PSM_TAG_SRDMA_DAT PSM_TAG_SRDMA_DAT_META PSM_TAG_SRDMA_DAT_IMM]; rewrite u32_small by lia; by apply tag_key_small. Qed.

Lemma packet_tag_key t : packet_tag t -> tag_key (tag2 t) = 0.
Proof. by destruct 1. Qed.

(** PSM2's matching: a message with tag [t] goes to a receive with tag [r] and selector [sel]
    when they agree on the bits of the selector. *)
Definition psm2_matching (matches : psm2_mq_tag -> psm2_mq_tag -> psm2_mq_tag -> bool) : Prop :=
  forall r sel t, matches r sel t = true <->
    Z.land (tag0 r) (tag0 sel) = Z.land (tag0 t) (tag0 sel) /\
    Z.land (tag1 r) (tag1 sel) = Z.land (tag1 t) (tag1 sel) /\
    Z.land (tag2 r) (tag2 sel) = Z.land (tag2 t) (tag2 sel).

Lemma matching_key matches r t : psm2_matching matches ->
  matches r LCI_PSM2_TAGSEL t = true <-> tag_key (tag2 r) = tag_key (tag2 t).
Proof. intros Hm. rewrite (Hm r LCI_PSM2_TAGSEL t). cbn [LCI_PSM2_TAGSEL tag0 tag1 tag2].
  rewrite !Z.land_0_r. tauto. Qed.

(** ** Registrations *)

Lemma run_get_mr s mr m : mrs s !! mr = Some m -> get_mr mr s = Ok (m, s).
Proof. intros E. unfold get_mr. by rewrite E. Qed.

(** A registration: the receive it posts and the key it has. *)
Lemma reg_inv fuel buf sz s mem s' : _real_psm_reg fuel buf sz s = Ok (mem, s') ->
  mq s' = mq s ++ [MqIrecv (PSM_TAG_RRDMA_DAT (tag_key (next_key s))) LCI_PSM2_TAGSEL buf sz
                     (Z.lor PSM_RECV 0) mem] /\
  mrs s' !! mem = Some (PsmMr buf sz (tag_key (next_key s))) /\
  next_key s' = u32 (next_key s + 1) /\ recv_posted s' = recv_posted s.
Proof.
  unfold _real_psm_reg. intros E. apply st_bind_inv in E as (mr & s1 & E1 & E).
  assert (mq s1 = mq s /\ next_key s1 = next_key s /\ recv_posted s1 = recv_posted s) as (Hq & Hk & Hp).
  { unfold lc_server_get_free_mr in E1. apply st_bind_inv in E1 as (x & s2 & E2 & E1).
    unfold on_free_mr in E2. destruct (lcrq_dequeue fuel (free_mr s)) as [[y q]|]; [|done].
    injection E2 as -> <-. destruct (x =? NULL); [|by injection E1 as <- <-].
    by injection E1 as <- <-. }
  apply st_bind_inv in E as (m & s2 & E2 & E).
  assert (s2 = s1) as ->. { unfold get_mr in E2. destruct (mrs s1 !! mr); [|done]. by injection E2. }
  injection E as <- <-. cbn. rewrite lookup_insert_eq, Hq, Hk. auto.
Qed.

(** C33: A registration posts a receive for its buffer that only messages for its key reach: no
    message for another key, and no message for a packet; and lc_server_rma_key gives the
    key.  This holds for the first 2^28 - 1 keys. *)
Theorem psm_keys_separate matches fuel buf sz s mem s' :
  psm2_matching matches -> 0 < next_key s < 2 ^ 28 ->
  _real_psm_reg fuel buf sz s = Ok (mem, s') ->
  let r := PSM_TAG_RRDMA_DAT (next_key s) in
  mq s' = mq s ++ [MqIrecv r LCI_PSM2_TAGSEL buf sz PSM_RECV mem] /\
  lc_server_rma_key mem s' = Ok (next_key s, s') /\ next_key s' = next_key s + 1 /\
  (forall key t, 0 <= key < 2 ^ 28 -> data_tag key t ->
     matches r LCI_PSM2_TAGSEL t = true <-> key = next_key s) /\
  (forall t, packet_tag t -> matches r LCI_PSM2_TAGSEL t = false /\
     matches PSM_TAG_TRECV_DATA LCI_PSM2_TAGSEL t = true) /\
  (forall key t, 0 < key < 2 ^ 28 -> data_tag key t ->
     matches PSM_TAG_TRECV_DATA LCI_PSM2_TAGSEL t = false).
Proof.
  intros Hm Hk E r. apply reg_inv in E as (Hq & Hmr & Hn & _).
  rewrite tag_key_small in Hq, Hmr by lia. rewrite u32_small in Hn by lia.
  assert (tag_key (tag2 r) = next_key s) as Er.
  { unfold r. cbn [tag2 PSM_TAG_RRDMA_DAT]. rewrite u32_small by lia. apply tag_key_small. lia. }
  split; [done|]. split.
  { unfold lc_server_rma_key. by rewrite (st_bind_run _ _ _ _ _ (run_get_mr _ _ _ Hmr)). }
  split; [done|]. split; [|split].
  - intros key t Hkey Ht. rewrite (matching_key _ _ _ Hm), Er, (data_tag_key _ _ Ht) by lia. lia.
  - intros t Ht. split; [apply not_true_is_false|]; rewrite (matching_key _ _ _ Hm);
      rewrite ?Er, (packet_tag_key _ Ht); [lia|done].
  - intros key t Hkey Ht. apply not_true_is_false. rewrite (matching_key _ _ _ Hm).
    rewrite (data_tag_key _ _ Ht) by lia. change (tag_key (tag2 PSM_TAG_TRECV_DATA)) with 0. lia.
Qed.

(** Registration number 2^28 has the key 0, and every message for a packet matches its
    receive: an eager message can land in the registered buffer. *)
Theorem psm_key_wraps matches fuel buf sz s mem s' t :
  psm2_matching matches -> next_key s = 2 ^ 28 ->
  _real_psm_reg fuel buf sz s = Ok (mem, s') -> packet_tag t ->
  exists r, mq s' = mq s ++ [MqIrecv r LCI_PSM2_TAGSEL buf sz PSM_RECV mem] /\
    matches r LCI_PSM2_TAGSEL t = true.
Proof.
  intros Hm Hk E Ht. apply reg_inv in E as (Hq & _). rewrite Hk in Hq.
  eexists. split; [exact Hq|]. rewrite (matching_key _ _ _ Hm), (packet_tag_key _ Ht). done.
Qed.

(** ** Receives *)

(** A receive for a packet. *)
Definition packet_recv (c : mq_call) : bool :=
  match c with MqIrecv t _ _ _ _ _ => tag2 t =? PSM_RECV_DATA | _ => false end.
(** The receives for packets posted so far. *)
Definition posted (s : psm) : Z := Z.of_nat (length (filter packet_recv (mq s))).

Definition pk_type (st : mq_status) : Z := Z.land (tag2 (msg_tag st)) 0xf0000000.
Definition is_recv (st : mq_status) : bool := truth (Z.land (st_context st) PSM_RECV).
(** What the completion of a receive for a packet, and that of a plain put, count. *)
Definition consumed (peek : option mq_status) : Z :=
  match peek with
  | Some st => Z.b2z (is_recv st && ((pk_type st =? PSM_RECV_DATA) || (pk_type st =? PSM_RECV_RDMA) ||
      (pk_type st =? PSM_RECV_RDMA_SID) || (pk_type st =? PSM_RECV_RDMA_RTP)))
  | None => 0
  end.
Definition plain_put (peek : option mq_status) : Z :=
  match peek with Some st => Z.b2z (is_recv st && (pk_type st =? PSM_RECV_RDMA)) | None => 0 end.

(** A rendezvous put names a key a registration can have. *)
Definition peek_ok (peek : option mq_status) : Prop :=
  match peek with
  | Some st => pk_type st = PSM_RECV_RDMA_RTP -> 0 <= tag1 (msg_tag st) < 2 ^ 28
  | None => True
  end.

Lemma on_proc_inv {A} (m : M A) s a s' : on_proc m s = Ok (a, s') ->
  recv_posted s' = recv_posted s /\ posted s' = posted s.
Proof.
  unfold on_proc. destruct (m (proc s)) as [[b x]|]; [|done]. by intros [= _ <-].
Qed.

Lemma posted_log c s s' a : mq_log c s = Ok (a, s') ->
  recv_posted s' = recv_posted s /\ posted s' = posted s + Z.b2z (packet_recv c).
Proof.
  intros [= _ <-]. split; [done|]. unfold posted. cbn [mq set_mq].
  rewrite filter_app, length_app, filter_cons. by destruct (packet_recv c); cbn [length]; case_decide; cbn; try lia.
Qed.

Lemma post_recv_inv p s a s' : lc_server_post_recv p s = Ok (a, s') -> 0 <= recv_posted s < 2 ^ 63 ->
  recv_posted s' - recv_posted s = posted s' - posted s /\ 0 <= posted s' - posted s <= 1.
Proof.
  unfold lc_server_post_recv. intros E Hr. destruct (p =? NULL).
  - inv_st. injection Ha as <- <-. apply on_proc_inv in Ha0 as [H1 H2].
    destruct (_ && _); [apply on_proc_inv in E as [H3 H4]; lia|]. injection E as _ <-. lia.
  - apply st_bind_inv in E as (x & s1 & E1 & E). apply posted_log in E1 as [H1 H2].
    change (Z.b2z (packet_recv _)) with 1 in H2.
    apply st_bind_inv in E as (n & s2 & E2 & E). injection E2 as <- <-. rewrite H1 in E.
    rewrite u64_small in E by lia.
    apply st_bind_inv in E as (y & s3 & [= _ <-] & E).
    apply st_bind_inv in E as (dl & s4 & E4 & E). apply on_proc_inv in E4 as [H3 H4].
    cbn [recv_posted set_recv_posted] in H3. change (posted (set_recv_posted _ s1)) with (posted s1) in H4.
    destruct (_ && _); [apply on_proc_inv in E as [H5 H6]; lia|]. injection E as _ <-. lia.
Qed.

Lemma decr_inv s a s' : recv_posted_decr s = Ok (a, s') -> 0 < recv_posted s < 2 ^ 62 ->
  recv_posted s' = recv_posted s - 1 /\ posted s' = posted s.
Proof. intros [= _ <-] Hr. cbn [recv_posted set_recv_posted]. by rewrite u64_small by lia. Qed.

Section accounting.
Context `{Build, Server, Client}.
Context (dev : Z).

(** The count moves with the receives, except by a plain put. *)
Definition accounted (peek : option mq_status) (s s' : psm) : Prop :=
  recv_posted s' - recv_posted s = posted s' - posted s - consumed peek + plain_put peek.

Lemma completion_accounted st s a s' : progress_completion dev st s = Ok (a, s') ->
  0 <= recv_posted s < 2 ^ 62 -> consumed (Some st) <= recv_posted s -> peek_ok (Some st) ->
  accounted (Some st) s s' /\ plain_put (Some st) <= consumed (Some st) <= 1 /\
  posted s' - posted s = 0 \/
  accounted (Some st) s s' /\ plain_put (Some st) = 1 /\ consumed (Some st) = 1 /\ posted s' - posted s = 1.
Proof.
  unfold progress_completion, accounted, consumed, plain_put, peek_ok. intros E Hr Hc Hok.
  change (truth (Z.land (st_context st) PSM_RECV)) with (is_recv st) in E.
  destruct (is_recv st); cbn [andb] in *.
  2: { left. assert (recv_posted s' = recv_posted s /\ posted s' = posted s); [|cbn; lia].
    destruct (truth _); [destruct (truth _)|]; [by eapply on_proc_inv|by injection E as _ <-..]. }
  unfold progress_recv in E. apply st_bind_inv in E as (hp & s0 & [= <- <-] & E).
  change (Z.land (tag2 (msg_tag st)) 4026531840) with (pk_type st) in E.
  destruct (Z.eqb_spec (pk_type st) PSM_RECV_DATA) as [E0|N0].
  { left. rewrite E0 in *. cbn in Hc |- *. inv_st.
    apply on_proc_inv in Ha, Ha0, Ha1. apply decr_inv in E; lia. }
  destruct (Z.eqb_spec (pk_type st) PSM_RECV_RDMA) as [E1|N1].
  { rewrite E1 in *. cbn in Hc |- *. inv_st.
    apply on_proc_inv in Ha, Ha0. apply post_recv_inv in E; lia. }
  destruct (Z.eqb_spec (pk_type st) PSM_RECV_RDMA_SID) as [E2|N2].
  { left. rewrite E2 in *. cbn in Hc |- *. inv_st.
    apply on_proc_inv in Ha, Ha0, Ha1. apply decr_inv in E; lia. }
  destruct (Z.eqb_spec (pk_type st) PSM_RECV_RDMA_RTP) as [E3|N3].
  { left. cbn in Hc |- *. specialize (Hok E3). inv_st. apply on_proc_inv in Ha.
    assert (s1 = s0) as ->. { unfold st_lift in Ha0. destruct (packet_bytes a0 8); [|done]. by injection Ha0. }
    apply posted_log in Ha1. cbn [packet_recv PSM_TAG_RRDMA_DAT tag2] in Ha1.
    rewrite u32_small, (proj2 (Z.eqb_neq _ _)) in Ha1 by (unfold PSM_RECV_DATA; lia).
    cbn in Ha1. apply decr_inv in E; lia. }
  left. cbn in Hc |- *. assert (recv_posted s' = recv_posted s /\ posted s' = posted s); [|lia].
  destruct (_ =? _); [by eapply on_proc_inv|].
  destruct (truth _); inv_st; apply on_proc_inv in Ha; apply on_proc_inv in E; lia.
Qed.

Lemma post_accounted s a s' : progress_post dev s = Ok (a, s') -> 0 <= recv_posted s < 2 ^ 63 ->
  recv_posted s' - recv_posted s = posted s' - posted s /\
  0 <= posted s' - posted s <= Z.b2z (recv_posted s <? LC_SERVER_MAX_RCVS).
Proof.
  unfold progress_post. intros E Hr. apply st_bind_inv in E as (n & s0 & [= <- <-] & E).
  destruct (_ <? _); [|injection E as _ <-; cbn; lia].
  apply st_bind_inv in E as (p & s1 & E1 & E). apply on_proc_inv in E1 as [G2 G3].
  apply post_recv_inv in E; cbn; lia.
Qed.

Lemma plain_consumed peek : 0 <= plain_put peek <= consumed peek /\ consumed peek <= 1.
Proof.
  destruct peek as [st|]; [|done]. unfold plain_put, consumed.
  destruct (is_recv st), (pk_type st =? PSM_RECV_RDMA), (pk_type st =? PSM_RECV_DATA),
    (pk_type st =? PSM_RECV_RDMA_SID), (pk_type st =? PSM_RECV_RDMA_RTP); done.
Qed.

Lemma progress_accounted peek s b s' : lc_server_progress dev peek s = Ok (b, s') ->
  0 <= recv_posted s < 2 ^ 62 -> consumed peek <= recv_posted s -> peek_ok peek ->
  accounted peek s s' /\ recv_posted s' <= Z.max 64 (recv_posted s + plain_put peek) /\
  0 <= posted s' - posted s /\
  (64 <= recv_posted s - consumed peek -> posted s' - posted s <= plain_put peek).
Proof.
  unfold lc_server_progress. intros E Hr Hc Hok. pose proof (plain_consumed peek) as Hpc.
  apply st_bind_inv in E as (x & s1 & E1 & E). apply st_bind_inv in E as (y & s2 & E2 & E).
  injection E as _ <-.
  assert (accounted peek s s1 /\ 0 <= posted s1 - posted s <= plain_put peek) as [G1 G2].
  { destruct peek as [st|]; [|injection E1 as _ <-; unfold accounted; cbn; lia].
    apply completion_accounted in E1 as [(G1 & G2 & G3)|(G1 & G2 & G3 & G4)]; try done; (split; [done|lia]). }
  unfold accounted in *. apply post_accounted in E2 as [G3 G4]; [|lia].
  destruct (Z.ltb_spec (recv_posted s1) LC_SERVER_MAX_RCVS); unfold LC_SERVER_MAX_RCVS in *;
    cbn [Z.b2z] in G4; lia.
Qed.

(** Calls of the progress with what each found; [o] receives for packets are outstanding, and
    none completes that is not. *)
Inductive psm_run : list (option mq_status) -> psm -> Z -> psm -> Z -> Prop :=
| run_nil s o : psm_run [] s o s o
| run_cons peek peeks s o b s1 s2 o2 :
    peek_ok peek -> consumed peek <= o -> lc_server_progress dev peek s = Ok (b, s1) ->
    psm_run peeks s1 (o - consumed peek + (posted s1 - posted s)) s2 o2 ->
    psm_run (peek :: peeks) s o s2 o2.

Definition puts (peeks : list (option mq_status)) : Z := foldr (fun p n => plain_put p + n) 0 peeks.

Lemma puts_bound peeks : 0 <= puts peeks <= Z.of_nat (length peeks).
Proof.
  induction peeks as [|p ps IH]; [done|]. pose proof (plain_consumed p). cbn [puts foldr length].
  fold (puts ps). lia.
Qed.

Lemma run_accounted peeks s o s' o' : psm_run peeks s o s' o' -> forall d,
  recv_posted s = o + d -> 0 <= o -> 0 <= d -> recv_posted s <= 64 + d ->
  d + Z.of_nat (length peeks) < 2 ^ 61 ->
  recv_posted s' = o' + (d + puts peeks) /\ 0 <= o' /\ recv_posted s' <= 64 + (d + puts peeks).
Proof.
  induction 1 as [s o|peek peeks s o b s1 s2 o2 Hok Hc E _ IH]; intros d Hr Ho Hd Hb Hlen;
    [cbn; lia|].
  pose proof (plain_consumed peek). cbn [length puts foldr] in *. fold (puts peeks).
  apply progress_accounted in E as (G1 & G2 & G3 & _); [|lia|lia|done]. unfold accounted in G1.
  destruct (IH (d + plain_put peek)) as (G4 & G5 & G6); lia.
Qed.

(** C39: The server's count of posted receives is the number outstanding, at most
    LC_SERVER_MAX_RCVS, plus the number of plain puts that arrived: each leaves it one too
    high.  After as many puts as the maximum, no call of the progress posts a receive for
    a packet beside the one a put gives back: the receives run out. *)
Theorem put_drift peeks s s' o' : recv_posted s = 0 -> psm_run peeks s 0 s' o' ->
  Z.of_nat (length peeks) < 2 ^ 60 ->
  recv_posted s' = o' + puts peeks /\ 0 <= o' <= LC_SERVER_MAX_RCVS /\
  forall peek b s'', LC_SERVER_MAX_RCVS <= puts peeks -> peek_ok peek -> consumed peek <= o' ->
    lc_server_progress dev peek s' = Ok (b, s'') -> posted s'' - posted s' <= plain_put peek.
Proof.
  intros Hr Hrun Hlen. pose proof (puts_bound peeks).
  destruct (run_accounted _ _ _ _ _ Hrun 0) as (G1 & G2 & G3); [lia..|].
  unfold LC_SERVER_MAX_RCVS. split; [done|]. split; [lia|].
  intros peek b s'' Hp Hok Hc E. pose proof (plain_consumed peek).
  apply progress_accounted in E as (_ & _ & _ & G4); [|lia|lia|done]. lia.
Qed.

End accounting.

(** ** Names *)

Lemma scan_dash_eq l : scan_dash (DASH :: l) = Some l.
Proof. done. Qed.

Lemma scan_name_print epid hp key : 0 <= epid < 2 ^ 64 -> 0 <= hp < 2 ^ 64 -> 0 <= key < 2 ^ 28 ->
  scan_name (print_name epid hp key) = Some (epid, hp, key).
Proof.
  intros He Hh Hk. unfold scan_name, print_name, print_signed.
  rewrite i32_small, (proj2 (Z.ltb_ge _ _)) by lia.
  rewrite scan_unsigned_print by done. cbn [mbind option_bind]. rewrite scan_dash_eq.
  cbn [mbind option_bind].
  rewrite scan_unsigned_print by done. cbn [mbind option_bind]. rewrite scan_dash_eq.
  cbn [mbind option_bind].
  unfold scan_int. rewrite <- (app_nil_r (print_unsigned key)), read_number_print by (done || lia).
  cbn [mbind option_bind]. rewrite Z.min_l, u32_small by lia. done.
Qed.

Lemma connect_peers_ok rank names connect ids hps keys n : forall i,
  (forall j, i <= j < i + Z.of_nat n -> j <> rank -> scan_name (names j) = Some (ids j, hps j, keys j)) ->
  connect_peers rank names connect i n =
    Ok ((fun j => if decide (j = rank) then LciRep 0 0 0 0
                  else LciRep (connect (ids j)) j (hps j) (keys j)) <$> seqZ i (Z.of_nat n)).
Proof.
  induction n as [|n IH]; intros i Hn; [done|].
  rewrite Nat2Z.inj_succ, seqZ_cons, Z.pred_succ by lia. cbn [connect_peers fmap list_fmap].
  rewrite (IH (i + 1)) by (intros; apply Hn; lia). unfold Z.succ.
  destruct (Z.eqb_spec i rank) as [->|Hne]; [by rewrite decide_True|].
  rewrite decide_False by done. rewrite (Hn i) by (try done; lia). done.
Qed.

(** ** The queue of free registrations *)

Lemma fill_run fuel n : forall s l k m, lcrq_rep (free_mr s) l k m -> 2 <= m ->
  (k + n < fuel)%nat -> m + Z.of_nat n + RING_SIZE < 2 ^ 62 ->
  0 < mr_brk s -> mr_brk s + Z.of_nat n < 2 ^ 63 ->
  exists s' k', fill_free_mr fuel n s = Ok (tt, s') /\
    lcrq_rep (free_mr s') (l ++ seqZ (mr_brk s) (Z.of_nat n)) k' (m + Z.of_nat n) /\
    (k' <= k + n)%nat /\
    (forall mr, is_Some (mrs s !! mr) \/ mr_brk s <= mr < mr_brk s + Z.of_nat n -> is_Some (mrs s' !! mr)) /\
    s' = set_mrs (mrs s') (mr_brk s + Z.of_nat n) (set_free_mr (free_mr s') s).
Proof.
  induction n as [|n IH]; intros s l k m Hrep Hm Hf Hb H0 Hbrk.
  - exists s, k. cbn. rewrite !Z.add_0_r, app_nil_r. split_and!; [done|done|lia| |by destruct s].
    intros mr [?|?]; [done|lia].
  - cbn [fill_free_mr].
    set (s1 := set_mrs (<[mr_brk s := PsmMr 0 0 0]> (mrs s)) (mr_brk s + 1) s).
    rewrite (st_bind_run _ _ s (mr_brk s) s1) by done.
    destruct (enqueue_run fuel (mr_brk s) (free_mr s1) l k m) as (q & k1 & E & Hrep1 & Hk1);
      [done|lia|lia|lia|unfold NO_VAL; lia|].
    rewrite (st_bind_run _ _ _ _ _ (run_on_free_mr _ _ _ _ E)).
    destruct (IH (set_free_mr q s1) (l ++ [mr_brk s]) k1 (m + 1)) as (s' & k' & E' & Hrep' & Hk' & Hmrs & Hs');
      [done|lia|lia|lia|cbn; lia|cbn; lia|].
    exists s', k'. cbn [mr_brk set_free_mr s1 set_mrs mrs] in *. split; [exact E'|]. split_and!.
    + rewrite Nat2Z.inj_succ, seqZ_cons, Z.pred_succ by lia.
      replace (m + Z.succ (Z.of_nat n)) with (m + 1 + Z.of_nat n) by lia.
      by rewrite <- app_assoc in Hrep'.
    + lia.
    + intros mr Hmr. apply Hmrs. destruct (decide (mr = mr_brk s)) as [->|Hne].
      * left. rewrite lookup_insert_eq. eauto.
      * rewrite lookup_insert_ne by done. destruct Hmr; [by left|right; lia].
    + rewrite Hs'. cbn. unfold set_mrs, set_free_mr. cbn. f_equal. lia.
Qed.

(** A registration takes the first free object. *)
Lemma reg_run fuel s mr l k n buf sz : lcrq_rep (free_mr s) (mr :: l) k n -> n + RING_SIZE < 2 ^ 62 ->
  mr <> NULL -> is_Some (mrs s !! mr) ->
  exists s', _real_psm_reg (S (S (S fuel))) buf sz s = Ok (mr, s') /\ lcrq_rep (free_mr s') l k (n + 1).
Proof.
  intros Hrep Hn Hne [m Em]. destruct (dequeue_run fuel _ _ _ _ Hrep Hn) as (q & E & Hrep').
  unfold _real_psm_reg, lc_server_get_free_mr.
  rewrite (st_bind_run _ _ s mr (set_free_mr q s)).
  2: { rewrite (st_bind_run _ _ _ _ _ (run_on_free_mr _ _ _ _ E)). cbn [hd].
       by rewrite (proj2 (Z.eqb_neq _ _) Hne). }
  rewrite (st_bind_run _ _ _ _ _ (run_get_mr (set_free_mr q s) mr m Em)).
  eexists. split; [done|]. exact Hrep'.
Qed.

(** C32: The servers of a job learn each other: with every rank's name published, lc_server_init
    gives for each peer the id, the heap and the key that rank printed in its name.  The
    server then has no receive posted, 256 free registrations, the first key as that of its
    heap, and registers memory. *)
Theorem psm_init_connects fuel rank size epid hp publish connect ids hps keys s :
  (300 < fuel)%nat -> nrq (free_mr s) = NULL -> 0 < q_brk (free_mr s) ->
  0 < mr_brk s < 2 ^ 62 -> 0 < next_key s < 2 ^ 28 -> 0 <= size ->
  (forall j, 0 <= j < size -> j <> rank ->
     publish (print_name epid hp (next_key s)) j = print_name (ids j) (hps j) (keys j) /\
     0 <= ids j < 2 ^ 64 /\ 0 <= hps j < 2 ^ 64 /\ 0 <= keys j < 2 ^ 28) ->
  exists reps s', lc_server_init fuel rank size epid hp publish connect s = Ok (reps, s') /\
    reps = ((fun j => if decide (j = rank) then LciRep 0 0 0 0
                      else LciRep (connect (ids j)) j (hps j) (keys j)) <$> seqZ 0 size) /\
    recv_posted s' = 0 /\ me s' = rank /\ heap s' = hp /\ heap_rkey s' = next_key s /\
    (exists k, lcrq_rep (free_mr s') (seqZ (mr_brk s) 256) k 258) /\
    forall buf sz, exists s'', _real_psm_reg fuel buf sz s' = Ok (mr_brk s, s'').
Proof.
  intros Hf Hq Hb Hbrk Hkey Hsz Hnames.
  destruct (init_run (free_mr s) Hq Hb) as (q & Eq & Hrep).
  unfold lc_server_init.
  set (s0 := Psm (proc s) rank hp (heap_rkey s) 0 (free_mr s) (mrs s) (mr_brk s) (next_key s) (mq s)).
  rewrite (st_bind_run _ _ s tt s0) by done.
  rewrite (st_bind_run _ _ s0 tt (set_free_mr q s0)) by (by apply (run_on_free_mr lcrq_init)).
  assert (RING_SIZE = 131072) as Ers by done.
  destruct (fill_run fuel 256 (set_free_mr q s0) [] 1 2) as (s2 & k & E2 & Hrep2 & Hk2 & Hmrs & Hs2);
    [done|lia|lia|lia|cbn; lia|cbn; lia|].
  rewrite (st_bind_run _ _ _ _ _ E2). cbn [app mr_brk set_free_mr s0] in *.
  change (Z.of_nat 256) with 256 in *.
  assert (next_key s2 = next_key s) as Ek by (by rewrite Hs2).
  rewrite (st_bind_run _ _ s2 (next_key s) (set_next_key (u32 (next_key s + 1)) s2)).
  2: { rewrite <- Ek. unfold lc_server_get_free_key, st_get, st_set, mbind, ST_bind, mret, ST_ret.
       do 2 f_equal. apply tag_key_small. lia. }
  set (s3 := set_next_key _ s2).
  set (s4 := Psm (proc s3) (me s3) (heap s3) (next_key s) (recv_posted s3) (free_mr s3) (mrs s3) (mr_brk s3)
    (next_key s3) (mq s3)).
  rewrite (st_bind_run _ _ s3 tt s4) by done.
  rewrite (connect_peers_ok _ _ _ ids hps keys).
  2: { intros j Hj Hne. destruct (Hnames j) as (-> & ? & ? & ?); [lia|done|]. by apply scan_name_print. }
  rewrite Z2Nat.id by done.
  eexists _, s4. split; [done|]. split; [done|].
  split; [by cbn; rewrite Hs2|]. split; [by cbn; rewrite Hs2|]. split; [by cbn; rewrite Hs2|].
  split; [done|]. split; [by exists k|].
  intros buf sz. destruct fuel as [|[|[|f]]]; [lia..|].
  rewrite (seqZ_cons _ 256) in Hrep2 by lia.
  destruct (reg_run f s4 (mr_brk s) _ k _ buf sz Hrep2) as (s'' & E & _); [lia|unfold NULL; lia| |].
  - apply (Hmrs (mr_brk s)). right. lia.
  - by exists s''.
Qed.

(** ** Messages from one server to another *)

Section eager.
Context `{Build, Server, Client, Platform}.

(** What the progress writes of a message before it serves it. *)
Definition noted (st : mq_status) (q : lc_req) : lc_req :=
  rq_set_size (msg_length st) (rq_set_rank (i32 (tag1 (msg_tag st))) (rq_set_rhandle (msg_peer st) q)).
Definition arrived (st : mq_status) (p : Z) (k : lc_packet) (q : lc_req) (y : lci) : lci :=
  noted_at p k (noted st q) y.

Lemma context_recv p : 0 <= p < 2 ^ 62 ->
  Z.land (Z.lor PSM_RECV p) PSM_RECV = PSM_RECV /\ Z.lxor (Z.lor PSM_RECV p) PSM_RECV = p.
Proof.
  intros Hp. assert (Z.land p PSM_RECV = 0) as H0' by (apply land_high; lia).
  split.
  - rewrite Z.land_lor_distr_l, H0'. done.
  - rewrite Z.lor_comm, <- (Z.lxor_lor _ _ H0'), Z.lxor_assoc, Z.lxor_nilpotent. apply Z.lxor_0_r.
Qed.

(** The progress on a completed eager receive. *)
Lemma progress_eager dev st p k q s x : 0 < p < 2 ^ 62 -> st_context st = Z.lor PSM_RECV p ->
  tag2 (msg_tag st) = PSM_RECV_DATA -> packets (proc s) !! p = Some k ->
  reqs (proc s) !! req_s_of p = Some q ->
  lci_serve_recv p (tag0 (msg_tag st)) (arrived st p k q (proc s)) = Ok (tt, x) ->
  progress_completion dev st s = Ok (tt, set_recv_posted (u64 (recv_posted s - 1)) (set_proc x s)).
Proof.
  intros Hp Ec Et Hk Hq Ex. unfold progress_completion. rewrite Ec.
  destruct (context_recv p) as [-> ->]; [lia|]. change (truth PSM_RECV) with true. cbn iota.
  unfold progress_recv. rewrite Et.
  rewrite (st_bind_run _ _ s (heap s) s) by done.
  change (Z.land PSM_RECV_DATA 4026531840 =? PSM_RECV_DATA) with true. cbn iota.
  rewrite (st_bind_run _ _ _ _ _ (run_on_proc (own_req p) s _ _ (run_upd_packet _ _ _ _ Hk))).
  set (y1 := set_packets _ (proc s)).
  rewrite (st_bind_run _ _ _ _ _ (run_on_proc _ (set_proc y1 s) _ _ (run_upd_req y1 _ q _ Hq))).
  rewrite (st_bind_run _ _ _ _ _ (run_on_proc _ (set_proc _ _) _ _ Ex)). done.
Qed.

(** The post that ends the progress, with the pool in order. *)
Lemma run_progress_post s dev d : dev_wf (proc s) dev d -> Forall (fun r => 0 <= r) (rands (proc s)) ->
  0 <= recv_posted s < 2 ^ 62 ->
  exists s', progress_post dev s = Ok (tt, s') /\ memory (proc s') = memory (proc s) /\
    reqs (proc s') = reqs (proc s).
Proof.
  intros Hd Hr Hn. unfold progress_post.
  rewrite (st_bind_run _ _ s (recv_posted s) s) by done.
  destruct (_ <? _); [|by exists s].
  destruct (run_pool_get_nb (proc s) (LciEp 0 0 0 dev NoSrc NoDst) d Hd Hr)
    as (p & g & pool & l & E & _).
  unfold ep_pool_get_nb in E. cbn [server] in E.
  rewrite (st_bind_run _ _ _ _ _ (run_on_proc _ _ _ _ E)).
  set (s1 := set_proc _ s).
  unfold lc_server_post_recv. destruct (p =? NULL).
  - rewrite (st_bind_run _ _ s1 (recv_posted s1) s1) by done.
    rewrite (st_bind_run _ _ s1 (lcg_deadlock (proc s1)) s1) by (by destruct s).
    destruct (_ && _); [|by exists s1]. by eexists.
  - set (c := MqIrecv _ _ _ _ _ _). rewrite (st_bind_run _ _ s1 tt (set_mq (mq s1 ++ [c]) s1)) by done.
    set (s2 := set_mq _ s1). rewrite (st_bind_run _ _ s2 (recv_posted s2) s2) by done.
    set (s3 := set_recv_posted (u64 (recv_posted s2 + 1)) s2).
    rewrite (st_bind_run _ _ s2 tt s3) by done.
    rewrite (st_bind_run _ _ s3 (lcg_deadlock (proc s3)) s3) by done.
    destruct (_ && _); [|by exists s3]. by eexists.
Qed.

(** C11: An eager message goes from lc_sends of one process through the two servers to the
    receive of another.  The sender's server sends the bytes with the tag of the
    endpoint's protocol word and its rank; where a receive is posted for that rank and
    tag, the completion of the packet the bytes came to makes the receiver's progress put
    them in the receive's buffer, their length in its request, which it signals. *)
Theorem psm_eager_delivery fuel sd eps_s es ds to r buf sz tag bytes s y ep e h d src rsz req p k q peer m' :
  let t := PSM_TAG_TSEND_DATA (MAKE_PROTO (gid es) LC_PROTO_DATA tag) (me sd) in
  let st := MqStatus (Z.lor PSM_RECV p) t (Z.of_nat (length bytes)) peer in
  eps (proc sd) !! eps_s = Some es -> lcg_dev (proc sd) !! server es = Some ds ->
  aget (rep ds) to = Ok r -> load_bytes (memory (proc sd)) buf (Z.to_nat sz) = Ok bytes ->
  has_exp = true -> has_sync = true ->
  packets y !! p = Some k -> reqs y !! req_s_of p = Some q -> y = proc s -> 0 < p < 2 ^ 62 ->
  eager_ready (arrived st p k q y) ep e h d src (me sd) tag req (MAKE_PROTO (gid es) LC_PROTO_DATA tag)
    p bytes m' ->
  Forall (fun r => 0 <= r) (rands y) -> 0 < recv_posted s < 2 ^ 62 ->
  exists sd1 sd2 ev s1 s2 q',
    on_proc (lc_sends buf sz to tag eps_s) sd = Ok (LC_OK, sd1) /\
    trace (proc sd1) = trace (proc sd) ++ [ev] /\ serve_event fuel ev sd1 = Ok (tt, sd2) /\
    mq sd2 = mq sd ++ [MqSend (handle r) t bytes] /\
    on_proc (lc_recv src rsz (me sd) tag ep req) s = Ok (LC_OK, s1) /\
    lc_server_progress (server e) (Some st) s1 = Ok (true, s2) /\
    memory (proc s2) = m' /\ reqs (proc s2) !! req = Some q' /\ sync q' = 1 /\
    buffer q' = src /\ size q' = Z.of_nat (length bytes).
Proof.
  intros t st Hes Hds Hr Hload Hbe Hbs Hk Hq -> Hp Hready Hrands Hrp.
  set (proto := MAKE_PROTO (gid es) LC_PROTO_DATA tag) in *.
  set (ev := EvSends (server es) (handle r) bytes proto).
  exists (set_proc (set_trace (fun t => t ++ [ev]) (proc sd)) sd), 
    (set_mq (mq sd ++ [MqSend (handle r) t bytes]) (set_proc (set_trace (fun t => t ++ [ev]) (proc sd)) sd)), ev.
  destruct (eager_arrival _ _ _ _ _ _ rsz _ _ _ _ _ _ _ _ _ _ Hready Hbe Hbs Hk Hq)
    as (y1 & x2 & E1 & Hk1 & Hq1 & E2 & Hdel).
  exists (set_proc y1 s).
  assert (tag0 (msg_tag st) = proto) as Etag0.
  { unfold st, t, proto, MAKE_PROTO, PSM_TAG_TSEND_DATA. cbn [msg_tag tag0]. apply u32_small, u32_range. }
  rewrite <- Etag0 in E2.
  pose proof (progress_eager (server e) st p k q (set_proc y1 s) x2 Hp eq_refl eq_refl Hk1 Hq1 E2) as Epr.
  set (s3 := set_recv_posted _ _) in Epr.
  destruct (de_pool _ _ _ _ _ _ _ _ _ _ _ Hdel) as (d' & Hd' & _).
  destruct (run_progress_post s3 (server e) d') as (s2 & E3 & Em & Erq).
  { exact Hd'. }
  { cbn. by rewrite (de_rands _ _ _ _ _ _ _ _ _ _ _ Hdel). }
  { cbn. rewrite u64_small by lia. lia. }
  destruct (de_req _ _ _ _ _ _ _ _ _ _ _ Hdel) as (q' & Eq' & Hq').
  exists s2, q'. split; [|split; [|split; [|split; [|split; [|split; [|split]]]]]].
  - unfold on_proc. by rewrite (sends_run _ _ _ _ _ _ _ _ tag _ Hes Hds Hr Hload).
  - done.
  - done.
  - done.
  - unfold on_proc. by rewrite E1.
  - unfold lc_server_progress. rewrite (st_bind_run _ _ _ _ _ Epr), (st_bind_run _ _ _ _ _ E3). done.
  - rewrite Em. exact (de_memory _ _ _ _ _ _ _ _ _ _ _ Hdel).
  - by rewrite Erq.
Qed.
End eager.
