(* ===== verification/PsmRendezvous.v ===== *)
(** * A long message through two PSM2 servers (about Psm.v)

    The rendezvous of Rendezvous.v, with the progress of each server, which posts a receive
    after every completion it serves, the registration and its key, and the tags. *)
From stdpp Require Import gmap.
From S2P Require Import Prelude Config Lock Dequeue Pool Hashtable CompQueue State.
From S2P Require Import Proto Api ProtoSpec Rendezvous Lcrq LcrqSpec Psm PsmSpec.

(** ** Contexts *)

Lemma context_send p : 0 <= p < 2 ^ 62 ->
  Z.land (Z.lor PSM_SEND p) PSM_RECV = 0 /\ Z.land (Z.lor PSM_SEND p) PSM_SEND = PSM_SEND /\
  Z.lxor (Z.lor PSM_SEND p) PSM_SEND = p.
Proof.
  intros Hp. assert (Z.land p PSM_RECV = 0) as H1 by (apply land_high; lia).
  assert (Z.land p PSM_SEND = 0) as H2 by (apply (land_high p 63); lia).
  split; [|split].
  - by rewrite Z.land_lor_distr_l, H1.
  - by rewrite Z.land_lor_distr_l, H2.
  - rewrite Z.lor_comm, <- (Z.lxor_lor _ _ H2), Z.lxor_assoc, Z.lxor_nilpotent. apply Z.lxor_0_r.
Qed.

Section psm.
Context `{Build, Server, Client, Platform}.

(** ** The completions of a rendezvous *)

(** A send of packet [p] completed. *)
Definition sent (p : Z) : mq_status := MqStatus (Z.lor PSM_SEND p) (Tag 0 0 0) 0 0.
(** The data for the registration with key [key] came, and with it the peer's signal. *)
Definition came (key sid len : Z) : mq_status :=
  MqStatus (Z.lor PSM_RECV 0) (PSM_TAG_SRDMA_DAT_IMM key sid) len 0.

Lemma progress_sent dev st p s x : 0 < p < 2 ^ 62 -> st_context st = Z.lor PSM_SEND p ->
  lci_serve_send p (proc s) = Ok (tt, x) -> progress_completion dev st s = Ok (tt, set_proc x s).
Proof.
  intros Hp Ec E. unfold progress_completion. rewrite Ec.
  destruct (context_send p) as (-> & -> & ->); [lia|].
  change (truth 0) with false. change (truth PSM_SEND) with true. cbn iota.
  unfold truth. rewrite (proj2 (Z.eqb_neq p 0)) by lia. by apply run_on_proc.
Qed.

Lemma progress_came dev key sid len s x : 0 <= key < 2 ^ 28 -> 0 <= sid < 2 ^ 32 ->
  lci_serve_imm (heap s + sid) (proc s) = Ok (tt, x) ->
  progress_completion dev (came key sid len) s = Ok (tt, set_proc x s).
Proof.
  intros Hk Hs E. unfold progress_completion, came. cbn [st_context].
  destruct (context_recv 0) as [-> _]; [lia|]. change (truth PSM_RECV) with true. cbn iota.
  unfold progress_recv. cbn [msg_tag PSM_TAG_SRDMA_DAT_IMM tag0 tag1 tag2].
  rewrite !u32_small by lia. rewrite pk_type_key by done.
  rewrite (st_bind_run _ _ s (heap s) s) by done. cbn [Z.eqb PSM_RECV_DATA PSM_RECV_RDMA
    PSM_RECV_RDMA_SID PSM_RECV_RDMA_RTP]. rewrite Z.eqb_refl. by apply run_on_proc.
Qed.

(** ** The post that ends a progress *)

(** What it leaves alone of the process and of the server, and what keeps the next one
    going. *)
Definition steady (y : lci) := (packets y, reqs y, memory y, eps y, lcg_ep y, trace y).
Definition idle (s : psm) := (me s, heap s, free_mr s, mrs s, mr_brk s, next_key s).

Record kept (dev : Z) (d : lc_server) (s : psm) : Prop := {
  kp_dev : dev_wf (proc s) dev d;
  kp_rands : Forall (fun r => 0 <= r) (rands (proc s));
  kp_posted : 0 <= recv_posted s < 2 ^ 62 }.

Record after (dev : Z) (d : lc_server) (s s' : psm) : Prop := {
  af_steady : steady (proc s') = steady (proc s);
  af_idle : idle s' = idle s;
  af_rands : Forall (fun r => 0 <= r) (rands (proc s'));
  af_posted : recv_posted s <= recv_posted s' <= recv_posted s + 1;
  af_mq : exists l, mq s' = mq s ++ l;
  af_dev : exists pool, let d' := LcServer pool (rep d) (curr_addr d) (heap_ptr d) in
    dev_wf (proc s') dev d' /\
    (pool_elems pool ≡ₚ pool_elems (pkpool d) \/ exists p, pool_elems (pkpool d) ≡ₚ p :: pool_elems pool) }.

Lemma post_after dev d s : kept dev d s -> exists s', progress_post dev s = Ok (tt, s') /\ after dev d s s'.
Proof.
  intros [Hd Hr Hn]. unfold progress_post.
  rewrite (st_bind_run _ _ s (recv_posted s) s) by done.
  destruct (_ <? _).
  2: { exists s. split; [done|]. split; try done; [lia|exists []; by rewrite app_nil_r|].
       exists (pkpool d). split; [by destruct d|by left]. }
  destruct (run_pool_get_nb (proc s) (LciEp 0 0 0 dev NoSrc NoDst) d Hd Hr)
    as (p & g & pool & l & E & Hwf & _ & Hnn & Hcase).
  unfold ep_pool_get_nb in E. cbn [server] in E.
  pose proof (get_nb_rands _ _ _ _ E Hr) as Hl. cbn in Hl.
  rewrite (st_bind_run _ _ _ _ _ (run_on_proc _ _ _ _ E)).
  set (s1 := set_proc _ s).
  set (d' := LcServer pool (rep d) (curr_addr d) (heap_ptr d)) in *.
  assert (dev_wf (proc s1) dev d') as Hd'.
  { destruct Hd. split; cbn; [apply lookup_insert_eq|done..]. }
  assert (pool_elems pool ≡ₚ pool_elems (pkpool d) \/ exists p, pool_elems (pkpool d) ≡ₚ p :: pool_elems pool)
    as Hpool by (destruct Hcase as [[_ ?]|[_ ?]]; [by left|right; by exists p]).
  unfold lc_server_post_recv. destruct (p =? NULL).
  - rewrite (st_bind_run _ _ s1 (recv_posted s1) s1) by done.
    rewrite (st_bind_run _ _ s1 (lcg_deadlock (proc s1)) s1) by (by destruct s).
    assert (forall s2, s2 = s1 \/ s2 = set_proc (set_deadlock 1 (proc s1)) s1 -> after dev d s s2) as Haf.
    { intros s2 [->| ->]; (split; try done; [cbn; lia|exists []; by rewrite app_nil_r|]); exists pool;
        (split; [|exact Hpool]); [exact Hd'|]. by destruct Hd'. }
    destruct (_ && _); eexists; (split; [done|]); apply Haf; [by right|by left].
  - set (c := MqIrecv _ _ _ _ _ _). rewrite (st_bind_run _ _ s1 tt (set_mq (mq s1 ++ [c]) s1)) by done.
    set (s2 := set_mq _ s1). rewrite (st_bind_run _ _ s2 (recv_posted s2) s2) by done.
    set (s3 := set_recv_posted (u64 (recv_posted s2 + 1)) s2).
    rewrite (st_bind_run _ _ s2 tt s3) by done.
    rewrite (st_bind_run _ _ s3 (lcg_deadlock (proc s3)) s3) by done.
    assert (forall s4, s4 = s3 \/ s4 = set_proc (set_deadlock 0 (proc s3)) s3 -> after dev d s s4) as Haf.
    { intros s4 [->| ->]; (split; try done; [cbn; rewrite u64_small by lia; lia|by exists [c]|]);
        exists pool; (split; [|exact Hpool]); [exact Hd'|]. by destruct Hd'. }
    destruct (_ && _); eexists; (split; [done|]); apply Haf; [by right|by left].
Qed.

Lemma run_progress dev d st s s1 : progress_completion dev st s = Ok (tt, s1) -> kept dev d s1 ->
  exists s', lc_server_progress dev (Some st) s = Ok (true, s') /\ after dev d s1 s'.
Proof.
  intros E Hk. destruct (post_after _ _ _ Hk) as (s' & E' & Ha). exists s'. split; [|done].
  unfold lc_server_progress. by rewrite (st_bind_run _ _ _ _ _ E), (st_bind_run _ _ _ _ _ E').
Qed.

Lemma kept_after dev d s s' : kept dev d s -> after dev d s s' -> recv_posted s < 2 ^ 62 - 1 ->
  exists pool, kept dev (LcServer pool (rep d) (curr_addr d) (heap_ptr d)) s' /\
    (length (pool_elems pool) <= length (pool_elems (pkpool d)))%nat.
Proof.
  intros [_ _ Hn] [_ _ Hr Hp _ (pool & Hd & Hl)] Hb. exists pool. split; [split; [done|done|lia]|].
  destruct Hl as [Hl|[p Hl]]; apply Permutation_length in Hl; cbn in Hl; lia.
Qed.

Lemma sync_ep_after s s' ep e h d : sync_ep (proc s) ep e h d -> kept (server e) d s ->
  after (server e) d s s' -> recv_posted s < 2 ^ 62 - 1 ->
  exists d', sync_ep (proc s') ep e h d' /\ kept (server e) d' s' /\ rep d' = rep d /\ heap_ptr d' = heap_ptr d.
Proof.
  intros [] Hk Ha Hb. destruct (kept_after _ _ _ _ Hk Ha Hb) as (pool & Hk' & Hl).
  eexists. split; [|by split]. destruct Ha as [Hs _ _ _ _ _]. unfold steady in Hs.
  injection Hs as _ _ _ He _ _. split; try done; [by rewrite He|by destruct Hk'|cbn; lia].
Qed.

(** ** The receiver *)

(** The events of the process, carried out by the server. *)
Fixpoint serve_events (fuel : nat) (l : list event) : PS unit :=
  match l with
  | [] => mret tt
  | e :: l => _ ← serve_event fuel e; serve_events fuel l
  end.

(** The events of the process between two states. *)
Definition emitted (s s' : psm) : list event := drop (length (trace (proc s))) (trace (proc s')).

Lemma emitted_app s s' l : trace (proc s') = trace (proc s) ++ l -> emitted s s' = l.
Proof. intros E. unfold emitted. by rewrite E, drop_app_length. Qed.

(** The server has a free registration, which the process is told, with the key to come. *)
Record registers (fuel : nat) (s : psm) (e : lci_ep) (src : Z) (R : packet_rts) (mr : Z) : Prop := {
  rg_key : 0 < next_key s < 2 ^ 28;
  rg_free : exists l k n, lcrq_rep (free_mr s) (mr :: l) k n /\ 2 <= n /\ n + RING_SIZE < 2 ^ 61 /\
              (k < fuel)%nat;
  rg_mr : 0 < mr < 2 ^ 63 /\ is_Some (mrs s !! mr);
  rg_told : memory_of_reg (proc s) e src R = mr /\ Proto.lc_server_rma_key mr = next_key s }.

(** What the library does with a message for a packet: it writes it into its data. *)
Definition library (p : Z) (data : packet_data) : PS unit := on_proc (upd_packet p (pk_set_data data)).

Lemma library_progress dev st p data k q s x : 0 < p < 2 ^ 62 -> st_context st = Z.lor PSM_RECV p ->
  tag2 (msg_tag st) = PSM_RECV_DATA -> packets (proc s) !! p = Some k ->
  reqs (proc s) !! req_s_of p = Some q -> 0 < recv_posted s < 2 ^ 62 ->
  lci_serve_recv p (tag0 (msg_tag st)) (arrived st p (pk_set_data data k) q (proc s)) = Ok (tt, x) ->
  exists s', library p data s = Ok (tt, s') /\
    progress_completion dev st s' = Ok (tt, set_recv_posted (recv_posted s - 1) (set_proc x s)).
Proof.
  intros Hp Ec Et Hk Hq Hn E. set (k' := pk_set_data data k) in *.
  set (s' := set_proc (set_packets (fun m => <[p := k']> m) (proc s)) s). exists s'. split.
  { by apply run_on_proc, run_upd_packet. }
  rewrite (progress_eager dev st p k' q s' x); try done.
  - cbn [recv_posted set_proc s']. by rewrite u64_small by lia.
  - apply lookup_insert_eq.
  - rewrite <- E. f_equal. unfold arrived, noted_at, set_reqs, set_packets. cbn. by rewrite insert_insert_eq.
Qed.

(** The announcement arrives where the receive waits. *)
Lemma announcement_arrives s ep e h d src rsz rank tag req proto p R r k q len peer :
  let st := MqStatus (Z.lor PSM_RECV p) (PSM_TAG_TSEND_DATA proto rank) len peer in
  long_ready (arrived st p (pk_set_data (DataRts R) k) q (proc s)) ep e h d src rank tag req proto p R ->
  has_exp = true -> aget (rep d) rank = Ok r -> packets (proc s) !! p = Some k ->
  reqs (proc s) !! req_s_of p = Some q -> 0 < p < 2 ^ 62 ->
  Forall (fun r => 0 <= r) (rands (proc s)) -> 0 < recv_posted s < 2 ^ 61 ->
  exists s1 x s2, let s1' := set_recv_posted (recv_posted s - 1) (set_proc x s) in
    on_proc (lc_recv src rsz rank tag ep req) s = Ok (LC_OK, s1) /\
    (_ ← library p (DataRts R); lc_server_progress (server e) (Some st)) s1 = Ok (true, s2) /\
    met (arrived st p (pk_set_data (DataRts R) k) q (proc s)) x ep e h d src rsz rank req p (handle r) R /\
    kept (server e) d s1' /\ after (server e) d s1' s2.
Proof.
  intros st Hl Hbe Hr Hk Hq Hp Hrs Hn.
  destruct (long_posted_first (proc s) _ _ _ _ _ rsz _ _ _ _ _ _ _ _ _ Hl Hbe Hr)
    as (y & x & E1 & Epk & Erq & _ & _ & Esur & E2 & Hm).
  assert (tag0 (msg_tag st) = proto) as Et.
  { cbn. rewrite (lr_proto _ _ _ _ _ _ _ _ _ _ _ _ Hl). apply u32_small, u32_range. }
  rewrite <- Et in E2.
  destruct (library_progress (server e) st p (DataRts R) k q (set_proc y s) x Hp eq_refl eq_refl
    (eq_trans (f_equal (fun m => m !! p) Epk) Hk) (eq_trans Erq Hq)) as (sl & El & Epr); [cbn; lia|done|].
  set (s1' := set_recv_posted _ _) in Epr.
  destruct (mt_tbl _ _ _ _ _ _ _ _ _ _ _ _ _ Hm) as (h' & Hse & _).
  pose proof (mt_fixed _ _ _ _ _ _ _ _ _ _ _ _ _ Hm) as Hfix. unfold surroundings in Hfix.
  injection Hfix as _ _ _ _ Hra _.
  assert (kept (server e) d s1') as Hkept.
  { split; [exact (se_dev _ _ _ _ _ Hse)|cbn; by rewrite Hra|cbn; lia]. }
  destruct (run_progress _ _ _ _ _ Epr Hkept) as (s2 & E3 & Ha).
  exists (set_proc y s), x, s2. split_and!; try done.
  - unfold on_proc. by rewrite E1.
  - by rewrite (st_bind_run _ _ _ _ _ El).
Qed.

Lemma reg_frame fuel buf sz s mem s' : _real_psm_reg fuel buf sz s = Ok (mem, s') ->
  proc s' = proc s /\ heap s' = heap s /\ me s' = me s.
Proof.
  unfold _real_psm_reg. intros E. apply st_bind_inv in E as (mr & s1 & E1 & E).
  assert (proc s1 = proc s /\ heap s1 = heap s /\ me s1 = me s) as (Hp & Hh & Hm).
  { unfold lc_server_get_free_mr in E1. apply st_bind_inv in E1 as (x & s2 & E2 & E1).
    unfold on_free_mr in E2. destruct (lcrq_dequeue fuel (free_mr s)) as [[y q]|]; [|done].
    injection E2 as -> <-. destruct (x =? NULL); by injection E1 as <- <-. }
  apply st_bind_inv in E as (m' & s2 & E2 & E).
  assert (s2 = s1) as ->. { unfold get_mr in E2. destruct (mrs s1 !! mr); [|done]. by injection E2. }
  injection E as <- <-. by rewrite <- Hp, <- Hh, <- Hm.
Qed.

(** The calls of an answer: a receive for the buffer, under the registration's key, and the
    send of the packet. *)
Definition buffer_receive (key src size mr : Z) : mq_call :=
  MqIrecv (PSM_TAG_RRDMA_DAT key) LCI_PSM2_TAGSEL src size (Z.lor PSM_RECV 0) mr.
Definition answer_calls (s0 : psm) (e : lci_ep) (src : Z) (R : packet_rts) (mr rep p : Z) : list mq_call :=
  [buffer_receive (next_key s0) src (rts_size R) mr;
   MqIsend rep (PSM_TAG_TSEND_DATA (MAKE_PROTO (gid e) LC_PROTO_RTR 0) (me s0)) (data_of p)
     sizeof_packet_rtr (Z.lor PSM_SEND p) p].

(** The server can take a registration back. *)
Definition takes_back (fuel : nat) (s : psm) (mr : Z) : Prop :=
  is_Some (mrs s !! mr) /\ mr <> NO_VAL /\
  exists l k n, lcrq_rep (free_mr s) l k n /\ 2 <= n /\ n + RING_SIZE < 2 ^ 62 /\ (k < fuel)%nat.

Lemma takes_back_idle fuel s s' mr : idle s' = idle s -> takes_back fuel s mr -> takes_back fuel s' mr.
Proof. intros [= _ _ Ef Em _ _] Ht. unfold takes_back. by rewrite Ef, Em. Qed.

Lemma takes_back_run fuel s mr : takes_back fuel s mr ->
  exists s', serve_events fuel [EvRmaDereg mr] s = Ok (tt, s') /\ proc s' = proc s.
Proof.
  intros ([m Hm] & Hno & l & k & n & Hrep & Hn & Hn' & Hk).
  destruct (enqueue_run fuel mr _ _ _ _ Hrep Hk Hn Hn' Hno) as (q & k' & E & _).
  exists (set_free_mr q s). split; [|reflexivity].
  cbn [serve_events serve_event]. unfold lc_server_rma_dereg, _real_psm_free.
  rewrite (st_bind_run _ _ s tt (set_free_mr q s)); [done|].
  rewrite (st_bind_run _ _ s 1 (set_free_mr q s)); [done|].
  rewrite (st_bind_run _ _ _ _ _ (run_get_mr _ _ _ Hm)).
  by rewrite (st_bind_run _ _ _ _ _ (run_on_free_mr _ _ _ _ E)).
Qed.

Lemma answer_served f s0 s e src R mr rep p : let fuel := S (S (S f)) in
  registers fuel s0 e src R mr -> idle s = idle s0 ->
  exists s', serve_events fuel (answered (proc s0) e src R rep p) s = Ok (tt, s') /\
    proc s' = proc s /\ heap s' = heap s /\ recv_posted s' = recv_posted s /\
    mq s' = mq s ++ answer_calls s0 e src R mr rep p /\ takes_back fuel s' mr.
Proof.
  intros fuel [Hkey (l & k & n & Hrep & Hn & Hn' & Hk) [Hmr Hin] [Hmem _]] Hi.
  unfold idle in Hi. injection Hi as Hme _ Hf Hm _ Hnk. rewrite <- Hf in Hrep. rewrite <- Hm in Hin.
  destruct (reg_run f s mr l k n src (rts_size R) Hrep) as (s1 & E1 & Hrep1);
    [lia|unfold NULL; lia|done|].
  destruct (reg_inv _ _ _ _ _ _ E1) as (Hq1 & Hm1 & _ & Hp1).
  destruct (reg_frame _ _ _ _ _ _ E1) as (Hpr & Hh & Hme1).
  rewrite Hnk, tag_key_small in Hq1, Hm1 by lia.
  unfold answered. rewrite Hmem. cbn [serve_events serve_event].
  rewrite (st_bind_run _ _ s tt s1) by (unfold lc_server_rma_reg; by rewrite (st_bind_run _ _ _ _ _ E1)).
  eexists. split; [reflexivity|]. cbn [proc heap recv_posted set_mq mq]. split_and!; try done.
  - rewrite Hq1, <- app_assoc. unfold answer_calls. by rewrite Hme1, Hme.
  - split; [by eexists|]. split; [unfold NO_VAL; lia|]. exists l, k, (n + 1). split; [done|lia].
Qed.

(** The receiver once the two have met and the answer is on its way: its send completes and
    the data comes. *)
Lemma answer_completes fuel s0 s x s2 s3 ep e h d src rsz rank req p rep R mr dlen :
  met s0 x ep e h d src rsz rank req p rep R -> has_sync = true -> 0 < p < 2 ^ 62 ->
  proc s = x -> kept (server e) d s -> recv_posted s < 2 ^ 61 -> after (server e) d s s2 ->
  proc s3 = proc s2 -> heap s3 = heap s2 -> recv_posted s3 = recv_posted s2 ->
  heap s = heap_ptr d -> heap s <= p < heap s + 2 ^ 32 -> takes_back fuel s3 mr ->
  memory_of_reg s0 e src R = mr -> 0 <= Proto.lc_server_rma_key mr < 2 ^ 28 ->
  let off := u32 (p - heap s) in
  exists s4 s5 s6 q',
    lc_server_progress (server e) (Some (sent p)) s3 = Ok (true, s4) /\
    lc_server_progress (server e) (Some (came (Proto.lc_server_rma_key mr) off dlen)) s4 = Ok (true, s5) /\
    trace (proc s5) = trace (proc s2) ++ [EvRmaDereg mr] /\
    serve_events fuel [EvRmaDereg mr] s5 = Ok (tt, s6) /\ memory (proc s6) = memory x /\
    reqs (proc s6) !! req = Some q' /\ sync q' = 1 /\ buffer q' = src /\ size q' = rsz.
Proof.
  intros [_ _ _ Hk (q & Hq & _ & Hb & Hz) _ (h' & Hse & _)] Hbs Hp <- Hkept Hn Ha Hp3 Hh3 Hn3 Hhp Hrange Hback Hmr Hkey off.
  pose proof (kp_posted _ _ _ Hkept) as Hn0.
  assert (off = p - heap s) as Eoff by (apply u32_small; lia).
  set (e' := LciEp _ _ _ _ _ _) in Hse.
  destruct (sync_ep_after s s2 ep e' h' d Hse Hkept Ha ltac:(lia)) as (d2 & Hse2 & Hkept2 & _ & Hhp2).
  destruct Ha as [Hst Hid _ Hn2 _ _]. unfold steady in Hst. injection Hst as Epk Erq Em Ee _ Et.
  unfold idle in Hid. injection Hid as _ Hh _ _ _ _.
  rewrite <- Epk, <- Hp3 in Hk. rewrite <- Hp3 in Hse2. rewrite Hmr in Hk.
  pose proof (answer_sent (proc s3) _ _ _ _ _ _ _ Hk) as E4. set (x3 := set_packets _ _) in E4.
  pose proof (progress_sent (server e) (sent p) p s3 x3 Hp eq_refl E4) as P4.
  assert (sync_ep x3 ep e' h' d2) as Hse3.
  { destruct Hse2 as [? ? ? ? ? ? [? ? ? ?] ?]. constructor; try assumption. by constructor. }
  assert (kept (server e) d2 (set_proc x3 s3)) as Hkept3.
  { destruct Hkept2 as [_ Hr _]. split; [exact (se_dev _ _ _ _ _ Hse3)|by rewrite <- Hp3 in Hr|cbn; lia]. }
  destruct (run_progress _ _ _ _ _ P4 Hkept3) as (s4 & E5 & Ha4).
  destruct (sync_ep_after (set_proc x3 s3) s4 ep e' h' d2 Hse3 Hkept3 Ha4) as (d4 & Hse4 & Hkept4 & _ & _);
    [cbn; lia|].
  destruct Ha4 as [Hst4 Hid4 _ Hn4 _ _]. unfold steady in Hst4. injection Hst4 as Epk4 Erq4 Em4 _ _ Et4.
  pose proof Hid4 as Hid. unfold idle in Hid4. injection Hid4 as _ Hh4 Hf4 Hm4 _ _. cbn in Hn4.
  destruct (data_arrived (proc s4) p ep e' h' d4 req mr R src (heap_ptr d) q)
    as (x5 & d5 & E6 & Em5 & _ & Et5 & Er5 & Eq5 & Hd5 & _); try done; [unfold NULL; lia| | |].
  { rewrite Epk4. apply lookup_insert_eq. }
  { rewrite Erq4. cbn. by rewrite Hp3, Erq. }
  assert (heap s4 + off = p) as Ep by (rewrite Hh4; cbn; rewrite Hh3, Hh; lia).
  rewrite <- Ep in E6.
  pose proof (progress_came (server e) _ off dlen s4 x5 Hkey ltac:(lia) E6) as P6.
  assert (kept (server e) d5 (set_proc x5 s4)) as Hkept5.
  { split; [exact Hd5|cbn; rewrite Er5; by destruct Hkept4|cbn; lia]. }
  destruct (run_progress _ _ _ _ _ P6 Hkept5) as (s5 & E7 & [Hst5 Hid5 _ _ _ _]).
  unfold steady in Hst5. injection Hst5 as _ Erq7 Em7 _ _ Et7.
  destruct (takes_back_run fuel s5 mr) as (s6 & E8 & Hp6).
  { apply (takes_back_idle _ s4); [exact Hid5|]. apply (takes_back_idle _ (set_proc x3 s3));
      [exact Hid|exact Hback]. }
  exists s4, s5, s6, (rq_set_sync 1 q). split_and!; try done.
  - rewrite Et7. cbn. rewrite Et5, Et4. cbn. by rewrite Hp3.
  - rewrite Hp6, Em7. cbn. rewrite Em5, Em4. cbn. by rewrite Hp3.
  - rewrite Hp6, Erq7. cbn. rewrite Eq5. apply lookup_insert_eq.
Qed.

(** What a receiver must be: the receive and the announcement [R], for packet [p], to come
    from rank [rank] ([long_ready]); the packet in the server's heap, and one of those
    posted; and a registration free. *)
Record receiver_ready (fuel : nat) (s : psm) (ep : Z) (e : lci_ep) (h : lc_hash) (d : lc_server)
    (src rank tag req proto p : Z) (st : mq_status) (R : packet_rts) (r : lci_rep) (mr : Z) : Prop := {
  rr_packet : exists k q, packets (proc s) !! p = Some k /\ reqs (proc s) !! req_s_of p = Some q /\
    long_ready (arrived st p (pk_set_data (DataRts R) k) q (proc s)) ep e h d src rank tag req proto p R;
  rr_rank : aget (rep d) rank = Ok r;
  rr_heap : heap s = heap_ptr d /\ heap s <= p < heap s + 2 ^ 32 /\ 0 < p < 2 ^ 62;
  rr_rands : Forall (fun r => 0 <= r) (rands (proc s));
  rr_posted : 0 < recv_posted s < 2 ^ 61;
  rr_free : registers fuel s e src R mr }.

(** What it does: the receive is posted, the announcement served and answered, the answer's
    send and the data's arrival served; the registration is given back and the request
    signalled. *)
Definition receiver_completes (fuel : nat) (s : psm) (ep : Z) (e : lci_ep)
    (src rsz rank tag req p : Z) (st : mq_status) (R : packet_rts) (r : lci_rep) (mr : Z) : Prop :=
  let off := u32 (p - heap s) in
  exists s1 s2 s3 ka s4 s5 s6 q',
    on_proc (lc_recv src rsz rank tag ep req) s = Ok (LC_OK, s1) /\
    (_ ← library p (DataRts R); lc_server_progress (server e) (Some st)) s1 = Ok (true, s2) /\
    serve_events fuel (emitted s s2) s2 = Ok (tt, s3) /\
    mq s3 = mq s2 ++ answer_calls s e src R mr (handle r) p /\
    packets (proc s3) !! p = Some ka /\ pk_data ka = DataRtr R src (next_key s) off /\
    lc_server_progress (server e) (Some (sent p)) s3 = Ok (true, s4) /\
    lc_server_progress (server e) (Some (came (next_key s) off (rts_size R))) s4 = Ok (true, s5) /\
    emitted s2 s5 = [EvRmaDereg mr] /\ serve_events fuel (emitted s2 s5) s5 = Ok (tt, s6) /\
    reqs (proc s6) !! req = Some q' /\ sync q' = 1 /\ buffer q' = src /\ size q' = rsz.

Lemma receiver_completes_ok f s ep e h d src rsz rank tag req proto p R r len peer mr :
  let fuel := S (S (S f)) in
  let st := MqStatus (Z.lor PSM_RECV p) (PSM_TAG_TSEND_DATA proto rank) len peer in
  receiver_ready fuel s ep e h d src rank tag req proto p st R r mr ->
  has_exp = true -> has_sync = true ->
  receiver_completes fuel s ep e src rsz rank tag req p st R r mr.
Proof.
  intros fuel st [(k & q & Hk & Hq & Hl) Hr (Hhp & Hrange & Hp) Hrs Hn Hreg] Hbe Hbs.
  destruct (announcement_arrives s ep e h d src rsz rank tag req proto p R r k q len peer Hl Hbe Hr Hk Hq
    Hp Hrs Hn) as (s1 & x & s2 & E1 & E2 & Hmet & Hkept & Ha). fold st in E2, Hmet.
  set (s1' := set_recv_posted _ _) in *.
  pose proof Hreg as [Hkey _ _ [Hmem Hrk]].
  destruct (answer_served f s s2 e src R mr (handle r) p Hreg) as (s3 & E3 & Hp3 & Hh3 & Hn3 & Hq3 & Hb3).
  { exact (af_idle _ _ _ _ Ha). }
  destruct (answer_completes fuel _ s1' x s2 s3 ep e h d src rsz rank req p (handle r) R mr (rts_size R) Hmet Hbs
    Hp eq_refl Hkept) as (s4 & s5 & s6 & q' & E4 & E5 & Et & E6 & _ & Hr1 & Hr2 & Hr3 & Hr4); try done; [cbn;
      lia|lia|].
  pose proof (af_steady _ _ _ _ Ha) as Hst. unfold steady in Hst. injection Hst as Epk _ _ _ _ Etr.
  rewrite Hrk in E5.
  assert (emitted s s2 = answered (proc s) e src R (handle r) p) as Hem.
  { apply emitted_app. rewrite Etr. exact (mt_trace _ _ _ _ _ _ _ _ _ _ _ _ _ Hmet). }
  apply emitted_app in Et.
  exists s1, s2, s3, (answer ep p req mr R src (heap_ptr d)), s4, s5, s6, q'. split_and!; try done.
  - by rewrite Hem.
  - rewrite Hp3, Epk, <- Hmem. exact (mt_packet _ _ _ _ _ _ _ _ _ _ _ _ _ Hmet).
  - unfold answer. cbn [pk_data]. by rewrite Hrk, <- Hhp.
  - by rewrite Et.
Qed.

(** ** The sender *)

(** The server's send of an announcement, and of the data. *)
Definition announce_call (s : psm) (e : lci_ep) (tag rep pa : Z) : mq_call :=
  MqIsend rep (PSM_TAG_TSEND_DATA (MAKE_PROTO (gid e) LC_PROTO_RTS tag) (me s)) (data_of pa)
    sizeof_packet_rts (Z.lor PSM_SEND pa) pa.
Definition data_call (peer buf len key off p : Z) : mq_call :=
  MqIsend peer (PSM_TAG_SRDMA_DAT_IMM key off) buf len (Z.lor PSM_SEND p) p.

(** The answer arrives, and the server writes the data. *)
Lemma answer_taken fuel s ep e d p proto R addr key off k q rank n peer :
  let st := MqStatus (Z.lor PSM_RECV p) (PSM_TAG_TSEND_DATA proto rank) n peer in
  let ev := EvRmaRtr (server e) peer (rts_src_addr R) addr key (rts_size R) off p in
  eps (proc s) !! ep = Some e -> has_cap (cap e) EP_AR_EXP = true -> has_exp = true ->
  proto = MAKE_PROTO (PROTO_GET_RGID proto) LC_PROTO_RTR 0 ->
  0 <= PROTO_GET_RGID proto < 2 ^ 14 -> aget (lcg_ep (proc s)) (PROTO_GET_RGID proto) = Ok ep ->
  packets (proc s) !! p = Some k -> reqs (proc s) !! req_s_of p = Some q -> 0 < p < 2 ^ 62 ->
  kept (server e) d s -> 0 < recv_posted s < 2 ^ 61 ->
  exists s1 s2 k',
    (_ ← library p (DataRtr R addr key off); lc_server_progress (server e) (Some st)) s = Ok (true, s1) /\
    trace (proc s1) = trace (proc s) ++ [ev] /\ serve_events fuel [ev] s1 = Ok (tt, s2) /\
    mq s2 = mq s1 ++ [data_call peer (rts_src_addr R) (rts_size R) key off p] /\
    packets (proc s2) = <[p := k']> (packets (proc s)) /\ writing k' ep R /\
    (forall a, a <> req_s_of p -> reqs (proc s2) !! a = reqs (proc s) !! a) /\
    eps (proc s2) = eps (proc s) /\ trace (proc s2) = trace (proc s1) /\
    recv_posted s2 <= recv_posted s /\
    exists pool, kept (server e) (LcServer pool (rep d) (curr_addr d) (heap_ptr d)) s2 /\
      (length (pool_elems pool) <= length (pool_elems (pkpool d)))%nat.
Proof.
  intros st ev He Hexp Hbe Hpr Hrg Hep Hk Hq Hp Hkept Hn.
  set (D := DataRtr R addr key off).
  destruct (answer_arrives (arrived st p (pk_set_data D k) q (proc s)) ep e p proto R addr key off
      (pk_set_req (req_s_of p) (pk_set_data D k)) (noted st q))
    as (x & k' & E & Et & Epk & Hw & Erq & _ & Ee & Hsur); try done.
  { apply lookup_insert_eq. }
  { apply lookup_insert_eq. }
  assert (tag0 (msg_tag st) = proto) as Etag by (cbn; rewrite Hpr; apply u32_small, u32_range).
  rewrite <- Etag in E.
  destruct (library_progress (server e) st p D k q s x) as (sl & El & Ep); try done; [lia|].
  set (s1' := set_recv_posted _ _) in Ep.
  assert (kept (server e) d s1') as Hkept'.
  { destruct Hkept as [Hd Hr _]. pose proof Hsur as Hs. unfold surroundings in Hs.
    injection Hs as _ _ _ _ Hs _. split; [|cbn; by rewrite Hs|cbn; lia].
    apply (dev_wf_surroundings (proc s)); [exact Hsur|exact Hd]. }
  destruct (run_progress _ _ _ _ _ Ep Hkept') as (s1 & E1 & Ha).
  destruct (kept_after _ _ _ _ Hkept' Ha) as (pool & Hk1 & Hl); [cbn; lia|].
  destruct Ha as [Hst Hid _ Hn1 _ _]. unfold steady in Hst. injection Hst as Epk1 Erq1 _ Ee1 _ Et1.
  cbn in Hn1. exists s1. eexists _, k'. split_and!; try done.
  - by rewrite (st_bind_run _ _ _ _ _ El).
  - rewrite Et1. exact Et.
  - cbn. rewrite Epk1. cbn. rewrite Epk. cbn. by rewrite insert_insert_eq.
  - intros a Ha. cbn. rewrite Erq1. cbn. rewrite Erq. cbn. by rewrite !lookup_insert_ne by done.
  - cbn. rewrite Ee1. exact Ee.
  - cbn. lia.
  - exists pool. split; [|done]. destruct Hk1 as [[? ? ? ?] ? ?]. split; [by split|done|done].
Qed.

(** The data is written and the announcement is gone. *)
Lemma writes_complete s ep e d p k R qc pa ka :
  kept (server e) d s -> eps (proc s) !! ep = Some e ->
    (S (length (pool_elems (pkpool d))) < dq_capacity)%nat ->
  packets (proc s) !! p = Some k -> writing k ep R -> rts_cb R = lc_signal_fn ->
  reqs (proc s) !! rts_ce R = Some qc -> packets (proc s) !! pa = Some ka -> pk_ep ka = ep ->
  pk_proto ka = LC_PROTO_RTS -> 0 < p < 2 ^ 62 -> 0 < pa < 2 ^ 62 -> recv_posted s < 2 ^ 61 ->
  exists s1 s2, lc_server_progress (server e) (Some (sent p)) s = Ok (true, s1) /\
    lc_server_progress (server e) (Some (sent pa)) s1 = Ok (true, s2) /\
    trace (proc s2) = trace (proc s) ++ [EvCallback (rts_cb R) (rts_ce R)] /\
    reqs (proc s2) !! rts_ce R = Some (rq_set_sync 1 qc).
Proof.
  intros [Hd Hr Hn] He Hroom Hk Hw Hcb Hqc Hka Hkep Hkp Hp Hpa Hn'.
  destruct (data_written (proc s) ep e d p k R qc) as (x & d1 & E1 & Et1 & Eq1 & Ek1 & Ee1 & _ & Er1 & Hd1 & Hl1);
    try done; [unfold NULL; lia|lia|].
  assert (kept (server e) d1 (set_proc x s)) as Hk1.
  { split; [exact Hd1|cbn; by rewrite Er1|exact Hn]. }
  destruct (run_progress _ _ _ _ _ (progress_sent (server e) (sent p) p s x Hp eq_refl E1) Hk1) as (s1 & P1 & Ha1).
  destruct (kept_after _ _ _ _ Hk1 Ha1) as (pool & [Hd2 Hr2 Hn2] & Hl2); [cbn; lia|].
  destruct Ha1 as [Hst _ _ _ _ _]. unfold steady in Hst. injection Hst as Ek2 Eq2 _ Ee2 _ Et2.
  apply Permutation_length in Hl1. cbn in Hl1.
  destruct (announcement_sent (proc s1) ep e (LcServer pool (rep d1) (curr_addr d1) (heap_ptr d1)) pa ka) as
    (y & d3 & E3 & Et3 & Eq3 & _ & _ & _ & Er3 & Hd3 & _); try done.
  { rewrite Ee2. cbn. by rewrite Ee1. }
  { unfold NULL. lia. }
  { cbn [pkpool]. lia. }
  { rewrite Ek2. cbn. by rewrite Ek1. }
  destruct (run_progress (server e) d3 _ _ _ (progress_sent (server e) (sent pa) pa s1 y Hpa eq_refl E3))
    as (s2 & P2 & [Hst _ _ _ _ _]).
  { split; [exact Hd3|cbn; by rewrite Er3|exact Hn2]. }
  unfold steady in Hst. injection Hst as _ Eq4 _ _ _ Et4.
  exists s1, s2. split_and!; try done.
  - rewrite Et4. cbn. rewrite Et3, Et2. exact Et1.
  - rewrite Eq4. cbn. rewrite Eq3, Eq2. cbn. rewrite Eq1. apply lookup_insert_eq.
Qed.

(** What a sender must be: its process ready ([long_sender]), packet [p] one of those
    posted, and the packets of the pool in the address space. *)
Record sender_ready (s : psm) (ep : Z) (e : lci_ep) (d : lc_server) (ce : Z) (qc : lc_req)
    (p proto to : Z) (r : lci_rep) : Prop := {
  sr_long : long_sender (proc s) ep e d ce qc p proto;
  sr_rank : aget (rep d) to = Ok r;
  sr_packet : is_Some (packets (proc s) !! p) /\ is_Some (reqs (proc s) !! req_s_of p);
  sr_range : 0 < p < 2 ^ 62 /\ Forall (fun a => 0 < a < 2 ^ 62) (pool_elems (pkpool d));
  sr_posted : 0 < recv_posted s < 2 ^ 61 }.

(** What it does after its send, in state [s1]: the announcement goes out in packet [pa],
    the answer, from [peer], is served and the data written where it says; the completions
    of both are served and the callback called. *)
Definition sender_completes (fuel : nat) (s s1 : psm) (e : lci_ep) (ce : Z) (qc : lc_req)
    (p : Z) (st : mq_status) (r : lci_rep) (buf len tag addr key off : Z) : Prop :=
  let R := Rts lc_signal_fn ce buf len in
  exists pa ka s2 s3 s4 s5 s6,
    packets (proc s1) !! pa = Some ka /\ pk_data ka = DataRts R /\
    serve_events fuel (emitted s s1) s1 = Ok (tt, s2) /\
    mq s2 = mq s ++ [announce_call s e tag (handle r) pa] /\
    (_ ← library p (DataRtr R addr key off); lc_server_progress (server e) (Some st)) s2 = Ok (true, s3) /\
    serve_events fuel (emitted s1 s3) s3 = Ok (tt, s4) /\
    mq s4 = mq s3 ++ [data_call (msg_peer st) buf len key off p] /\
    lc_server_progress (server e) (Some (sent p)) s4 = Ok (true, s5) /\
    lc_server_progress (server e) (Some (sent pa)) s5 = Ok (true, s6) /\
    emitted s3 s6 = [EvCallback lc_signal_fn ce] /\
    reqs (proc s6) !! ce = Some (rq_set_sync 1 qc).

Lemma sender_completes_ok fuel s ep e d ce qc p proto r buf len to tag s1 rank n peer addr key off :
  sender_ready s ep e d ce qc p proto to r -> has_exp = true ->
  on_proc (lc_sendl buf len to tag ep lc_signal_fn ce) s = Ok (LC_OK, s1) ->
  sender_completes fuel s s1 e ce qc p
    (MqStatus (Z.lor PSM_RECV p) (PSM_TAG_TSEND_DATA proto rank) n peer) r buf len tag addr key off.
Proof.
  intros [[He Hexp Hd Hroom Hrs [Hp0 Hpost] [Hce Hce'] Hpr [Hep Hrg]] Hr [[k Hk] [q Hq]] [Hp Hpool] Hn]
    Hbe Hsend. set (R := Rts lc_signal_fn ce buf len).
  unfold on_proc in Hsend. destruct (lc_sendl _ _ _ _ _ _ _ _) as [[c a1]|] eqn:Es; [|done].
  injection Hsend as -> <-.
  destruct (sendl_announces _ _ _ _ _ _ _ _ _ _ _ _ He Hd Hrs Hr Es) as
    (pa & ka & d1 & Hpa & Hka & Hkep & Hkp & Hkd & Hoth & Ht & _ & Hqs & Hes & Hle & Hrs1 & Hd1 & Hl).
  assert (pa <> p) as Hne by (intros ->; apply Hpost; rewrite Hl; left).
  assert (0 < pa < 2 ^ 62) as Hpa' by (rewrite Hl in Hpool; by inversion Hpool).
  apply Permutation_length in Hl. cbn in Hl.
  set (c := announce_call s e tag (handle r) pa).
  set (s2 := set_mq (mq s ++ [c]) (set_proc a1 s)).
  destruct (answer_taken fuel s2 ep e d1 p proto R addr key off k q rank n peer) as
    (s3 & s4 & k' & E3 & Et3 & E4 & Eq4 & Ek4 & Hw & Er4 & Ee4 & Et4 & Hn4 & pool & Hk4 & Hl4); try done.
  { cbn. by rewrite Hes. }
  { cbn. by rewrite Hle. }
  { cbn. by rewrite Hoth by done. }
  { cbn. by rewrite Hqs. }
  { split; [exact Hd1|exact Hrs1|cbn; lia]. }
  destruct (writes_complete s4 ep e (LcServer pool (rep d1) (curr_addr d1) (heap_ptr d1)) p k' R qc pa ka Hk4) as (s5 & s6 & E5 & E6 & Et6 & Eq6); try done.
  { rewrite Ee4. cbn. by rewrite Hes. }
  { cbn [pkpool]. lia. }
  { rewrite Ek4. apply lookup_insert_eq. }
  { rewrite Er4 by done. cbn. by rewrite Hqs. }
  { rewrite Ek4. cbn. by rewrite lookup_insert_ne. }
  { cbn in Hn4. lia. }
  exists pa, ka, s2, s3, s4, s5, s6. split_and!; try done.
  - by rewrite (emitted_app s (set_proc a1 s) _ Ht).
  - by rewrite (emitted_app (set_proc a1 s) s3 _ Et3).
  - apply emitted_app. by rewrite Et6, Et4.
Qed.

(** A send reaches a receive. *)
Definition reaches (matches : psm2_mq_tag -> psm2_mq_tag -> psm2_mq_tag -> bool) (c r : mq_call) : bool :=
  match c, r with
  | MqIsend _ t _ _ _ _, MqIrecv tag sel _ _ _ _ => matches tag sel t
  | _, _ => false
  end.

(** The receive lc_server_post_recv posts for packet [p]. *)
Definition packet_receive (p : Z) : mq_call :=
  MqIrecv PSM_TAG_TRECV_DATA LCI_PSM2_TAGSEL (data_of p) SHORT_MSG_SIZE (Z.lor PSM_RECV p) p.

Lemma data_reaches matches peer buf len key off p src mr n : psm2_matching matches -> 0 < key < 2 ^ 28 ->
  reaches matches (data_call peer buf len key off p) (buffer_receive key src n mr) = true /\
  forall p', reaches matches (data_call peer buf len key off p) (packet_receive p') = false.
Proof.
  intros Hm Hk. assert (tag_key (u32 key) = key) as E by (rewrite u32_small by lia; apply tag_key_small; lia).
  unfold reaches, data_call, buffer_receive, packet_receive. split.
  - by apply (matching_key _ _ _ Hm).
  - intros _. apply not_true_is_false. rewrite (matching_key _ _ _ Hm).
    change (tag_key (tag2 PSM_TAG_TRECV_DATA)) with 0. cbn [tag2 PSM_TAG_SRDMA_DAT_IMM]. rewrite E. lia.
Qed.

Lemma announce_reaches matches s e tag rep pa p : psm2_matching matches ->
  reaches matches (announce_call s e tag rep pa) (packet_receive p) = true.
Proof. intros Hm. by apply (matching_key _ _ _ Hm). Qed.

(** C12: A long message goes through two PSM2 servers.  After lc_sendl the sender's server sends
    the announcement with the tag of the receiver's packets.  The receiver, whose receive
    waits, registers the buffer and answers; the sender's server sends the bytes with the
    tag of the registration, which reaches the receive posted for the buffer and none posted
    for a packet.  Each completion is served by one call of the progress, after which the
    request at the receiver and the flag at the sender are signalled and the registration
    is free. *)
Theorem psm_rendezvous matches f a epa ea da ce qc p' ra buf len to tag a1 b epb eb hb db src rsz
    req p rb mr peer peer' :
  let fuel := S (S (S f)) in
  let R := Rts lc_signal_fn ce buf len in
  let announced := MqStatus (Z.lor PSM_RECV p)
    (PSM_TAG_TSEND_DATA (MAKE_PROTO (gid ea) LC_PROTO_RTS tag) (me a)) sizeof_packet_rts peer in
  let answered := MqStatus (Z.lor PSM_RECV p')
    (PSM_TAG_TSEND_DATA (MAKE_PROTO (gid eb) LC_PROTO_RTR 0) (me b)) sizeof_packet_rtr peer' in
  let key := next_key b in
  let off := u32 (p - heap b) in
  psm2_matching matches -> has_exp = true -> has_sync = true ->
  sender_ready a epa ea da ce qc p' (MAKE_PROTO (gid eb) LC_PROTO_RTR 0) to ra ->
  on_proc (lc_sendl buf len to tag epa lc_signal_fn ce) a = Ok (LC_OK, a1) ->
  receiver_ready fuel b epb eb hb db src (me a) tag req (MAKE_PROTO (gid ea) LC_PROTO_RTS tag) p
    announced R rb mr ->
  sender_completes fuel a a1 ea ce qc p' answered ra buf len tag src key off /\
  receiver_completes fuel b epb eb src rsz (me a) tag req p announced R rb mr /\
  reaches matches (data_call peer' buf len key off p') (buffer_receive key src len mr) = true /\
  (forall q, reaches matches (data_call peer' buf len key off p') (packet_receive q) = false) /\
  forall pa q, reaches matches (announce_call a ea tag (handle ra) pa) (packet_receive q) = true.
Proof.
  intros fuel R announced answered key off Hm Hbe Hbs Ha Hsend Hb.
  destruct (data_reaches matches peer' buf len key off p' src mr len Hm) as [Hd Hn].
  { exact (rg_key _ _ _ _ _ _ (rr_free _ _ _ _ _ _ _ _ _ _ _ _ _ _ _ _ Hb)). }
  split_and!; [by eapply sender_completes_ok|by eapply receiver_completes_ok|exact Hd|exact Hn|].
  intros pa q. by apply announce_reaches.
Qed.
End psm.
