(* ===== verification/PsmDemo.v ===== *)
(** * Witnesses for the properties of PsmSpec.v

    The process of ProtoDemo.v with a server. *)
From stdpp Require Import gmap.
From S2P Require Import Prelude Text Config Lock Dequeue Pool Hashtable CompQueue State.
From S2P Require Import Proto Api ProtoSpec Rendezvous ProtoDemo Lcrq LcrqSpec Psm PsmSpec.
From S2P Require Import PsmRendezvous.

#[local] Existing Instances demo_build demo_server demo_client demo_platform.

(** The library's matching. *)
Definition demo_matches (r sel t : psm2_mq_tag) : bool :=
  (Z.land (tag0 r) (tag0 sel) =? Z.land (tag0 t) (tag0 sel)) &&
  (Z.land (tag1 r) (tag1 sel) =? Z.land (tag1 t) (tag1 sel)) &&
  (Z.land (tag2 r) (tag2 sel) =? Z.land (tag2 t) (tag2 sel)).

Lemma demo_matching : psm2_matching demo_matches.
Proof. intros r sel t. unfold demo_matches. rewrite !andb_true_iff, !Z.eqb_eq. tauto. Qed.

Definition demo_queue : lcrq_t := Lcrq {[1 := init_ring]} 1 1 NULL 2.
Definition demo_psm (y : lci) (rank n key : Z) : psm :=
  Psm y rank 0 0 n demo_queue ∅ 100 key [].

Lemma demo_run {A} (m : PS A) s : is_ok (m s) = true -> exists a s', m s = Ok (a, s').
Proof. destruct (m s) as [[a s']|]; [by exists a, s'|done]. Qed.

Lemma psm_keys_separate_witness : exists mem s',
  _real_psm_reg 5 7000 64 (demo_psm demo_state 0 0 5) = Ok (mem, s') /\
  lc_server_rma_key mem s' = Ok (5, s') /\
  demo_matches (PSM_TAG_RRDMA_DAT 5) LCI_PSM2_TAGSEL (PSM_TAG_TSEND_DATA 9 1) = false.
Proof.
  destruct (demo_run (_real_psm_reg 5 7000 64) (demo_psm demo_state 0 0 5)) as (mem & s' & E);
    [by vm_compute|].
  destruct (psm_keys_separate demo_matches 5 7000 64 (demo_psm demo_state 0 0 5) mem s' demo_matching
    ltac:(cbn; lia) E) as (_ & Hk & _ & _ & Hp & _).
  exists mem, s'. split; [exact E|]. split; [exact Hk|].
  exact (proj1 (Hp _ (PktData 9 1))).
Defined.

Lemma psm_key_wraps_witness : exists mem s' r,
  _real_psm_reg 5 7000 64 (demo_psm demo_state 0 0 (2 ^ 28)) = Ok (mem, s') /\
  mq s' = [MqIrecv r LCI_PSM2_TAGSEL 7000 64 PSM_RECV mem] /\
  demo_matches r LCI_PSM2_TAGSEL (PSM_TAG_TSEND_DATA 9 1) = true.
Proof.
  destruct (demo_run (_real_psm_reg 5 7000 64) (demo_psm demo_state 0 0 (2 ^ 28))) as (mem & s' & E);
    [by vm_compute|].
  destruct (psm_key_wraps demo_matches 5 7000 64 (demo_psm demo_state 0 0 (2 ^ 28)) mem s'
    (PSM_TAG_TSEND_DATA 9 1) demo_matching eq_refl E (PktData 9 1)) as (r & Hq & Hm).
  exists mem, s', r. split; [exact E|]. split; [exact Hq|exact Hm].
Defined.

(** The packet of the pool holds the bytes of a put to the first byte of the memory. *)
Definition demo_put_state : lci :=
  set_packets (fun m => <[4096 := pk_set_data (DataBuffer demo_bytes) lc_packet0]> m)
    (set_reqs (fun m => <[req_s_of 4096 := lc_req0]> m) demo_state).
Definition demo_put_peek : option mq_status :=
  Some (MqStatus (Z.lor PSM_RECV 4096) (PSM_TAG_SRDMA 1000) 3 71).

Lemma put_drift_witness : exists s' o',
  psm_run 0 [None; demo_put_peek] (demo_psm demo_put_state 0 0 1) 0 s' o' /\
  recv_posted s' = o' + 1.
Proof.
  set (s := demo_psm demo_put_state 0 0 1).
  destruct (demo_run (lc_server_progress 0 None) s) as (b1 & s1 & E1); [by vm_compute|].
  assert (match lc_server_progress 0 None s with
          | Ok (_, s1) => is_ok (lc_server_progress 0 demo_put_peek s1) && (posted s1 =? 1)
          | Err _ => false end = true) as Hrun by (by vm_compute).
  rewrite E1 in Hrun. apply andb_true_iff in Hrun as [Hrun Hp]. apply Z.eqb_eq in Hp.
  destruct (demo_run (lc_server_progress 0 demo_put_peek) s1 Hrun) as (b2 & s2 & E2).
  assert (consumed demo_put_peek = 1) as Hc by (by vm_compute).
  assert (psm_run 0 [None; demo_put_peek] s 0 s2
    (0 - 0 + (posted s1 - posted s) - 1 + (posted s2 - posted s1))) as R.
  { eapply run_cons; [exact I| |exact E1|]; [cbn; lia|].
    eapply run_cons; [| |exact E2|].
    - vm_compute. discriminate.
    - rewrite Hc, Hp. change (posted s) with 0. cbn. lia.
    - rewrite Hc. constructor. }
  eexists _, _. split; [exact R|].
  destruct (put_drift 0 [None; demo_put_peek] s s2 _ eq_refl R) as (Hd & _); [by vm_compute|].
  exact Hd.
Defined.

Lemma psm_init_connects_witness : exists reps s',
  lc_server_init 301 0 2 55 8192 (fun own j => if j =? 1 then print_name 77 4096 3 else own)
    (fun id => id + 1000) (demo_psm demo_state 0 0 1) = Ok (reps, s') /\
  reps = [LciRep 0 0 0 0; LciRep 1077 1 4096 3] /\ heap_rkey s' = 1.
Proof.
  destruct (psm_init_connects 301 0 2 55 8192 (fun own j => if j =? 1 then print_name 77 4096 3 else own)
    (fun id => id + 1000) (fun _ => 77) (fun _ => 4096) (fun _ => 3) (demo_psm demo_state 0 0 1))
    as (reps & s' & E & Hreps & _ & _ & _ & Hk & _); try reflexivity; try (cbn; lia).
  - intros j Hj Hne. assert (j = 1) as -> by lia. split; [reflexivity|lia].
  - exists reps, s'. split; [exact E|]. split; [exact Hreps|exact Hk].
Defined.

(** The sender: rank 1, with the bytes at 1000. *)
Definition demo_sender : psm :=
  demo_psm (set_memory (fun _ => list_to_map [(1000, 10); (1001, 20); (1002, 30)]) demo_state) 1 0 1.

Definition demo_status : mq_status :=
  MqStatus (Z.lor PSM_RECV 8192) (PSM_TAG_TSEND_DATA (MAKE_PROTO 0 LC_PROTO_DATA 0) 1) 3 71.

Lemma demo_arrived : arrived demo_status 8192 demo_packet demo_req_s demo_state = demo_state.
Proof.
  unfold arrived, noted_at, set_reqs, set_packets. cbn [reqs packets].
  rewrite (insert_id _ (req_s_of 8192)), (insert_id _ 8192); reflexivity.
Qed.

Lemma psm_eager_delivery_witness : exists sd1 s1 s2,
  on_proc (lc_sends 1000 3 0 0 300) demo_sender = Ok (LC_OK, sd1) /\
  on_proc (lc_recv 1000 8 1 0 300 900) (demo_psm demo_state 0 1 1) = Ok (LC_OK, s1) /\
  lc_server_progress 0 (Some demo_status) s1 = Ok (true, s2) /\
  load_bytes (memory (proc s2)) 1000 4 = Ok [10; 20; 30; 0].
Proof.
  destruct (psm_eager_delivery 1 demo_sender 300 demo_sync_ep demo_dev 0 (LciRep 70 0 0 0) 1000 3 0
    demo_bytes (demo_psm demo_state 0 1 1) demo_state 300 demo_sync_ep lc_hash_create demo_dev 1000 8
    900 8192 demo_packet demo_req_s 71
    (<[1002 := 30]> (<[1001 := 20]> (<[1000 := 10]> (memory demo_state)))))
    as (sd1 & sd2 & ev & s1 & s2 & q' & E1 & _ & _ & _ & E2 & E3 & Em & _);
    try reflexivity; try (cbn; lia).
  - change (eager_ready (arrived demo_status 8192 demo_packet demo_req_s demo_state) 300 demo_sync_ep
      lc_hash_create demo_dev 1000 1 0 900 (MAKE_PROTO 0 LC_PROTO_DATA 0) 8192 demo_bytes
      (<[1002 := 30]> (<[1001 := 20]> (<[1000 := 10]> (memory demo_state))))).
    rewrite demo_arrived. exact demo_eager_ready.
  - constructor.
  - exists sd1, s1, s2. split; [exact E1|]. split; [exact E2|]. split; [exact E3|].
    rewrite Em. reflexivity.
Defined.

(** Servers with one free registration, at 1005, whose key will be 1005, as the process is
    told for a buffer at 1004. *)
Definition demo_regs : lcrq_t :=
  match (_ ← lcrq_init; lcrq_enqueue 5 1005) (Lcrq ∅ 0 0 NULL 1) with
  | Ok (_, q) => q | Err _ => demo_queue end.
Definition demo_long_psm (rank : Z) : psm :=
  Psm demo_state rank 0 0 1 demo_regs {[ 1005 := PsmMr 0 0 0 ]} 2000 1005 [].

Lemma demo_regs_rep : exists k, lcrq_rep demo_regs [1005] k 3 /\ (k < 5)%nat.
Proof.
  destruct (init_run (Lcrq ∅ 0 0 NULL 1)) as (q & E & Hrep); [done|cbn; lia|].
  destruct (enqueue_run 5 1005 q [] 1 2 Hrep) as (q' & k & E' & Hrep' & Hk);
    [lia|lia|by vm_compute|done|].
  exists k. split; [|lia]. unfold demo_regs. by rewrite (st_bind_run _ _ _ _ _ E), E'.
Qed.

Lemma demo_registers : registers 5 (demo_long_psm 0) demo_sync_ep 1004 demo_long 1005.
Proof.
  destruct demo_regs_rep as (k & Hrep & Hk).
  split; [cbn; lia| |split; [lia|by eexists]|split; reflexivity].
  exists [], k, 3. split; [exact Hrep|]. split; [lia|]. split; [by vm_compute|exact Hk].
Qed.

Definition demo_announced_status : mq_status :=
  MqStatus (Z.lor PSM_RECV 8192) (PSM_TAG_TSEND_DATA (MAKE_PROTO 0 LC_PROTO_RTS 5) 1) 40 71.

Lemma demo_receiver_ready : receiver_ready 5 (demo_long_psm 0) 300 demo_sync_ep lc_hash_create demo_dev
  1004 1 5 900 (MAKE_PROTO 0 LC_PROTO_RTS 5) 8192 demo_announced_status demo_long (LciRep 71 1 4096 5) 1005.
Proof.
  split; [|reflexivity|cbn; lia|constructor|cbn; lia|exact demo_registers].
  exists demo_packet, demo_req_s. split; [reflexivity|]. split; [reflexivity|].
  by apply demo_long_ready.
Qed.

Lemma demo_sender_ready : sender_ready (demo_long_psm 1) 300 demo_sync_ep demo_dev 900 lc_req0 8192
  (MAKE_PROTO 0 LC_PROTO_RTR 0) 1 (LciRep 71 1 4096 5).
Proof.
  split; [exact demo_long_sender|reflexivity|split; by eexists| |cbn; lia].
  split; [lia|]. rewrite demo_elems. constructor; [lia|constructor].
Qed.

Lemma psm_rendezvous_witness :
  sender_completes 5 (demo_long_psm 1) (set_proc demo_announced (demo_long_psm 1)) demo_sync_ep 900
    lc_req0 8192 (MqStatus (Z.lor PSM_RECV 8192) (PSM_TAG_TSEND_DATA (MAKE_PROTO 0 LC_PROTO_RTR 0) 0) 48 70)
    (LciRep 71 1 4096 5) 1000 3 5 1004 1005 8192 /\
  receiver_completes 5 (demo_long_psm 0) 300 demo_sync_ep 1004 5 1 5 900 8192 demo_announced_status
    demo_long (LciRep 71 1 4096 5) 1005.
Proof.
  assert (has_exp = true) as Hbe by reflexivity. assert (has_sync = true) as Hbs by reflexivity.
  assert (on_proc (lc_sendl 1000 3 1 5 300 lc_signal_fn 900) (demo_long_psm 1) =
    Ok (LC_OK, set_proc demo_announced (demo_long_psm 1))) as Hs.
  { unfold on_proc. change (proc (demo_long_psm 1)) with demo_state. rewrite demo_announces. reflexivity. }
  destruct (psm_rendezvous demo_matches 2 (demo_long_psm 1) 300 demo_sync_ep demo_dev 900 lc_req0 8192
    (LciRep 71 1 4096 5) 1000 3 1 5 (set_proc demo_announced (demo_long_psm 1)) (demo_long_psm 0) 300
    demo_sync_ep lc_hash_create demo_dev 1004 5 900 8192 (LciRep 71 1 4096 5) 1005 71 70
    demo_matching Hbe Hbs demo_sender_ready Hs demo_receiver_ready) as (H1 & H2 & _).
  split; [exact H1|exact H2].
Defined.
