(* ===== verification/PsmLedger.v ===== *)
(** * The PSM2 server keeps the ledger (about Psm.v and Ledger.v)

    What the progress of the PSM2 server does to its process is a run of the steps of Ledger.v,
    as long as the completions the library reports are ones the server waits for.  The log of
    the library's calls says which packets it was given to receive in: together with the sends
    asked for and the completion reported they make up the change of the tickets held. *)
From stdpp Require Import gmap.
From S2P Require Import Prelude Config Lock Dequeue Pool Hashtable CompQueue State Proto Api.
From S2P Require Import ProtoSpec ProtoDemo Lcrq Psm PsmSpec PsmDemo Custody Ledger.

#[local] Arguments lci_serve_recv : simpl never.
#[local] Arguments lci_serve_recv_rdma : simpl never.
#[local] Arguments Z.land : simpl never.

(** The receives among calls of the library: a posted packet is in the context of its
    receive; the receive of a registration has no packet there. *)
Definition receive_of (c : mq_call) : list ticket :=
  match c with
  | MqIrecv _ _ _ _ ctx _ =>
      let p := Z.lxor ctx PSM_RECV in if truth p then [TRecv p] else []
  | _ => []
  end.

(** What the library was given to receive in between two states. *)
Definition receives (s s' : psm) : list ticket :=
  concat (receive_of <$> drop (length (mq s)) (mq s')).

(** The ticket a completion uses. *)
Definition used (s : psm) (st : mq_status) : list ticket :=
  let ctx := st_context st in
  let tag := msg_tag st in
  let kind := Z.land (tag2 tag) 0xf0000000 in
  if truth (Z.land ctx PSM_RECV) then
    if (kind =? PSM_RECV_DATA) || (kind =? PSM_RECV_RDMA) || (kind =? PSM_RECV_RDMA_SID) ||
      (kind =? PSM_RECV_RDMA_RTP) then [TRecv (Z.lxor ctx PSM_RECV)]
    else if tag1 tag =? PSM_RDMA_IMM then [TImm (heap s + tag0 tag)]
    else [TRecv (Z.lxor ctx PSM_RECV)]
  else if truth (Z.land ctx PSM_SEND) then
    let p := Z.lxor ctx PSM_SEND in if truth p then [TSend p] else []
  else [].

Section psm_ledger.
Context `{Build, Server, Client, Platform}.
Context (dev : Z).
Implicit Types (s : psm) (net gone : list ticket) (p : Z).

(** A completion the server waits for; an eager message is from a rank and addresses an
    endpoint that takes it. *)
Definition due s net (st : mq_status) : Prop :=
  used s st ⊆ net /\
  (truth (Z.land (st_context st) PSM_RECV) = true ->
   Z.land (tag2 (msg_tag st)) 0xf0000000 = PSM_RECV_DATA ->
   0 <= i32 (tag1 (msg_tag st)) < 2 ^ 31 - 1 /\ addressed (proc s) (tag0 (msg_tag st))).

(** A run of the ledger from [s] with [net] to [s'] with [net'], where the tickets [gone]
    were used and those of the calls the library got, and of the calls the process made
    of its server, are new. *)
Record keeps s net gone s' net' : Prop := Keeps {
  ks_steps : rtc step (proc s, net) (proc s', net');
  ks_trace : trace (proc s) `prefix_of` trace (proc s');
  ks_mq : mq s `prefix_of` mq s';
  ks_books : net ++ receives s s' ++ tickets (asked (proc s) (proc s')) ≡ₚ gone ++ net' }.

Lemma asked_prefix x x' : trace x `prefix_of` trace x' -> trace x' = trace x ++ asked x x'.
Proof. intros [l E]. unfold asked. by rewrite E, drop_app_length. Qed.

Lemma asked_trans x x1 x2 : trace x `prefix_of` trace x1 -> trace x1 `prefix_of` trace x2 ->
  asked x x2 = asked x x1 ++ asked x1 x2.
Proof.
  intros E1%asked_prefix E2%asked_prefix. apply asked_app. by rewrite E2, E1 at 1; rewrite app_assoc.
Qed.

Lemma asked_same x x' : trace x' = trace x -> asked x x' = [].
Proof. intros E. apply asked_app. by rewrite app_nil_r. Qed.

Lemma receives_app s s' l : mq s' = mq s ++ l -> receives s s' = concat (receive_of <$> l).
Proof. intros E. unfold receives. by rewrite E, drop_app_length. Qed.

Lemma receives_same s s' : mq s' = mq s -> receives s s' = [].
Proof. intros E. apply (receives_app s s' []). by rewrite app_nil_r. Qed.

Lemma receives_trans s s1 s2 : mq s `prefix_of` mq s1 -> mq s1 `prefix_of` mq s2 ->
  receives s s2 = receives s s1 ++ receives s1 s2.
Proof.
  intros [l1 E1] [l2 E2]. rewrite (receives_app s s1 l1 E1), (receives_app s1 s2 l2 E2),
    (receives_app s s2 (l1 ++ l2)) by (by rewrite E2, E1, app_assoc).
  by rewrite fmap_app, concat_app.
Qed.

Lemma keeps_trans s net g1 s1 net1 g2 s2 net2 :
  keeps s net g1 s1 net1 -> keeps s1 net1 g2 s2 net2 -> keeps s net (g1 ++ g2) s2 net2.
Proof.
  intros [S1 T1 M1 B1] [S2 T2 M2 B2]. split; [by etrans..|].
  rewrite (receives_trans s s1 s2 M1 M2), (asked_trans _ _ _ T1 T2), tickets_app.
  assert (g1 ++ net1 ++ receives s1 s2 ++ tickets (asked (proc s1) (proc s2)) ≡ₚ (g1 ++ g2) ++ net2)
    as <- by (by rewrite B2, app_assoc).
  rewrite (app_assoc g1), <- B1. solve_Permutation.
Qed.

(** Steps about no ticket. *)
Definition aside_of (x : lci) net (x' : lci) : Prop :=
  rtc step (x, net) (x', net) /\ trace x' = trace x.

Lemma aside_keeps s net s' : aside_of (proc s) net (proc s') -> mq s' = mq s -> keeps s net [] s' net.
Proof.
  intros [Hst Ht] Hm. split; [done|by rewrite Ht|by rewrite Hm|].
  by rewrite (receives_same s s' Hm), (asked_same _ _ Ht), !app_nil_r.
Qed.

Lemma keeps_refl s net : keeps s net [] s net.
Proof. by apply aside_keeps. Qed.

(** First steps about no ticket, then others. *)
Lemma aside_then s net s1 gone s' net' : aside_of (proc s) net (proc s1) -> mq s1 = mq s ->
  keeps s1 net gone s' net' -> keeps s net gone s' net'.
Proof. intros Ha Hm. apply (keeps_trans s net [] s1 net). by apply aside_keeps. Qed.

Lemma then_aside s net s1 gone s' net' : keeps s net gone s1 net' -> aside_of (proc s1) net' (proc s') ->
  mq s' = mq s1 -> keeps s net gone s' net'.
Proof.
  intros Hk Ha Hm. rewrite <- (app_nil_r gone). eapply keeps_trans; [exact Hk|by apply aside_keeps].
Qed.

Lemma call_aside x x' net : called x x' -> trace x' = trace x -> aside_of x net x'.
Proof.
  intros Hc E. split; [|done]. apply rtc_once. pose proof (step_call x x' net Hc) as Hst.
  by rewrite (asked_same _ _ E), app_nil_r in Hst.
Qed.

(** A receive that is posted again is a ticket used and one handed out. *)
Lemma log_keeps s net tag sel buf len p req : 0 < p < 2 ^ 62 ->
  keeps s net [TRecv p] (set_mq (mq s ++ [MqIrecv tag sel buf len (Z.lor PSM_RECV p) req]) s) net.
Proof.
  intros Hp. destruct (context_recv p) as [_ Hx]; [lia|].
  assert (truth p = true) as Ht by (unfold truth; by destruct (Z.eqb_spec p 0); [lia|]).
  split; [done|done|by eexists|].
  rewrite (receives_app s _ [MqIrecv tag sel buf len (Z.lor PSM_RECV p) req]), (asked_same (proc s)) by done.
  cbn. rewrite Hx, Ht. cbn.
  solve_Permutation.
Qed.

Context (D : list Z) (HD : Forall (fun p => 0 < p < 2 ^ 62) D).

Lemma ticket_range x net y : accounted D (x, net) -> y ∈ net -> 0 < ticket_of y < 2 ^ 62.
Proof.
  intros Ha Hy. rewrite Forall_forall in HD. apply HD. by eapply ticket_packet.
Qed.

Lemma serve_keeps s net y s' : accounted D (proc s, net) -> y ∈ net -> served (proc s) y (proc s') ->
  mq s' = mq s -> exists net', keeps s net [y] s' net'.
Proof.
  intros Ha Hy Hs Hm. pose proof (served_trace D _ _ _ _ Ha Hy Hs) as Ht.
  apply list_elem_of_split in Hy as (l1 & l2 & ->).
  exists ((l1 ++ l2) ++ tickets (asked (proc s) (proc s'))). split; [|done|by rewrite Hm|].
  - apply rtc_once. eapply (step_serve y); [|exact Hs]. symmetry. apply Permutation_middle.
  - rewrite (receives_same s s' Hm). solve_Permutation.
Qed.

Lemma aside_accounted x net x' : aside_of x net x' -> accounted D (x, net) -> accounted D (x', net).
Proof. intros [Hst _]. by apply steps_accounted. Qed.

Lemma own_req_aside x p net u x' : TRecv p ∈ net -> own_req p x = Ok (u, x') -> aside_of x net x' /\ own x' p.
Proof.
  intros Hx E. unfold own_req, upd_packet in E. apply bind_inv in E as (k & x1 & Ek & E).
  unfold get_packet, lift in Ek. destruct (packets x !! p) as [k0|]; [|done]. injection Ek as -> ->.
  injection E as _ <-.
  split; [split; [apply rtc_once; by apply step_packet|done]|].
  intros k1. cbn. rewrite lookup_insert_eq. by intros [= <-].
Qed.

Lemma on_proc_runs {A} (m : M A) s a s' : on_proc m s = Ok (a, s') -> exists x, m (proc s) = Ok (a, x) /\
  s' = set_proc x s.
Proof. unfold on_proc. destruct (m (proc s)) as [[b x]|]; [|done]. intros [= -> <-]. by exists x. Qed.

(** The arrival of an eager message. *)
Lemma data_aside p st x net u x1 u' x2 : TRecv p ∈ net -> 0 <= i32 (tag1 (msg_tag st)) < 2 ^ 31 - 1 ->
  addressed x (tag0 (msg_tag st)) -> own_req p x = Ok (u, x1) ->
  upd_req (req_s_of p) (fun q => rq_set_size (msg_length st) (rq_set_rank (i32 (tag1 (msg_tag st))) (rq_set_rhandle (msg_peer st) q))) x1 = Ok (u', x2) ->
  aside_of x net x2 /\ own x2 p /\ ranked x2 p /\ addressed x2 (tag0 (msg_tag st)).
Proof.
  intros Hx Hr Ha E1 E2. destruct (own_req_aside _ _ _ _ _ Hx E1) as [[Hs1 Ht1] Hown].
  assert (addressed x1 (tag0 (msg_tag st))) as Ha1.
  { unfold own_req, upd_packet in E1. apply bind_inv in E1 as (k & y & Ek & E1). unfold get_packet, lift in Ek.
    destruct (packets x !! p); [|done]. injection Ek as -> ->. injection E1 as _ <-. exact Ha. }
  unfold upd_req in E2. apply bind_inv in E2 as (q & y & Eq & E2). unfold get_req, lift in Eq.
  destruct (reqs x1 !! req_s_of p) as [q0|] eqn:Eq0; [|done]. injection Eq as -> ->. injection E2 as _ <-.
  split; [|split; [exact Hown|split; [|exact Ha1]]].
  - split; [|exact Ht1]. etrans; [exact Hs1|]. apply rtc_once. by apply (step_request p _ q).
  - intros q1. cbn. rewrite lookup_insert_eq. by intros [= <-].
Qed.

Lemma copy_out_aside a p len x net u x' : copy_out a p len x = Ok (u, x') -> aside_of x net x' /\
  packets x' = packets x.
Proof.
  intros E. unfold copy_out in E. apply bind_inv in E as (k & x1 & E1 & E).
  apply bind_inv in E as (l & x2 & E2 & E).
  unfold get_packet, lift in E1. destruct (packets x !! p); [|done]. injection E1 as _ <-.
  unfold lift in E2. destruct (packet_bytes k len); [|done]. injection E2 as _ <-.
  unfold mem_store in E. destruct (store_bytes _ _ _) as [m|]; [|done]. injection E as _ <-.
  split; [|done]. apply call_aside; [by eapply c_memory|done].
Qed.

(** The flag of the server that cannot post. *)
Lemma deadlock_aside (b : bool) y s net u s' :
  (if b then on_proc (modify (set_deadlock y)) else mret tt) s = Ok (u, s') ->
  aside_of (proc s) net (proc s') /\ mq s' = mq s.
Proof.
  destruct b; [|by intros [= _ <-]]. intros [x [[= <- <-] ->]]%on_proc_runs. split; [|done].
  apply call_aside; [by eapply c_deadlock|done].
Qed.

Lemma gets_same {A} (f : lci -> A) s a s' : on_proc (gets f) s = Ok (a, s') -> s' = s.
Proof. intros [x [[= _ <-] ->]]%on_proc_runs. by destruct s. Qed.

Lemma post_recv_null s net u s' : lc_server_post_recv NULL s = Ok (u, s') ->
  keeps s net [] s' net.
Proof.
  intros E. unfold lc_server_post_recv in E. rewrite Z.eqb_refl in E.
  apply st_bind_inv in E as (n & s1 & [= <- <-] & E).
  apply st_bind_inv in E as (dl & s2 & ->%gets_same & E).
  apply (deadlock_aside _ _ _ net) in E as [Ha Hm]. by apply aside_keeps.
Qed.

Lemma post_recv_keeps p s net u s' : 0 < p < 2 ^ 62 -> lc_server_post_recv p s = Ok (u, s') ->
  keeps s net [TRecv p] s' net.
Proof.
  intros Hp E. unfold lc_server_post_recv in E. rewrite (proj2 (Z.eqb_neq p NULL)) in E by (unfold NULL; lia).
  apply st_bind_inv in E as (u1 & s1 & [= _ <-] & E). apply st_bind_inv in E as (n & s2 & [= <- <-] & E).
  apply st_bind_inv in E as (u2 & s3 & [= _ <-] & E). apply st_bind_inv in E as (dl & s4 & ->%gets_same & E).
  apply (deadlock_aside _ _ _ net) in E as [Ha Hm].
  eapply then_aside; [by apply log_keeps|exact Ha|exact Hm].
Qed.

Lemma decr_same s u s' : recv_posted_decr s = Ok (u, s') -> proc s' = proc s /\ mq s' = mq s.
Proof. by intros [= _ <-]. Qed.

(** An operation that serves a ticket, after steps about none. *)
Lemma proc_serves s net y x1 x2 (s' : psm) : accounted D (proc s, net) -> y ∈ net ->
  aside_of (proc s) net x1 -> served x1 y x2 -> proc s' = x2 -> mq s' = mq s ->
  exists net', keeps s net [y] s' net'.
Proof.
  intros Ha Hy Hs1 Hsv <- Hm.
  destruct (serve_keeps (set_proc x1 s) net y s') as [net' Hk]; [|done..|].
  { by eapply aside_accounted. }
  exists net'. by eapply (aside_then s net (set_proc x1 s)).
Qed.

(** The branch for a receive. *)
Lemma recv_keeps st s net u s' : truth (Z.land (st_context st) PSM_RECV) = true -> due s net st ->
  accounted D (proc s, net) ->
  progress_recv dev st (Z.lxor (st_context st) PSM_RECV) s = Ok (u, s') ->
  exists net', keeps s net (used s st) s' net'.
Proof.
  intros Hctx [Hin Hdata] Ha E. unfold used in *. rewrite Hctx in Hin |- *. unfold progress_recv in E.
  specialize (Hdata Hctx).
  set (p := Z.lxor _ _) in *. set (kind := Z.land (tag2 _) _) in *.
  apply st_bind_inv in E as (h & s0 & [= <- <-] & E).
  destruct (Z.eqb_spec kind PSM_RECV_DATA) as [Hk|_]; cbn [orb] in Hin |- *.
  { destruct (Hdata Hk) as [Hr Had]. assert (TRecv p ∈ net) as Hp by (apply Hin; left).
    apply st_bind_inv in E as (u1 & s1 & (x1 & E1 & ->)%on_proc_runs & E).
    apply st_bind_inv in E as (u2 & s2 & (x2 & E2 & ->)%on_proc_runs & E).
    apply st_bind_inv in E as ([] & s3 & (x3 & E3 & ->)%on_proc_runs & [Ep Em]%decr_same).
    destruct (data_aside p st (proc s) net u1 x1 u2 x2 Hp Hr Had E1 E2) as (Hs & Hown & Hrk & Hadr).
    eapply (proc_serves s net (TRecv p) x2); [done..|by eapply sv_recv|exact Ep|exact Em]. }
  destruct (Z.eqb_spec kind PSM_RECV_RDMA) as [_|_]; cbn [orb] in Hin |- *.
  { assert (TRecv p ∈ net) as Hp by (apply Hin; left).
    apply st_bind_inv in E as (u1 & s1 & (x1 & E1 & ->)%on_proc_runs & E).
    apply st_bind_inv in E as (u2 & s2 & (x2 & E2 & ->)%on_proc_runs & E). exists net.
    destruct (own_req_aside _ _ _ _ _ Hp E1) as [Hs1 _].
    destruct (copy_out_aside _ _ _ _ net _ _ E2) as [Hs2 _].
    eapply (aside_then s net (set_proc x1 s)); [exact Hs1|done|].
    eapply (aside_then _ net (set_proc x2 (set_proc x1 s))); [exact Hs2|done|].
    eapply post_recv_keeps; [|exact E]. exact (ticket_range _ _ _ Ha Hp). }
  destruct (Z.eqb_spec kind PSM_RECV_RDMA_SID) as [_|_]; cbn [orb] in Hin |- *.
  { assert (TRecv p ∈ net) as Hp by (apply Hin; left).
    apply st_bind_inv in E as (u1 & s1 & (x1 & E1 & ->)%on_proc_runs & E).
    apply st_bind_inv in E as (u2 & s2 & (x2 & E2 & ->)%on_proc_runs & E).
    apply st_bind_inv in E as ([] & s3 & (x3 & E3 & ->)%on_proc_runs & [Ep Em]%decr_same).
    destruct (own_req_aside _ _ _ _ _ Hp E1) as [[Hs1 Ht1] Hown].
    destruct (copy_out_aside _ _ _ _ net _ _ E2) as [[Hs2 Ht2] Epk].
    eapply (proc_serves s net (TRecv p) x2); [done..| | |exact Ep|exact Em].
    - split; [by etrans|]. cbn in Ht2. by rewrite Ht2.
    - eapply sv_rdma; [|exact E3]. intros k. cbn in Epk |- *. rewrite Epk. apply Hown. }
  destruct (Z.eqb_spec kind PSM_RECV_RDMA_RTP) as [_|_]; cbn [orb] in Hin |- *.
  { assert (TRecv p ∈ net) as Hp by (apply Hin; left).
    apply st_bind_inv in E as (k & s1 & (x1 & E1 & ->)%on_proc_runs & E).
    apply st_bind_inv in E as (l & s2 & E2 & E). apply st_bind_inv in E as (u1 & s3 & [= _ <-] & E).
    apply decr_same in E as [Ep Em]. unfold st_lift in E2. destruct (packet_bytes k 8); [|done].
    injection E2 as _ <-.
    unfold get_packet, lift in E1. destruct (packets _ !! p); [|done]. injection E1 as _ <-.
    exists net. eapply then_aside; [apply log_keeps; exact (ticket_range _ _ _ Ha Hp)|split|].
    - rewrite Ep. apply rtc_refl.
    - by rewrite Ep.
    - exact Em. }
  destruct (Z.eqb_spec (tag1 (msg_tag st)) PSM_RDMA_IMM) as [_|_].
  { apply on_proc_runs in E as (x & E & ->). destruct u.
    eapply (proc_serves s net _ (proc s)); [done|apply Hin; left|by split|by apply sv_imm|done..]. }
  assert (TRecv p ∈ net) as Hp by (apply Hin; left).
  destruct (truth (tag0 _)).
  all: apply st_bind_inv in E as (u1 & s1 & (x1 & E1 & ->)%on_proc_runs & E).
  all: apply on_proc_runs in E as (x & E & ->); destruct u, (own_req_aside _ _ _ _ _ Hp E1) as [Hs1 Hown].
  - eapply (proc_serves s net _ x1); [done|exact Hp|exact Hs1|by eapply sv_rdma|done..].
  - eapply (proc_serves s net _ x1); [done|exact Hp|exact Hs1|by eapply sv_back|done..].
Qed.

Lemma completion_keeps st s net u s' : due s net st -> accounted D (proc s, net) ->
  progress_completion dev st s = Ok (u, s') -> exists net', keeps s net (used s st) s' net'.
Proof.
  intros Hdue Ha E. unfold progress_completion in E. destruct (truth (Z.land _ PSM_RECV)) eqn:Hr.
  - by eapply recv_keeps.
  - destruct Hdue as [Hin _]. unfold used in *. rewrite Hr in Hin |- *.
    destruct (truth (Z.land _ PSM_SEND)); [|injection E as _ <-; exists net; apply keeps_refl].
    cbv zeta in E. destruct (truth (Z.lxor (st_context st) PSM_SEND)); [|injection E as _ <-;
      exists net; apply keeps_refl]. apply on_proc_runs in E as (x & E & ->). destruct u.
    eapply (proc_serves s net _ (proc s)); [done|apply Hin; left|by split|by apply sv_send|done..].
Qed.

(** The receive posted at the end of the progress. *)
Lemma post_keeps s net u s' : accounted D (proc s, net) -> progress_post dev s = Ok (u, s') ->
  exists net', keeps s net [] s' net'.
Proof.
  intros Ha E. unfold progress_post in E. apply st_bind_inv in E as (n & s0 & [= <- <-] & E).
  destruct (recv_posted s <? LC_SERVER_MAX_RCVS); [|injection E as _ <-; exists net; apply keeps_refl].
  apply st_bind_inv in E as (p & s1 & (x1 & E1 & ->)%on_proc_runs & E).
  pose proof (step_post dev p _ _ net E1) as Hst. pose proof (step_accounted D _ _ Hst Ha) as Ha1.
  destruct Ha as (o & Hpl & _). destruct (get_nb_post dev _ o Hpl p x1 E1) as [Ht _].
  destruct (Z.eqb_spec p NULL) as [->|_].
  - rewrite app_nil_r in Hst. exists net.
    eapply (aside_then s net (set_proc x1 s)); [split; [by apply rtc_once|done]|done|].
    by eapply post_recv_null.
  - exists (net ++ [TRecv p]).
    destruct (post_recv_keeps p (set_proc x1 s) (net ++ [TRecv p]) u s') as [S1 T1 M1 B1]; [|exact E|].
    { apply (ticket_range _ _ (TRecv p) Ha1). apply elem_of_app. right. left. }
    split; [eapply rtc_l; [exact Hst|exact S1]|cbn in T1; by rewrite Ht in T1|exact M1|].
    apply (Permutation_app_inv_l [TRecv p]).
    change (receives (set_proc x1 s) s') with (receives s s') in B1.
    assert (asked (proc s) (proc s') = asked x1 (proc s')) as -> by (unfold asked; by rewrite Ht).
    cbn [proc set_proc] in B1. rewrite <- B1. solve_Permutation.
Qed.

(** C18: The progress of the PSM2 server neither loses a packet nor uses one twice.  Whatever
    the library reports, as long as it is a completion the server waits for (an arrival in a
    posted packet that, when it is an eager message, addresses an endpoint; the completion of
    a send; the signal of a peer), what the progress does to the process is a run of the steps
    of the ledger, and the tickets held afterwards are exactly those held before, less the one
    the completion used, with one for each packet the library was given to receive in (by a
    receive posted, posted again, or turned to the user's buffer) and those of the sends the
    process asked for.  Each packet still has its one place. *)
Theorem psm_keeps_ledger s net peek b s' :
  accounted D (proc s, net) -> (forall st, peek = Some st -> due s net st) ->
  lc_server_progress dev peek s = Ok (b, s') ->
  b = bool_decide (is_Some peek) /\
  exists net', rtc step (proc s, net) (proc s', net') /\ accounted D (proc s', net') /\
    net ++ receives s s' ++ tickets (asked (proc s) (proc s')) ≡ₚ
      from_option (used s) [] peek ++ net'.
Proof.
  intros Ha Hdue E. unfold lc_server_progress in E. apply st_bind_inv in E as (u & s1 & E1 & E).
  apply st_bind_inv in E as (u2 & s2 & E2 & [= <- <-]). split; [done|].
  assert (exists net1, keeps s net (from_option (used s) [] peek) s1 net1) as [net1 Hk1].
  { destruct peek as [st|]; [|injection E1 as _ <-; exists net; apply keeps_refl].
    eapply completion_keeps; [by apply Hdue|exact Ha|exact E1]. }
  assert (accounted D (proc s1, net1)) as Ha1 by (eapply steps_accounted; [apply Hk1|exact Ha]).
  destruct (post_keeps s1 net1 u2 s2 Ha1 E2) as [net2 Hk2]. exists net2.
  destruct (keeps_trans _ _ _ _ _ _ _ _ Hk1 Hk2) as [Hst _ _ Hb]. rewrite app_nil_r in Hb.
  split; [exact Hst|]. split; [by eapply steps_accounted|exact Hb].
Qed.
End psm_ledger.

(** ** Witness: an eager message arrives in the packet posted after [lc_init] *)

#[local] Existing Instances demo_build demo_server ProtoDemo.demo_client demo_platform.

Definition posted_p : Z := fst posted_process.
Definition posted_psm : psm := demo_psm (snd posted_process) 0 1 1.
Definition posted_status : mq_status :=
  MqStatus (Z.lor PSM_RECV posted_p) (PSM_TAG_TSEND_DATA (MAKE_PROTO 0 LC_PROTO_DATA 0) 1) 3 71.

Lemma demo_packets_range : Forall (fun p => 0 < p < 2 ^ 62) (device_packets 1).
Proof.
  assert (forallb (fun p => (0 <? p) && (p <? 2 ^ 62)) (device_packets 1) = true) as Hb
    by (vm_compute; reflexivity).
  rewrite forallb_forall in Hb. apply Forall_forall. intros p Hp%list_elem_of_In%Hb.
  apply andb_true_iff in Hp. lia.
Qed.

Lemma posted_addressed : addressed (snd posted_process) (MAKE_PROTO 0 LC_PROTO_DATA 0).
Proof.
  intros ep e Hep He.
  assert (match aget (lcg_ep (snd posted_process)) (PROTO_GET_RGID (MAKE_PROTO 0 LC_PROTO_DATA 0)) with
          | Ok ep => match eps (snd posted_process) !! ep with
                     | Some e => cap e =? Z.lor (desc_addr LC_EXP_SYNC) (desc_ce LC_EXP_SYNC)
                     | None => false end
          | Err _ => false end = true) as Hb by (vm_compute; reflexivity).
  rewrite Hep, He in Hb. apply Z.eqb_eq in Hb. rewrite Hb. split; [reflexivity|]. vm_compute. discriminate.
Qed.

Lemma posted_used : used posted_psm posted_status = [TRecv posted_p].
Proof. vm_compute. reflexivity. Qed.

Lemma posted_due : due posted_psm [TRecv posted_p] posted_status.
Proof.
  split; [by rewrite posted_used|]. intros _ _.
  split; [vm_compute; split; congruence|exact posted_addressed].
Qed.

Lemma psm_keeps_ledger_witness : exists s' net',
  lc_server_progress 0 (Some posted_status) posted_psm = Ok (true, s') /\
  rtc step (snd posted_process, [TRecv posted_p]) (proc s', net') /\
  accounted (device_packets 1) (proc s', net') /\
  net' ≡ₚ receives posted_psm s' ++ tickets (asked (snd posted_process) (proc s')).
Proof.
  destruct (demo_run (lc_server_progress 0 (Some posted_status)) posted_psm) as (b & s' & E);
    [vm_compute; reflexivity|].
  destruct (psm_keeps_ledger 0 (device_packets 1) demo_packets_range posted_psm [TRecv posted_p]
    (Some posted_status) b s' (ran_accounted _ _ _ _ _ _ demo_ran)) as (Hb & net' & Hst & Ha & Hk).
  - intros st Hst. injection Hst as <-. exact posted_due.
  - exact E.
  - exists s', net'. rewrite Hb in E. split; [exact E|]. split; [exact Hst|]. split; [exact Ha|].
    change (from_option (used posted_psm) [] (Some posted_status)) with (used posted_psm posted_status) in Hk.
    rewrite posted_used in Hk. symmetry. exact (Permutation_app_inv_l _ _ _ Hk).
Defined.
