(* ===== verification/Coll.v ===== *)
(** * Collective operations (coll/common.h, coll/ialreduce.h, coll/ibarrier.h,
    coll/ibcast.h, coll/util.h, coll.c)

    A collective is a schedule of sends, receives and local steps each rank builds for
    itself and [lc_col_progress] executes. *)
From stdpp Require Import gmap.
From S2P Require Import Prelude Config State Proto Api.

Definition LC_COL_SEND : Z := 0.
Definition LC_COL_RECV : Z := 1.
Definition LC_COL_SENDRECV : Z := 2.
Definition LC_COL_OP : Z := 3.
Definition LC_COL_MEM : Z := 4.
Definition LC_COL_FREE : Z := 5.

Definition LC_COL_IN_PLACE : Z := -1.

Definition MCA_COLL_BASE_TAG_IALLREDUCE : Z := 1340.
Definition MCA_COLL_BASE_TAG_IBARRIER : Z := 1341.
Definition MCA_COLL_BASE_TAG_IBCAST : Z := 1342.

(** ** Integers *)

(** __builtin_clz of a 32-bit value that is not zero. *)
Definition builtin_clz (v : Z) : Z := 31 - Z.log2 v.

Definition opal_next_poweroftwo (value : Z) : Z :=
  if 0 =? value then 1 else i32 (Z.shiftl 1 (32 - builtin_clz value)).

(** The loop of [opal_cube_dim]: 31 doublings reach every int. *)
Fixpoint cube_dim_from (fuel : nat) (value dim size : Z) : result Z :=
  if size <? value then
    match fuel with
    | O => Err Spin
    | S fuel => cube_dim_from fuel value (dim + 1) (Z.shiftl size 1)
    end
  else Ok dim.
Definition opal_cube_dim (value : Z) : result Z := cube_dim_from 31 value 0 1.

(** The loop of [opal_hibit] down from bit [start]. *)
Fixpoint hibit_from (value : Z) (n : nat) : Z :=
  match n with
  | O => -1
  | S n => if truth (Z.land value (Z.shiftl 1 (Z.of_nat n))) then Z.of_nat n
           else hibit_from value n
  end.
Definition opal_hibit (value start : Z) : Z := hibit_from value (Z.to_nat start).

(** ** Schedules *)

(** struct lc_col_sched; the fields an operation does not use keep what they held. *)
Record lc_col_sched : Type := ColSched {
  cs_src : Z; cs_dst : Z; cs_size : Z; cs_rank : Z; cs_tag : Z; cs_ep : Z; cs_type : Z }.

(** struct lc_colreq; [next] lists the entries assigned so far (the array has 128), and
    [pending0], [pending1], [empty] are the addresses of those fields. *)
Record lc_colreq : Type := ColReq {
  flag : Z; cur : Z; total : Z; pending0 : Z; pending1 : Z; op : Z;
  next : list lc_col_sched; empty : Z }.

Definition MAX_SCHED : Z := 128.

(** [&(req->next[req->total++])] with the fields assigned through it. *)
Definition col_push (o : lc_col_sched) (req : lc_colreq) : result lc_colreq :=
  if total req <? MAX_SCHED then
    Ok (ColReq (flag req) (cur req) (total req + 1) (pending0 req) (pending1 req) (op req)
          (next req ++ [o]) (empty req))
  else Err OutOfBounds.

Definition lc_col_send (src size rank tag ep : Z) (req : lc_colreq) : result lc_colreq :=
  col_push (ColSched src 0 size rank tag ep LC_COL_SEND) req.
Definition lc_col_recv (src size rank tag ep : Z) (req : lc_colreq) : result lc_colreq :=
  col_push (ColSched src 0 size rank tag ep LC_COL_RECV) req.
Definition lc_col_sendrecv (src dst size rank tag ep : Z) (req : lc_colreq) : result lc_colreq :=
  col_push (ColSched src dst size rank tag ep LC_COL_SENDRECV) req.
Definition lc_col_op (dst src size : Z) (req : lc_colreq) : result lc_colreq :=
  col_push (ColSched src dst size 0 0 0 LC_COL_OP) req.
Definition lc_col_memmove (dst src size : Z) (req : lc_colreq) : result lc_colreq :=
  col_push (ColSched src dst size 0 0 0 LC_COL_MEM) req.
Definition lc_col_free (src : Z) (req : lc_colreq) : result lc_colreq :=
  col_push (ColSched src 0 0 0 0 0 LC_COL_FREE) req.

(** The part of [lc_colreq_init] that does not touch the pending requests. *)
Definition colreq_reset (req : lc_colreq) : lc_colreq :=
  ColReq 0 0 0 (pending0 req) (pending1 req) (op req) [] (empty req).

(** ** The schedule of each collective *)

(** The loop of the barrier; [distance] doubles until it reaches [size]. *)
Fixpoint barrier_loop (fuel : nat) (rank size distance comm : Z) (req : lc_colreq)
    : result lc_colreq :=
  if distance <? size then
    match fuel with
    | O => Err Spin
    | S fuel =>
        let from := Z.rem (rank + size - distance) size in
        let to := Z.rem (rank + distance) size in
        req ← lc_col_send (empty req) 1 to MCA_COLL_BASE_TAG_IBARRIER comm req;
        req ← lc_col_recv (empty req) 1 from MCA_COLL_BASE_TAG_IBARRIER comm req;
        barrier_loop fuel rank size (Z.shiftl distance 1) comm req
    end
  else Ok req.

Definition barrier_schedule (rank size comm : Z) (req : lc_colreq) : result lc_colreq :=
  barrier_loop 31 rank size 1 comm req.

(** The loop of the root of a broadcast over the ranks [i], [i + 1], ... *)
Fixpoint bcast_sends (n : nat) (buf count rank comm i : Z) (req : lc_colreq)
    : result lc_colreq :=
  match n with
  | O => Ok req
  | S n =>
      req ← (if i =? rank then Ok req
             else lc_col_send buf count i MCA_COLL_BASE_TAG_IBCAST comm req);
      bcast_sends n buf count rank comm (i + 1) req
  end.

Definition bcast_schedule (buf count root rank size comm : Z) (req : lc_colreq)
    : result lc_colreq :=
  if negb (rank =? root) then
    lc_col_recv buf count root MCA_COLL_BASE_TAG_IBCAST comm req
  else bcast_sends (Z.to_nat size) buf count rank comm 0 req.

(** The exchanges of the allreduce; nothing for a rank without a new rank. *)
Fixpoint allreduce_loop (fuel : nat) (newrank extra_ranks adjsize distance : Z)
    (tmpsend tmprecv count comm : Z) (req : lc_colreq) : result lc_colreq :=
  if distance <? adjsize then
    match fuel with
    | O => Err Spin
    | S fuel =>
        if newrank <? 0 then Ok req
        else
          let newremote := Z.lxor newrank distance in
          let remote := if newremote <? extra_ranks then newremote * 2 + 1
                        else newremote + extra_ranks in
          req ← lc_col_sendrecv tmpsend tmprecv count remote
                  MCA_COLL_BASE_TAG_IALLREDUCE comm req;
          req ← lc_col_op tmpsend tmprecv count req;
          allreduce_loop fuel newrank extra_ranks adjsize (Z.shiftl distance 1)
            tmpsend tmprecv count comm req
    end
  else Ok req.

(** From the size being known not to be 1 to the last scheduled operation. *)
Definition allreduce_schedule (inplacebuf rbuf count rank size comm : Z) (req : lc_colreq)
    : result lc_colreq :=
  let tmpsend := inplacebuf in
  let tmprecv := rbuf in
  let adjsize := Z.shiftr (opal_next_poweroftwo size) 1 in
  let extra_ranks := size - adjsize in
  '(newrank, req) ←
    (if rank <? 2 * extra_ranks then
       if 0 =? Z.rem rank 2 then
         req ← lc_col_send tmpsend count (rank + 1) MCA_COLL_BASE_TAG_IALLREDUCE comm req;
         Ok (-1, req)
       else
         req ← lc_col_recv tmprecv count (rank - 1) MCA_COLL_BASE_TAG_IALLREDUCE comm req;
         req ← lc_col_op tmpsend tmprecv count req;
         Ok (Z.shiftr rank 1, req)
     else Ok (rank - extra_ranks, req));
  req ← allreduce_loop 31 newrank extra_ranks adjsize 1 tmpsend tmprecv count comm req;
  '(tmpsend, req) ←
    (if rank <? 2 * extra_ranks then
       if 0 =? Z.rem rank 2 then
         req ← lc_col_recv rbuf count (rank + 1) MCA_COLL_BASE_TAG_IALLREDUCE comm req;
         Ok (rbuf, req)
       else
         req ← lc_col_send tmpsend count (rank - 1) MCA_COLL_BASE_TAG_IALLREDUCE comm req;
         Ok (tmpsend, req)
     else Ok (tmpsend, req));
  req ← (if negb (tmpsend =? rbuf) then lc_col_memmove rbuf tmpsend count req else Ok req);
  if negb (inplacebuf =? NULL) then lc_col_free inplacebuf req else Ok req.

(** ** Execution *)

Section exec.
Context `{Build, Server, Client, Platform}.

Definition lc_colreq_init (req : lc_colreq) : M lc_colreq :=
  _ ← upd_req (pending0 req) (rq_set_sync 1);
  _ ← upd_req (pending1 req) (rq_set_sync 1);
  mret (colreq_reset req).

(** [!req->pending[0].sync || !req->pending[1].sync] *)
Definition col_pending (req : lc_colreq) : M bool :=
  q0 ← get_req (pending0 req);
  q1 ← get_req (pending1 req);
  mret (negb (truth (sync q0)) || negb (truth (sync q1))).

(** LC_SAFE(lc_send(...)): until it is not refused; each try draws a random number. *)
Fixpoint lc_safe_send (fuel : nat) (o : lc_col_sched) (sync : Z) : M unit :=
  match fuel with
  | O => throw Spin
  | S fuel =>
      ret ← lc_send (cs_src o) (cs_size o) (cs_rank o) (cs_tag o) (cs_ep o) lc_signal_fn sync;
      if decide (ret = LC_OK) then mret tt else lc_safe_send fuel o sync
  end.

(** The body of the loop of [lc_col_progress]. *)
Definition col_step (fuel : nat) (o : lc_col_sched) (req : lc_colreq) : M unit :=
  if cs_type o =? LC_COL_SEND then
    _ ← upd_req (pending0 req) (rq_set_sync 0);
    lc_safe_send fuel o (pending0 req)
  else if cs_type o =? LC_COL_RECV then
    _ ← lc_recv (cs_src o) (cs_size o) (cs_rank o) (cs_tag o) (cs_ep o) (pending0 req);
    mret tt
  else if cs_type o =? LC_COL_SENDRECV then
    _ ← upd_req (pending0 req) (rq_set_sync 0);
    _ ← lc_safe_send fuel o (pending0 req);
    _ ← lc_recv (cs_dst o) (cs_size o) (cs_rank o) (cs_tag o) (cs_ep o) (pending1 req);
    mret tt
  else if cs_type o =? LC_COL_OP then
    d ← mem_load (cs_dst o) (cs_size o);
    s ← mem_load (cs_src o) (cs_size o);
    mem_store (cs_dst o) (client_op (op req) d s)
  else if cs_type o =? LC_COL_MEM then
    s ← mem_load (cs_src o) (cs_size o);
    mem_store (cs_dst o) s
  else if cs_type o =? LC_COL_FREE then emit (EvFree (cs_src o))
  else throw AssertFail.

Definition col_set (fl cu : Z) (req : lc_colreq) : lc_colreq :=
  ColReq fl cu (total req) (pending0 req) (pending1 req) (op req) (next req) (empty req).

(** [n] is the number of entries left, [total - cur]. *)
Fixpoint col_loop (n fuel : nat) (req : lc_colreq) : M lc_colreq :=
  match n with
  | O => mret (col_set 1 (cur req) req)
  | S n =>
      o ← lift (aget (next req) (cur req));
      let req := col_set (flag req) (cur req + 1) req in
      _ ← col_step fuel o req;
      col_pending req ≫= fun b : bool => if b then mret req else col_loop n fuel req
  end.

Definition lc_col_progress (fuel : nat) (req : lc_colreq) : M lc_colreq :=
  col_pending req ≫= fun b : bool =>
    if b then mret req else col_loop (Z.to_nat (total req - cur req)) fuel req.

(** memmove, and malloc, which hands out fresh blocks. *)
Definition mem_move (dst src n : Z) : M unit := l ← mem_load src n; mem_store dst l.

Definition c_malloc (n : Z) : M Z :=
  p ← gets next_ptr;
  l ← gets lcg_ep;
  k ← gets lcg_nep;
  _ ← modify (set_globals l k (p + n));
  _ ← mem_map p n;
  mret p.

Definition iompi_coll_base_barrier_intra_bruck (fuel : nat) (rank size comm : Z)
    (req : lc_colreq) : M lc_colreq :=
  req ← lc_colreq_init req;
  req ← lift (barrier_schedule rank size comm req);
  lc_col_progress fuel req.

Definition iompi_coll_base_bcast_intra_basic_linear (fuel : nat) (buf count root rank size comm : Z)
    (req : lc_colreq) : M lc_colreq :=
  req ← lc_colreq_init req;
  req ← lift (bcast_schedule buf count root rank size comm req);
  lc_col_progress fuel req.

Definition iompi_coll_base_allreduce_intra_recursivedoubling (fuel : nat)
    (sbuf rbuf count op rank size comm : Z) (req : lc_colreq) : M lc_colreq :=
  if 1 =? size then
    _ ← mem_move rbuf sbuf count;
    mret (col_set 1 (cur req) req)
  else
    req ← lc_colreq_init req;
    let req := ColReq (flag req) (cur req) (total req) (pending0 req) (pending1 req) op
                 (next req) (empty req) in
    inplacebuf ← c_malloc count;
    _ ← mem_move inplacebuf (if LC_COL_IN_PLACE =? sbuf then rbuf else sbuf) count;
    req ← lift (allreduce_schedule inplacebuf rbuf count rank size comm req);
    lc_col_progress fuel req.

(** [while (!req.flag) lc_col_progress(&req)]: [env] is what the other threads (the one
    that serves the network) do before each round of the loop. *)
Fixpoint col_wait (env : list (M unit)) (fuel : nat) (req : lc_colreq) : M lc_colreq :=
  if truth (flag req) then mret req
  else match env with
       | [] => throw Spin
       | e :: env =>
           _ ← e;
           req ← lc_col_progress fuel req;
           col_wait env fuel req
       end.

Definition lc_ialreduce := iompi_coll_base_allreduce_intra_recursivedoubling.
Definition lc_ibarrier := iompi_coll_base_barrier_intra_bruck.
Definition lc_ibcast := iompi_coll_base_bcast_intra_basic_linear.

Definition lc_alreduce (env : list (M unit)) (fuel : nat)
    (sbuf rbuf count op rank size comm : Z) (req : lc_colreq) : M lc_colreq :=
  req ← iompi_coll_base_allreduce_intra_recursivedoubling fuel sbuf rbuf count op rank size comm req;
  col_wait env fuel req.

Definition lc_barrier (env : list (M unit)) (fuel : nat) (rank size comm : Z)
    (req : lc_colreq) : M lc_colreq :=
  req ← iompi_coll_base_barrier_intra_bruck fuel rank size comm req;
  col_wait env fuel req.

Definition lc_bcast (env : list (M unit)) (fuel : nat) (buf count root rank size comm : Z)
    (req : lc_colreq) : M lc_colreq :=
  req ← iompi_coll_base_bcast_intra_basic_linear fuel buf count root rank size comm req;
  col_wait env fuel req.

End exec.
