(* ===== verification/ColExec.v ===== *)
(** * How a schedule is executed (about lc_col_progress in Coll.v) *)
From stdpp Require Import gmap.
From S2P Require Import Prelude Config Lock Dequeue Pool Hashtable CompQueue State.
From S2P Require Import Proto Api ProtoSpec ProtoDemo Coll.

Section exec.
Context `{Build, Server, Client, Platform}.
Implicit Types (req : lc_colreq) (s : lci).

(** The operations [l] executed one after the other, none while an earlier one is
    pending. *)
Fixpoint col_run (fuel : nat) (l : list lc_col_sched) (req : lc_colreq) : M unit :=
  match l with
  | [] => mret tt
  | o :: l =>
      col_pending req ≫= fun b : bool =>
        if b then throw Spin else _ ← col_step fuel o req; col_run fuel l req
  end.

(** The entries [cur], ..., [cur' - 1]. *)
Definition entries (req : lc_colreq) (cur' : Z) : list lc_col_sched :=
  take (Z.to_nat (cur' - cur req)) (drop (Z.to_nat (cur req)) (next req)).

Definition col_wf (req : lc_colreq) : Prop :=
  0 <= cur req <= total req /\ total req = Z.of_nat (length (next req)).

(** [req'] is [req] with some of its operations executed. *)
Definition col_advanced (req req' : lc_colreq) : Prop :=
  cur req <= cur req' <= total req /\ req' = col_set (flag req') (cur req') req.

Lemma entries_cons req o cur' :
  col_wf req -> cur req < cur' <= total req -> next req !! Z.to_nat (cur req) = Some o ->
  entries req cur' = o :: entries (col_set (flag req) (cur req + 1) req) cur'.
Proof.
  intros [Hc Ht] Hcur Ho. unfold entries. cbn [cur next col_set].
  rewrite (drop_S _ _ _ Ho). replace (Z.to_nat (cur' - cur req))
    with (S (Z.to_nat (cur' - (cur req + 1)))) by lia.
  cbn [take]. by replace (Z.to_nat (cur req + 1)) with (S (Z.to_nat (cur req))) by lia.
Qed.

Lemma col_pending_pure req s b s' : col_pending req s = Ok (b, s') -> s' = s.
Proof.
  unfold col_pending, get_req, mbind, M_bind. intros E.
  destruct (reqs s !! pending0 req); cbn [get_or lift] in E; [|discriminate].
  destruct (reqs s !! pending1 req); cbn [get_or lift] in E; [|discriminate].
  unfold mret, M_ret in E. congruence.
Qed.

Lemma col_step_set fuel o fl cu req : col_step fuel o (col_set fl cu req) = col_step fuel o req.
Proof. done. Qed.
Lemma col_pending_set fl cu req : col_pending (col_set fl cu req) = col_pending req.
Proof. done. Qed.
Lemma col_run_set fuel l fl cu req : col_run fuel l (col_set fl cu req) = col_run fuel l req.
Proof. induction l as [|o l IH]; [done|]. cbn. by rewrite IH. Qed.

(** The loop, from a state in which nothing is pending. *)
Lemma col_loop_spec fuel n : forall req s req' s',
  col_wf req -> Z.of_nat n = total req - cur req -> col_pending req s = Ok (false, s) ->
  col_loop n fuel req s = Ok (req', s') ->
  col_advanced req req' /\ col_run fuel (entries req (cur req')) req s = Ok (tt, s') /\
  (flag req' = 1 /\ cur req' = total req /\ col_pending req s' = Ok (false, s') \/
   flag req' = flag req /\ col_pending req s' = Ok (true, s')).
Proof.
  induction n as [|n IH]; intros req s req' s' Hwf Hn Hp E.
  - injection E as <- <-. split; [split; [cbn; destruct Hwf; lia|done]|]. cbn [cur flag col_set].
    split; [|left; split; [done|]; split; [lia|done]].
    unfold entries. by rewrite Z.sub_diag.
  - pose proof Hwf as [Hc Ht]. cbn [col_loop] in E.
    destruct (lookup_lt_is_Some_2 (next req) (Z.to_nat (cur req))) as [o Ho]; [lia|].
    assert (aget (next req) (cur req) = Ok o) as Ha.
    { apply aget_ok. split; [lia|done]. }
    rewrite Ha in E. unfold mbind, M_bind in E. cbn [lift] in E. rewrite col_step_set in E.
    destruct (col_step fuel o req s) as [[[] s1]|] eqn:E1; [|done].
    change (col_pending (col_set (flag req) (cur req + 1) req) s1) with (col_pending req s1) in E.
    set (req1 := col_set (flag req) (cur req + 1) req) in *.
    assert (forall cur', cur req1 <= cur' <= total req ->
      col_run fuel (entries req cur') req s = col_run fuel (entries req1 cur') req1 s1) as Hrun.
    { intros cur' Hcur'. rewrite (entries_cons req o) by (done || (cbn in Hcur'; lia)).
      cbn [col_run]. unfold mbind, M_bind. rewrite Hp. rewrite E1. unfold req1. by rewrite col_run_set. }
    destruct (col_pending req s1) as [[b s2]|] eqn:E2; [|done].
    pose proof (col_pending_pure _ _ _ _ E2) as ->. destruct b.
    + injection E as <- <-. split; [split; [cbn; lia|done]|].
      rewrite Hrun by (cbn; lia). split; [|right; done].
      unfold entries. by rewrite Z.sub_diag.
    + destruct (IH req1 s1 req' s') as ((G1 & G2) & G3 & G4); try done; [split; cbn; lia|cbn; lia|].
      cbn in G1. split; [split; [lia|exact G2]|]. rewrite Hrun by (cbn; lia). by split.
Qed.
End exec.

(** C25: [lc_col_progress] executes the operations of the schedule in order, each once, and none
    while an earlier one is pending; it returns either with an operation pending or with the
    whole schedule executed and the flag set; called with an operation pending it does
    nothing. *)
Theorem col_progress_in_order `{Build, Server, Client, Platform} fuel req s req' s' :
  col_wf req -> flag req = 0 -> lc_col_progress fuel req s = Ok (req', s') ->
  col_advanced req req' /\
  (col_pending req s = Ok (true, s) /\ req' = req /\ s' = s \/
   col_run fuel (entries req (cur req')) req s = Ok (tt, s') /\
   (flag req' = 1 /\ cur req' = total req /\ col_pending req s' = Ok (false, s') \/
    flag req' = 0 /\ col_pending req s' = Ok (true, s'))).
Proof.
  intros Hwf Hfl E. unfold lc_col_progress, mbind, M_bind in E.
  destruct (col_pending req s) as [[b s1]|] eqn:Ep; [|done].
  pose proof (col_pending_pure _ _ _ _ Ep) as ->. destruct b.
  - injection E as <- <-. split; [|by left]. split; [destruct Hwf; lia|]. by destruct req.
  - assert (Z.of_nat (Z.to_nat (total req - cur req)) = total req - cur req) as Hn.
    { destruct Hwf. lia. }
    destruct (col_loop_spec fuel _ _ _ _ _ Hwf Hn Ep E) as (H4 & H5 & H6).
    split; [done|]. right. split; [done|]. by rewrite Hfl in H6.
Qed.

#[local] Existing Instances demo_build demo_server demo_client demo_platform.

(** Both requests of the collective are done, and eight bytes are there. *)
Definition col_memory : gmap Z Z := list_to_map ((fun i => (i, i)) <$> seqZ 1000 8).
Definition col_reqs : gmap Z lc_req :=
  {[ 900 := rq_set_sync 1 lc_req0; 901 := rq_set_sync 1 lc_req0 ]}.
Definition col_state : lci :=
  set_memory (fun _ => col_memory) (set_reqs (fun _ => col_reqs) demo_state).
Definition col_req : lc_colreq := ColReq 0 0 2 900 901 0
  [ColSched 1000 1004 3 0 0 0 LC_COL_MEM; ColSched 1000 0 0 0 0 0 LC_COL_FREE] 8.

(** A schedule of a copy and of freeing its source. *)
Lemma col_progress_in_order_witness : exists s',
  lc_col_progress 1 col_req col_state = Ok (col_set 1 2 col_req, s') /\
  load_bytes (memory s') 1004 3 = Ok [1000; 1001; 1002] /\ trace s' = [EvFree 1000] /\
  col_run 1 (entries col_req 2) col_req col_state = Ok (tt, s').
Proof.
  assert (match lc_col_progress 1 col_req col_state with
    | Ok (r, s') => r = col_set 1 2 col_req /\ load_bytes (memory s') 1004 3 = Ok [1000; 1001; 1002] /\
        trace s' = [EvFree 1000]
    | Err _ => False
    end) as Hc by (vm_compute; repeat split).
  destruct (lc_col_progress 1 col_req col_state) as [[r s']|] eqn:E; [|destruct Hc].
  destruct Hc as (-> & Em & Et).
  exists s'. split; [reflexivity|]. split; [exact Em|]. split; [exact Et|].
  assert (col_wf col_req) as Hwf by (split; [cbn; lia|reflexivity]).
  destruct (col_progress_in_order 1 col_req col_state _ s' Hwf eq_refl E)
    as [_ [(_ & Hr & _)|[Hrun _]]]; [discriminate Hr|exact Hrun].
Defined.
