(* ===== verification/Net.v ===== *)
(** * Schedules of many ranks running together

    The semantics under which the collectives are judged: each rank executes its own list
    of operations in order; a send puts a message in the channel of its pair of ranks, a
    receive waits for one, and the ranks interleave in any way.  When every receive has a
    matching send that comes earlier in a common numbering of the operations, and no pair
    of ranks exchanges two messages in one direction, every interleaving computes the same
    states, cannot get stuck and ends. *)
From S2P Require Import Prelude.

Inductive net_kind : Type := KSend (to : Z) | KRecv (from : Z) | KLocal.

(** [f] with the value at [i] changed. *)
Definition upd {A} (f : Z -> A) (i : Z) (v : A) : Z -> A :=
  fun j => if decide (j = i) then v else f j.

Lemma upd_eq {A} (f : Z -> A) i v : upd f i v i = v.
Proof. unfold upd. by rewrite decide_True. Qed.
Lemma upd_ne {A} (f : Z -> A) i v j : j <> i -> upd f i v j = f j.
Proof. intros. unfold upd. by rewrite decide_False. Qed.

Section net.
Context {Op D V : Type}.
Context (kind : Op -> net_kind).
Context (send_val : Op -> D -> V) (recv_upd : Op -> V -> D -> D) (local_upd : Op -> D -> D).

(** The state: what each rank has still to do, its data, the channels. *)
Record net : Type := Net {
  prog : Z -> list Op;
  data : Z -> D;
  chan : Z -> Z -> list V }.

Inductive net_step (n : Z) : net -> net -> Prop :=
| StepSend s i o rest to :
    0 <= i < n -> prog s i = o :: rest -> kind o = KSend to ->
    net_step n s (Net (upd (prog s) i rest) (data s)
      (upd (chan s) i (upd (chan s i) to (chan s i to ++ [send_val o (data s i)]))))
| StepRecv s i o rest from v vs :
    0 <= i < n -> prog s i = o :: rest -> kind o = KRecv from -> chan s from i = v :: vs ->
    net_step n s (Net (upd (prog s) i rest) (upd (data s) i (recv_upd o v (data s i)))
      (upd (chan s) from (upd (chan s from) i vs)))
| StepLocal s i o rest :
    0 <= i < n -> prog s i = o :: rest -> kind o = KLocal ->
    net_step n s (Net (upd (prog s) i rest) (upd (data s) i (local_upd o (data s i)))
      (chan s)).

(** ** Operations numbered by levels *)

Context (n : Z) (L : nat) (at_ : Z -> nat -> option Op) (spec : Z -> nat -> D).

Definition level_prog (i : Z) (l : nat) : list Op := omap (at_ i) (seq l (L - l)).

Definition net_init (s : net) : Prop :=
  (forall i, 0 <= i < n -> prog s i = level_prog i 0 /\ data s i = spec i 0) /\
  (forall q i, chan s q i = []).

(** The schedules match: [spec] follows the operations, a receive takes the value of a send
    of a lower level, and each ordered pair has one message. *)
Record matched : Prop := {
  m_none : forall i l, 0 <= i < n -> (l < L)%nat -> at_ i l = None -> spec i (1 + l) = spec i l;
  m_send : forall i l o to, 0 <= i < n -> (l < L)%nat -> at_ i l = Some o -> kind o = KSend to ->
    spec i (1 + l) = spec i l;
  m_local : forall i l o, 0 <= i < n -> (l < L)%nat -> at_ i l = Some o -> kind o = KLocal ->
    spec i (1 + l) = local_upd o (spec i l);
  m_recv : forall i l o q, 0 <= i < n -> (l < L)%nat -> at_ i l = Some o -> kind o = KRecv q ->
    exists l' o', 0 <= q < n /\ (l' < l)%nat /\ at_ q l' = Some o' /\ kind o' = KSend i /\
      spec i (1 + l) = recv_upd o (send_val o' (spec q l')) (spec i l);
  m_send_once : forall i l l' o o' to, 0 <= i < n -> (l < L)%nat -> (l' < L)%nat ->
    at_ i l = Some o -> at_ i l' = Some o' -> kind o = KSend to -> kind o' = KSend to -> l = l';
  m_recv_once : forall i l l' o o' q, 0 <= i < n -> (l < L)%nat -> (l' < L)%nat ->
    at_ i l = Some o -> at_ i l' = Some o' -> kind o = KRecv q -> kind o' = KRecv q -> l = l' }.

Context (Hm : matched).

(** The next operation of a rank at level [l]. *)
Lemma level_prog_cons i l o rest :
  level_prog i l = o :: rest ->
  exists l', (l <= l' < L)%nat /\ at_ i l' = Some o /\ rest = level_prog i (1 + l') /\
    forall l'', (l <= l'' < l')%nat -> at_ i l'' = None.
Proof.
  unfold level_prog. remember (L - l)%nat as k eqn:Hk. revert l Hk.
  induction k as [|k IH]; intros l Hk E; [done|]. cbn in E.
  destruct (at_ i l) as [o'|] eqn:Ea.
  - injection E as -> <-. exists l. split; [lia|]. split; [done|].
    split; [do 2 f_equal; lia|]. intros; lia.
  - destruct (IH (1 + l)%nat) as (l' & Hl' & Ha & Hr & Hn); [lia|done|].
    exists l'. split; [lia|]. do 2 (split; [done|]). intros l'' Hl''.
    destruct (decide (l'' = l)) as [->|]; [done|]. apply Hn. lia.
Qed.

Lemma level_prog_some i l : level_prog i l <> [] -> exists o rest, level_prog i l = o :: rest.
Proof. destruct (level_prog i l); [done|eauto]. Qed.

Lemma level_prog_nil i l : level_prog i l = [] ->
  forall l', (l <= l' < L)%nat -> at_ i l' = None.
Proof.
  unfold level_prog. remember (L - l)%nat as k eqn:Hk. revert l Hk.
  induction k as [|k IH]; intros l Hk E l' Hl'; [lia|]. cbn in E.
  destruct (at_ i l) eqn:Ea; [done|].
  destruct (decide (l' = l)) as [->|]; [done|]. apply (IH (1 + l)%nat); [lia|done|lia].
Qed.

Lemma spec_skip i l l' : 0 <= i < n -> (l <= l' <= L)%nat ->
  (forall l'', (l <= l'' < l')%nat -> at_ i l'' = None) -> spec i l' = spec i l.
Proof.
  intros Hi [Hl Hl']. induction Hl as [|l' Hl IH]; intros Hn; [done|].
  change (S l') with (1 + l')%nat. rewrite (m_none Hm) by (try done; try lia; apply Hn; lia).
  apply IH; [lia|]. intros; apply Hn; lia.
Qed.

(** ** The invariant *)

Definition sent (lv : Z -> nat) (q i : Z) (v : V) : Prop :=
  exists l o, (l < lv q)%nat /\ (l < L)%nat /\ at_ q l = Some o /\ kind o = KSend i /\ v = send_val o (spec q l).
Definition received (lv : Z -> nat) (q i : Z) : Prop :=
  exists l o, (l < lv i)%nat /\ (l < L)%nat /\ at_ i l = Some o /\ kind o = KRecv q.

Record net_inv (s : net) (lv : Z -> nat) : Prop := {
  i_level : forall i, 0 <= i < n -> (lv i <= L)%nat;
  i_prog : forall i, 0 <= i < n -> prog s i = level_prog i (lv i);
  i_data : forall i, 0 <= i < n -> data s i = spec i (lv i);
  i_chan : forall q i, 0 <= q < n -> 0 <= i < n ->
    (exists v, sent lv q i v /\ ~ received lv q i /\ chan s q i = [v]) \/
    ((forall v, ~ sent lv q i v) /\ ~ received lv q i /\ chan s q i = []) \/
    ((exists v, sent lv q i v) /\ received lv q i /\ chan s q i = []) }.

Lemma net_inv_init s : net_init s -> net_inv s (fun _ => O).
Proof.
  intros [Hi Hc]. split.
  - intros; lia.
  - intros i H. apply Hi, H.
  - intros i H. apply Hi, H.
  - intros q i Hq Hr. right. left. split; [intros v (l & ? & ? & _); lia|].
    split; [intros (l & ? & ? & _); lia|apply Hc].
Qed.

(** Moving rank [i] past its operation at [l] leaves the facts about other pairs alone. *)
Lemma sent_other lv i l q j v : q <> i -> sent (upd lv i l) q j v <-> sent lv q j v.
Proof. intros Hq. unfold sent. by rewrite upd_ne. Qed.
Lemma received_other lv i l q j : j <> i -> received (upd lv i l) q j <-> received lv q j.
Proof. intros Hj. unfold received. by rewrite upd_ne. Qed.

(** The operations of rank [i] below [1 + l'], when it is at [l'] with nothing between. *)
Lemma below_step i l l' (P : nat -> Prop) :
  (l <= l')%nat -> (forall l'', P l'' -> at_ i l'' <> None) ->
  (forall l'', (l <= l'' < l')%nat -> at_ i l'' = None) ->
  forall l'', (l'' < 1 + l')%nat -> P l'' -> (l'' < l)%nat \/ l'' = l'.
Proof.
  intros Hl HP Hn l'' Hlt H. destruct (decide (l'' = l')); [by right|left].
  destruct (decide (l'' < l)%nat); [done|]. exfalso. apply (HP _ H), Hn. lia.
Qed.

Lemma sent_self lv i l' o j v :
  (lv i <= l' < L)%nat -> at_ i l' = Some o ->
  (forall l'', (lv i <= l'' < l')%nat -> at_ i l'' = None) ->
  sent (upd lv i (1 + l')%nat) i j v <->
  sent lv i j v \/ (kind o = KSend j /\ v = send_val o (spec i l')).
Proof.
  intros Hl Ha Hn. unfold sent. rewrite upd_eq. split.
  - intros (l & o' & H1 & H2 & H3 & H4 & H5).
    destruct (below_step i (lv i) l' (fun l => at_ i l <> None) ltac:(lia) ltac:(done) Hn l H1)
      as [Hb| ->]; [by rewrite H3| |].
    + left. exists l, o'. auto.
    + right. rewrite Ha in H3. injection H3 as <-. done.
  - intros [(l & o' & H1 & H2 & H3)|[H1 ->]].
    + exists l, o'. split; [lia|auto].
    + exists l', o. repeat split; auto; lia.
Qed.

Lemma received_self lv i l' o q :
  (lv i <= l' < L)%nat -> at_ i l' = Some o ->
  (forall l'', (lv i <= l'' < l')%nat -> at_ i l'' = None) ->
  received (upd lv i (1 + l')%nat) q i <-> received lv q i \/ kind o = KRecv q.
Proof.
  intros Hl Ha Hn. unfold received. rewrite upd_eq. split.
  - intros (l & o' & H1 & H2 & H3 & H4).
    destruct (below_step i (lv i) l' (fun l => at_ i l <> None) ltac:(lia) ltac:(done) Hn l H1)
      as [Hb| ->]; [by rewrite H3| |].
    + left. exists l, o'. auto.
    + right. rewrite Ha in H3. by injection H3 as <-.
  - intros [(l & o' & H1 & H2 & H3)|H1].
    + exists l, o'. split; [lia|auto].
    + exists l', o. repeat split; auto; lia.
Qed.

Lemma sent_step lv i l' o q j v :
  (lv i <= l' < L)%nat -> at_ i l' = Some o ->
  (forall l'', (lv i <= l'' < l')%nat -> at_ i l'' = None) ->
  sent (upd lv i (1 + l')%nat) q j v <->
  sent lv q j v \/ (q = i /\ kind o = KSend j /\ v = send_val o (spec i l')).
Proof.
  intros Hl Ha Hn. destruct (decide (q = i)) as [->|Hq].
  - rewrite sent_self by done. naive_solver.
  - rewrite sent_other by done. naive_solver.
Qed.

Lemma received_step lv i l' o q j :
  (lv i <= l' < L)%nat -> at_ i l' = Some o ->
  (forall l'', (lv i <= l'' < l')%nat -> at_ i l'' = None) ->
  received (upd lv i (1 + l')%nat) q j <-> received lv q j \/ (j = i /\ kind o = KRecv q).
Proof.
  intros Hl Ha Hn. destruct (decide (j = i)) as [->|Hj].
  - rewrite (received_self lv i l' o) by done. naive_solver.
  - rewrite received_other by done. naive_solver.
Qed.

(** The ranks, programs and data after a step of rank [i]; the channels are left. *)
Lemma net_inv_move s lv i l' o rest d c :
  net_inv s lv -> 0 <= i < n -> (lv i <= l' < L)%nat -> at_ i l' = Some o ->
  rest = level_prog i (1 + l') -> d = spec i (1 + l') ->
  let lv' := upd lv i (1 + l')%nat in
  (forall q j, 0 <= q < n -> 0 <= j < n ->
    (exists v, sent lv' q j v /\ ~ received lv' q j /\ c q j = [v]) \/
    ((forall v, ~ sent lv' q j v) /\ ~ received lv' q j /\ c q j = []) \/
    ((exists v, sent lv' q j v) /\ received lv' q j /\ c q j = [])) ->
  net_inv (Net (upd (prog s) i rest) (upd (data s) i d) c) lv'.
Proof.
  intros [Hlv Hp Hd _] Hi Hl Ha -> -> lv' Hc. split; [..|exact Hc]; cbn.
  - intros j Hj. unfold lv', upd. case_decide; [lia|auto].
  - intros j Hj. unfold lv', upd. case_decide; [by subst|auto].
  - intros j Hj. unfold lv', upd. case_decide; [by subst|auto].
Qed.

Lemma sent_unique lv q i v v' : 0 <= q < n -> sent lv q i v -> sent lv q i v' -> v = v'.
Proof.
  intros Hq (l & o & H1 & H1' & H2 & H3 & ->) (l' & o' & H4 & H4' & H5 & H6 & ->).
  assert (l = l') as -> by (eapply (m_send_once Hm); eauto). congruence.
Qed.

(** Steps keep the invariant; nothing the schedules do not mention ever arrives. *)
Lemma net_inv_send s lv i o rest to :
  net_inv s lv -> 0 <= i < n -> prog s i = o :: rest -> kind o = KSend to ->
  exists lv', net_inv (Net (upd (prog s) i rest) (data s)
    (upd (chan s) i (upd (chan s i) to (chan s i to ++ [send_val o (data s i)])))) lv'.
Proof.
  intros Hinv Hi Hp Hk. pose proof Hinv as [Hlv Hpr Hd Hc]. rewrite Hpr in Hp by done.
  apply level_prog_cons in Hp as (l' & Hl & Ha & Hr & Hn).
  assert (data s i = spec i l') as Hdi.
  { rewrite Hd by done. symmetry. apply spec_skip; [done|lia|done]. }
  exists (upd lv i (1 + l')%nat).
  assert (~ exists v, sent lv i to v) as Hfresh.
  { intros (v & l & o' & H1 & H1' & H2 & H3 & _).
    assert (l = l') by (eapply (m_send_once Hm); eauto; lia). lia. }
  destruct (net_inv_move s lv i l' o rest (data s i)
    (upd (chan s) i (upd (chan s i) to (chan s i to ++ [send_val o (data s i)]))) Hinv Hi Hl Ha Hr)
    as [G1 G2 G3 G4].
  { rewrite Hdi. symmetry. eapply (m_send Hm); eauto; lia. }
  { intros q j Hq Hj. specialize (Hc q j Hq Hj).
    assert (received (upd lv i (1 + l')%nat) q j <-> received lv q j) as Hrc.
    { rewrite (received_step lv i l' o) by done. rewrite Hk. naive_solver. }
    destruct (decide (q = i /\ j = to)) as [[-> ->]|Hne].
    - left. exists (send_val o (spec i l')). rewrite (sent_step lv i l' o), Hrc by done.
      rewrite !upd_eq, Hdi. destruct Hc as [(v & Hv & _)|[(_ & Hnr & ->)|((v & Hv) & _)]].
      + exfalso. eauto.
      + split; [by right|done].
      + exfalso. eauto.
    - assert (forall v, sent (upd lv i (1 + l')%nat) q j v <-> sent lv q j v) as Hst.
      { intros v. rewrite (sent_step lv i l' o) by done. rewrite Hk. naive_solver. }
      assert (upd (chan s) i (upd (chan s i) to (chan s i to ++ [send_val o (data s i)])) q j =
        chan s q j) as ->.
      { unfold upd. repeat case_decide; subst; try done. naive_solver. }
      setoid_rewrite Hrc. setoid_rewrite Hst. exact Hc. }
  split; try done. intros j Hj. specialize (G3 j Hj). cbn in G3 |- *. rewrite <- G3.
  unfold upd. by case_decide; subst.
Qed.

Lemma net_inv_recv s lv i o rest from v vs :
  net_inv s lv -> 0 <= i < n -> prog s i = o :: rest -> kind o = KRecv from ->
  chan s from i = v :: vs ->
  exists lv', net_inv (Net (upd (prog s) i rest) (upd (data s) i (recv_upd o v (data s i)))
    (upd (chan s) from (upd (chan s from) i vs))) lv'.
Proof.
  intros Hinv Hi Hp Hk Hch. pose proof Hinv as [Hlv Hpr Hd Hc]. rewrite Hpr in Hp by done.
  apply level_prog_cons in Hp as (l' & Hl & Ha & Hr & Hn).
  assert (data s i = spec i l') as Hdi.
  { rewrite Hd by done. symmetry. apply spec_skip; [done|lia|done]. }
  destruct (m_recv Hm i l' o from Hi ltac:(lia) Ha Hk) as (l0 & o0 & Hq & Hl0 & Ha0 & Hk0 & Hsp).
  pose proof (Hc from i Hq Hi) as Hfi.
  destruct Hfi as [(w & Hw & Hnr & E)|[(_ & _ & E)|(_ & _ & E)]]; rewrite Hch in E; [|done..].
  injection E as -> ->.
  assert (w = send_val o0 (spec from l0)) as ->.
  { destruct Hw as (l1 & o1 & H1 & H1' & H2 & H3 & ->).
    assert (l1 = l0) as -> by (eapply (m_send_once Hm from l1 l0 o1 o0 i); eauto; lia). congruence. }
  exists (upd lv i (1 + l')%nat). apply (net_inv_move s lv i l' o); try done.
  { by rewrite Hdi, Hsp. }
  intros q j Hq' Hj. specialize (Hc q j Hq' Hj).
  assert (forall v, sent (upd lv i (1 + l')%nat) q j v <-> sent lv q j v) as Hst.
  { intros u. rewrite (sent_step lv i l' o) by done. rewrite Hk. naive_solver. }
  setoid_rewrite Hst.
  destruct (decide (q = from /\ j = i)) as [[-> ->]|Hne].
  - right. right. rewrite (received_step lv i l' o) by done. rewrite !upd_eq.
    split; [eauto|]. split; [by right|done].
  - assert (received (upd lv i (1 + l')%nat) q j <-> received lv q j) as Hrc.
    { rewrite (received_step lv i l' o) by done. rewrite Hk. naive_solver. }
    assert (upd (chan s) from (upd (chan s from) i []) q j = chan s q j) as ->.
    { unfold upd. repeat case_decide; subst; try done. naive_solver. }
    setoid_rewrite Hrc. exact Hc.
Qed.

Lemma net_inv_local s lv i o rest :
  net_inv s lv -> 0 <= i < n -> prog s i = o :: rest -> kind o = KLocal ->
  exists lv', net_inv (Net (upd (prog s) i rest) (upd (data s) i (local_upd o (data s i)))
    (chan s)) lv'.
Proof.
  intros Hinv Hi Hp Hk. pose proof Hinv as [Hlv Hpr Hd Hc]. rewrite Hpr in Hp by done.
  apply level_prog_cons in Hp as (l' & Hl & Ha & Hr & Hn).
  assert (data s i = spec i l') as Hdi.
  { rewrite Hd by done. symmetry. apply spec_skip; [done|lia|done]. }
  exists (upd lv i (1 + l')%nat). apply (net_inv_move s lv i l' o); try done.
  { rewrite Hdi. symmetry. eapply (m_local Hm); eauto; lia. }
  intros q j Hq Hj. specialize (Hc q j Hq Hj).
  assert (received (upd lv i (1 + l')%nat) q j <-> received lv q j) as Hrc.
  { rewrite (received_step lv i l' o) by done. rewrite Hk. naive_solver. }
  assert (forall v, sent (upd lv i (1 + l')%nat) q j v <-> sent lv q j v) as Hst.
  { intros u. rewrite (sent_step lv i l' o) by done. rewrite Hk. naive_solver. }
  setoid_rewrite Hrc. setoid_rewrite Hst. exact Hc.
Qed.

Lemma net_inv_steps s s' lv :
  rtc (net_step n) s s' -> net_inv s lv -> exists lv', net_inv s' lv'.
Proof.
  intros Hs. revert lv. induction Hs as [s|s s1 s' Hst _ IH]; intros lv Hinv; [eauto|].
  assert (exists lv', net_inv s1 lv') as [lv' Hinv']; [|by eapply IH].
  destruct Hst; eauto using net_inv_send, net_inv_recv, net_inv_local.
Qed.

(** What a rank that is done has computed. *)
Lemma net_done s lv i : net_inv s lv -> 0 <= i < n -> prog s i = [] -> data s i = spec i L.
Proof.
  intros [Hlv Hp Hd _] Hi E. rewrite Hp in E by done. rewrite Hd by done. symmetry.
  apply spec_skip; [done|split; [auto|lia]|]. intros l'' Hl. apply (level_prog_nil i (lv i)); [done|lia].
Qed.

(** No deadlock: the lowest of the next operations can be executed. *)
Lemma net_progress s lv i : net_inv s lv -> 0 <= i < n -> prog s i <> [] ->
  exists s', net_step n s s'.
Proof.
  intros Hinv. pose proof Hinv as [Hlv Hp Hd Hc].
  assert (forall l' i o rest, 0 <= i < n -> (lv i <= l' < L)%nat -> at_ i l' = Some o ->
    prog s i = o :: rest -> exists s', net_step n s s') as H.
  { intros l'. induction (lt_wf l') as [l' _ IH]. intros j o rest Hj Hl Ha E.
    destruct (kind o) as [to|q|] eqn:Hk.
    - eexists. by eapply StepSend.
    - destruct (m_recv Hm j l' o q Hj ltac:(lia) Ha Hk) as (l0 & o0 & Hq & Hl0 & Ha0 & Hk0 & _).
      destruct (decide (lv q <= l0)%nat) as [Hle|Hgt].
      + assert (level_prog q (lv q) <> []) as Hne.
        { intros Hnil. pose proof (level_prog_nil q (lv q) Hnil l0 ltac:(lia)). congruence. }
        apply level_prog_some in Hne as (o3 & r3 & E3).
        pose proof (level_prog_cons _ _ _ _ E3) as (l3 & Hl3 & Ha3 & _ & Hn3).
        assert (l3 <= l0)%nat.
        { destruct (decide (l3 <= l0)%nat); [done|].
          pose proof (Hn3 l0 ltac:(lia)). congruence. }
        eapply (IH l3 ltac:(lia) q o3 r3); [done|lia|done|]. by rewrite Hp.
      + pose proof (Hc q j Hq Hj) as [(v & _ & _ & Ev)|[(Hns & _)|(_ & Hr & _)]].
        * eexists. by eapply (StepRecv n s j o rest q v []).
        * exfalso. apply (Hns (send_val o0 (spec q l0))). exists l0, o0.
          repeat split; auto; lia.
        * exfalso. destruct Hr as (l1 & o1 & H1 & H1' & H2 & H3).
          assert (l1 = l') by (eapply (m_recv_once Hm j l1 l' o1 o q); eauto; lia). lia.
    - eexists. by eapply StepLocal. }
  intros Hi Hne. destruct (prog s i) as [|o rest] eqn:E; [done|].
  pose proof E as E'. rewrite Hp in E' by done.
  apply level_prog_cons in E' as (l' & Hl & Ha & _). eauto.
Qed.

(** A receive that was executed had its send executed. *)
Lemma net_causal s lv q i : net_inv s lv -> 0 <= q < n -> 0 <= i < n ->
  received lv q i -> exists v, sent lv q i v.
Proof.
  intros [_ _ _ Hc] Hq Hi Hr. destruct (Hc q i Hq Hi) as [(v & Hv & _)|[(_ & ? & _)|(? & _)]];
    eauto; done.
Qed.

(** Every step executes one operation: runs are at most as long as the programs. *)
Definition net_size (s : net) : nat := sum_list_with (fun i => length (prog s i)) (seqZ 0 n).

Lemma net_step_size s s' : net_step n s s' -> net_size s = (1 + net_size s')%nat.
Proof.
  assert (forall l i (o : Op) rest, NoDup l -> i ∈ l -> prog s i = o :: rest ->
    sum_list_with (fun j => length (prog s j)) l =
    (1 + sum_list_with (fun j => length (upd (prog s) i rest j)) l)%nat) as H.
  { intros l i o rest Hnd Hin Hp. induction Hnd as [|j l Hj Hnd IH]; [by apply elem_of_nil in Hin|].
    cbn. apply elem_of_cons in Hin as [->|Hin].
    - rewrite upd_eq, Hp. cbn. do 2 f_equal.
      clear -Hj. induction l as [|k l IH]; [done|]. cbn. apply not_elem_of_cons in Hj as [Hk Hj].
      rewrite upd_ne by congruence. by rewrite IH.
    - rewrite upd_ne by (intros E; subst; done). rewrite IH by done. lia. }
  intros Hs. destruct Hs; unfold net_size; cbn [prog]; eapply H; eauto using NoDup_seqZ;
    apply elem_of_seqZ; lia.
Qed.

(** A run executes each operation at most once. *)
Lemma net_steps_bound k s s' :
  relations.nsteps (net_step n) k s s' -> (k <= net_size s)%nat.
Proof.
  intros Hs. induction Hs as [s|k s s1 s2 Hst _ IH]; [lia|].
  rewrite (net_step_size _ _ Hst). lia.
Qed.

(** ** Executing the levels one after the other

    When every receive takes the message sent at the level before it, the states follow
    from executing all ranks level by level. *)
End net.

Section lockstep.
Context {Op D V : Type}.
Context (kind : Op -> net_kind).
Context (send_val : Op -> D -> V) (recv_upd : Op -> V -> D -> D) (local_upd : Op -> D -> D).
Context (n : Z) (L : nat) (at_ : Z -> nat -> option Op) (init : Z -> D).

Fixpoint lockstep (l : nat) : Z -> D :=
  match l with
  | O => init
  | S l => fun i =>
      match at_ i l with
      | None => lockstep l i
      | Some o =>
          match kind o with
          | KSend _ => lockstep l i
          | KLocal => local_upd o (lockstep l i)
          | KRecv q =>
              match at_ q (pred l) with
              | Some o' => recv_upd o (send_val o' (lockstep l q)) (lockstep l i)
              | None => lockstep l i
              end
          end
      end
  end.

Record in_step : Prop := {
  st_recv : forall i l o q, 0 <= i < n -> (l < L)%nat -> at_ i l = Some o -> kind o = KRecv q ->
    exists l' o', 0 <= q < n /\ l = S l' /\ at_ q l' = Some o' /\ kind o' = KSend i;
  st_send_once : forall i l l' o o' to, 0 <= i < n -> (l < L)%nat -> (l' < L)%nat ->
    at_ i l = Some o -> at_ i l' = Some o' -> kind o = KSend to -> kind o' = KSend to -> l = l';
  st_recv_once : forall i l l' o o' q, 0 <= i < n -> (l < L)%nat -> (l' < L)%nat ->
    at_ i l = Some o -> at_ i l' = Some o' -> kind o = KRecv q -> kind o' = KRecv q -> l = l' }.

Lemma lockstep_none i l : at_ i l = None -> lockstep (S l) i = lockstep l i.
Proof. intros E. cbn. by rewrite E. Qed.
Lemma lockstep_send i l o to : at_ i l = Some o -> kind o = KSend to ->
  lockstep (S l) i = lockstep l i.
Proof. intros E E'. cbn. by rewrite E, E'. Qed.
Lemma lockstep_local i l o : at_ i l = Some o -> kind o = KLocal ->
  lockstep (S l) i = local_upd o (lockstep l i).
Proof. intros E E'. cbn. by rewrite E, E'. Qed.
Lemma lockstep_recv i l o q o' to :
  at_ i (S l) = Some o -> kind o = KRecv q -> at_ q l = Some o' -> kind o' = KSend to ->
  lockstep (S (S l)) i = recv_upd o (send_val o' (lockstep l q)) (lockstep (S l) i).
Proof.
  intros E E' Eq Eq'. rewrite <- (lockstep_send q l o' to Eq Eq').
  change (lockstep (S (S l)) i) with
    (match at_ i (S l) with
      | None => lockstep (S l) i
      | Some o =>
          match kind o with
          | KSend _ => lockstep (S l) i
          | KLocal => local_upd o (lockstep (S l) i)
          | KRecv q =>
              match at_ q l with
              | Some o' => recv_upd o (send_val o' (lockstep (S l) q)) (lockstep (S l) i)
              | None => lockstep (S l) i
              end
          end
      end).
  by rewrite E, E', Eq.
Qed.

Lemma lockstep_matched : in_step ->
  matched kind send_val recv_upd local_upd n L at_ (fun i l => lockstep l i).
Proof.
  intros [Hr Hs1 Hr1]. split; try done.
  - intros. by apply lockstep_none.
  - intros. by eapply lockstep_send.
  - intros. by eapply lockstep_local.
  - intros i l o q Hi Hl E Ek. destruct (Hr i l o q Hi Hl E Ek) as (l' & o' & Hq & -> & E' & Ek').
    exists l', o'. split; [done|]. split; [lia|]. split; [done|]. split; [done|].
    by eapply lockstep_recv.
Qed.

(** Whatever the interleaving: a rank that is done holds the state of the last level, and
    some rank can move while one is not done. *)
Lemma lockstep_run s s' : in_step ->
  net_init n L at_ (fun i l => lockstep l i) s ->
  rtc (net_step kind send_val recv_upd local_upd n) s s' ->
  (forall i, 0 <= i < n -> prog s' i = [] -> data s' i = lockstep L i) /\
  (forall i, 0 <= i < n -> prog s' i <> [] ->
     exists s'', net_step kind send_val recv_upd local_upd n s' s'').
Proof.
  intros Hst Hinit Hrun. pose proof (lockstep_matched Hst) as Hm.
  destruct (net_inv_steps _ _ _ _ _ _ _ _ Hm _ _ (fun _ => O) Hrun) as [lv Hinv];
    [by apply net_inv_init|].
  split; intros i Hi Hp.
  - by apply (net_done _ _ _ _ _ _ _ _ Hm s' lv).
  - by eapply (net_progress _ _ _ _ _ _ _ _ Hm).
Qed.

End lockstep.
