(* ===== verification/CollSpec.v ===== *)
(** * What the collectives compute (about Coll.v, under the semantics of Net.v) *)
From S2P Require Import Prelude Config State Proto Api Coll Net.

(** ** Operations as the network sees them

    [LC_COL_SENDRECV] posts its send and then waits for its receive. *)
Inductive col_act : Type :=
| ASend (src to : Z)
| ARecv (dst from : Z)
| AOp (dst src : Z)
| AMem (dst src : Z)
| AFree (p : Z).

Definition expand (o : lc_col_sched) : list col_act :=
  if cs_type o =? LC_COL_SEND then [ASend (cs_src o) (cs_rank o)]
  else if cs_type o =? LC_COL_RECV then [ARecv (cs_src o) (cs_rank o)]
  else if cs_type o =? LC_COL_SENDRECV then
    [ASend (cs_src o) (cs_rank o); ARecv (cs_dst o) (cs_rank o)]
  else if cs_type o =? LC_COL_OP then [AOp (cs_dst o) (cs_src o)]
  else if cs_type o =? LC_COL_MEM then [AMem (cs_dst o) (cs_src o)]
  else [AFree (cs_src o)].

Definition expand_all (l : list lc_col_sched) : list col_act := concat (expand <$> l).

Lemma expand_all_app l1 l2 : expand_all (l1 ++ l2) = expand_all l1 ++ expand_all l2.
Proof. unfold expand_all. by rewrite fmap_app, concat_app. Qed.

Definition act_kind (a : col_act) : net_kind :=
  match a with ASend _ to => KSend to | ARecv _ from => KRecv from | _ => KLocal end.

(** A request on which nothing is scheduled yet. *)
Definition fresh_req (req : lc_colreq) : Prop := total req = 0 /\ next req = [].

(** The program a rank gets from its schedule. *)
Definition prog_of (r : result lc_colreq) : list col_act :=
  match r with Ok req => expand_all (next req) | Err _ => [] end.

Definition room (req : lc_colreq) (n : nat) : Prop :=
  total req = Z.of_nat (length (next req)) /\ total req + Z.of_nat n <= MAX_SCHED.

Lemma col_push_ok o req n : room req (S n) ->
  exists req', col_push o req = Ok req' /\ next req' = next req ++ [o] /\ room req' n /\
    empty req' = empty req.
Proof.
  intros [Ht Hr]. unfold col_push. rewrite (proj2 (Z.ltb_lt _ _)) by lia.
  eexists. split; [done|]. cbn. split; [done|]. split; [|done].
  split; cbn; rewrite ?length_app; cbn; lia.
Qed.

Lemma room_le req n m : (m <= n)%nat -> room req n -> room req m.
Proof. intros Hm [? ?]. split; [done|lia]. Qed.

(** ** Barrier *)

(** The number of rounds: the first power of two that reaches the size. *)
Definition rounds (size : Z) : nat := Z.to_nat (Z.log2_up size).

Lemma rounds_lt size k : 2 <= size -> (k < rounds size)%nat <-> 2 ^ Z.of_nat k < size.
Proof.
  intros Hs. unfold rounds. pose proof (Z.log2_up_lt_pow2 size (Z.of_nat k) ltac:(lia)). lia.
Qed.

Lemma rounds_bound size : 2 <= size < 2 ^ 31 -> (1 <= rounds size <= 31)%nat.
Proof.
  intros Hs. split.
  - apply (rounds_lt size 0); [lia|]. cbn. lia.
  - unfold rounds. pose proof (Z.log2_up_le_mono size (2 ^ 31) ltac:(lia)) as H.
    rewrite Z.log2_up_pow2 in H; lia.
Qed.

Definition barrier_at (size emp : Z) (i : Z) (l : nat) : option col_act :=
  let k := 2 ^ Z.of_nat (l / 2) in
  if decide (l mod 2 = 0)%nat then Some (ASend emp ((i + k) mod size))
  else Some (ARecv emp ((i + size - k) mod size)).

Lemma barrier_at_even size emp i k :
  barrier_at size emp i (2 * k) = Some (ASend emp ((i + 2 ^ Z.of_nat k) mod size)).
Proof.
  unfold barrier_at. rewrite Nat.mul_comm, Nat.Div0.mod_mul, Nat.div_mul by lia. done.
Qed.

Lemma barrier_at_odd size emp i k :
  barrier_at size emp i (1 + 2 * k) = Some (ARecv emp ((i + size - 2 ^ Z.of_nat k) mod size)).
Proof.
  unfold barrier_at. assert ((1 + 2 * k) mod 2 = 1)%nat as E.
  { symmetry. apply (Nat.mod_unique _ _ k); lia. }
  assert ((1 + 2 * k) / 2 = k)%nat as E'.
  { symmetry. apply (Nat.div_unique _ _ k 1); lia. }
  by rewrite E, E'.
Qed.

Lemma even_or_odd l : exists k, (l = 2 * k \/ l = 1 + 2 * k)%nat.
Proof. destruct (Nat.Even_or_Odd l) as [[k H]|[k H]]; exists k; lia. Qed.

(** The rounds [k], ..., [k + n - 1] of the schedule. *)
Definition barrier_acts (size emp i : Z) (k n : nat) : list col_act :=
  omap (barrier_at size emp i) (seq (2 * k) (2 * n)).

Lemma barrier_acts_S size emp i k n :
  barrier_acts size emp i k (S n) =
  ASend emp ((i + 2 ^ Z.of_nat k) mod size) :: ARecv emp ((i + size - 2 ^ Z.of_nat k) mod size) ::
  barrier_acts size emp i (S k) n.
Proof.
  unfold barrier_acts. replace (2 * S n)%nat with (S (S (2 * n))) by lia.
  cbn [seq omap list_omap]. rewrite barrier_at_even.
  replace (S (2 * k)) with (1 + 2 * k)%nat by lia. rewrite barrier_at_odd.
  replace (S (1 + 2 * k)) with (2 * S k)%nat by lia. done.
Qed.

Lemma barrier_loop_ok size rank comm n : forall k fuel req,
  2 <= size < 2 ^ 31 -> 0 <= rank < size -> (k + n = rounds size)%nat -> (n <= fuel)%nat ->
  room req (2 * n) ->
  exists req', barrier_loop fuel rank size (2 ^ Z.of_nat k) comm req = Ok req' /\
    expand_all (next req') = expand_all (next req) ++ barrier_acts size (empty req) rank k n.
Proof.
  induction n as [|n IH]; intros k fuel req Hs Hr Hk Hf Hroom.
  - assert (~ 2 ^ Z.of_nat k < size) as Hge.
    { rewrite <- rounds_lt by lia. lia. }
    exists req. unfold barrier_acts. cbn. rewrite app_nil_r. split; [|done].
    destruct fuel; cbn; by rewrite (proj2 (Z.ltb_ge _ _)) by lia.
  - assert (2 ^ Z.of_nat k < size) as Hlt.
    { apply rounds_lt; lia. }
    destruct fuel as [|fuel]; [lia|]. cbn [barrier_loop]. rewrite (proj2 (Z.ltb_lt _ _) Hlt).
    unfold lc_col_send, lc_col_recv.
    destruct (col_push_ok (ColSched (empty req) 0 1 (Z.rem (rank + 2 ^ Z.of_nat k) size)
      MCA_COLL_BASE_TAG_IBARRIER comm LC_COL_SEND) req (S (2 * n))) as (req1 & E1 & N1 & R1 & M1);
      [by eapply room_le; [|exact Hroom]; lia|].
    destruct (col_push_ok (ColSched (empty req1) 0 1 (Z.rem (rank + size - 2 ^ Z.of_nat k) size)
      MCA_COLL_BASE_TAG_IBARRIER comm LC_COL_RECV) req1 (2 * n)) as (req2 & E2 & N2 & R2 & M2);
      [done|].
    rewrite E1. cbn [mbind result_bind]. rewrite E2. cbn [mbind result_bind].
    rewrite Z.shiftl_mul_pow2 by lia.
    replace (2 ^ Z.of_nat k * 2 ^ 1) with (2 ^ Z.of_nat (S k))
      by (rewrite Nat2Z.inj_succ, Z.pow_succ_r; lia).
    destruct (IH (S k) fuel req2) as (req' & E' & N'); [done|done|lia|lia|done|].
    exists req'. split; [done|]. rewrite N', N2, N1, !expand_all_app, <- !app_assoc.
    rewrite M2, M1, barrier_acts_S. f_equal.
    assert (0 < 2 ^ Z.of_nat k) by (apply Z.pow_pos_nonneg; lia).
    rewrite !Z.rem_mod_nonneg by lia. done.
Qed.

Lemma add_mod_inj size i x y : 0 <= x < size -> 0 <= y < size ->
  (i + x) mod size = (i + y) mod size -> x = y.
Proof.
  intros Hx Hy E. pose proof (Z.div_mod (i + x) size ltac:(lia)).
  pose proof (Z.div_mod (i + y) size ltac:(lia)).
  assert ((i + x) / size = (i + y) / size) by nia. nia.
Qed.

Lemma sub_add_mod size i x : 0 <= i < size -> 0 <= x < size ->
  ((i + size - x) mod size + x) mod size = i.
Proof.
  intros Hi Hx. rewrite Z.add_mod_idemp_l by lia.
  replace (i + size - x + x) with (i + 1 * size) by lia.
  rewrite Z.mod_add by lia. apply Z.mod_small. lia.
Qed.

Lemma barrier_at_send size emp i l o to :
  barrier_at size emp i l = Some o -> act_kind o = KSend to ->
  exists k, l = (2 * k)%nat /\ to = (i + 2 ^ Z.of_nat k) mod size.
Proof.
  intros Ha Hk. destruct (even_or_odd l) as [k [->| ->]]; exists k.
  - rewrite barrier_at_even in Ha. injection Ha as <-. by injection Hk as <-.
  - rewrite barrier_at_odd in Ha. by injection Ha as <-.
Qed.

Lemma barrier_at_recv size emp i l o q :
  barrier_at size emp i l = Some o -> act_kind o = KRecv q ->
  exists k, l = (1 + 2 * k)%nat /\ q = (i + size - 2 ^ Z.of_nat k) mod size.
Proof.
  intros Ha Hk. destruct (even_or_odd l) as [k [->| ->]]; exists k.
  - rewrite barrier_at_even in Ha. by injection Ha as <-.
  - rewrite barrier_at_odd in Ha. injection Ha as <-. by injection Hk as <-.
Qed.

Lemma pow2_inj k k' : 2 ^ Z.of_nat k = 2 ^ Z.of_nat k' -> k = k'.
Proof. intros E. apply Z.pow_inj_r in E; lia. Qed.

Lemma barrier_matched size emp : 2 <= size < 2 ^ 31 ->
  matched act_kind (fun (_ : col_act) (_ : unit) => tt) (fun _ _ _ => tt) (fun _ _ => tt)
    size (2 * rounds size) (barrier_at size emp) (fun _ _ => tt).
Proof.
  intros Hs.
  assert (forall k, (2 * k < 2 * rounds size)%nat \/ (1 + 2 * k < 2 * rounds size)%nat ->
    0 < 2 ^ Z.of_nat k < size) as Hpow.
  { intros k Hk. split; [apply Z.pow_pos_nonneg; lia|]. apply rounds_lt; lia. }
  split; try done.
  - intros i l o q Hi Hl Ha Hk. destruct (barrier_at_recv _ _ _ _ _ _ Ha Hk) as (k & -> & ->).
    specialize (Hpow k (or_intror Hl)).
    exists (2 * k)%nat. eexists. rewrite barrier_at_even. split; [apply Z.mod_pos_bound; lia|].
    split; [lia|]. split; [done|]. split; [|done]. cbn. f_equal. apply sub_add_mod; lia.
  - intros i l l' o o' to Hi Hl Hl' Ha Ha' Hk Hk'.
    destruct (barrier_at_send _ _ _ _ _ _ Ha Hk) as (k & -> & ->).
    destruct (barrier_at_send _ _ _ _ _ _ Ha' Hk') as (k' & -> & E).
    pose proof (Hpow k (or_introl Hl)). pose proof (Hpow k' (or_introl Hl')).
    apply add_mod_inj in E; [|lia..]. by apply pow2_inj in E as ->.
  - intros i l l' o o' q Hi Hl Hl' Ha Ha' Hk Hk'.
    destruct (barrier_at_recv _ _ _ _ _ _ Ha Hk) as (k & -> & ->).
    destruct (barrier_at_recv _ _ _ _ _ _ Ha' Hk') as (k' & -> & E).
    pose proof (Hpow k (or_intror Hl)). pose proof (Hpow k' (or_intror Hl')).
    rewrite <- !Z.add_sub_assoc in E. apply add_mod_inj in E; [|lia..].
    assert (2 ^ Z.of_nat k = 2 ^ Z.of_nat k') as E' by lia. by apply pow2_inj in E' as ->.
Qed.

(** The network a barrier of [size] ranks starts, each with its own schedule. *)
Definition barrier_net (size comm : Z) (req : lc_colreq) : @net col_act unit unit :=
  Net (fun i => prog_of (barrier_schedule i size comm req)) (fun _ => tt) (fun _ _ => []).

Notation barrier_step := (net_step act_kind (fun (_ : col_act) (_ : unit) => tt)
  (fun _ _ _ => tt) (fun _ _ => tt)).

Lemma barrier_prog size comm req i :
  2 <= size < 2 ^ 31 -> 0 <= i < size -> fresh_req req ->
  is_ok (barrier_schedule i size comm req) = true /\
  prog_of (barrier_schedule i size comm req) =
    level_prog (2 * rounds size) (barrier_at size (empty req)) i 0.
Proof.
  intros Hs Hi [Ht Hn]. unfold barrier_schedule. pose proof (rounds_bound size Hs).
  destruct (barrier_loop_ok size i comm (rounds size) 0 31 req) as (req' & E & N);
    [done|done|lia|lia|split; [by rewrite Ht, Hn|rewrite Ht; unfold MAX_SCHED; lia]|].
  change (2 ^ Z.of_nat 0) with 1 in E. rewrite E. split; [done|]. cbn.
  rewrite N, Hn. unfold level_prog, barrier_acts. cbn. by rewrite Nat.sub_0_r.
Qed.

Lemma barrier_level_length size emp i l :
  length (level_prog (2 * rounds size) (barrier_at size emp) i l) = (2 * rounds size - l)%nat.
Proof.
  unfold level_prog. generalize (2 * rounds size - l)%nat. intros k. revert l.
  induction k as [|k IH]; intros l; [done|]. cbn.
  assert (exists o, barrier_at size emp i l = Some o) as [o ->].
  { unfold barrier_at. case_decide; eauto. }
  cbn. by rewrite IH.
Qed.

(** A rank that passed [k] rounds knows that the [2 ^ k] ranks behind it have entered. *)
Lemma barrier_reach size emp (s : @net col_act unit unit) (lv : Z -> nat) : 2 <= size < 2 ^ 31 ->
  net_inv act_kind (fun (_ : col_act) (_ : unit) => tt) size (2 * rounds size)
    (barrier_at size emp) (fun _ _ => tt) s lv ->
  forall (k : nat) (i d : Z), (k <= rounds size)%nat -> 0 <= i < size -> (2 * k <= lv i)%nat -> (1 <= lv i)%nat ->
    0 <= d < 2 ^ Z.of_nat k -> (1 <= lv ((i - d) mod size)%Z)%nat.
Proof.
  intros Hs Hinv. induction k as [|k IH]; intros i d Hk Hi Hlv Hlv1 Hd.
  - assert (d = 0) as -> by (cbn in Hd; lia). rewrite Z.sub_0_r, Z.mod_small by lia. done.
  - destruct (decide (d < 2 ^ Z.of_nat k)); [apply IH; lia|].
    rewrite Nat2Z.inj_succ, Z.pow_succ_r in Hd by lia.
    assert (0 < 2 ^ Z.of_nat k < size) as Hp.
    { split; [apply Z.pow_pos_nonneg; lia|]. apply rounds_lt; lia. }
    set (q := (i + size - 2 ^ Z.of_nat k) mod size).
    assert (0 <= q < size) as Hq by (apply Z.mod_pos_bound; lia).
    destruct (net_causal _ _ _ _ _ _ _ _ q i Hinv Hq Hi) as (v & l & o & Hl & Hl' & Ha & Hko & _).
    { exists (1 + 2 * k)%nat. eexists. rewrite barrier_at_odd. split; [lia|]. split; [lia|]. done. }
    destruct (barrier_at_send _ _ _ _ _ _ Ha Hko) as (k' & -> & E).
    assert (k' = k) as ->.
    { assert (2 ^ Z.of_nat k' < size) by (apply rounds_lt; lia).
      assert (0 < 2 ^ Z.of_nat k') by (apply Z.pow_pos_nonneg; lia).
      apply pow2_inj, (add_mod_inj size q); [lia..|].
      rewrite <- E. unfold q. symmetry. apply sub_add_mod; lia. }
    replace ((i - d) mod size) with ((q - (d - 2 ^ Z.of_nat k)) mod size).
    + apply IH; lia.
    + unfold q. rewrite Zminus_mod_idemp_l.
      replace (i + size - 2 ^ Z.of_nat k - (d - 2 ^ Z.of_nat k)) with (i - d + 1 * size) by lia.
      by rewrite Z.mod_add by lia.
Qed.

(** C5: The barrier: all ranks can build their schedule; however they interleave, no rank
    leaves before every rank has entered, as long as one has not left some rank can
    move, and no run has more steps than the schedules have operations. *)
Theorem barrier_synchronises size comm req s :
  2 <= size < 2 ^ 31 -> fresh_req req ->
  rtc (barrier_step size) (barrier_net size comm req) s ->
  (forall i, 0 <= i < size -> is_ok (barrier_schedule i size comm req) = true) /\
  (forall i j, 0 <= i < size -> 0 <= j < size -> prog s i = [] ->
     prog s j <> prog (barrier_net size comm req) j) /\
  (forall i, 0 <= i < size -> prog s i <> [] -> exists s', barrier_step size s s') /\
  (forall k, nsteps (barrier_step size) k (barrier_net size comm req) s ->
     (k <= net_size size (barrier_net size comm req))%nat).
Proof.
  intros Hs Hreq Hrun. split; [intros i Hi; by apply barrier_prog|].
  rewrite (assoc and). split; [|intros k; apply net_steps_bound].
  pose proof (barrier_matched size (empty req) Hs) as Hm.
  destruct (net_inv_steps _ _ _ _ _ _ _ _ Hm _ _ (fun _ => O) Hrun) as [lv Hinv].
  { apply net_inv_init. split; [|done]. intros i Hi. split; [by apply barrier_prog|done]. }
  split; [|intros i Hi Hne; by eapply (net_progress _ _ _ _ _ _ _ _ Hm)].
  intros i j Hi Hj Hdone Heq. pose proof (rounds_bound size Hs).
  assert (forall i : Z, 0 <= i < size -> length (prog s i) = (2 * rounds size - lv i)%nat) as Hlen.
  { intros i' Hi'. rewrite (i_prog _ _ _ _ _ _ _ _ Hinv) by done. apply barrier_level_length. }
  pose proof (Hlen i Hi) as Hli. rewrite Hdone in Hli. cbn in Hli.
  assert (1 <= lv ((i - (i - j) mod size) mod size)%Z)%nat as Hj1.
  { apply (barrier_reach size (empty req) s lv Hs Hinv (rounds size) i); try lia.
    pose proof (Z.mod_pos_bound (i - j) size ltac:(lia)).
    pose proof (rounds_lt size (rounds size) ltac:(lia)). lia. }
  rewrite Zminus_mod_idemp_r in Hj1. replace (i - (i - j)) with j in Hj1 by lia.
  rewrite Z.mod_small in Hj1 by lia.
  pose proof (Hlen j Hj) as Hlj. rewrite Heq in Hlj. cbn [prog barrier_net] in Hlj.
  rewrite (proj2 (barrier_prog size comm req j Hs Hj Hreq)), barrier_level_length in Hlj. lia.
Qed.

(** Four ranks, after rank 2 sent its first message. *)
Lemma barrier_synchronises_witness :
  let req := ColReq 0 0 0 0 0 0 [] 8 in
  exists s, rtc (barrier_step 4) (barrier_net 4 0 req) s /\
    chan s 2 3 = [tt] /\
    (forall i j, 0 <= i < 4 -> 0 <= j < 4 -> prog s i = [] ->
       prog s j <> prog (barrier_net 4 0 req) j) /\
    (forall i, 0 <= i < 4 -> prog s i <> [] -> exists s', barrier_step 4 s s').
Proof.
  intros req.
  pose proof (StepSend act_kind (fun (_ : col_act) (_ : unit) => tt) (fun _ _ _ => tt)
    (fun _ _ => tt) 4 (barrier_net 4 0 req) 2 (ASend 8 3) [ARecv 8 1; ASend 8 0; ARecv 8 0] 3
    ltac:(lia) eq_refl eq_refl) as Hst.
  eexists. split; [exact (rtc_once _ _ Hst)|]. split; [done|].
  assert (fresh_req req) as Hf by done.
  destruct (barrier_synchronises 4 0 req _ ltac:(lia) Hf (rtc_once _ _ Hst)) as (_ & H1 & H2 & _).
  exact (conj H1 H2).
Defined.
