(* ===== verification/Reduce.v ===== *)
(** * What broadcast and allreduce compute (about Coll.v, under the semantics of Net.v)

    Each rank has a memory of buffers by address; a send reads its buffer when it is
    executed, a receive writes the buffer that was posted. *)
From stdpp Require Import gmap.
From S2P Require Import Prelude Config State Proto Api Coll Net CollSpec.

Section mem.
Context {V : Type} (f : V -> V -> V).

Definition act_send (a : col_act) (m : gmap Z V) : option V :=
  match a with ASend src _ => m !! src | _ => None end.
Definition act_recv (a : col_act) (v : option V) (m : gmap Z V) : gmap Z V :=
  match a with ARecv dst _ => partial_alter (fun _ => v) dst m | _ => m end.
Definition act_local (a : col_act) (m : gmap Z V) : gmap Z V :=
  match a with
  | AOp dst src =>
      match m !! dst, m !! src with Some d, Some s => <[dst := f d s]> m | _, _ => m end
  | AMem dst src => partial_alter (fun _ => m !! src) dst m
  | AFree p => delete p m
  | _ => m
  end.

Definition mem_step : Z -> @net col_act (gmap Z V) (option V) -> net -> Prop :=
  net_step act_kind act_send act_recv act_local.
End mem.

(** ** Broadcast *)

Section bcast.
Context {V : Type} (f : V -> V -> V).
Context (n root count comm : Z) (buf : Z -> Z) (req : lc_colreq).
Context (Hroot : 0 <= root < n) (Hreq : fresh_req req).

Definition bcast_net (mem : Z -> gmap Z V) : @net col_act (gmap Z V) (option V) :=
  Net (fun i => prog_of (bcast_schedule (buf i) count root i n comm req)) mem (fun _ _ => []).

(** Rank [q] has its message sent at level [2 q] and received at level [2 q + 1]. *)
Definition bcast_at (i : Z) (l : nat) : option col_act :=
  let q := Z.of_nat (l / 2) in
  if decide (q = root) then None
  else if decide (l mod 2 = 0)%nat then
    if decide (i = root) then Some (ASend (buf root) q) else None
  else if decide (i = q) then Some (ARecv (buf i) root) else None.

Lemma bcast_at_even i k :
  bcast_at i (2 * k) =
  if decide (i = root /\ Z.of_nat k <> root) then Some (ASend (buf root) (Z.of_nat k)) else None.
Proof.
  unfold bcast_at. rewrite Nat.mul_comm, Nat.Div0.mod_mul, Nat.div_mul by lia.
  repeat case_decide; naive_solver.
Qed.

Lemma bcast_at_odd i k :
  bcast_at i (1 + 2 * k) =
  if decide (i = Z.of_nat k /\ i <> root) then Some (ARecv (buf i) root) else None.
Proof.
  unfold bcast_at. assert ((1 + 2 * k) mod 2 = 1)%nat as ->.
  { symmetry. apply (Nat.mod_unique _ _ k); lia. }
  assert ((1 + 2 * k) / 2 = k)%nat as ->.
  { symmetry. apply (Nat.div_unique _ _ k 1); lia. }
  repeat case_decide; naive_solver.
Qed.

Lemma bcast_at_some i l o : bcast_at i l = Some o ->
  exists k, Z.of_nat k <> root /\
    ((l = 2 * k)%nat /\ i = root /\ o = ASend (buf root) (Z.of_nat k) \/
     (l = 1 + 2 * k)%nat /\ i = Z.of_nat k /\ o = ARecv (buf i) root).
Proof.
  intros E. destruct (even_or_odd l) as [k [->| ->]]; exists k.
  - rewrite bcast_at_even in E. case_decide; naive_solver.
  - rewrite bcast_at_odd in E. case_decide; naive_solver.
Qed.

Lemma bcast_in_step : in_step act_kind n (2 * Z.to_nat n) bcast_at.
Proof.
  split.
  - intros i l o q Hi Hl E Ek. apply bcast_at_some in E as (k & Hk & [(-> & -> & ->)|(-> & -> & ->)]);
      [done|]. injection Ek as <-. exists (2 * k)%nat. eexists. split; [done|]. split; [done|].
    rewrite bcast_at_even, decide_True by done. done.
  - intros i l l' o o' to Hi Hl Hl' E E' Ek Ek'.
    apply bcast_at_some in E as (k & Hk & [(-> & -> & ->)|(-> & -> & ->)]); [|done].
    apply bcast_at_some in E' as (k' & Hk' & [(-> & ? & ->)|(-> & ? & ->)]); [|done].
    injection Ek as <-. injection Ek' as E. lia.
  - intros i l l' o o' to Hi Hl Hl' E E' Ek Ek'.
    apply bcast_at_some in E as (k & Hk & [(-> & -> & ->)|(-> & -> & ->)]); [done|].
    apply bcast_at_some in E' as (k' & Hk' & [(-> & ? & ->)|(-> & ? & ->)]); [done|]. lia.
Qed.

(** The part of a rank's program for the ranks [j], ..., [j + k - 1]. *)
Lemma bcast_acts_S i j k :
  omap (bcast_at i) (seq (2 * j) (2 * S k)) =
  (if decide (i = root /\ Z.of_nat j <> root) then [ASend (buf root) (Z.of_nat j)] else []) ++
  (if decide (i = Z.of_nat j /\ i <> root) then [ARecv (buf i) root] else []) ++
  omap (bcast_at i) (seq (2 * S j) (2 * k)).
Proof.
  replace (2 * S k)%nat with (S (S (2 * k))) by lia. cbn [seq omap list_omap].
  rewrite bcast_at_even. replace (S (2 * j)) with (1 + 2 * j)%nat by lia. rewrite bcast_at_odd.
  replace (S (1 + 2 * j)) with (2 * S j)%nat by lia. by repeat case_decide.
Qed.

(** The sends the ranks [j], ..., [j + k - 1] need, when the root is not behind them. *)
Definition sends_left (j : Z) (k : nat) : nat := if decide (j <= root) then pred k else k.

Lemma bcast_sends_ok k : forall j req0, (j + k)%nat = Z.to_nat n ->
  room req0 (sends_left (Z.of_nat j) k) ->
  exists req', bcast_sends k (buf root) count root comm (Z.of_nat j) req0 = Ok req' /\
    expand_all (next req') =
      expand_all (next req0) ++ omap (bcast_at root) (seq (2 * j) (2 * k)).
Proof.
  unfold sends_left. induction k as [|k IH]; intros j req0 Hj Hroom.
  { exists req0. cbn. by rewrite app_nil_r. }
  cbn [bcast_sends]. rewrite bcast_acts_S.
  rewrite (decide_False (P := root = Z.of_nat j /\ root <> root)) by naive_solver.
  replace (Z.of_nat j + 1) with (Z.of_nat (S j)) by lia.
  destruct (Z.eqb_spec (Z.of_nat j) root) as [E|E].
  - rewrite decide_False by naive_solver. cbn [mbind result_bind app].
    apply IH; [lia|]. rewrite decide_True in Hroom by lia. rewrite decide_False by lia. done.
  - rewrite decide_True by done. unfold lc_col_send.
    destruct (col_push_ok (ColSched (buf root) 0 count (Z.of_nat j) MCA_COLL_BASE_TAG_IBCAST comm
      LC_COL_SEND) req0 (if decide (Z.of_nat (S j) <= root) then pred k else k))
      as (req1 & E1 & N1 & R1 & _).
    { eapply room_le; [|exact Hroom]. repeat case_decide; lia. }
    rewrite E1. cbn [mbind result_bind]. destruct (IH (S j) req1) as (req' & E' & N'); [lia|done|].
    exists req'. split; [done|]. by rewrite N', N1, expand_all_app, <- app_assoc.
Qed.

Lemma bcast_sends_overflow k : forall j req0, (j + k)%nat = Z.to_nat n ->
  total req0 <= MAX_SCHED -> MAX_SCHED < total req0 + Z.of_nat (sends_left (Z.of_nat j) k) ->
  bcast_sends k (buf root) count root comm (Z.of_nat j) req0 = Err OutOfBounds.
Proof.
  unfold sends_left. induction k as [|k IH]; intros j req0 Hj Hle Hlt.
  { exfalso. case_decide; cbn in Hlt; lia. }
  cbn [bcast_sends]. replace (Z.of_nat j + 1) with (Z.of_nat (S j)) by lia.
  destruct (Z.eqb_spec (Z.of_nat j) root) as [E|E].
  - cbn [mbind result_bind]. apply IH; [lia|done|]. rewrite decide_True in Hlt by lia.
    rewrite decide_False by lia. done.
  - unfold lc_col_send, col_push. case_zbool; [|done]. cbn [mbind result_bind].
    apply IH; cbn [total]; [lia|lia|]. repeat case_decide; lia.
Qed.

(** A rank that is not the root has only its receive. *)
Lemma bcast_leaf_acts i k : forall j, i <> root ->
  omap (bcast_at i) (seq (2 * j) (2 * k)) =
  if decide (Z.of_nat j <= i < Z.of_nat (j + k)) then [ARecv (buf i) root] else [].
Proof.
  induction k as [|k IH]; intros j Hi.
  { rewrite decide_False by lia. done. }
  rewrite bcast_acts_S, IH by done. repeat case_decide; try done; exfalso; lia.
Qed.

Lemma bcast_prog i : 0 <= i < n -> n <= MAX_SCHED + 1 ->
  is_ok (bcast_schedule (buf i) count root i n comm req) = true /\
  prog_of (bcast_schedule (buf i) count root i n comm req) =
    level_prog (2 * Z.to_nat n) bcast_at i 0.
Proof.
  intros Hi Hmax. destruct Hreq as [Ht Hnx]. unfold bcast_schedule, level_prog.
  rewrite Nat.sub_0_r. destruct (Z.eqb_spec i root) as [E|E]; cbn [negb].
  - subst i. destruct (bcast_sends_ok (Z.to_nat n) 0 req) as (req' & E' & N'); [lia| |].
    { split; [by rewrite Ht, Hnx|]. unfold sends_left. rewrite Ht, decide_True by lia. lia. }
    change (Z.of_nat 0) with 0 in E'. rewrite E'. split; [done|]. cbn. by rewrite N', Hnx.
  - unfold lc_col_recv.
    destruct (col_push_ok (ColSched (buf i) 0 count root MCA_COLL_BASE_TAG_IBCAST comm LC_COL_RECV)
      req 0) as (req' & E' & N' & _).
    { split; [by rewrite Ht, Hnx|rewrite Ht; unfold MAX_SCHED; lia]. }
    rewrite E'. split; [done|]. cbn. rewrite N', Hnx.
    pose proof (bcast_leaf_acts i (Z.to_nat n) 0 E) as Hl. rewrite decide_True in Hl by lia.
    symmetry. exact Hl.
Qed.

Context (mem : Z -> gmap Z V).
Notation state := (lockstep act_kind act_send act_recv (act_local f) bcast_at mem).

Lemma bcast_root_state l : state l root = mem root.
Proof.
  induction l as [|l IH]; [done|]. destruct (bcast_at root l) as [o|] eqn:E.
  - pose proof E as E'. apply bcast_at_some in E as (k & Hk & [(-> & _ & ->)|(-> & Hr & ->)]); [|lia].
    by erewrite lockstep_send by (done || exact E').
  - by rewrite lockstep_none.
Qed.

Lemma bcast_leaf_state i l : 0 <= i < n -> i <> root -> (2 * Z.to_nat i + 2 <= l)%nat ->
  state l i !! buf i = mem root !! buf root.
Proof.
  intros Hi Hne Hl. induction Hl as [|l Hl IH].
  - replace (2 * Z.to_nat i + 2)%nat with (S (S (2 * Z.to_nat i))) by lia.
    erewrite (lockstep_recv _ _ _ _ _ _ _ _ (ARecv (buf i) root) root (ASend (buf root) i) i);
      try done.
    + cbn [act_recv act_send]. by rewrite lookup_partial_alter_eq, bcast_root_state.
    + change (S (2 * Z.to_nat i)) with (1 + 2 * Z.to_nat i)%nat.
      rewrite bcast_at_odd, decide_True by lia. done.
    + rewrite bcast_at_even, decide_True by lia. by rewrite Z2Nat.id by lia.
  - rewrite lockstep_none; [done|]. destruct (bcast_at i l) as [o|] eqn:E; [|done].
    apply bcast_at_some in E as (k & Hk & [(_ & ? & _)|(-> & -> & _)]); [done|lia].
Qed.

End bcast.

(** C6: Broadcast among at most 129 ranks (the root schedules one send for each other rank, in
    a table of 128): in every interleaving a rank that is done has the root's value in its
    buffer, no run gets stuck, and runs are no longer than the schedules.  With more ranks
    the root writes behind the table. *)
Theorem bcast_delivers {V} (f : V -> V -> V) n root count comm (buf : Z -> Z) req
    (mem : Z -> gmap Z V) s :
  0 <= root < n -> fresh_req req ->
  (n <= MAX_SCHED + 1 ->
   rtc (mem_step f n) (bcast_net n root count comm buf req mem) s ->
   (forall i, 0 <= i < n -> is_ok (bcast_schedule (buf i) count root i n comm req) = true) /\
   (forall i, 0 <= i < n -> prog s i = [] -> data s i !! buf i = mem root !! buf root) /\
   (forall i, 0 <= i < n -> prog s i <> [] -> exists s', mem_step f n s s') /\
   (forall k, nsteps (mem_step f n) k (bcast_net n root count comm buf req mem) s ->
      (k <= net_size n (bcast_net n root count comm buf req mem))%nat)) /\
  (MAX_SCHED + 1 < n -> bcast_schedule (buf root) count root root n comm req = Err OutOfBounds).
Proof.
  intros Hroot Hreq. split; [intros Hmax Hrun|intros Hmax].
  - split; [intros i Hi; by apply (bcast_prog n root)|].
    destruct (lockstep_run act_kind act_send act_recv (act_local f) n (2 * Z.to_nat n)
      (bcast_at root buf) mem (bcast_net n root count comm buf req mem) s) as [Hdone Hprog];
      [by apply bcast_in_step| |done|].
    + split; [|done]. intros i Hi. split; [|done]. by apply (bcast_prog n root).
    + split; [|split; [exact Hprog|intros k; apply net_steps_bound]].
      intros i Hi Hp. rewrite Hdone by done. destruct (decide (i = root)) as [->|Hne].
      * f_equal. by apply (bcast_root_state f n root comm buf).
      * apply (bcast_leaf_state f n root comm buf Hroot); try done; lia.
  - unfold bcast_schedule. rewrite Z.eqb_refl. cbn [negb]. destruct Hreq as [Ht _].
    apply (bcast_sends_overflow n root count comm buf Hroot (Z.to_nat n) 0); [lia| |];
      rewrite Ht; [done|]. unfold sends_left. rewrite decide_True; lia.
Qed.

(** Three ranks with root 1 whose message to rank 0 was taken. *)
Lemma bcast_delivers_witness :
  let req := ColReq 0 0 0 0 0 0 [] 8 in
  let mem : Z -> gmap Z Z := fun i => if i =? 1 then {[16 := 7]} else ∅ in
  exists s, rtc (mem_step Z.add 3) (bcast_net 3 1 1 0 (fun i => 15 + i) req mem) s /\
    prog s 0 = [] /\ data s 0 !! 15 = Some 7 /\
    bcast_schedule 16 1 1 1 200 0 req = Err OutOfBounds.
Proof.
  intros req mem. assert (fresh_req req) as Hf by done.
  pose proof (StepSend act_kind act_send act_recv (act_local Z.add) 3
    (bcast_net 3 1 1 0 (fun i => 15 + i) req mem) 1 (ASend 16 0) [ASend 16 2] 0
    ltac:(lia) eq_refl eq_refl) as H1.
  epose proof (StepRecv act_kind act_send act_recv (act_local Z.add) 3
    _ 0 (ARecv 15 1) [] 1 (Some 7) [] ltac:(lia) _ eq_refl _) as H2.
  pose proof (rtc_l _ _ _ _ H1 (rtc_once _ _ H2)) as Hrun.
  eexists. split; [exact Hrun|]. split; [done|]. split.
  - destruct (proj1 (bcast_delivers Z.add 3 1 1 0 (fun i => 15 + i) req mem _ ltac:(lia) Hf)
      ltac:(unfold MAX_SCHED; lia) Hrun) as (_ & Hd & _).
    refine (eq_trans (Hd 0 ltac:(lia) eq_refl) _). done.
  - apply (bcast_delivers Z.add 200 1 1 0 (fun i => 15 + i) req mem
      (bcast_net 200 1 1 0 (fun i => 15 + i) req mem)); [lia|done|unfold MAX_SCHED; lia].
  Unshelve. all: done.
Defined.
