(* ===== verification/Allreduce.v ===== *)
(** * What allreduce computes (about Coll.v, under the semantics of Net.v)

    Recursive doubling: with [2 ^ m] the greatest power of two within the size and [extra]
    the ranks above it, the even ones of the first [2 extra] ranks fold into their odd
    neighbours, the [2 ^ m] holders exchange in [m] rounds, and the result goes back. *)
From stdpp Require Import gmap.
From S2P Require Import Prelude Config State Proto Api Coll Net CollSpec Reduce.

(** ** The reference: the reduction of a list of ranks' values *)

Section red.
Context {V : Type} (f : V -> V -> V) `{!Assoc (=) f, !Comm (=) f} (x : Z -> V).

Definition comb (a b : option V) : option V :=
  match a, b with Some v, Some w => Some (f v w) | Some v, None => Some v | None, _ => b end.

(** [x l0 * (x l1 * ...)]; nothing for no ranks. *)
Definition red (l : list Z) : option V := foldr (fun i => comb (Some (x i))) None l.

#[export] Instance comb_assoc : Assoc (=) comb.
Proof. intros [a|] [b|] [c|]; cbn; try done. by rewrite (assoc f). Qed.
#[export] Instance comb_comm : Comm (=) comb.
Proof. intros [a|] [b|]; cbn; try done. by rewrite (comm f). Qed.

Lemma red_app l1 l2 : red (l1 ++ l2) = comb (red l1) (red l2).
Proof.
  unfold red. induction l1 as [|i l1 IH]; [done|]. cbn [foldr app]. rewrite IH.
  by rewrite (assoc comb).
Qed.

#[export] Instance red_proper : Proper ((≡ₚ) ==> (=)) red.
Proof.
  intros l1 l2 Hp. unfold red. induction Hp; cbn [foldr]; try congruence.
  by rewrite !(assoc comb), (comm comb (Some (x y))).
Qed.

Lemma red_some l : l <> [] -> exists v, red l = Some v.
Proof. destruct l as [|i l]; [done|]. intros _. cbn. destruct (foldr _ None l); eauto. Qed.
End red.

(** ** New ranks *)

Definition lg (n : Z) : nat := Z.to_nat (Z.log2 n).
Definition adj (n : Z) : Z := 2 ^ Z.of_nat (lg n).
Definition extra (n : Z) : Z := n - adj n.
Definition newrank (n i : Z) : Z :=
  if i <? 2 * extra n then if 0 =? Z.rem i 2 then -1 else Z.shiftr i 1 else i - extra n.
Definition oldrank (n v : Z) : Z := if v <? extra n then v * 2 + 1 else v + extra n.

Lemma adj_spec n : 0 < n -> adj n <= n < 2 * adj n.
Proof.
  intros Hn. unfold adj, lg. rewrite Z2Nat.id by apply Z.log2_nonneg.
  pose proof (Z.log2_spec n Hn) as H. rewrite Z.pow_succ_r in H by apply Z.log2_nonneg. lia.
Qed.

Lemma adj_pos n : 0 < adj n.
Proof. apply Z.pow_pos_nonneg; lia. Qed.

(** What a rank is: the even half of a folded pair, the odd half, or unpaired. *)
Inductive role (n i : Z) : Type :=
| RoleEven (v : Z) : i = 2 * v -> 0 <= v < extra n -> role n i
| RoleOdd (v : Z) : i = 2 * v + 1 -> 0 <= v < extra n -> role n i
| RolePlain (v : Z) : i = v + extra n -> extra n <= v < adj n -> role n i.

Lemma role_of n i : 0 < n -> 0 <= i < n -> role n i.
Proof.
  intros Hn Hi. pose proof (adj_spec n Hn). destruct (decide (i < 2 * extra n)).
  - pose proof (Z.div_mod i 2 ltac:(lia)). pose proof (Z.mod_pos_bound i 2 ltac:(lia)).
    destruct (decide (i mod 2 = 0)); [apply (RoleEven n i (i / 2))|apply (RoleOdd n i (i / 2))]; lia.
  - apply (RolePlain n i (i - extra n)); unfold extra in *; lia.
Qed.

Lemma rem_even v : Z.rem (2 * v) 2 = 0.
Proof. rewrite Z.mul_comm. apply Z.rem_mul. lia. Qed.
Lemma rem_odd v : 0 <= v -> Z.rem (2 * v + 1) 2 = 1.
Proof. intros. rewrite Z.rem_mod_nonneg by lia. symmetry. apply (Z.mod_unique _ _ v); lia. Qed.
Lemma shiftr_odd v : Z.shiftr (2 * v + 1) 1 = v.
Proof. rewrite Z.shiftr_div_pow2 by lia. symmetry. apply (Z.div_unique _ _ v 1); lia. Qed.

Lemma newrank_even n v : v < extra n -> newrank n (2 * v) = -1.
Proof. intros. unfold newrank. rewrite (proj2 (Z.ltb_lt _ _)) by lia. by rewrite rem_even. Qed.
Lemma newrank_odd n v : 0 <= v < extra n -> newrank n (2 * v + 1) = v.
Proof.
  intros. unfold newrank. rewrite (proj2 (Z.ltb_lt _ _)) by lia. rewrite rem_odd by lia.
  cbn. apply shiftr_odd.
Qed.
Lemma newrank_plain n v : extra n <= v -> newrank n (v + extra n) = v.
Proof. intros. unfold newrank. rewrite (proj2 (Z.ltb_ge _ _)) by lia. lia. Qed.

Lemma newrank_old n v : 0 <= v -> newrank n (oldrank n v) = v.
Proof.
  intros. unfold oldrank. case_zbool.
  - rewrite (Z.mul_comm v 2). by apply newrank_odd.
  - by apply newrank_plain.
Qed.

Lemma oldrank_range n v : 0 < n -> 0 <= v < adj n -> 0 <= oldrank n v < n.
Proof. intros Hn Hv. pose proof (adj_spec n Hn). unfold oldrank, extra in *. case_zbool; lia. Qed.

Lemma oldrank_new n i : 0 < n -> 0 <= i < n -> 0 <= newrank n i ->
  oldrank n (newrank n i) = i /\ newrank n i < adj n.
Proof.
  intros Hn Hi Hv. pose proof (adj_spec n Hn). destruct (role_of n i Hn Hi) as [v -> ?|v -> ?|v -> ?].
  - rewrite newrank_even in Hv by lia. lia.
  - rewrite newrank_odd by lia. unfold oldrank. rewrite (proj2 (Z.ltb_lt _ _)) by lia.
    unfold extra in *. lia.
  - rewrite newrank_plain by lia. unfold oldrank. rewrite (proj2 (Z.ltb_ge _ _)) by lia. lia.
Qed.

(** The partner in round [k]. *)
Lemma lxor_range m v k : 0 <= v < 2 ^ Z.of_nat m -> (k < m)%nat ->
  0 <= Z.lxor v (2 ^ Z.of_nat k) < 2 ^ Z.of_nat m.
Proof.
  intros Hv Hk. assert (0 < 2 ^ Z.of_nat k) by (apply Z.pow_pos_nonneg; lia).
  assert (0 <= Z.lxor v (2 ^ Z.of_nat k)) as H0 by (apply Z.lxor_nonneg; lia).
  split; [done|]. destruct (decide (Z.lxor v (2 ^ Z.of_nat k) = 0)); [lia|].
  apply Z.log2_lt_pow2; [lia|]. eapply Z.le_lt_trans; [apply Z.log2_lxor; lia|].
  rewrite Z.log2_pow2 by lia. apply Z.max_lub_lt; [|lia].
  destruct (decide (v = 0)) as [->|]; [cbn; lia|]. apply Z.log2_lt_pow2; lia.
Qed.

Lemma lxor_twice v p : Z.lxor (Z.lxor v p) p = v.
Proof. by rewrite Z.lxor_assoc, Z.lxor_nilpotent, Z.lxor_0_r. Qed.
Lemma lxor_inj v p q : Z.lxor v p = Z.lxor v q -> p = q.
Proof.
  intros E. rewrite <- (lxor_twice p v), <- (lxor_twice q v).
  by rewrite (Z.lxor_comm p v), (Z.lxor_comm q v), E.
Qed.

(** ** The ranks a holder has reduced after [k] rounds *)

Definition base (n v : Z) : list Z := if v <? extra n then [2 * v + 1; 2 * v] else [v + extra n].
Definition blk (n : Z) (k : nat) (v : Z) : list Z :=
  concat (base n <$> seqZ (2 ^ Z.of_nat k * (v / 2 ^ Z.of_nat k)) (2 ^ Z.of_nat k)).

Lemma concat_fmap_app {A B} (g : A -> list B) l1 l2 :
  concat (g <$> (l1 ++ l2)) = concat (g <$> l1) ++ concat (g <$> l2).
Proof. by rewrite fmap_app, concat_app. Qed.

Lemma blk_0 n v : blk n 0 v = base n v.
Proof.
  unfold blk. change (2 ^ Z.of_nat 0) with 1. rewrite Z.div_1_r, Z.mul_1_l.
  rewrite seqZ_cons by lia. cbn [fmap list_fmap concat].
  change (seqZ (Z.succ v) (Z.pred 1)) with (@nil Z). cbn. by rewrite app_nil_r.
Qed.

Lemma div_lxor v k : 0 <= v ->
  Z.lxor v (2 ^ Z.of_nat k) / 2 ^ Z.of_nat k = Z.lxor (v / 2 ^ Z.of_nat k) 1.
Proof.
  intros. rewrite <- !Z.shiftr_div_pow2, Z.shiftr_lxor by lia. f_equal.
  rewrite Z.shiftr_div_pow2 by lia. apply Z.div_same. lia.
Qed.

Lemma lxor_1 q : 0 <= q -> Z.lxor q 1 = if decide (q mod 2 = 0) then q + 1 else q - 1.
Proof.
  intros Hq. pose proof (Z.div_mod q 2 ltac:(lia)) as E. pose proof (Z.mod_pos_bound q 2 ltac:(lia)).
  assert (Z.lxor q 1 / 2 = q / 2) as E1.
  { rewrite <- !Z.div2_div. apply Z.bits_inj'. intros b Hb.
    rewrite !Z.div2_spec, !Z.shiftr_spec, Z.lxor_spec by lia.
    replace (Z.testbit 1 (b + 1)) with false; [apply xorb_false_r|].
    symmetry. apply Z.bits_above_log2; cbn; lia. }
  assert (Z.lxor q 1 mod 2 = 1 - q mod 2) as E2.
  { rewrite <- !Z.bit0_mod, Z.lxor_spec. change (Z.testbit 1 0) with true. by destruct (Z.testbit q 0). }
  pose proof (Z.div_mod (Z.lxor q 1) 2 ltac:(lia)). case_decide; lia.
Qed.

Lemma blk_S n k v : 0 <= v -> blk n k v ++ blk n k (Z.lxor v (2 ^ Z.of_nat k)) ≡ₚ blk n (S k) v.
Proof.
  intros Hv. unfold blk. rewrite div_lxor by done.
  assert (0 < 2 ^ Z.of_nat k) as Hp by (apply Z.pow_pos_nonneg; lia).
  set (p := 2 ^ Z.of_nat k) in *. rewrite Nat2Z.inj_succ, Z.pow_succ_r by lia. fold p.
  assert (v / (2 * p) = v / p / 2) as -> by (rewrite Z.div_div by lia; f_equal; lia).
  set (q := v / p). assert (0 <= q) by (apply Z.div_pos; lia).
  pose proof (Z.div_mod q 2 ltac:(lia)) as E. pose proof (Z.mod_pos_bound q 2 ltac:(lia)).
  rewrite lxor_1 by done.
  replace (2 * p) with (p + p) at 2 by lia. rewrite (seqZ_app _ p p) by lia.
  rewrite concat_fmap_app. case_decide as Hd.
  - replace (2 * p * (q / 2)) with (p * q) by nia. replace (p * (q + 1)) with (p * q + p) by lia. done.
  - replace (2 * p * (q / 2)) with (p * (q - 1)) by nia.
    replace (p * (q - 1) + p) with (p * q) by lia. apply Permutation_app_comm.
Qed.

Lemma base_pairs n k : forall a, 0 <= a -> a + Z.of_nat k <= extra n ->
  concat (base n <$> seqZ a (Z.of_nat k)) ≡ₚ seqZ (2 * a) (2 * Z.of_nat k).
Proof.
  induction k as [|k IH]; intros a Ha Hk; [done|].
  rewrite seqZ_cons by lia. replace (Z.pred (Z.of_nat (S k))) with (Z.of_nat k) by lia.
  cbn [fmap list_fmap concat]. rewrite IH by lia.
  unfold base at 1. rewrite (proj2 (Z.ltb_lt _ _)) by lia.
  rewrite (seqZ_cons (2 * a)), (seqZ_cons (Z.succ (2 * a))) by lia.
  replace (Z.succ (2 * a)) with (2 * a + 1) by lia.
  replace (Z.succ (2 * a + 1)) with (2 * Z.succ a) by lia.
  replace (Z.pred (Z.pred (2 * Z.of_nat (S k)))) with (2 * Z.of_nat k) by lia.
  cbn. apply Permutation_swap.
Qed.

Lemma base_plain n k : forall a, extra n <= a ->
  concat (base n <$> seqZ a (Z.of_nat k)) = seqZ (a + extra n) (Z.of_nat k).
Proof.
  induction k as [|k IH]; intros a Ha; [done|].
  rewrite (seqZ_cons a) by lia. replace (Z.pred (Z.of_nat (S k))) with (Z.of_nat k) by lia.
  cbn [fmap list_fmap concat]. rewrite IH by lia.
  unfold base at 1. rewrite (proj2 (Z.ltb_ge _ _)) by lia.
  rewrite (seqZ_cons (a + extra n)) by lia.
  replace (Z.pred (Z.of_nat (S k))) with (Z.of_nat k) by lia.
  by replace (Z.succ a + extra n) with (Z.succ (a + extra n)) by lia.
Qed.

(** After all rounds a holder has every rank exactly once. *)
Lemma blk_all n v : 0 < n -> 0 <= v < adj n -> blk n (lg n) v ≡ₚ seqZ 0 n.
Proof.
  intros Hn Hv. pose proof (adj_spec n Hn). unfold blk. fold (adj n).
  rewrite Z.div_small by done. rewrite Z.mul_0_r. set (e := extra n). set (d := adj n - e).
  assert (0 <= e /\ 0 <= d) as [He Hd] by (unfold d, e, extra in *; lia).
  assert (seqZ 0 n = seqZ 0 (2 * e) ++ seqZ (2 * e) d) as ->.
  { change (2 * e) with (0 + 2 * e) at 2. rewrite <- (seqZ_app 0 (2 * e) d) by lia. f_equal. unfold d, e, extra. lia. }
  replace (adj n) with (e + d) by (unfold d; lia). rewrite (seqZ_app 0 e d) by lia.
  rewrite concat_fmap_app. f_equiv.
  - rewrite <- (Z2Nat.id e) by done. apply (base_pairs n _ 0); [lia|]. unfold e in *. lia.
  - rewrite <- (Z2Nat.id d) by done. rewrite base_plain by (unfold e; lia).
    replace (0 + e + extra n) with (2 * e) by (unfold e; lia). done.
Qed.

(** ** Building schedules *)

Lemma result_bind_assoc {A B C} (r : result A) (g : A -> result B) (h : B -> result C) :
  (r ≫= g) ≫= h = r ≫= (fun a => g a ≫= h).
Proof. by destruct r. Qed.

(** [res] is [req] with the operations [acts] appended, and room for [k] more entries. *)
Definition appends (k : nat) (req : lc_colreq) (acts : list col_act) (res : result lc_colreq)
    : Prop :=
  exists req', res = Ok req' /\ expand_all (next req') = expand_all (next req) ++ acts /\
    room req' k.

Lemma appends_push k req o : room req (S k) -> appends k req (expand o) (col_push o req).
Proof.
  intros Hroom. destruct (col_push_ok o req k Hroom) as (req' & E & N & R & _).
  exists req'. split; [done|]. split; [|done]. rewrite N, expand_all_app. f_equal.
  unfold expand_all. cbn. by rewrite app_nil_r.
Qed.

Lemma appends_ok k req : room req k -> appends k req [] (Ok req).
Proof. intros. exists req. by rewrite app_nil_r. Qed.

Lemma appends_bind k k' req acts acts' res g :
  appends k req acts res -> (forall req', room req' k -> appends k' req' acts' (g req')) ->
  appends k' req (acts ++ acts') (res ≫= g).
Proof.
  intros (req1 & -> & N1 & R1) Hg. destruct (Hg req1 R1) as (req2 & E2 & N2 & R2).
  exists req2. split; [done|]. split; [|done]. by rewrite N2, N1, app_assoc.
Qed.

Lemma appends_eq k req acts acts' res : acts = acts' -> appends k req acts res ->
  appends k req acts' res.
Proof. by intros ->. Qed.

Lemma adjsize_adj n : 0 < n < 2 ^ 30 -> Z.shiftr (opal_next_poweroftwo n) 1 = adj n.
Proof.
  intros Hn. unfold opal_next_poweroftwo. rewrite (proj2 (Z.eqb_neq _ _)) by lia.
  unfold builtin_clz. replace (32 - (31 - Z.log2 n)) with (Z.succ (Z.log2 n)) by lia.
  pose proof (Z.log2_nonneg n). assert (Z.log2 n < 30) by (apply Z.log2_lt_pow2; lia).
  rewrite Z.shiftl_1_l, i32_small.
  - rewrite Z.shiftr_div_pow2, Z.pow_succ_r, Z.mul_comm, Z.div_mul by lia.
    unfold adj, lg. by rewrite Z2Nat.id.
  - assert (0 < 2 ^ Z.succ (Z.log2 n)) by (apply Z.pow_pos_nonneg; lia).
    pose proof (Z.pow_le_mono_r 2 (Z.succ (Z.log2 n)) 30 ltac:(lia) ltac:(lia)). lia.
Qed.

(** ** The operations by rounds of three levels *)

Section allreduce.
Context (n : Z) (ib rb : Z -> Z).

Definition slots : Type := option col_act * option col_act * option col_act.
Definition slot (t : slots) (j : nat) : option col_act :=
  match j with O => t.1.1 | 1%nat => t.1.2 | _ => t.2 end.

Definition ar_round (i : Z) (r : nat) : slots :=
  if decide (r = 0)%nat then
    if decide (i < 2 * extra n) then
      if decide (newrank n i < 0) then (Some (ASend (ib i) (i + 1)), None, None)
      else (None, Some (ARecv (rb i) (i - 1)), Some (AOp (ib i) (rb i)))
    else (None, None, None)
  else if decide (r <= lg n)%nat then
    if decide (newrank n i < 0) then (None, None, None)
    else
      let p := oldrank n (Z.lxor (newrank n i) (2 ^ Z.of_nat (pred r))) in
      (Some (ASend (ib i) p), Some (ARecv (rb i) p), Some (AOp (ib i) (rb i)))
  else if decide (r = S (lg n)) then
    if decide (i < 2 * extra n) then
      if decide (newrank n i < 0) then (None, Some (ARecv (rb i) (i + 1)), None)
      else (Some (ASend (ib i) (i - 1)), None, Some (AMem (rb i) (ib i)))
    else (None, None, Some (AMem (rb i) (ib i)))
  else (Some (AFree (ib i)), None, None).

Definition ar_at (i : Z) (l : nat) : option col_act := slot (ar_round i (l / 3)) (l mod 3).
Definition ar_acts (i : Z) (r k : nat) : list col_act := omap (ar_at i) (seq (3 * r) (3 * k)).
Definition ar_levels : nat := 3 * (lg n + 3).

Lemma ar_at_3 i r j : (j < 3)%nat -> ar_at i (3 * r + j) = slot (ar_round i r) j.
Proof.
  intros Hj. unfold ar_at.
  assert ((3 * r + j) / 3 = r)%nat as -> by (symmetry; apply (Nat.div_unique _ _ r j); lia).
  assert ((3 * r + j) mod 3 = j)%nat as -> by (symmetry; apply (Nat.mod_unique _ _ r j); lia).
  done.
Qed.

Definition round_acts (t : slots) : list col_act := omap id [t.1.1; t.1.2; t.2].

Lemma ar_acts_S i r k : ar_acts i r (S k) = round_acts (ar_round i r) ++ ar_acts i (S r) k.
Proof.
  unfold ar_acts, round_acts. replace (3 * S k)%nat with (S (S (S (3 * k)))) by lia.
  cbn [seq omap list_omap]. pose proof (ar_at_3 i r 0 ltac:(lia)) as E0.
  pose proof (ar_at_3 i r 1 ltac:(lia)) as E1. pose proof (ar_at_3 i r 2 ltac:(lia)) as E2.
  replace (3 * r + 0)%nat with (3 * r)%nat in E0 by lia.
  replace (3 * r + 1)%nat with (S (3 * r)) in E1 by lia.
  replace (3 * r + 2)%nat with (S (S (3 * r))) in E2 by lia.
  rewrite E0, E1, E2. replace (S (S (S (3 * r)))) with (3 * S r)%nat by lia.
  destruct (ar_round i r) as [[[?|] [?|]] [?|]]; done.
Qed.

Lemma ar_acts_0 i r : ar_acts i r 0 = [].
Proof. done. Qed.

Lemma ar_acts_split i r k k' : ar_acts i r (k + k') = ar_acts i r k ++ ar_acts i (r + k) k'.
Proof.
  revert r. induction k as [|k IH]; intros r.
  - by rewrite Nat.add_0_r.
  - cbn [Nat.add]. rewrite !ar_acts_S, IH, <- app_assoc. do 3 f_equal. lia.
Qed.

(** The exchanges appear as the rounds [1], ..., [lg n]. *)
Lemma ar_round_mid i r : (1 <= r <= lg n)%nat ->
  ar_round i r = if decide (newrank n i < 0) then (None, None, None) else
    let p := oldrank n (Z.lxor (newrank n i) (2 ^ Z.of_nat (pred r))) in
    (Some (ASend (ib i) p), Some (ARecv (rb i) p), Some (AOp (ib i) (rb i))).
Proof. intros Hr. unfold ar_round. by rewrite decide_False, decide_True by lia. Qed.

Lemma ar_acts_folded i k : forall r, (1 <= r)%nat -> (r + k <= S (lg n))%nat -> newrank n i < 0 ->
  ar_acts i r k = [].
Proof.
  induction k as [|k IH]; intros r Hr Hk Hi; [done|].
  rewrite ar_acts_S, IH by (done || lia). rewrite ar_round_mid by lia. by rewrite decide_True.
Qed.

Lemma allreduce_loop_ok i count comm m k : forall fuel j req,
  0 <= newrank n i -> (j + k = lg n)%nat -> (k <= fuel)%nat -> room req (2 * k + m) ->
  appends m req (ar_acts i (S j) k)
    (allreduce_loop fuel (newrank n i) (extra n) (adj n) (2 ^ Z.of_nat j) (ib i) (rb i)
       count comm req).
Proof.
  induction k as [|k IH]; intros fuel j req Hi Hj Hf Hroom.
  - assert (2 ^ Z.of_nat j <? adj n = false) as E.
    { apply Z.ltb_ge. unfold adj. replace j with (lg n) by lia. lia. }
    rewrite ar_acts_0. destruct fuel; cbn [allreduce_loop]; rewrite E; by apply appends_ok.
  - assert (2 ^ Z.of_nat j <? adj n = true) as E.
    { apply Z.ltb_lt. unfold adj. apply Z.pow_lt_mono_r; lia. }
    destruct fuel as [|fuel]; [lia|]. cbn [allreduce_loop]. rewrite E.
    rewrite (proj2 (Z.ltb_ge _ _)) by lia. rewrite ar_acts_S, ar_round_mid by lia.
    rewrite decide_False by lia. cbv zeta. unfold round_acts. cbn [omap list_omap fst snd id].
    cbn [pred]. fold (oldrank n (Z.lxor (newrank n i) (2 ^ Z.of_nat j))).
    change (appends m req ([ASend (ib i) (oldrank n (Z.lxor (newrank n i) (2 ^ Z.of_nat j)));
        ARecv (rb i) (oldrank n (Z.lxor (newrank n i) (2 ^ Z.of_nat j)))] ++
      [AOp (ib i) (rb i)] ++ ar_acts i (S (S j)) k)
      (lc_col_sendrecv (ib i) (rb i) count (oldrank n (Z.lxor (newrank n i) (2 ^ Z.of_nat j)))
         MCA_COLL_BASE_TAG_IALLREDUCE comm req ≫= fun req =>
       lc_col_op (ib i) (rb i) count req ≫= fun req =>
       allreduce_loop fuel (newrank n i) (extra n) (adj n) (Z.shiftl (2 ^ Z.of_nat j) 1)
         (ib i) (rb i) count comm req)).
    eapply appends_bind; [apply (appends_push (S (2 * k + m)))|intros req1 R1].
    { eapply room_le; [|exact Hroom]. lia. }
    eapply appends_bind; [apply (appends_push (2 * k + m)); exact R1|intros req2 R2].
    rewrite Z.shiftl_mul_pow2 by lia.
    replace (2 ^ Z.of_nat j * 2 ^ 1) with (2 ^ Z.of_nat (S j))
      by (rewrite Nat2Z.inj_succ, Z.pow_succ_r; lia).
    apply IH; [done|lia|lia|done].
Qed.

(** ** The schedule is the program of the rounds *)

Context (Hn : 2 <= n < 2 ^ 30).

Lemma lg_bound : (1 <= lg n < 30)%nat.
Proof.
  unfold lg. assert (1 <= Z.log2 n) by (apply Z.log2_le_pow2; lia).
  assert (Z.log2 n < 30) by (apply Z.log2_lt_pow2; lia). lia.
Qed.

Lemma ar_levels_split i :
  level_prog ar_levels ar_at i 0 =
  round_acts (ar_round i 0) ++ ar_acts i 1 (lg n) ++
  round_acts (ar_round i (S (lg n))) ++ [AFree (ib i)].
Proof.
  unfold level_prog, ar_levels. rewrite Nat.sub_0_r.
  change (seq 0 (3 * (lg n + 3))) with (seq (3 * 0) (3 * (lg n + 3))).
  fold (ar_acts i 0 (lg n + 3)). replace (lg n + 3)%nat with (S (lg n + 2)) by lia.
  rewrite ar_acts_S, ar_acts_split, !ar_acts_S, ar_acts_0, app_nil_r. do 4 f_equal.
  unfold ar_round. rewrite !decide_False by lia. done.
Qed.

Lemma ar_round_last i : 0 <= i < n ->
  round_acts (ar_round i (S (lg n))) =
  if decide (i < 2 * extra n) then
    if decide (newrank n i < 0) then [ARecv (rb i) (i + 1)]
    else [ASend (ib i) (i - 1); AMem (rb i) (ib i)]
  else [AMem (rb i) (ib i)].
Proof.
  intros Hi. unfold ar_round. rewrite decide_False, decide_False, decide_True by lia.
  by repeat case_decide.
Qed.

Lemma ar_prog_even i v count comm req : 0 <= i < n -> room req (70 + 1) ->
  ib i <> rb i -> ib i <> NULL -> i = 2 * v -> 0 <= v < extra n ->
  appends 0 req (level_prog ar_levels ar_at i 0)
    (allreduce_schedule (ib i) (rb i) count i n comm req).
Proof.
  intros Hi Hroom Hne Hnull Ev Hv. pose proof lg_bound as Hlg. rewrite ar_levels_split.
  unfold allreduce_schedule. rewrite adjsize_adj by lia. fold (extra n).
  rewrite (proj2 (Z.eqb_neq (ib i) NULL)) by done. cbn [negb].
  rewrite ar_round_last by done.
  rewrite (proj2 (Z.ltb_lt i (2 * extra n))) by lia.
  assert (Z.rem i 2 = 0) as -> by (rewrite Ev; apply rem_even).
  assert (newrank n i = -1) as Enr by (rewrite Ev; apply newrank_even; lia).
  rewrite ar_acts_folded by lia. unfold ar_round. rewrite !decide_True by lia.
  cbn [Z.eqb round_acts omap list_omap fst snd id]. rewrite !result_bind_assoc.
  eapply appends_bind; [apply (appends_push 70), Hroom|intros req1 R1].
  change (Ok (-1, req1) ≫= ?g) with (g (-1, req1)). cbv beta iota.
  eapply (appends_bind 70 0 req1 []); [|intros req2 R2].
  { destruct (1 <? adj n) eqn:E1; cbn [allreduce_loop]; rewrite E1; by apply appends_ok. }
  rewrite !result_bind_assoc.
  eapply appends_bind; [apply (appends_push 69), R2|intros req3 R3].
  change (Ok (?a, req3) ≫= ?g) with (g (a, req3)). cbv beta iota.
  rewrite Z.eqb_refl. cbn [negb]. rewrite bind_Ok.
  apply appends_push. by eapply room_le; [|exact R3]; lia.
Qed.

Lemma ar_prog_odd i v count comm req : 0 <= i < n -> room req (70 + 1) ->
  ib i <> rb i -> ib i <> NULL -> i = 2 * v + 1 -> 0 <= v < extra n ->
  appends 0 req (level_prog ar_levels ar_at i 0)
    (allreduce_schedule (ib i) (rb i) count i n comm req).
Proof.
  intros Hi Hroom Hne Hnull Ev Hv. pose proof lg_bound as Hlg. rewrite ar_levels_split.
  unfold allreduce_schedule. rewrite adjsize_adj by lia. fold (extra n).
  rewrite (proj2 (Z.eqb_neq (ib i) NULL)) by done. cbn [negb].
  rewrite ar_round_last by done.
  rewrite (proj2 (Z.ltb_lt i (2 * extra n))) by lia.
  assert (Z.rem i 2 = 1) as -> by (rewrite Ev; apply rem_odd; lia).
  assert (newrank n i = v) as Enr by (rewrite Ev; apply newrank_odd; lia).
  assert (Z.shiftr i 1 = newrank n i) as -> by (rewrite Enr, Ev; apply shiftr_odd).
  unfold ar_round. rewrite decide_True, decide_True, decide_False by lia.
  cbn [Z.eqb round_acts omap list_omap fst snd id]. rewrite !result_bind_assoc.
  change ([ARecv (rb i) (i - 1); AOp (ib i) (rb i)])
    with ([ARecv (rb i) (i - 1)] ++ [AOp (ib i) (rb i)]). rewrite <- !app_assoc.
  eapply appends_bind; [apply (appends_push 70), Hroom|intros req1 R1].
  rewrite !result_bind_assoc.
  eapply appends_bind; [apply (appends_push 69), R1|intros req2 R2].
  change (Ok (?a, req2) ≫= ?g) with (g (a, req2)). cbv beta iota.
  eapply (appends_bind 3); [|intros req3 R3].
  { change 1 with (2 ^ Z.of_nat 0). apply allreduce_loop_ok; try lia.
    eapply room_le; [|exact R2]. lia. }
  rewrite !result_bind_assoc.
  rewrite decide_True, decide_False by lia.
  change ([ASend (ib i) (i - 1); AMem (rb i) (ib i)])
    with ([ASend (ib i) (i - 1)] ++ [AMem (rb i) (ib i)]). rewrite <- !app_assoc.
  eapply appends_bind; [apply (appends_push 2), R3|intros req4 R4].
  change (Ok (?a, req4) ≫= ?g) with (g (a, req4)). cbv beta iota.
  rewrite (proj2 (Z.eqb_neq (ib i) (rb i))) by done. cbn [negb].
  eapply appends_bind; [apply (appends_push 1), R4|intros req5 R5].
  apply appends_push. eapply room_le; [|exact R5]. lia.
Qed.

Lemma ar_prog_plain i v count comm req : 0 <= i < n -> room req (70 + 1) ->
  ib i <> rb i -> ib i <> NULL -> i = v + extra n -> extra n <= v < adj n ->
  appends 0 req (level_prog ar_levels ar_at i 0)
    (allreduce_schedule (ib i) (rb i) count i n comm req).
Proof.
  intros Hi Hroom Hne Hnull Ev Hv. pose proof lg_bound as Hlg. rewrite ar_levels_split.
  unfold allreduce_schedule. rewrite adjsize_adj by lia. fold (extra n).
  rewrite (proj2 (Z.eqb_neq (ib i) NULL)) by done. cbn [negb].
  rewrite ar_round_last by done.
  rewrite (proj2 (Z.ltb_ge i (2 * extra n))) by lia.
  assert (newrank n i = v) as Enr by (rewrite Ev; apply newrank_plain; lia).
  assert (i - extra n = newrank n i) as -> by lia.
  unfold ar_round. rewrite decide_True, decide_False by lia.
  cbn [round_acts omap list_omap fst snd id app]. rewrite bind_Ok.
  eapply (appends_bind 3); [|intros req3 R3].
  { change 1 with (2 ^ Z.of_nat 0). apply allreduce_loop_ok; try lia.
    eapply room_le; [|exact Hroom]. lia. }
  rewrite bind_Ok, decide_False by lia.
  rewrite (proj2 (Z.eqb_neq (ib i) (rb i))) by done. cbn [negb].
  eapply appends_bind; [apply (appends_push 2), R3|intros req5 R5].
  apply appends_push. eapply room_le; [|exact R5]. lia.
Qed.

Lemma ar_prog i count comm req : 0 <= i < n -> fresh_req req -> ib i <> rb i -> ib i <> NULL ->
  is_ok (allreduce_schedule (ib i) (rb i) count i n comm req) = true /\
  prog_of (allreduce_schedule (ib i) (rb i) count i n comm req) =
    level_prog ar_levels ar_at i 0.
Proof.
  intros Hi [Ht Hnx] Hne Hnull.
  assert (room req (70 + 1)) as Hroom.
  { split; [by rewrite Ht, Hnx|]. rewrite Ht. unfold MAX_SCHED. lia. }
  assert (appends 0 req (level_prog ar_levels ar_at i 0)
    (allreduce_schedule (ib i) (rb i) count i n comm req)) as (req' & E & N & _).
  2:{ rewrite E. split; [done|]. cbn. by rewrite N, Hnx. }
  destruct (role_of n i ltac:(lia) Hi);
    eauto using ar_prog_even, ar_prog_odd, ar_prog_plain.
Qed.
(** ** Every receive is matched *)

Lemma folded_even i : 0 <= i < n -> newrank n i < 0 ->
  exists v, i = 2 * v /\ 0 <= v < extra n /\ 0 <= i + 1 < n /\ newrank n (i + 1) = v.
Proof.
  intros Hi Hr. destruct (role_of n i ltac:(lia) Hi) as [v Ev Hv|v Ev Hv|v Ev Hv]; subst i.
  - exists v. rewrite newrank_odd by lia. pose proof (adj_spec n ltac:(lia)).
    unfold extra in *. lia.
  - rewrite newrank_odd in Hr; lia.
  - rewrite newrank_plain in Hr by lia. unfold extra in *. pose proof (adj_spec n ltac:(lia)). lia.
Qed.

Lemma paired_odd i : 0 <= i < n -> i < 2 * extra n -> 0 <= newrank n i ->
  exists v, i = 2 * v + 1 /\ 0 <= v < extra n /\ newrank n i = v /\ newrank n (i - 1) = -1.
Proof.
  intros Hi Hlt Hr. destruct (role_of n i ltac:(lia) Hi) as [v Ev Hv|v Ev Hv|v Ev Hv]; subst i.
  - rewrite newrank_even in Hr; lia.
  - exists v. rewrite newrank_odd by lia. replace (2 * v + 1 - 1) with (2 * v) by lia.
    rewrite newrank_even by lia. lia.
  - lia.
Qed.

Lemma newrank_folded i : 0 <= i < n -> newrank n i < 0 -> i < 2 * extra n.
Proof. intros Hi Hr. destruct (folded_even i Hi Hr) as (v & ? & ? & _). lia. Qed.

Definition partner (i : Z) (r : nat) : Z :=
  oldrank n (Z.lxor (newrank n i) (2 ^ Z.of_nat (pred r))).

Lemma partner_new i r : 0 <= i < n -> 0 <= newrank n i -> (1 <= r <= lg n)%nat ->
  0 <= partner i r < n /\ newrank n (partner i r) = Z.lxor (newrank n i) (2 ^ Z.of_nat (pred r)) /\
  0 <= newrank n (partner i r) /\ partner (partner i r) r = i.
Proof.
  intros Hi Hv Hr. destruct (oldrank_new n i ltac:(lia) Hi Hv) as [Ho Hadj].
  destruct (lxor_range (lg n) (newrank n i) (pred r)) as [H0 H1]; [unfold adj in Hadj; lia|lia|].
  assert (newrank n (partner i r) = Z.lxor (newrank n i) (2 ^ Z.of_nat (pred r))) as E
    by (unfold partner; by rewrite newrank_old).
  split; [unfold partner; apply oldrank_range; [lia|done]|]. split; [done|].
  split; [by rewrite E|]. unfold partner at 1. by rewrite E, lxor_twice.
Qed.

Lemma partner_inj i r r' : 0 <= i < n -> 0 <= newrank n i ->
  (1 <= r <= lg n)%nat -> (1 <= r' <= lg n)%nat -> partner i r = partner i r' -> r = r'.
Proof.
  intros Hi Hv Hr Hr' E. destruct (partner_new i r Hi Hv Hr) as (_ & E1 & _).
  destruct (partner_new i r' Hi Hv Hr') as (_ & E2 & _).
  rewrite E, E2 in E1. apply lxor_inj, pow2_inj in E1. lia.
Qed.

Lemma ar_at_inv i l o : ar_at i l = Some o ->
  exists r j, l = (3 * r + j)%nat /\ (j < 3)%nat /\ slot (ar_round i r) j = Some o.
Proof.
  intros E. exists (l / 3)%nat, (l mod 3)%nat. pose proof (Nat.div_mod_eq l 3).
  pose proof (Nat.mod_upper_bound l 3). split; [lia|]. split; [lia|done].
Qed.

Lemma ar_send i l o to : ar_at i l = Some o -> act_kind o = KSend to ->
  exists r, l = (3 * r)%nat /\
    ((r = 0)%nat /\ newrank n i < 0 /\ to = i + 1 \/
     (1 <= r <= lg n)%nat /\ 0 <= newrank n i /\ to = partner i r \/
     (r = S (lg n)) /\ 0 <= newrank n i /\ i < 2 * extra n /\ to = i - 1) /\
    o = ASend (ib i) to.
Proof.
  intros E Ek. apply ar_at_inv in E as (r & j & -> & Hj & E). exists r. unfold ar_round in E.
  repeat case_decide; destruct j as [|[|[|j]]]; cbn in E; try discriminate; injection E as <-;
    try discriminate; injection Ek as <-; (split; [lia|]); (split; [|done]).
  - left. lia.
  - right. left. unfold partner. split; [lia|]. split; [lia|done].
  - right. right. lia.
Qed.

Lemma ar_recv i l o q : ar_at i l = Some o -> act_kind o = KRecv q ->
  exists r, l = (3 * r + 1)%nat /\
    ((r = 0)%nat /\ 0 <= newrank n i /\ i < 2 * extra n /\ q = i - 1 \/
     (1 <= r <= lg n)%nat /\ 0 <= newrank n i /\ q = partner i r \/
     (r = S (lg n)) /\ newrank n i < 0 /\ q = i + 1) /\
    o = ARecv (rb i) q.
Proof.
  intros E Ek. apply ar_at_inv in E as (r & j & -> & Hj & E). exists r. unfold ar_round in E.
  repeat case_decide; destruct j as [|[|[|j]]]; cbn in E; try discriminate; injection E as <-;
    try discriminate; injection Ek as <-; (split; [lia|]); (split; [|done]).
  - left. lia.
  - right. left. unfold partner. split; [lia|]. split; [lia|done].
  - right. right. lia.
Qed.

(** The first slot of each kind of round. *)
Lemma ar_slot_first i : 0 <= i < n -> newrank n i < 0 -> ar_at i 0 = Some (ASend (ib i) (i + 1)).
Proof.
  intros Hi Hr. pose proof (newrank_folded i Hi Hr). pose proof (ar_at_3 i 0 0 ltac:(lia)) as E.
  cbn [Nat.mul Nat.add] in E. rewrite E. unfold ar_round. by rewrite !decide_True by lia.
Qed.
Lemma ar_slot_mid i r : (1 <= r <= lg n)%nat -> 0 <= newrank n i ->
  ar_round i r = (Some (ASend (ib i) (partner i r)), Some (ARecv (rb i) (partner i r)),
                  Some (AOp (ib i) (rb i))).
Proof. intros Hr Hv. rewrite ar_round_mid by done. by rewrite decide_False by lia. Qed.
Lemma ar_slot_last i : i < 2 * extra n -> 0 <= newrank n i ->
  ar_round i (S (lg n)) = (Some (ASend (ib i) (i - 1)), None, Some (AMem (rb i) (ib i))).
Proof.
  intros Hi Hv. unfold ar_round. rewrite decide_False, decide_False, decide_True by lia.
  by rewrite decide_True, decide_False by lia.
Qed.

Lemma ar_recv_matched i l o q : 0 <= i < n -> ar_at i l = Some o -> act_kind o = KRecv q ->
  exists l', 0 <= q < n /\ l = S l' /\ ar_at q l' = Some (ASend (ib q) i).
Proof.
  intros Hi E Ek. destruct (ar_recv i l o q E Ek) as (r & -> & Hc & ->). exists (3 * r)%nat.
  destruct Hc as [(-> & Hv & Hlt & ->)|[(Hr & Hv & ->)|(-> & Hv & ->)]].
  - destruct (paired_odd i Hi Hlt Hv) as (v & Ev & Hve & _ & Enr).
    split; [lia|]. split; [lia|]. cbn [Nat.mul Nat.add].
    rewrite ar_slot_first by lia. do 2 f_equal. lia.
  - destruct (partner_new i r Hi Hv Hr) as (Hq & _ & Hvq & Eq). split; [done|]. split; [lia|].
    replace (3 * r)%nat with (3 * r + 0)%nat by lia. rewrite ar_at_3 by lia.
    rewrite ar_slot_mid by done. cbn. by rewrite Eq.
  - destruct (folded_even i Hi Hv) as (v & Ev & Hve & Hq & Enr).
    split; [done|]. split; [lia|].
    replace (3 * S (lg n))%nat with (3 * S (lg n) + 0)%nat by lia. rewrite ar_at_3 by lia.
    rewrite ar_slot_last by lia. cbn. do 2 f_equal. lia.
Qed.

Lemma ar_in_step : in_step act_kind n ar_levels ar_at.
Proof.
  split.
  - intros i l o q Hi Hl E Ek. destruct (ar_recv_matched i l o q Hi E Ek) as (l' & Hq & -> & E').
    exists l', (ASend (ib q) i). done.
  - intros i l l' o o' to Hi Hl Hl' E E' Ek Ek'.
    destruct (ar_send i l o to E Ek) as (r & -> & Hc & ->).
    destruct (ar_send i l' o' to E' Ek') as (r' & -> & Hc' & _). f_equal.
    destruct Hc as [(-> & Hv & ->)|[(Hr & Hv & ->)|(-> & Hv & Hlt & ->)]],
      Hc' as [(-> & Hv' & Et)|[(Hr' & Hv' & Et)|(-> & Hv' & Hlt' & Et)]]; try lia.
    + by apply (partner_inj i).
    + destruct (paired_odd i Hi Hlt' Hv) as (v & _ & _ & _ & Enr).
      destruct (partner_new i r Hi Hv Hr) as (_ & _ & Hp & _). rewrite Et in Hp. lia.
    + destruct (paired_odd i Hi Hlt Hv) as (v & _ & _ & _ & Enr).
      destruct (partner_new i r' Hi Hv Hr') as (_ & _ & Hp & _). rewrite <- Et in Hp. lia.
  - intros i l l' o o' q Hi Hl Hl' E E' Ek Ek'.
    destruct (ar_recv i l o q E Ek) as (r & -> & Hc & ->).
    destruct (ar_recv i l' o' q E' Ek') as (r' & -> & Hc' & _). do 2 f_equal.
    destruct Hc as [(-> & Hv & Hlt & ->)|[(Hr & Hv & ->)|(-> & Hv & ->)]],
      Hc' as [(-> & Hv' & Hlt' & Et)|[(Hr' & Hv' & Et)|(-> & Hv' & Et)]]; try lia.
    + destruct (paired_odd i Hi Hlt Hv) as (v & _ & _ & _ & Enr).
      destruct (partner_new i r' Hi Hv Hr') as (_ & _ & Hp & _). rewrite <- Et in Hp. lia.
    + destruct (paired_odd i Hi Hlt' Hv) as (v & _ & _ & _ & Enr).
      destruct (partner_new i r Hi Hv Hr) as (_ & _ & Hp & _). rewrite Et in Hp. lia.
    + by apply (partner_inj i).
Qed.
(** ** The values *)

Context {V : Type} (f : V -> V -> V) `{!Assoc (=) f, !Comm (=) f} (x : Z -> V).
Context (mem : Z -> gmap Z V).
Context (Hbuf : forall i, 0 <= i < n -> ib i <> rb i) (Hmem : forall i, 0 <= i < n ->
  mem i !! ib i = Some (x i)).
Notation state := (lockstep act_kind act_send act_recv (act_local f) ar_at mem).

Lemma state_skip i r j : (j < 3)%nat -> slot (ar_round i r) j = None ->
  state (3 * r + S j) i = state (3 * r + j) i.
Proof.
  intros Hj E. rewrite Nat.add_succ_r. apply lockstep_none. by rewrite ar_at_3.
Qed.

Lemma state_send i r j p q : (j < 3)%nat -> slot (ar_round i r) j = Some (ASend p q) ->
  state (3 * r + S j) i = state (3 * r + j) i.
Proof.
  intros Hj E. rewrite Nat.add_succ_r. apply (lockstep_send _ _ _ _ _ _ _ _ (ASend p q) q); [|done]. by rewrite ar_at_3.
Qed.

Lemma state_local i r j o : (j < 3)%nat -> slot (ar_round i r) j = Some o -> act_kind o = KLocal ->
  state (3 * r + S j) i = act_local f o (state (3 * r + j) i).
Proof.
  intros Hj E Ek. rewrite Nat.add_succ_r. apply (lockstep_local _ _ _ _ _ _ _ _ o); [|done]. by rewrite ar_at_3.
Qed.

(** Rank [i] receives in round [r] what [q] has in its buffer. *)
Lemma state_recv i r q : 0 <= i < n -> slot (ar_round i r) 1 = Some (ARecv (rb i) q) ->
  state (3 * r + 2) i =
  partial_alter (fun _ => state (3 * r) q !! ib q) (rb i) (state (3 * r + 1) i).
Proof.
  intros Hi E. assert (ar_at i (3 * r + 1) = Some (ARecv (rb i) q)) as E1 by (by rewrite ar_at_3 by lia).
  destruct (ar_recv_matched i _ _ q Hi E1 eq_refl) as (l' & Hq & El & E').
  assert (l' = 3 * r)%nat as -> by lia. replace (3 * r + 2)%nat with (S (S (3 * r))) by lia.
  replace (3 * r + 1)%nat with (S (3 * r)) in * by lia.
  by erewrite (lockstep_recv _ _ _ _ _ _ _ _ _ q _ i E1 eq_refl E').
Qed.

(** A receive followed by the operation. *)
Lemma state_exchange i r q a b : 0 <= i < n ->
  (slot (ar_round i r) 0 = None \/ exists p to, slot (ar_round i r) 0 = Some (ASend p to)) ->
  slot (ar_round i r) 1 = Some (ARecv (rb i) q) ->
  slot (ar_round i r) 2 = Some (AOp (ib i) (rb i)) ->
  state (3 * r) i !! ib i = Some a -> state (3 * r) q !! ib q = Some b ->
  state (3 * S r) i !! ib i = Some (f a b).
Proof.
  intros Hi E0 E1 E2 Ha Hb. replace (3 * S r)%nat with (3 * r + 3)%nat by lia.
  rewrite (state_local i r 2 _ ltac:(lia) E2 eq_refl), (state_recv i r q Hi E1).
  assert (state (3 * r + 1) i = state (3 * r) i) as ->.
  { replace (3 * r)%nat with (3 * r + 0)%nat at 2 by lia. destruct E0 as [E0|(p & to & E0)].
    - by apply (state_skip i r 0); [lia|].
    - by apply (state_send i r 0 p to); [lia|]. }
  cbn [act_local]. rewrite lookup_partial_alter_ne by (pose proof (Hbuf i Hi); congruence).
  rewrite lookup_partial_alter_eq, Ha, Hb. apply lookup_insert_eq.
Qed.

(** A round that leaves the rank's value alone. *)
Lemma state_idle i r :
  (slot (ar_round i r) 0 = None \/ exists p to, slot (ar_round i r) 0 = Some (ASend p to)) ->
  slot (ar_round i r) 1 = None -> slot (ar_round i r) 2 = None ->
  state (3 * S r) i = state (3 * r) i.
Proof.
  intros E0 E1 E2. replace (3 * S r)%nat with (3 * r + 3)%nat by lia.
  rewrite (state_skip i r 2), (state_skip i r 1) by (done || lia).
  replace (3 * r)%nat with (3 * r + 0)%nat at 2 by lia. destruct E0 as [E0|(p & to & E0)].
  - by apply (state_skip i r 0); [lia|].
  - by apply (state_send i r 0 p to); [lia|].
Qed.

(** The ranks whose values rank [i] holds before round [r]. *)
Definition held (i : Z) (r : nat) : list Z :=
  match r with
  | O => [i]
  | S k => if decide (newrank n i < 0) then [i] else blk n k (newrank n i)
  end.

Lemma blk_nonempty k v : 0 <= v -> blk n k v <> [].
Proof.
  intros Hv. assert (0 < 2 ^ Z.of_nat k) by (apply Z.pow_pos_nonneg; lia).
  unfold blk. rewrite seqZ_cons by lia. cbn. unfold base at 1. by case_zbool.
Qed.

Lemma red_blk k v : 0 <= v -> exists a, red f x (blk n k v) = Some a.
Proof. intros Hv. apply red_some. by apply blk_nonempty. Qed.

Lemma held_first i : 0 <= i < n -> state 3 i !! ib i = red f x (held i 1).
Proof.
  intros Hi. cbn [held]. change 3%nat with (3 * 1)%nat.
  assert (forall j, 0 <= j < n -> state (3 * 0) j !! ib j = Some (x j)) as H0 by (intros; by apply Hmem).
  case_decide as Hr.
  - pose proof (newrank_folded i Hi Hr). rewrite (state_idle i 0); [by apply H0|..];
      unfold ar_round; rewrite !decide_True by lia; try done. right. by do 2 eexists.
  - destruct (decide (i < 2 * extra n)) as [Hlt|Hge].
    + destruct (paired_odd i Hi Hlt ltac:(lia)) as (v & Ev & Hv & -> & Enr).
      rewrite (state_exchange i 0 (i - 1) (x i) (x (i - 1))); try done; try (apply H0; lia);
        unfold ar_round; rewrite ?(decide_True (P := (0 = 0)%nat)), ?(decide_True (P := i < _)),
          ?decide_False by lia; try done; try by left.
      rewrite blk_0. unfold base. rewrite (proj2 (Z.ltb_lt _ _)) by lia. cbn.
      by replace (2 * v) with (i - 1) by lia; replace (i - 1 + 1) with i by lia.
    + rewrite (state_idle i 0); [rewrite H0 by done|..];
        unfold ar_round; rewrite ?(decide_True (P := (0 = 0)%nat)), ?decide_False by lia;
        try done; try by left.
      destruct (role_of n i ltac:(lia) Hi) as [v Ev Hv|v Ev Hv|v Ev Hv]; [lia|lia|].
      rewrite Ev, newrank_plain, blk_0 by lia. unfold base.
      by rewrite (proj2 (Z.ltb_ge _ _)) by lia.
Qed.

Lemma held_all r : (1 <= r <= S (lg n))%nat ->
  forall i, 0 <= i < n -> state (3 * r) i !! ib i = red f x (held i r).
Proof.
  intros [H1 H2]. induction H1 as [|r H1 IH]; intros i Hi; [by apply held_first|].
  specialize (IH ltac:(lia)). destruct r as [|k]; [lia|]. unfold held. case_decide as Hr.
  - rewrite (state_idle i (S k)); [rewrite IH by done; unfold held; by rewrite decide_True|..];
      rewrite ar_round_mid, decide_True by lia; try done. by left.
  - destruct (partner_new i (S k) Hi ltac:(lia) ltac:(lia)) as (Hq & Eq & Hvq & _). cbn [pred] in Eq.
    destruct (red_blk k (newrank n i) ltac:(lia)) as [a Ha].
    destruct (red_blk k (newrank n (partner i (S k))) Hvq) as [b Hb].
    rewrite (state_exchange i (S k) (partner i (S k)) a b); try done;
      rewrite ?ar_slot_mid by lia; try done.
    + rewrite <- (blk_S n k (newrank n i)) by lia. rewrite (red_app f), Ha by done.
      by rewrite <- Eq, Hb.
    + right. by do 2 eexists.
    + rewrite IH by done. unfold held. by rewrite decide_False.
    + rewrite IH by done. unfold held. by rewrite decide_False by lia.
Qed.
(** The result comes back in the last exchange, and then the buffer is freed. *)
Lemma holder_result i : 0 <= i < n -> 0 <= newrank n i ->
  state (3 * S (lg n)) i !! ib i = red f x (seqZ 0 n).
Proof.
  intros Hi Hv. rewrite held_all by (done || lia). unfold held. rewrite decide_False by lia.
  destruct (oldrank_new n i ltac:(lia) Hi Hv) as [_ Hadj]. by rewrite blk_all by lia.
Qed.

Lemma folded_result i : 0 <= i < n -> newrank n i < 0 ->
  state (3 * S (S (lg n))) i !! rb i = red f x (seqZ 0 n).
Proof.
  intros Hi Hr. destruct (folded_even i Hi Hr) as (v & Ev & Hv & Hi' & Enr).
  assert (ar_round i (S (lg n)) = (None, Some (ARecv (rb i) (i + 1)), None)) as E.
  { unfold ar_round. rewrite decide_False, decide_False, decide_True by lia.
    by rewrite !decide_True by lia. }
  replace (3 * S (S (lg n)))%nat with (3 * S (lg n) + 3)%nat by lia.
  rewrite state_skip by (lia || by rewrite E). rewrite (state_recv i _ (i + 1)) by (done || by rewrite E).
  rewrite lookup_partial_alter_eq. apply holder_result; lia.
Qed.

Lemma unfolded_result i : 0 <= i < n -> 0 <= newrank n i ->
  state (3 * S (S (lg n))) i !! rb i = red f x (seqZ 0 n).
Proof.
  intros Hi Hv.
  assert (exists o0, (o0 = None \/ exists p to, o0 = Some (ASend p to)) /\
    ar_round i (S (lg n)) = (o0, None, Some (AMem (rb i) (ib i)))) as (o0 & Ho & E).
  { destruct (decide (i < 2 * extra n)) as [Hlt|Hge].
    - rewrite ar_slot_last by done. eexists. split; [right; eauto|done].
    - exists None. split; [by left|]. unfold ar_round.
      rewrite decide_False, decide_False, decide_True by lia. by rewrite decide_False by lia. }
  replace (3 * S (S (lg n)))%nat with (3 * S (lg n) + 3)%nat by lia.
  rewrite (state_local i _ 2 (AMem (rb i) (ib i))) by (lia || done || by rewrite E).
  cbn [act_local]. rewrite lookup_partial_alter_eq.
  rewrite (state_skip i _ 1) by (lia || by rewrite E).
  rewrite <- (holder_result i Hi Hv). f_equal.
  replace (3 * S (lg n))%nat with (3 * S (lg n) + 0)%nat at 2 by lia.
  destruct Ho as [->|(p & to & ->)].
  - apply (state_skip i _ 0); [lia|by rewrite E].
  - apply (state_send i _ 0 p to); [lia|by rewrite E].
Qed.

Lemma final_state i : 0 <= i < n ->
  state ar_levels i !! rb i = red f x (seqZ 0 n) /\ state ar_levels i !! ib i = None.
Proof.
  intros Hi. unfold ar_levels. replace (3 * (lg n + 3))%nat with (3 * S (S (lg n)) + 3)%nat by lia.
  assert (ar_round i (S (S (lg n))) = (Some (AFree (ib i)), None, None)) as E.
  { unfold ar_round. by rewrite !decide_False by lia. }
  rewrite (state_skip i _ 2), (state_skip i _ 1) by (lia || by rewrite E).
  rewrite (state_local i _ 0 (AFree (ib i))) by (lia || done || by rewrite E).
  cbn [act_local]. rewrite lookup_delete_eq. split; [|done].
  rewrite lookup_delete_ne by (pose proof (Hbuf i Hi); congruence). rewrite Nat.add_0_r.
  destruct (decide (newrank n i < 0)); [by apply folded_result|]. apply unfolded_result; lia.
Qed.
End allreduce.

(** The network an allreduce starts: each rank with its schedule, and its memory after it
    copied its contribution to its private buffer. *)
Definition allreduce_net {V} (n count comm : Z) (ib rb : Z -> Z) (req : lc_colreq)
    (mem : Z -> gmap Z V) : @net col_act (gmap Z V) (option V) :=
  Net (fun i => prog_of (allreduce_schedule (ib i) (rb i) count i n comm req)) mem (fun _ _ => []).

(** C3: Allreduce, for any number of ranks and any associative and commutative operation: every
    rank can build its schedule within the table of 128; in every interleaving, a rank that
    is done has the reduction of all ranks' values, each taken once, in its receive buffer
    and has freed its private buffer; no run gets stuck; runs are bounded. *)
Theorem allreduce_reduces {V} (f : V -> V -> V) n count comm (ib rb : Z -> Z) req (x : Z -> V)
    (mem : Z -> gmap Z V) s :
  Assoc (=) f -> Comm (=) f -> 2 <= n < 2 ^ 30 -> fresh_req req ->
  (forall i, 0 <= i < n -> ib i <> rb i /\ ib i <> NULL /\ mem i !! ib i = Some (x i)) ->
  rtc (mem_step f n) (allreduce_net n count comm ib rb req mem) s ->
  (forall i, 0 <= i < n ->
     is_ok (allreduce_schedule (ib i) (rb i) count i n comm req) = true) /\
  (forall i, 0 <= i < n -> prog s i = [] ->
     data s i !! rb i = red f x (seqZ 0 n) /\ data s i !! ib i = None) /\
  (forall i, 0 <= i < n -> prog s i <> [] -> exists s', mem_step f n s s') /\
  (forall k, nsteps (mem_step f n) k (allreduce_net n count comm ib rb req mem) s ->
     (k <= net_size n (allreduce_net n count comm ib rb req mem))%nat).
Proof.
  intros Ha Hc Hn Hreq Hbufs Hrun.
  assert (forall i, 0 <= i < n ->
    is_ok (allreduce_schedule (ib i) (rb i) count i n comm req) = true /\
    prog_of (allreduce_schedule (ib i) (rb i) count i n comm req) =
      level_prog (ar_levels n) (ar_at n ib rb) i 0) as Hprog.
  { intros i Hi. destruct (Hbufs i Hi) as (H1 & H2 & _). by apply ar_prog. }
  split; [intros i Hi; by apply Hprog|].
  destruct (lockstep_run act_kind act_send act_recv (act_local f) n (ar_levels n)
    (ar_at n ib rb) mem (allreduce_net n count comm ib rb req mem) s) as [Hdone Hmove];
    [by apply ar_in_step| |done|].
  - split; [|done]. intros i Hi. split; [|done]. by apply Hprog.
  - split; [|split; [exact Hmove|intros k; apply net_steps_bound]].
    intros i Hi Hp. rewrite Hdone by done. apply final_state; try done; naive_solver.
Qed.

(** Three ranks with their values 5, 7 and 9: rank 0 has sent its value to rank 1. *)
Lemma allreduce_reduces_witness :
  let req := ColReq 0 0 0 0 0 0 [] 8 in
  let mem : Z -> gmap Z Z := fun i => {[16 := 5 + 2 * i]} in
  let start := allreduce_net 3 8 0 (fun _ => 16) (fun _ => 24) req mem in
  exists s, rtc (mem_step Z.add 3) start s /\ chan s 0 1 = [Some 5] /\
    red Z.add (fun i => 5 + 2 * i) (seqZ 0 3) = Some 21 /\
    (forall i, 0 <= i < 3 -> prog s i = [] -> data s i !! 24 = Some 21) /\
    (forall i, 0 <= i < 3 -> prog s i <> [] -> exists s', mem_step Z.add 3 s s').
Proof.
  intros req mem start. assert (fresh_req req) as Hf by done.
  pose proof (StepSend act_kind act_send act_recv (act_local Z.add) 3 start 0 (ASend 16 1)
    [ARecv 24 1; AFree 16] 1 ltac:(lia) eq_refl eq_refl) as H1.
  eexists. split; [exact (rtc_once _ _ H1)|]. split; [done|]. split; [done|].
  assert (forall i, 0 <= i < 3 -> 16 <> 24 /\ 16 <> NULL /\ mem i !! 16 = Some (5 + 2 * i)) as Hb.
  { intros i Hi. split; [done|]. split; [done|]. apply lookup_singleton_eq. }
  destruct (allreduce_reduces Z.add 3 8 0 (fun _ => 16) (fun _ => 24) req (fun i => 5 + 2 * i) mem
    _ Z.add_assoc Z.add_comm ltac:(lia) Hf Hb (rtc_once _ _ H1)) as (_ & Hd & Hp & _).
  split; [|exact Hp]. intros i Hi E. exact (proj1 (Hd i Hi E)).
Defined.
