(* ===== verification/Ibv.v ===== *)
(** * The InfiniBand server (include/server/server_ibv.h, server_ibv_helper.h)

    Queue pairs, posted receives, sends, registrations, progress and start.  The verbs
    library is not modelled: what it returns is the class [Verbs], the requests given to it
    are logged in the order made, and what ibv_poll_cq found is an argument of the
    progress.  Compiled without LC_SERVER_DEBUG, as config.mk has it. *)
From stdpp Require Import gmap.
From S2P Require Import Prelude Text Config Pool Hashtable CompQueue State Proto Api Vma Dreg PmiUtil Pmi.

Definition MAX_CQ : Z := 16.
Definition IBV_IMM_RTR : Z := 2 ^ 31.

(** ** The verbs library *)

Inductive ibv_wr_opcode : Type :=
| IBV_WR_SEND_WITH_IMM | IBV_WR_RDMA_WRITE | IBV_WR_RDMA_WRITE_WITH_IMM.

(** struct ibv_sge; of an inline send of a user's buffer its bytes, which the call copies. *)
Inductive ibv_sge : Type :=
| SgeBytes (bytes : list Z)
| Sge (addr length lkey : Z).

(** struct ibv_send_wr: what setup_wr and the senders fill in; [send_flags] is whether
    IBV_SEND_SIGNALED and IBV_SEND_INLINE are set. *)
Record ibv_send_wr : Type := SendWr {
  wr_id : Z; sg_list : ibv_sge; opcode : ibv_wr_opcode; signaled : bool; inline : bool;
  imm_data : Z; remote_addr : Z; wr_rkey : Z }.

(** The attributes ibv_modify_qp is called with, by the state asked for. *)
Inductive ibv_qp_attr : Type :=
| AttrInit (port_num : Z)
| AttrRtr (path_mtu dest_qp_num dlid port_num : Z)
| AttrRts.

(** Calls on queue pairs, the shared receive queue and the completion queues. *)
Inductive verb : Type :=
| IbvPostSend (qp : Z) (wr : ibv_send_wr)
| IbvPostSrqRecv (wr_id addr length lkey : Z)
| IbvCreateQp (qp : Z)
| IbvDestroyCq (cq : Z)
| IbvDestroySrq (srq : Z)
| IbvModifyQp (qp : Z) (attr : ibv_qp_attr).

Record ibv_port_attr : Type := PortAttr { lid : Z; active_mtu : Z }.

(** struct ibv_wc: what is read of it. *)
Record ibv_wc : Type := Wc {
  wc_wr_id : Z; wc_recv_rdma_with_imm : bool; wc_qp_num : Z; wc_byte_len : Z; wc_imm_data : Z }.

(** What the library returns, and the fields of the objects it makes.  A registration depends
    on the registrations before it, a queue pair on the requests before it. *)
Class Verbs : Type := {
  ibv_reg_mr : list dma_event -> Z -> Z -> Z;
  mr_addr : Z -> Z; mr_lkey : Z -> Z; mr_rkey : Z -> Z;
  ibv_get_device_list : list Z;
  ibv_open_device : Z -> Z;
  ibv_query_device : Z -> Z;
  ibv_query_port : Z -> Z -> Z * ibv_port_attr;
  ibv_alloc_pd : Z -> Z;
  ibv_create_srq : Z -> Z -> Z;
  ibv_create_cq : Z -> Z -> bool -> Z;              (* the send queue's: true *)
  ibv_create_qp : list verb -> Z * Z;               (* the pair, the inline data granted *)
  qp_num : Z -> Z;
  ibv_modify_qp : list verb -> Z -> ibv_qp_attr -> Z }.

(** ** The server

    With the process it belongs to, the process manager's client and the registration cache;
    [ninline] is the static variable of lc_server_sends.  Of the library's objects those used
    after the start. *)
Record ibv : Type := Ibv {
  proc : lci; pm : pmi; cache : dreg_state;
  srv : Z;                                  (* the address of the server *)
  qp : list Z; heap : Z; recv_posted : Z; max_inline : Z;
  qp2rank : list Z; qp2rank_mod : Z; ninline : Z;
  dev_srq : Z; send_cq : Z; recv_cq : Z;
  verbs : list verb }.

Notation IS := (ST ibv).

Definition set_proc x s := Ibv x (pm s) (cache s) (srv s) (qp s) (heap s) (recv_posted s) (max_inline s)
  (qp2rank s) (qp2rank_mod s) (ninline s) (dev_srq s) (send_cq s) (recv_cq s) (verbs s).
Definition set_pm x s := Ibv (proc s) x (cache s) (srv s) (qp s) (heap s) (recv_posted s) (max_inline s)
  (qp2rank s) (qp2rank_mod s) (ninline s) (dev_srq s) (send_cq s) (recv_cq s) (verbs s).
Definition set_cache x s := Ibv (proc s) (pm s) x (srv s) (qp s) (heap s) (recv_posted s) (max_inline s)
  (qp2rank s) (qp2rank_mod s) (ninline s) (dev_srq s) (send_cq s) (recv_cq s) (verbs s).
Definition set_qp x s := Ibv (proc s) (pm s) (cache s) (srv s) x (heap s) (recv_posted s) (max_inline s)
  (qp2rank s) (qp2rank_mod s) (ninline s) (dev_srq s) (send_cq s) (recv_cq s) (verbs s).
Definition set_heap x s := Ibv (proc s) (pm s) (cache s) (srv s) (qp s) x (recv_posted s) (max_inline s)
  (qp2rank s) (qp2rank_mod s) (ninline s) (dev_srq s) (send_cq s) (recv_cq s) (verbs s).
Definition set_recv_posted x s := Ibv (proc s) (pm s) (cache s) (srv s) (qp s) (heap s) x (max_inline s)
  (qp2rank s) (qp2rank_mod s) (ninline s) (dev_srq s) (send_cq s) (recv_cq s) (verbs s).
Definition set_max_inline x s := Ibv (proc s) (pm s) (cache s) (srv s) (qp s) (heap s) (recv_posted s) x
  (qp2rank s) (qp2rank_mod s) (ninline s) (dev_srq s) (send_cq s) (recv_cq s) (verbs s).
Definition set_qp2rank t n s := Ibv (proc s) (pm s) (cache s) (srv s) (qp s) (heap s) (recv_posted s)
  (max_inline s) t n (ninline s) (dev_srq s) (send_cq s) (recv_cq s) (verbs s).
Definition set_ninline x s := Ibv (proc s) (pm s) (cache s) (srv s) (qp s) (heap s) (recv_posted s)
  (max_inline s) (qp2rank s) (qp2rank_mod s) x (dev_srq s) (send_cq s) (recv_cq s) (verbs s).
Definition set_verbs x s := Ibv (proc s) (pm s) (cache s) (srv s) (qp s) (heap s) (recv_posted s)
  (max_inline s) (qp2rank s) (qp2rank_mod s) (ninline s) (dev_srq s) (send_cq s) (recv_cq s) x.
Definition set_objects a b c s := Ibv (proc s) (pm s) (cache s) (srv s) (qp s) (heap s) (recv_posted s)
  (max_inline s) (qp2rank s) (qp2rank_mod s) (ninline s) a b c (verbs s).

(** An operation of the process, of the process manager's client, of the cache. *)
Definition on_proc {A} (m : M A) : IS A := fun s =>
  match m (proc s) with Ok (a, x) => Ok (a, set_proc x s) | Err f => Err f end.
Definition on_pm {A} (m : PM A) : IS A := fun s =>
  match m (pm s) with Ok (a, x) => Ok (a, set_pm x s) | Err f => Err f end.
Definition on_cache {A} (m : DM A) : IS A := fun s =>
  match m (cache s) with Ok (a, x) => Ok (a, set_cache x s) | Err f => Err f end.

Definition verb_log (v : verb) : IS unit := st_set (fun s => set_verbs (verbs s ++ [v]) s).

Section ibv.
Context `{Verbs}.
Context (use_dreg : bool).    (* USE_DREG *)
Context (fuel : nat).         (* for the page database of the cache *)

(** ** Registrations *)

(** get_dma_mem of misc.c is _real_server_reg. *)
#[export] Instance ibv_dma : Dma := {| get_dma_mem h _ buf size := ibv_reg_mr h buf size |}.

Definition _real_server_reg (buf sz : Z) : IS Z := s ← st_get srv; on_cache (call_get_dma_mem s buf sz).
Definition _real_server_dereg (mem : Z) : IS unit := on_cache (call_free_dma_mem mem).

(** A field of the region at [mr]. *)
Definition mr_field (f : Z -> Z) (mr : Z) : IS Z := if mr =? NULL then st_fail NullDeref else mret (f mr).

Definition lc_server_rma_reg (buf sz : Z) : IS Z :=
  if use_dreg then s ← st_get srv; on_cache (dreg_register fuel s buf sz) else _real_server_reg buf sz.
Definition lc_server_rma_dereg (mem : Z) : IS unit :=
  if use_dreg then on_cache (dreg_unregister mem) else _real_server_dereg mem.

(** The region of a registration: with the cache, ((dreg_entry * ) mem)->memhandle[0]. *)
Definition mem_mr (mem : Z) : IS Z :=
  if use_dreg then d ← on_cache (get_dreg mem); mret (memhandle d) else mret mem.
Definition lc_server_rma_key (mem : Z) : IS Z := mr ← mem_mr mem; mr_field mr_rkey mr.
Definition ibv_rma_lkey (mem : Z) : IS Z := mr ← mem_mr mem; mr_field mr_lkey mr.

(** ** Receives *)

(** ibv_post_recv_ on the server of device [dev]. *)
Definition ibv_post_recv_ (dev p : Z) : IS unit :=
  if p =? NULL then
    n ← st_get recv_posted;
    dl ← on_proc (gets lcg_deadlock);
    if (n <? LC_SERVER_MAX_RCVS / 2) && negb (truth dl)
    then on_proc (modify (set_deadlock 1)) else mret tt
  else
    h ← st_get heap;
    lkey ← mr_field mr_lkey h;
    pid ← on_proc (pool_get_local dev);
    _ ← on_proc (upd_packet p (pk_set_poolid (i8 pid)));
    _ ← verb_log (IbvPostSrqRecv p (data_of p) SHORT_MSG_SIZE lkey);
    n ← st_get recv_posted;
    _ ← st_set (set_recv_posted (n + 1));
    dl ← on_proc (gets lcg_deadlock);
    if (n + 1 =? LC_SERVER_MAX_RCVS) && truth dl
    then on_proc (modify (set_deadlock 0)) else mret tt.

(** ** Sends: the peer is the queue pair [rep] *)

Definition ibv_post_send (qp : Z) (wr : ibv_send_wr) : IS unit := verb_log (IbvPostSend qp wr).

(** The data buffer of a packet, which is in the heap. *)
Definition packet_sge (ctx sz : Z) : IS ibv_sge :=
  h ← st_get heap; lkey ← mr_field mr_lkey h; mret (Sge (data_of ctx) (u32 sz) lkey).

(** A buffer of the client's, registered for the request. *)
Definition user_sge (buf sz : Z) : IS ibv_sge :=
  mem ← lc_server_rma_reg buf sz; lkey ← ibv_rma_lkey mem; mret (Sge buf (u32 sz) lkey).

Definition lc_server_sends (rep : Z) (ubuf : list Z) (proto : Z) : IS unit :=
  n ← st_get ninline;
  _ ← st_set (set_ninline (if n =? 64 then 0 else n + 1));
  ibv_post_send rep (SendWr 0 (SgeBytes ubuf) IBV_WR_SEND_WITH_IMM (n =? 64) true (u32 proto) 0 0).

Definition lc_server_sendm (rep sz ctx proto : Z) : IS unit :=
  l ← packet_sge ctx sz;
  ibv_post_send rep (SendWr ctx l IBV_WR_SEND_WITH_IMM true false (u32 proto) 0 0).

Definition lc_server_puts (rep : Z) (buf : list Z) (base offset rkey : Z) : IS unit :=
  ibv_post_send rep (SendWr 0 (SgeBytes buf) IBV_WR_RDMA_WRITE true true 0 (u64 (base + u32 offset)) rkey).

Definition lc_server_putss (rep : Z) (buf : list Z) (base offset rkey meta : Z) : IS unit :=
  ibv_post_send rep (SendWr 0 (SgeBytes buf) IBV_WR_RDMA_WRITE_WITH_IMM true true (u32 meta)
    (u64 (base + u32 offset)) rkey).

Definition lc_server_putm (rep base offset rkey sz ctx : Z) : IS unit :=
  l ← packet_sge ctx sz;
  ibv_post_send rep (SendWr ctx l IBV_WR_RDMA_WRITE true false 0 (u64 (base + u32 offset)) rkey).

Definition lc_server_putms (rep base offset rkey sz meta ctx : Z) : IS unit :=
  l ← packet_sge ctx sz;
  ibv_post_send rep (SendWr ctx l IBV_WR_RDMA_WRITE_WITH_IMM true false (u32 meta)
    (u64 (base + u32 offset)) rkey).

Definition lc_server_putl (rep buf base offset rkey sz ctx : Z) : IS unit :=
  l ← user_sge buf sz;
  ibv_post_send rep (SendWr ctx l IBV_WR_RDMA_WRITE true false 0 (u64 (base + u32 offset)) rkey).

Definition lc_server_putls (rep buf base offset rkey sz meta ctx : Z) : IS unit :=
  l ← user_sge buf sz;
  ibv_post_send rep (SendWr ctx l IBV_WR_RDMA_WRITE_WITH_IMM true false (u32 meta)
    (u64 (base + u32 offset)) rkey).

Definition lc_server_rma_rtr (rep buf addr rkey sz sid ctx : Z) : IS unit :=
  n ← st_get max_inline;
  l ← (if n <? sz then user_sge buf sz else mret (Sge buf (u32 sz) 0));
  ibv_post_send rep (SendWr ctx l IBV_WR_RDMA_WRITE_WITH_IMM true (negb (n <? sz))
    (Z.lor (u32 sid) IBV_IMM_RTR) addr rkey).

(** The calls of the server's interface a process makes, on this server. *)
Definition serve_event (e : event) : IS unit :=
  match e with
  | EvSends _ rep bytes proto => lc_server_sends rep bytes proto
  | EvSendm _ rep size p proto => lc_server_sendm rep size p proto
  | EvPuts _ rep bytes base offset rkey => lc_server_puts rep bytes base offset rkey
  | EvPutss _ rep bytes base offset rkey meta => lc_server_putss rep bytes base offset rkey meta
  | EvPutm _ rep base offset rkey size p => lc_server_putm rep base offset rkey size p
  | EvPutms _ rep base offset rkey size meta p => lc_server_putms rep base offset rkey size meta p
  | EvPutl _ rep buf base offset rkey size p => lc_server_putl rep buf base offset rkey size p
  | EvPutls _ rep buf base offset rkey size meta p => lc_server_putls rep buf base offset rkey size meta p
  | EvRmaRtr _ rep buf addr rkey size sid p => lc_server_rma_rtr rep buf addr rkey size sid p
  | EvRmaReg _ buf size _ => _ ← lc_server_rma_reg buf size; mret tt
  | EvRmaDereg mem => lc_server_rma_dereg mem
  | EvAlloc _ _ _ | EvCallback _ _ | EvHandler _ _ | EvFree _ => mret tt
  end.

(** ** Progress *)

Section progress.
Context `{Build, Server, Client}.
Context (dev : Z).    (* the device of the server *)

(** [s->qp2rank[wc.qp_num % s->qp2rank_mod]] *)
Definition rank_of_qp (num : Z) : IS Z :=
  m ← st_get qp2rank_mod;
  t ← st_get qp2rank;
  st_lift (aget t (u32 num mod u32 m)).

(** The body of the loop over completed receives. *)
Definition progress_recv (wc : ibv_wc) : IS unit :=
  _ ← st_set (fun s => set_recv_posted (recv_posted s - 1) s);
  let p := wc_wr_id wc in
  let imm := wc_imm_data wc in
  if negb (wc_recv_rdma_with_imm wc) then
    _ ← on_proc (own_req p);
    r ← rank_of_qp (wc_qp_num wc);
    q ← st_get qp;
    h ← st_lift (aget q r);
    _ ← on_proc (upd_req (req_s_of p) (fun q => rq_set_size (wc_byte_len wc) (rq_set_rhandle h (rq_set_rank r q))));
    on_proc (lci_serve_recv p imm)
  else if truth (Z.land imm IBV_IMM_RTR) then
    h ← st_get heap;
    base ← mr_field mr_addr h;
    _ ← on_proc (lci_serve_imm (base + Z.lxor imm IBV_IMM_RTR));
    on_proc (pool_put dev p)
  else
    _ ← on_proc (own_req p);
    on_proc (lci_serve_recv_rdma p imm).

(** The body of the loop over completed requests. *)
Definition progress_send (wc : ibv_wc) : IS unit :=
  if truth (wc_wr_id wc) then on_proc (lci_serve_send (wc_wr_id wc)) else mret tt.

(** "Make sure we always have enough packet, but do not block." *)
Definition progress_post : IS bool :=
  n ← st_get recv_posted;
  if n <? LC_SERVER_MAX_RCVS then
    p ← on_proc (pool_get_nb dev);
    _ ← ibv_post_recv_ dev p;
    mret true
  else mret false.

Fixpoint progress_all (f : ibv_wc -> IS unit) (wcs : list ibv_wc) : IS unit :=
  match wcs with [] => mret tt | wc :: wcs => _ ← f wc; progress_all f wcs end.

(** [recvs] and [sends] are what the two polls found, at most [MAX_CQ] each; none when a
    poll fails. *)
Definition lc_server_progress (recvs sends : list ibv_wc) : IS bool :=
  _ ← progress_all progress_recv recvs;
  _ ← progress_all progress_send sends;
  b ← progress_post;
  mret (bool_decide (recvs <> []) || bool_decide (sends <> []) || b).

End progress.

(** ** Start: queue pairs *)

(** A call whose failure ends the process. *)
Definition must (rc : Z) : IS unit := if rc =? 0 then mret tt else st_fail (Exit 1).
Definition must_have (object : Z) : IS unit := if object =? 0 then st_fail (Exit 1) else mret tt.

(** posix_memalign gave [ptr]. *)
Definition ibv_mem_malloc (ptr sz : Z) : IS Z := _real_server_reg ptr sz.

Definition qp_create : IS Z := fun s =>
  let '(q, room) := ibv_create_qp (verbs s) in
  (_ ← must_have q;
   _ ← verb_log (IbvCreateQp q);
   _ ← st_set (set_max_inline (Z.min room LC_MAX_INLINE));
   mret q) s.

Definition qp_modify (q : Z) (attr : ibv_qp_attr) : IS unit :=
  vs ← st_get verbs;
  _ ← verb_log (IbvModifyQp q attr);
  must (ibv_modify_qp vs q attr).

Definition qp_init (q port : Z) : IS unit := qp_modify q (AttrInit port).
Definition qp_to_rtr (q port : Z) (attr : ibv_port_attr) (dest dlid : Z) : IS unit :=
  qp_modify q (AttrRtr (active_mtu attr) dest dlid port).
Definition qp_to_rts (q : Z) : IS unit := qp_modify q AttrRts.

(** struct conn_ctx, less its [gid], which is never filled in. *)
Record conn_ctx : Type := ConnCtx { c_addr : Z; c_rkey : Z; c_qp_num : Z; c_lid : Z }.

(** "%llu-%d-%d-%d"; %d into the sixteen bits of [lid] writes the padding behind them too. *)
Definition print_conn (c : conn_ctx) : list Z :=
  print_unsigned (c_addr c) ++ DASH :: print_signed (i32 (c_rkey c)) ++
  DASH :: print_signed (i32 (c_qp_num c)) ++ DASH :: print_signed (c_lid c).

Definition scan_dash (l : list Z) : option (list Z) :=
  match l with c :: l => if c =? DASH then Some l else None | [] => None end.

Definition scan_conn (l : list Z) : option conn_ctx :=
  '(addr, l) ← scan_unsigned l; l ← scan_dash l;
  '(rkey, l) ← scan_int l; l ← scan_dash l;
  '(num, l) ← scan_int l; l ← scan_dash l;
  '(lid, l) ← scan_int l; Some (ConnCtx addr (u32 rkey) (u32 num) (lid mod 2 ^ 16)).

(** sprintf into the array [ep_name], 256 bytes long. *)
Definition sprintf_conn (ep_name : list Z) (c : conn_ctx) : result (list Z) :=
  let w := print_conn c in
  if Z.of_nat (length w) <? Z.of_nat (length ep_name)
  then Ok (w ++ 0 :: drop (S (length w)) ep_name) else Err OutOfBounds.

(** The loop that makes the pair for each rank and publishes its name. *)
Fixpoint publish_pairs (lcg_name : list Z) (rank id port lid : Z) (ep_name : list Z) (i : Z) (n : nat)
    : IS (list Z) :=
  match n with
  | O => mret ep_name
  | S n =>
      q ← qp_create;
      _ ← st_set (fun s => set_qp (qp s ++ [q]) s);
      _ ← qp_init q port;
      h ← st_get heap;
      addr ← mr_field mr_addr h;
      rkey ← mr_field mr_rkey h;
      ep_name ← st_lift (sprintf_conn ep_name (ConnCtx addr rkey (qp_num q) lid));
      _ ← on_pm (lc_pm_publish lcg_name rank (Z.lor (Z.shiftl id 8) i) ep_name);
      publish_pairs lcg_name rank id port lid ep_name (i + 1) n
  end.

(** The loop that connects the pair of each rank to that rank's pair for this one. *)
Fixpoint connect_pairs (lcg_name : list Z) (rank id port : Z) (attr : ibv_port_attr) (ep_name : list Z)
    (i : Z) (n : nat) : IS (list lci_rep) :=
  match n with
  | O => mret []
  | S n =>
      ep_name ← on_pm (lc_pm_getname lcg_name i (Z.lor (Z.shiftl id 8) rank) ep_name);
      l ← st_lift (cstr ep_name);
      c ← st_lift (get_or OutOfBounds (scan_conn l));
      qs ← st_get qp;
      q ← st_lift (aget qs i);
      _ ← qp_to_rtr q port attr (c_qp_num c) (c_lid c);
      _ ← qp_to_rts q;
      reps ← connect_pairs lcg_name rank id port attr ep_name (i + 1) n;
      mret (LciRep q i (c_addr c) (c_rkey c) :: reps)
  end.

(** ** Start: the table from queue pairs to ranks *)

(** Whether [nums] differ modulo [j]: the loop that marks [b[k]] until one is marked. *)
Fixpoint mark (nums : list Z) (j : Z) (b : list Z) : result (option (list Z)) :=
  match nums with
  | [] => Ok (Some b)
  | num :: nums =>
      let k := u32 num mod u32 j in
      x ← b.[k];
      if truth x then Ok None else b ← b.[k <- 1]; mark nums j b
  end.

(** for (i < lcg_size) b[s->qp[i]->qp_num % j] = i *)
Fixpoint fill (nums : list Z) (j i : Z) (b : list Z) : result (list Z) :=
  match nums with
  | [] => Ok b
  | num :: nums => b ← b.[u32 num mod u32 j <- i]; fill nums j (i + 1) b
  end.

(** The loop from [j] on: the modulus and the table. *)
Fixpoint rank_table (n : nat) (nums : list Z) (j : Z) : result (Z * list Z) :=
  r ← mark nums j (replicate (Z.to_nat j) 0);
  match r with
  | Some b => b ← fill nums j 0 b; Ok (j, b)
  | None => match n with O => Err Spin | S n => rank_table n nums (j + 1) end
  end.

(** ** Start *)

(** for (; dev_port < 128; dev_port++): the port, the result of the last query and what it
    filled in. *)
Fixpoint find_port (ctx port : Z) (n : nat) (last : Z * ibv_port_attr) : Z * (Z * ibv_port_attr) :=
  match n with
  | O => (port, last)
  | S n => let r := ibv_query_port ctx port in
           if r.1 =? 0 then (port, r) else find_port ctx (port + 1) n r
  end.

(** [ptr] is the memory posix_memalign gave for the heap, [entries] that malloc gives for the
    cache's entries; [n] bounds the moduli tried. *)
Definition lc_server_init (lcg_name : list Z) (rank size id ptr entries : Z) (n : nat) : IS (list lci_rep) :=
  _ ← must_have (Z.of_nat (length ibv_get_device_list));
  ctx ← mret (ibv_open_device (default 0 (last ibv_get_device_list)));
  _ ← must_have ctx;
  _ ← must (ibv_query_device ctx);
  let '(port, (rc, attr)) := find_port ctx 0 128 (0, PortAttr 0 0) in
  _ ← must rc;
  pd ← mret (ibv_alloc_pd ctx);
  _ ← must_have pd;
  srq ← mret (ibv_create_srq pd LC_SERVER_MAX_RCVS);
  _ ← must_have srq;
  let scq := ibv_create_cq ctx (64 * 1024) true in
  let rcq := ibv_create_cq ctx (64 * 1024) false in
  _ ← must_have scq;
  _ ← must_have rcq;
  _ ← st_set (set_objects srq scq rcq);
  h ← ibv_mem_malloc ptr (1024 * 1024 * 1024);
  _ ← mr_field mr_addr h;                 (* heap_ptr = heap->addr, before heap is compared with 0 *)
  _ ← st_set (set_heap h);
  _ ← st_set (set_recv_posted 0);
  _ ← st_set (set_qp []);
  ep_name ← publish_pairs lcg_name rank id port (lid attr) (chars 256) 0 (Z.to_nat size);
  reps ← connect_pairs lcg_name rank id port attr ep_name 0 (Z.to_nat size);
  qs ← st_get qp;
  '(m, b) ← st_lift (rank_table n (qp_num <$> qs) size);
  _ ← st_set (set_qp2rank b m);
  _ ← (if use_dreg then _ ← on_cache (dreg_init entries); mret tt else mret tt);
  _ ← on_pm PMI_Barrier;
  mret reps.

Definition lc_server_finalize : IS unit :=
  a ← st_get send_cq; b ← st_get recv_cq; c ← st_get dev_srq;
  _ ← verb_log (IbvDestroyCq a); _ ← verb_log (IbvDestroyCq b); _ ← verb_log (IbvDestroySrq c);
  _ ← on_pm PMI_Finalize;
  mret tt.

Definition lc_server_heap_ptr : IS Z := h ← st_get heap; mr_field mr_addr h.

End ibv.
