(* ===== verification/IbvSpec.v ===== *)
(** * What the InfiniBand server guarantees (about Ibv.v) *)
From stdpp Require Import gmap.
From S2P Require Import Prelude Text Config Lock Dequeue Pool Hashtable CompQueue State.
From S2P Require Import Proto Api ProtoSpec Rendezvous Vma Dreg PmiUtil PmiSpec Pmi PmiKvs Ibv.

(** ** The table from queue pairs to ranks *)

Definition slot (j num : Z) : nat := Z.to_nat (u32 num mod u32 j).

Lemma slot_range j num : 0 < j < 2 ^ 32 -> 0 <= u32 num mod u32 j < j /\ (slot j num < Z.to_nat j)%nat.
Proof.
  intros Hj. rewrite (u32_small j) by lia. pose proof (Z.mod_pos_bound (u32 num) j ltac:(lia)).
  unfold slot. rewrite (u32_small j) by lia. lia.
Qed.

(** The marks tell whether the numbers differ modulo [j]. *)
Lemma mark_spec j nums : 0 < j < 2 ^ 32 -> forall b, length b = Z.to_nat j ->
  (NoDup (slot j <$> nums) -> (forall num, num ∈ nums -> b !! slot j num = Some 0) ->
     exists b', mark nums j b = Ok (Some b') /\ length b' = length b) /\
  (~ (NoDup (slot j <$> nums) /\ forall num, num ∈ nums -> b !! slot j num = Some 0) ->
     mark nums j b = Ok None).
Proof.
  intros Hj. induction nums as [|num nums IH]; intros b Hb.
  { split; [intros _ _; by exists b|]. intros H. destruct H. split; [constructor|]. by intros ? ?%elem_of_nil. }
  destruct (slot_range j num Hj) as [Hr Hs]. cbn [mark].
  destruct (aget_in b (u32 num mod u32 j)) as (x & Ex & Hx); [rewrite Hb; lia|].
  rewrite Ex. cbn [mbind result_bind]. fold (slot j num) in Hx.
  rewrite aset_in by (rewrite Hb; lia). fold (slot j num). cbn [mbind result_bind].
  specialize (IH (<[slot j num := 1]> b)). rewrite length_insert in IH. destruct (IH Hb) as [IH1 IH2].
  assert (x <> 0 -> truth x = true) as Htrue by (intros; unfold truth; by rewrite (proj2 (Z.eqb_neq x 0))).
  split.
  - intros Hnd Hz. rewrite (Hz num ltac:(left)) in Hx. injection Hx as <-. cbn [truth Z.eqb negb].
    rewrite fmap_cons, NoDup_cons in Hnd. destruct Hnd as [Hni Hnd]. apply IH1; [done|].
    intros y Hy. rewrite list_lookup_insert_ne; [apply Hz; by right|].
    intros E. apply Hni. rewrite E. by apply list_elem_of_fmap_2.
  - intros Hnot. destruct (Z.eq_dec x 0) as [->|Hne]; [|by rewrite Htrue]. cbn [truth Z.eqb negb].
    apply IH2. intros [Hnd Hz]. apply Hnot. rewrite fmap_cons, NoDup_cons.
    assert (slot j num ∉ slot j <$> nums) as Hni.
    { intros (y & E & Hy)%list_elem_of_fmap. specialize (Hz y Hy). rewrite <- E in Hz.
      rewrite list_lookup_insert_eq in Hz by lia. done. }
    split; [done|]. intros y Hy. apply elem_of_cons in Hy as [->|Hy]; [done|].
    specialize (Hz y Hy). rewrite list_lookup_insert_ne in Hz; [done|].
    intros E. apply Hni. rewrite E. by apply list_elem_of_fmap_2.
Qed.

Lemma fill_spec j nums : 0 < j < 2 ^ 32 -> NoDup (slot j <$> nums) -> forall i b,
  length b = Z.to_nat j -> exists b', fill nums j i b = Ok b' /\ length b' = length b /\
    (forall k num, nums !! k = Some num -> b' !! slot j num = Some (i + Z.of_nat k)) /\
    (forall x, x ∉ slot j <$> nums -> b' !! x = b !! x).
Proof.
  intros Hj. induction nums as [|num nums IH]; intros Hnd i b Hb; [by exists b|].
  rewrite fmap_cons, NoDup_cons in Hnd. destruct Hnd as [Hni Hnd].
  destruct (slot_range j num Hj) as [Hr Hs]. cbn [fill].
  rewrite aset_in by (rewrite Hb; lia). fold (slot j num). cbn [mbind result_bind].
  destruct (IH Hnd (i + 1) (<[slot j num := i]> b)) as (b' & E & Hl & Hin & Hout); [by rewrite length_insert|].
  exists b'. rewrite length_insert in Hl. split; [done|]. split; [done|]. split.
  - intros [|k] y Hy; cbn in Hy.
    + injection Hy as <-. rewrite Hout, list_lookup_insert_eq by (done || lia). f_equal. lia.
    + rewrite (Hin k y Hy). f_equal. lia.
  - intros x Hx. rewrite fmap_cons, not_elem_of_cons in Hx. destruct Hx as [Hne Hx].
    rewrite Hout by done. by rewrite list_lookup_insert_ne.
Qed.

Lemma nodup_slots nums M : NoDup nums -> Forall (fun num => 0 <= num < M) nums -> M < 2 ^ 32 ->
  forall j, M <= j < 2 ^ 32 -> NoDup (slot j <$> nums).
Proof.
  intros Hnd Hr HM j Hj. apply NoDup_fmap_2_strong; [|done].
  intros x y Hx Hy. rewrite Forall_forall in Hr. pose proof (Hr x Hx). pose proof (Hr y Hy).
  unfold slot. rewrite !u32_small, !Z.mod_small by lia. lia.
Qed.

Lemma slots_mod (nums : list Z) M k : Forall (fun num => 0 <= num < M) nums -> 0 < k <= M -> M < 2 ^ 32 ->
  NoDup (slot k <$> nums) <-> NoDup ((fun num => num mod k) <$> nums).
Proof.
  intros Hr Hk HM.
  assert (slot k <$> nums = Z.to_nat <$> ((fun num => num mod k) <$> nums)) as ->.
  { rewrite <- list_fmap_compose. apply list_fmap_ext. intros i x Hx. rewrite Forall_lookup in Hr.
    specialize (Hr i x Hx). unfold slot, compose. by rewrite !u32_small by lia. }
  split; [apply NoDup_fmap_1|]. apply NoDup_fmap_2_strong.
  intros x y (x' & -> & _)%list_elem_of_fmap (y' & -> & _)%list_elem_of_fmap.
  pose proof (Z.mod_pos_bound x' k). pose proof (Z.mod_pos_bound y' k). lia.
Qed.

(** A round of the search: it ends at a modulus that separates the numbers. *)
Lemma rank_table_round n (nums : list Z) j : 0 < j < 2 ^ 32 ->
  (NoDup (slot j <$> nums) -> exists b, rank_table n nums j = Ok (j, b) /\ Z.of_nat (length b) = j /\
     forall i num, nums !! i = Some num -> aget b (u32 num mod u32 j) = Ok (Z.of_nat i)) /\
  (~ NoDup (slot j <$> nums) -> rank_table (S n) nums j = rank_table n nums (j + 1)).
Proof.
  intros Hj. destruct (mark_spec j nums Hj (replicate (Z.to_nat j) 0)) as [H1 H2]; [apply length_replicate|].
  split.
  - intros Hnd. destruct (H1 Hnd) as (b & E & Hb).
    { intros num _. apply lookup_replicate. by destruct (slot_range j num Hj). }
    rewrite length_replicate in Hb. destruct (fill_spec j nums Hj Hnd 0 b Hb) as (b' & Ef & Hl & Hin & _).
    exists b'. split; [destruct n; cbn [rank_table]; by rewrite E; cbn [mbind result_bind]; rewrite Ef|].
    split; [lia|]. intros i num Hi. apply aget_ok. destruct (slot_range j num Hj).
    split; [lia|]. rewrite <- (Z.add_0_l (Z.of_nat i)). by apply Hin.
  - intros Hnot. cbn [rank_table]. rewrite H2; [done|]. by intros [? _].
Qed.

(** The search ends at the smallest modulus that separates the numbers. *)
Lemma rank_table_found n nums M : NoDup nums -> Forall (fun num => 0 <= num < M) nums ->
  Z.of_nat (length nums) <= M < 2 ^ 31 -> M <= Z.of_nat (length nums) + Z.of_nat n ->
  exists m b, rank_table n nums (Z.of_nat (length nums)) = Ok (m, b) /\
    Z.of_nat (length b) = m /\ Z.of_nat (length nums) <= m <= M /\
    (forall i num, nums !! i = Some num -> aget b (u32 num mod u32 m) = Ok (Z.of_nat i)) /\
    (forall j, Z.of_nat (length nums) <= j < m -> ~ NoDup ((fun num => num mod j) <$> nums)).
Proof.
  intros Hnd Hr HM Hn.
  destruct nums as [|num0 nums0] eqn:Enums.
  { exists 0, []. split; [by destruct n|]. cbn. split; [done|]. split; [cbn in HM; lia|]. split; [done|lia]. }
  rewrite <- Enums in *. assert (0 < Z.of_nat (length nums)) as Hpos by (rewrite Enums; cbn; lia).
  enough (forall n j, 0 < j <= M -> M <= j + Z.of_nat n -> exists m b, rank_table n nums j = Ok (m, b) /\
    Z.of_nat (length b) = m /\ j <= m <= M /\
    (forall i num, nums !! i = Some num -> aget b (u32 num mod u32 m) = Ok (Z.of_nat i)) /\
    (forall k, j <= k < m -> ~ NoDup ((fun num => num mod k) <$> nums))) as Hgen by (apply Hgen; lia).
  clear n Hn Enums. intros n. induction n as [|n IH]; intros j Hj Hn;
    pose proof (slots_mod nums M j Hr ltac:(lia) ltac:(lia)) as Hs.
  - destruct (rank_table_round 0 nums j ltac:(lia)) as [G3 _].
    destruct G3 as (b & E & Hb & Ht); [apply (nodup_slots nums M); [done..|lia|lia]|].
    exists j, b. do 4 (split; [done || lia|]). lia.
  - destruct (decide (NoDup (slot j <$> nums))) as [Hd|Hd].
    + destruct (rank_table_round (S n) nums j ltac:(lia)) as [G3 _]. destruct (G3 Hd) as (b & E & Hb & Ht).
      exists j, b. do 4 (split; [done || lia|]). lia.
    + rewrite (proj2 (rank_table_round n nums j ltac:(lia)) Hd).
      assert (j <> M) as HjM by (intros ->; apply Hd, (nodup_slots nums M); (done || lia)).
      destruct (IH (j + 1)) as (m & b & E & Hb & Hm & Ht & Hmin); [lia..|].
      exists m, b. do 3 (split; [done || lia|]). split; [done|].
      intros k Hk. destruct (Z.eq_dec k j) as [->|]; [by rewrite <- Hs|apply Hmin; lia].
Qed.

(** ** The rank of a queue pair *)

Section ranks.
Context `{Verbs}.

(** Queue pairs with different numbers below [M], which [n] rounds reach. *)
Record pairs_ok (M : Z) (n : nat) (qs : list Z) : Prop := {
  po_distinct : NoDup (qp_num <$> qs);
  po_range : Forall (fun q => 0 <= qp_num q < M) qs;
  po_count : Z.of_nat (length qs) <= M < 2 ^ 31;
  po_fuel : M <= Z.of_nat (length qs) + Z.of_nat n }.

Lemma run_rank_of_qp qs M n : pairs_ok M n qs ->
  exists m b, rank_table n (qp_num <$> qs) (Z.of_nat (length qs)) = Ok (m, b) /\
    Z.of_nat (length qs) <= m <= M /\
    (forall i q s, qs !! i = Some q -> qp2rank_mod s = m -> qp2rank s = b ->
       rank_of_qp (qp_num q) s = Ok (Z.of_nat i, s)) /\
    (forall j, Z.of_nat (length qs) <= j < m -> ~ NoDup ((fun q => qp_num q mod j) <$> qs)).
Proof.
  intros [Hnd Hr HM Hn]. rewrite <- (length_fmap qp_num) in HM, Hn |- *.
  assert (Forall (fun num => 0 <= num < M) (qp_num <$> qs)) as Hr' by (by apply Forall_fmap).
  destruct (rank_table_found n _ M Hnd Hr' HM Hn) as (m & b & E & _ & Hm & Ht & Hmin).
  exists m, b. split; [done|]. split; [done|]. split.
  - intros i q s Hq Em Eb. unfold rank_of_qp.
    rewrite (st_bind_run _ _ s m s), (st_bind_run _ _ s b s) by (unfold st_get; congruence).
    by rewrite (Ht i (qp_num q)) by (by rewrite list_lookup_fmap, Hq).
  - intros j Hj Hd. apply (Hmin j Hj). by rewrite <- list_fmap_compose.
Qed.

(** C35: The server finds the rank a message came from by the number of the queue pair: the
    search for a modulus that separates the numbers ends, at the smallest one not below the
    number of ranks, and with the table it fills the progress finds the rank of each pair. *)
Theorem rank_table_perfect s M n : pairs_ok M n (qp s) ->
  exists m b, rank_table n (qp_num <$> qp s) (Z.of_nat (length (qp s))) = Ok (m, b) /\
    Z.of_nat (length (qp s)) <= m <= M /\
    (forall i q, qp s !! i = Some q ->
       rank_of_qp (qp_num q) (set_qp2rank b m s) = Ok (Z.of_nat i, set_qp2rank b m s)) /\
    (forall j, Z.of_nat (length (qp s)) <= j < m -> ~ NoDup ((fun q => qp_num q mod j) <$> qp s)).
Proof.
  intros Hok. destruct (run_rank_of_qp _ _ _ Hok) as (m & b & E & Hm & Hr & Hmin).
  exists m, b. split; [done|]. split; [done|]. split; [|done]. intros i q Hq. by apply Hr.
Qed.

End ranks.

(** ** Running lifted operations *)

Lemma ibv_on_proc_run {A} (m : M A) s a x : m (proc s) = Ok (a, x) -> on_proc m s = Ok (a, set_proc x s).
Proof. intros E. unfold on_proc. by rewrite E. Qed.

Lemma ibv_on_pm_run {A} (m : PM A) s a x : m (pm s) = Ok (a, x) -> on_pm m s = Ok (a, set_pm x s).
Proof. intros E. unfold on_pm. by rewrite E. Qed.

(** ** The count of posted receives *)

Definition is_recv_post (v : verb) : bool := match v with IbvPostSrqRecv _ _ _ _ => true | _ => false end.
Definition posted (s : ibv) : Z := Z.of_nat (length (filter is_recv_post (verbs s))).

(** The count moved by [n] more than the receives posted. *)
Definition moved (n : Z) (s s' : ibv) : Prop :=
  recv_posted s' - recv_posted s = posted s' - posted s + n.

Lemma ibv_on_proc_inv {A} (m : M A) s a s' : on_proc m s = Ok (a, s') ->
  recv_posted s' = recv_posted s /\ verbs s' = verbs s.
Proof. unfold on_proc. destruct (m (proc s)) as [[b x]|]; [|done]. by intros [= _ <-]. Qed.

Lemma mr_field_inv `{Verbs} f mr s a s' : mr_field f mr s = Ok (a, s') -> s' = s.
Proof. unfold mr_field. destruct (_ =? _); [done|]. by intros [= _ <-]. Qed.

Section accounting.
Context `{Verbs, Build, Server, Client}.
Context (dev : Z).

Lemma ibv_post_recv_inv p s a s' : ibv_post_recv_ dev p s = Ok (a, s') ->
  moved 0 s s' /\ posted s' - posted s = Z.b2z (negb (p =? NULL)).
Proof.
  unfold ibv_post_recv_, moved, posted. intros E. destruct (p =? NULL); cbn [negb Z.b2z].
  - apply st_bind_inv in E as (n & s1 & [= <- <-] & E).
    apply st_bind_inv in E as (dl & s2 & [R1 V1]%ibv_on_proc_inv & E).
    assert (recv_posted s' = recv_posted s2 /\ verbs s' = verbs s2) as [-> ->].
    { destruct (_ && _); [by apply ibv_on_proc_inv in E|by injection E as _ <-]. }
    rewrite R1, V1. lia.
  - apply st_bind_inv in E as (h & s1 & [= <- <-] & E).
    apply st_bind_inv in E as (lkey & s2 & ->%mr_field_inv & E).
    apply st_bind_inv in E as (pid & s2 & [R1 V1]%ibv_on_proc_inv & E).
    apply st_bind_inv in E as (x & s3 & [R2 V2]%ibv_on_proc_inv & E).
    apply st_bind_inv in E as (y & s4 & [= _ <-] & E).
    apply st_bind_inv in E as (n & s5 & [= <- <-] & E).
    apply st_bind_inv in E as (z & s6 & [= _ <-] & E).
    apply st_bind_inv in E as (dl & s7 & [R3 V3]%ibv_on_proc_inv & E).
    assert (recv_posted s' = recv_posted s7 /\ verbs s' = verbs s7) as [-> ->].
    { destruct (_ && _); [by apply ibv_on_proc_inv in E|by injection E as _ <-]. }
    cbn [recv_posted verbs set_recv_posted set_verbs] in R3, V3. rewrite R3, V3, R2, V2, R1, V1.
    rewrite filter_app, length_app.
      change (filter is_recv_post [_]) with [IbvPostSrqRecv p (State.data_of p) SHORT_MSG_SIZE lkey].
    cbn [length]. lia.
Qed.

Lemma recv_moved wc s a s' : progress_recv dev wc s = Ok (a, s') -> moved (-1) s s' /\ posted s' = posted s.
Proof.
  unfold progress_recv, moved, posted. intros E. apply st_bind_inv in E as (x & s1 & [= _ <-] & E).
  set (s1 := set_recv_posted _ s) in *.
  enough (recv_posted s' = recv_posted s1 /\ verbs s' = verbs s1) as [-> ->] by (cbn; lia).
  destruct (negb _); [|destruct (truth _)].
  - apply st_bind_inv in E as (y & s2 & [R1 V1]%ibv_on_proc_inv & E).
    apply st_bind_inv in E as (r & s3 & E3 & E).
    assert (s3 = s2) as ->.
    { unfold rank_of_qp in E3. apply st_bind_inv in E3 as (m & s4 & [= <- <-] & E3).
      apply st_bind_inv in E3 as (t & s4 & [= <- <-] & E3). unfold st_lift in E3.
      destruct (aget _ _); [by injection E3 as _ <-|done]. }
    apply st_bind_inv in E as (q & s4 & [= <- <-] & E).
    apply st_bind_inv in E as (h & s4 & E4 & E).
    assert (s4 = s2) as -> by (unfold st_lift in E4; destruct (aget _ _); [by injection E4 as _ <-|done]).
    apply st_bind_inv in E as (z & s5 & [R2 V2]%ibv_on_proc_inv & E). apply ibv_on_proc_inv in E as [R3 V3].
    rewrite R3, V3, R2, V2. done.
  - apply st_bind_inv in E as (h & s2 & [= <- <-] & E).
    apply st_bind_inv in E as (b & s3 & ->%mr_field_inv & E).
    apply st_bind_inv in E as (z & s5 & [R2 V2]%ibv_on_proc_inv & E). apply ibv_on_proc_inv in E as [R3 V3].
    by rewrite R3, V3.
  - apply st_bind_inv in E as (z & s5 & [R2 V2]%ibv_on_proc_inv & E). apply ibv_on_proc_inv in E as [R3 V3].
    by rewrite R3, V3.
Qed.

Lemma recvs_moved wcs : forall s a s', progress_all (progress_recv dev) wcs s = Ok (a, s') ->
  moved (- Z.of_nat (length wcs)) s s' /\ posted s' = posted s.
Proof.
  induction wcs as [|wc wcs IH]; intros s a s' E; [injection E as _ <-; unfold moved; cbn; lia|].
  apply st_bind_inv in E as (x & s1 & [M1 P1]%recv_moved & E). apply IH in E as [M2 P2].
  unfold moved in *. cbn [length]. lia.
Qed.

Lemma sends_moved wcs : forall s a s', progress_all progress_send wcs s = Ok (a, s') ->
  recv_posted s' = recv_posted s /\ verbs s' = verbs s.
Proof.
  induction wcs as [|wc wcs IH]; intros s a s' E; [by injection E as _ <-|].
  apply st_bind_inv in E as (x & s1 & E1 & E). apply IH in E as [-> ->].
  unfold progress_send in E1. destruct (truth _); [by apply ibv_on_proc_inv in E1|by injection E1 as _ <-].
Qed.

Lemma post_moved s b s' : progress_post dev s = Ok (b, s') ->
  moved 0 s s' /\ b = (recv_posted s <? LC_SERVER_MAX_RCVS) /\
  0 <= posted s' - posted s <= Z.b2z (recv_posted s <? LC_SERVER_MAX_RCVS) /\
  (b = true -> posted s' = posted s + 1 \/ exists y, pool_get_nb dev (proc s) = Ok (NULL, y)).
Proof.
  unfold progress_post. intros E. apply st_bind_inv in E as (n & s1 & [= <- <-] & E).
  destruct (_ <? _) eqn:Hn; [|injection E as <- <-; unfold moved; cbn; split_and!; (done || lia)].
  apply st_bind_inv in E as (p & s1 & E1 & E). pose proof (ibv_on_proc_inv _ _ _ _ E1) as [R1 V1].
  apply st_bind_inv in E as (x & s2 & [M2 P2]%ibv_post_recv_inv & E). injection E as <- <-.
  unfold moved, posted in *. rewrite R1, V1 in *. split; [lia|]. split; [done|].
  destruct (Z.eqb_spec p NULL) as [->|]; cbn [negb Z.b2z] in *; (split; [lia|intros _]); [right|left; lia].
  unfold on_proc in E1. destruct (pool_get_nb dev (proc s)) as [[q y]|]; [|done].
  injection E1 as -> _. by exists y.
Qed.

(** A call of the progress: the count is exact, and one receive at most is posted. *)
Lemma progress_moved recvs sends s b s' : lc_server_progress dev recvs sends s = Ok (b, s') ->
  moved (- Z.of_nat (length recvs)) s s' /\ 0 <= posted s' - posted s /\
  recv_posted s' <= Z.max LC_SERVER_MAX_RCVS (recv_posted s).
Proof.
  unfold lc_server_progress. intros E. apply st_bind_inv in E as (x & s1 & [M1 P1]%recvs_moved & E).
  apply st_bind_inv in E as (y & s2 & [R2 V2]%sends_moved & E).
  apply st_bind_inv in E as (c & s3 & (M3 & _ & P3 & _)%post_moved & E). injection E as _ <-.
  unfold moved, posted in *. rewrite R2, V2 in *.
  destruct (Z.ltb_spec (recv_posted s1) LC_SERVER_MAX_RCVS); cbn [Z.b2z] in *; lia.
Qed.

(** Calls of the progress with what each found; of [o] receives outstanding no more complete. *)
Inductive ibv_run : list (list ibv_wc * list ibv_wc) -> ibv -> Z -> ibv -> Z -> Prop :=
| run_nil s o : ibv_run [] s o s o
| run_cons recvs sends calls s o b s1 s2 o2 :
    Z.of_nat (length recvs) <= o -> lc_server_progress dev recvs sends s = Ok (b, s1) ->
    ibv_run calls s1 (o - Z.of_nat (length recvs) + (posted s1 - posted s)) s2 o2 ->
    ibv_run ((recvs, sends) :: calls) s o s2 o2.

Lemma run_moved calls s o s' o' : ibv_run calls s o s' o' -> recv_posted s = o ->
  0 <= o <= LC_SERVER_MAX_RCVS ->
  recv_posted s' = o' /\ 0 <= o' <= LC_SERVER_MAX_RCVS.
Proof.
  induction 1 as [s o|recvs sends calls s o b s1 s2 o2 Hc E _ IH]; intros Hr Ho; [done|].
  apply progress_moved in E as (M & P & B). unfold moved in M. apply IH; lia.
Qed.

(** C34: The server's count of posted receives is the number outstanding, between none and
    LC_SERVER_MAX_RCVS, whatever arrives and completes; a call that finds nothing posts
    another while there are fewer, unless the pool gives no packet. *)
Theorem posted_exact calls s s' o' : recv_posted s = 0 -> ibv_run calls s 0 s' o' ->
  recv_posted s' = o' /\ 0 <= o' <= LC_SERVER_MAX_RCVS /\
  forall b s'', lc_server_progress dev [] [] s' = Ok (b, s'') ->
    (b = true <-> o' < LC_SERVER_MAX_RCVS) /\
    (o' < LC_SERVER_MAX_RCVS ->
     posted s'' = posted s' + 1 \/ exists y, pool_get_nb dev (proc s') = Ok (NULL, y)).
Proof.
  intros Hr Hrun. destruct (run_moved _ _ _ _ _ Hrun Hr) as [<- Ho]; [by unfold LC_SERVER_MAX_RCVS|].
  split; [done|]. split; [done|]. intros b s'' E. unfold lc_server_progress in E.
  apply st_bind_inv in E as (x & s1 & [= _ <-] & E). apply st_bind_inv in E as (y & s2 & [= _ <-] & E).
  apply st_bind_inv in E as (c & s3 & (_ & -> & _ & P)%post_moved & E). injection E as <- <-.
  split; [apply Z.ltb_lt|]. intros Hlt. apply P. by apply Z.ltb_lt.
Qed.

End accounting.

(** ** Words of immediate data *)

Lemma land_bit w k : 0 <= k -> Z.land w (2 ^ k) = if Z.testbit w k then 2 ^ k else 0.
Proof.
  intros Hk. apply Z.bits_inj'. intros n Hn. rewrite Z.land_spec, Z.pow2_bits_eqb by done.
  destruct (Z.eqb_spec k n) as [<-|Hne].
  - rewrite andb_true_r. destruct (Z.testbit w k); [by rewrite Z.pow2_bits_true|by rewrite Z.bits_0].
  - rewrite andb_false_r. destruct (Z.testbit w k); [by rewrite Z.pow2_bits_false|by rewrite Z.bits_0].
Qed.

Lemma high_bit w : 0 <= w < 2 ^ 32 -> Z.testbit w 31 = (2 ^ 31 <=? w).
Proof.
  intros Hw. destruct (Z.leb_spec (2 ^ 31) w).
  - apply Z.testbit_true; [done|]. rewrite <- (Z.div_unique w (2 ^ 31) 1 (w - 2 ^ 31)) by lia. done.
  - apply Z.testbit_false; [done|]. by rewrite Z.div_small by lia.
Qed.

(** The word of a rendezvous, and what the receiver makes of a word. *)
Lemma rtr_word sid : 0 <= sid < 2 ^ 31 -> Z.lor (u32 sid) IBV_IMM_RTR = sid + 2 ^ 31.
Proof.
  intros Hs. unfold IBV_IMM_RTR. rewrite u32_small by lia. rewrite <- (Z.mul_1_l (2 ^ 31)).
  by rewrite (lor_disjoint 31) by lia.
Qed.

Lemma rtr_test w : 0 <= w < 2 ^ 32 -> truth (Z.land w IBV_IMM_RTR) = (2 ^ 31 <=? w).
Proof.
  intros Hw. unfold IBV_IMM_RTR. rewrite land_bit, high_bit by lia. by destruct (_ <=? _).
Qed.

Lemma rtr_strip w : 2 ^ 31 <= w < 2 ^ 32 -> Z.lxor w IBV_IMM_RTR = w - 2 ^ 31.
Proof.
  intros Hw. replace w with (Z.lor (u32 (w - 2 ^ 31)) IBV_IMM_RTR) at 1 by (rewrite rtr_word; lia).
  rewrite u32_small by lia. set (x := w - 2 ^ 31).
  assert (Z.land x IBV_IMM_RTR = 0) as E.
  { unfold IBV_IMM_RTR. rewrite land_bit, high_bit by lia. by rewrite (proj2 (Z.leb_gt _ _)) by lia. }
  rewrite <- (Z.lxor_lor _ _ E), Z.lxor_assoc, Z.lxor_nilpotent. apply Z.lxor_0_r.
Qed.

Section words.
Context `{Verbs, Build, Server, Client, Platform}.
Context (use_dreg : bool) (fuel : nat) (dev : Z).

(** A word of a remote write with the high bit is taken for the end of a rendezvous. *)
Lemma progress_rtr s wc : wc_recv_rdma_with_imm wc = true -> 2 ^ 31 <= wc_imm_data wc < 2 ^ 32 ->
  heap s <> NULL ->
  progress_recv dev wc s =
    (_ ← on_proc (lci_serve_imm (mr_addr (heap s) + (wc_imm_data wc - 2 ^ 31)));
     on_proc (pool_put dev (wc_wr_id wc))) (set_recv_posted (recv_posted s - 1) s).
Proof.
  intros Hw Hi Hh. unfold progress_recv. rewrite (st_bind_run _ _ s tt _) by reflexivity.
  rewrite Hw, rtr_test, (proj2 (Z.leb_le _ _)), rtr_strip by lia. cbn [negb].
  set (s1 := set_recv_posted _ s). rewrite (st_bind_run _ _ s1 (heap s) s1) by done.
  rewrite (st_bind_run _ _ s1 (mr_addr (heap s)) s1); [done|].
  unfold mr_field. by rewrite (proj2 (Z.eqb_neq _ _) Hh).
Qed.

(** Without it, for a put with a signal in packet [p]. *)
Lemma progress_put s wc k : wc_recv_rdma_with_imm wc = true -> 0 <= wc_imm_data wc < 2 ^ 31 ->
  packets (proc s) !! wc_wr_id wc = Some k ->
  progress_recv dev wc s = on_proc (lci_serve_recv_rdma (wc_wr_id wc) (wc_imm_data wc))
    (set_proc (set_packets (fun m => <[wc_wr_id wc := pk_set_req (req_s_of (wc_wr_id wc)) k]> m) (proc s))
      (set_recv_posted (recv_posted s - 1) s)).
Proof.
  intros Hw Hi Hk. unfold progress_recv. rewrite (st_bind_run _ _ s tt _) by reflexivity.
  rewrite Hw, rtr_test, (proj2 (Z.leb_gt _ _)) by lia. cbn [negb].
  set (s1 := set_recv_posted _ s).
  by rewrite (st_bind_run _ _ _ _ _ (ibv_on_proc_run (own_req (wc_wr_id wc)) s1 _ _ (run_upd_packet (proc s) _ _ _ Hk))).
Qed.

(** The word of the request posted last. *)
Definition posted_word (s : ibv) : option Z :=
  match last (verbs s) with Some (IbvPostSend _ wr) => Some (imm_data wr) | _ => None end.

Lemma rma_rtr_word rep buf addr rkey sz sid ctx sd sd' :
  lc_server_rma_rtr use_dreg fuel rep buf addr rkey sz sid ctx sd = Ok (tt, sd') ->
  posted_word sd' = Some (Z.lor (u32 sid) IBV_IMM_RTR).
Proof.
  intros E. unfold lc_server_rma_rtr in E. apply st_bind_inv in E as (n & s1 & _ & E).
  apply st_bind_inv in E as (l & s2 & _ & [= <-]). unfold posted_word. cbn [verbs set_verbs].
  by rewrite last_snoc.
Qed.

Lemma putss_word src sz rank addr meta ep es st x sd :
  eps (proc sd) !! ep = Some es -> lc_putss src sz rank addr meta ep (proc sd) = Ok (st, x) ->
  exists ev sd', trace x = trace (proc sd) ++ [ev] /\
    serve_event use_dreg fuel ev (set_proc x sd) = Ok (tt, sd') /\
    posted_word sd' = Some (MAKE_PROTO (gid es) LC_PROTO_LONG meta).
Proof.
  intros He E. unfold lc_putss in E. rewrite (bind_run _ _ _ _ _ (run_get_ep _ _ _ He)) in E.
  apply bind_inv in E as (r & s1 & E1 & E).
  assert (s1 = proc sd) as ->.
  { unfold ep_rep in E1. apply bind_inv in E1 as (d & s2 & E2 & E1). unfold get_dev in E2.
    destruct (lcg_dev (proc sd) !! server es); [|done]. injection E2 as _ <-.
    unfold lift in E1. destruct (aget _ _); [|done]. by injection E1. }
  apply bind_inv in E as (l & s2 & E2 & E).
  assert (s2 = proc sd) as ->.
  { unfold mem_load, lift in E2. destruct (load_bytes _ _ _); [|done]. by injection E2. }
  injection E as _ <-. eexists _, _. split; [reflexivity|]. split; [reflexivity|].
  unfold posted_word. cbn [verbs set_verbs]. rewrite last_snoc. cbn [imm_data].
  by rewrite u32_small by apply u32_range.
Qed.

(** The word of a rendezvous at the receiver: the last of the two completions of packet [p]. *)
Lemma rendezvous_word s wc p ep e h d req mem R src hp rq :
  wc_recv_rdma_with_imm wc = true -> heap s <> NULL -> wc_wr_id wc <> NULL ->
  sync_ep (proc s) ep e h d -> server e = dev -> has_sync = true ->
  (S (length (pool_elems (pkpool d))) < dq_capacity)%nat ->
  p <> NULL -> packets (proc s) !! p = Some (pk_set_ref 1 (answer ep p req mem R src hp)) ->
  reqs (proc s) !! req = Some rq -> 0 <= p - mr_addr (heap s) < 2 ^ 31 ->
  wc_imm_data wc = Z.lor (u32 (u32 (p - mr_addr (heap s)))) IBV_IMM_RTR ->
  exists s' d', progress_recv dev wc s = Ok (tt, s') /\ recv_posted s' = recv_posted s - 1 /\
    reqs (proc s') !! req = Some (rq_set_sync 1 rq) /\
    trace (proc s') = trace (proc s) ++ [EvRmaDereg mem] /\ dev_wf (proc s') dev d' /\
    pool_elems (pkpool d') ≡ₚ wc_wr_id wc :: p :: pool_elems (pkpool d).
Proof.
  intros Hw Hh Hq0 Hse Hdev Hbs Hroom Hp Hk Hrq Hr Hi.
  rewrite (u32_small (u32 _)), u32_small in Hi by (rewrite ?u32_small by lia; lia).
  rewrite <- (u32_small (p - mr_addr (heap s))), rtr_word in Hi by lia.
  destruct (data_arrived (proc s) p ep e h d req mem R src hp rq Hse Hbs Hp Hk Hrq)
    as (y1 & d1 & E1 & _ & _ & Et1 & _ & Er1 & Hd1 & Hl1).
  destruct (run_ep_pool_put y1 e (wc_wr_id wc) d1 Hd1 Hq0) as (y2 & E2 & Hst).
  { rewrite (Permutation_length Hl1). cbn. lia. }
  destruct (pool_step_frame _ _ _ _ _ Hst) as (_ & Er2 & _ & _ & Et2 & _).
  destruct Hst as (d0 & g & pool & _ & _ & _ & Hd2 & Hl2).
  unfold ep_pool_put in E2. rewrite Hdev in E2, Hd2.
  eexists _, _. split.
  { rewrite progress_rtr by (done || lia). rewrite Hi. replace (mr_addr _ + _) with p by lia.
    rewrite (st_bind_run _ _ _ _ _ (ibv_on_proc_run _ (set_recv_posted (recv_posted s - 1) s) _ _ E1)).
    by rewrite (ibv_on_proc_run _ (set_proc y1 _) _ y2 E2). }
  cbn [proc set_proc recv_posted set_recv_posted]. split; [done|].
  split; [by rewrite Er2, Er1, lookup_insert_eq|]. split; [by rewrite Et2|]. split; [exact Hd2|].
  cbn [pkpool]. rewrite <- Hl2. by constructor.
Qed.

(** The word of a put with a signal, below the bit of a rendezvous. *)
Lemma put_word s wc gid meta ep e cq k rq :
  wc_recv_rdma_with_imm wc = true -> 0 <= gid < 2 ^ 14 -> 0 <= meta < 2 ^ 15 ->
  wc_imm_data wc = MAKE_PROTO gid LC_PROTO_LONG meta -> has_cq = true ->
  aget (lcg_ep (proc s)) gid = Ok ep -> queue_ep (proc s) ep e cq ->
  packets (proc s) !! wc_wr_id wc = Some k -> reqs (proc s) !! req_s_of (wc_wr_id wc) = Some rq ->
  exists s' e' cq', progress_recv dev wc s = Ok (tt, s') /\ recv_posted s' = recv_posted s - 1 /\
    reqs (proc s') !! req_s_of (wc_wr_id wc) = Some (rq_set_parent (wc_wr_id wc) (rq_set_meta meta rq)) /\
    eps (proc s') !! ep = Some e' /\ ep_to e' = Cq cq' /\ cq_wf cq' /\
    cq_elems cq' = cq_elems cq ++ [req_s_of (wc_wr_id wc)] /\ trace (proc s') = trace (proc s).
Proof.
  intros Hw Hg Hm Hi Hbq Hep Hqe Hk Hrq. set (q := wc_wr_id wc) in *.
  set (put := MAKE_PROTO gid LC_PROTO_LONG meta) in *.
  assert (PROTO_GET_RGID put = gid) as Erg by (unfold put; apply get_rgid_make; unfold LC_PROTO_LONG; lia).
  assert (PROTO_GET_META put = meta) as Emt.
  { unfold put. rewrite get_meta_make, Z.mod_small by (unfold LC_PROTO_LONG; lia). done. }
  assert (put = 3 + 4 * gid + 2 ^ 16 * meta) as Eput.
  { unfold put, LC_PROTO_LONG. rewrite make_proto_val, (Z.mod_small meta) by lia. done. }
  set (k1 := pk_set_req (req_s_of q) k). set (y1 := set_packets (fun m => <[q := k1]> m) (proc s)).
  set (y2 := set_reqs (fun m => <[req_s_of q := rq_set_meta meta rq]> m) y1).
  destruct (run_ce_queue y2 ep e cq q k1 (rq_set_meta meta rq)) as (cq' & Hwf & Hel & E); try done.
  { by destruct Hqe. }
  { apply lookup_insert_eq. }
  { cbn. apply lookup_insert_eq. }
  set (y3 := set_eps _ _) in E.
  assert (lci_serve_recv_rdma q put y1 = Ok (tt, y3)) as Es.
  { unfold lci_serve_recv_rdma. erewrite (bind_run _ _ _ ep) by
      (unfold ep_of_proto; erewrite bind_run by reflexivity; rewrite Erg; cbn [lcg_ep y1 set_packets];
        by rewrite Hep).
    erewrite bind_run by (apply run_get_packet, lookup_insert_eq). rewrite Emt.
    erewrite bind_run by (apply run_upd_req; exact Hrq).
    erewrite bind_run by (apply run_get_ep; exact (qe_ep _ _ _ _ Hqe)). exact E. }
  eexists _, _, cq'. split.
  { rewrite (progress_put s wc k), Hi by (done || lia). rewrite (ibv_on_proc_run _ (set_proc y1 _) _ y3 Es).
    done. }
  cbn [proc set_proc recv_posted set_recv_posted y3 reqs set_eps set_reqs eps trace y2 y1 set_packets].
  split; [done|]. split; [cbn; by rewrite lookup_insert_eq|]. split; [apply lookup_insert_eq|]. done.
Qed.

(** C40: Rendezvous and puts with a signal share the words of remote writes.

    The word lc_server_rma_rtr posts for a packet at an offset of the receiver's heap ends
    the rendezvous of that packet: where its answer was sent, the request is signalled, the
    registration given back, and both that packet and the one the write used are free again.

    The word lc_server_putss posts for lc_putss with a meta below 2^15 brings that meta to
    the endpoint addressed: the request of the packet has it and is queued last.  From 2^15
    to 2^16 the put is served as the end of a rendezvous of what lies at an offset in the
    heap, and where no packet lies there it stops the process. *)
Theorem imm_words s wc :
  wc_recv_rdma_with_imm wc = true -> heap s <> NULL -> wc_wr_id wc <> NULL ->
  (forall sd sd' rep buf addr rkey sz ctx p ep e h d req mem R src hp rq,
     lc_server_rma_rtr use_dreg fuel rep buf addr rkey sz (u32 (p - mr_addr (heap s))) ctx sd = Ok (tt, sd') ->
     posted_word sd' = Some (wc_imm_data wc) ->
     sync_ep (proc s) ep e h d -> server e = dev -> has_sync = true ->
     (S (length (pool_elems (pkpool d))) < dq_capacity)%nat -> p <> NULL ->
     packets (proc s) !! p = Some (pk_set_ref 1 (answer ep p req mem R src hp)) ->
     reqs (proc s) !! req = Some rq -> 0 <= p - mr_addr (heap s) < 2 ^ 31 ->
     exists s' d', progress_recv dev wc s = Ok (tt, s') /\ recv_posted s' = recv_posted s - 1 /\
       reqs (proc s') !! req = Some (rq_set_sync 1 rq) /\
       trace (proc s') = trace (proc s) ++ [EvRmaDereg mem] /\ dev_wf (proc s') dev d' /\
       pool_elems (pkpool d') ≡ₚ wc_wr_id wc :: p :: pool_elems (pkpool d)) /\
  (forall sd eps_s es src sz rank addr meta st x, eps (proc sd) !! eps_s = Some es ->
     0 <= gid es < 2 ^ 14 -> 0 <= meta < 2 ^ 16 ->
     lc_putss src sz rank addr meta eps_s (proc sd) = Ok (st, x) ->
     exists ev sd', trace x = trace (proc sd) ++ [ev] /\
       serve_event use_dreg fuel ev (set_proc x sd) = Ok (tt, sd') /\
       (posted_word sd' = Some (wc_imm_data wc) -> meta < 2 ^ 15 ->
        forall ep e cq k rq, has_cq = true -> aget (lcg_ep (proc s)) (gid es) = Ok ep ->
          queue_ep (proc s) ep e cq -> packets (proc s) !! wc_wr_id wc = Some k ->
          reqs (proc s) !! req_s_of (wc_wr_id wc) = Some rq ->
          exists s' e' cq', progress_recv dev wc s = Ok (tt, s') /\ recv_posted s' = recv_posted s - 1 /\
            reqs (proc s') !! req_s_of (wc_wr_id wc) =
              Some (rq_set_parent (wc_wr_id wc) (rq_set_meta meta rq)) /\
            eps (proc s') !! ep = Some e' /\ ep_to e' = Cq cq' /\ cq_wf cq' /\
            cq_elems cq' = cq_elems cq ++ [req_s_of (wc_wr_id wc)] /\ trace (proc s') = trace (proc s)) /\
       (posted_word sd' = Some (wc_imm_data wc) -> 2 ^ 15 <= meta ->
        let p := mr_addr (heap s) + (3 + 4 * gid es + 2 ^ 16 * (meta - 2 ^ 15)) in
        progress_recv dev wc s = (_ ← on_proc (lci_serve_imm p); on_proc (pool_put dev (wc_wr_id wc)))
          (set_recv_posted (recv_posted s - 1) s) /\
        (packets (proc s) !! p = None -> progress_recv dev wc s = Err NullDeref))).
Proof.
  intros Hw Hh Hq0. split.
  - intros sd sd' rep buf addr rkey sz ctx p ep e h d req mem R src hp rq E Hword Hse Hdev Hbs Hroom Hp Hk Hrq Hr.
    rewrite (rma_rtr_word _ _ _ _ _ _ _ _ _ E) in Hword. injection Hword as Hword.
    by eapply (rendezvous_word s wc p ep e h d).
  - intros sd eps_s es src sz rank addr meta st x He Hg Hm E.
    destruct (putss_word _ _ _ _ _ _ _ _ _ _ He E) as (ev & sd' & Ht & Es & Hword).
    exists ev, sd'. split; [exact Ht|]. split; [exact Es|]. rewrite Hword. split; intros [= Hi] Hmeta.
    { intros ep e cq k rq Hbq Hep Hqe Hk Hrq. apply (put_word s wc (gid es) meta ep e cq k rq); try done; lia. }
    intros p.
    assert (wc_imm_data wc = 3 + 4 * gid es + 2 ^ 16 * meta) as Eput.
    { rewrite <- Hi. unfold LC_PROTO_LONG. rewrite make_proto_val, (Z.mod_small meta) by lia. done. }
    assert (mr_addr (heap s) + (wc_imm_data wc - 2 ^ 31) = p) as Ep by (unfold p; lia).
    assert (progress_recv dev wc s = (_ ← on_proc (lci_serve_imm p); on_proc (pool_put dev (wc_wr_id wc)))
      (set_recv_posted (recv_posted s - 1) s)) as Er by (rewrite progress_rtr, Ep by (done || lia); done).
    split; [exact Er|]. intros Hnone. rewrite Er.
    unfold on_proc, lci_serve_imm, mbind, ST_bind. cbn [proc set_recv_posted].
    unfold M_bind, get_packet. by rewrite Hnone.
Qed.

End words.

(** ** Requests that are signalled *)

Section signals.
Context `{Verbs}.

(** Successive short sends: the pair, the bytes and the word of each. *)
Fixpoint sends_all (l : list (Z * list Z * Z)) : IS unit :=
  match l with [] => mret tt | (q, bytes, proto) :: l => _ ← lc_server_sends q bytes proto; sends_all l end.

Definition send_request (signal : bool) (x : Z * list Z * Z) : verb :=
  IbvPostSend x.1.1 (SendWr 0 (SgeBytes x.1.2) IBV_WR_SEND_WITH_IMM signal true (u32 x.2) 0 0).

Lemma sends_all_run l : forall s, 0 <= ninline s <= 64 -> exists s', sends_all l s = Ok (tt, s') /\
  verbs s' = verbs s ++ imap (fun j x => send_request ((ninline s + Z.of_nat j) mod 65 =? 64) x) l /\
  ninline s' = (ninline s + Z.of_nat (length l)) mod 65.
Proof.
  induction l as [|[[q bytes] proto] l IH]; intros s Hs.
  { exists s. split; [done|]. cbn [imap length]. rewrite app_nil_r, Z.add_0_r, Z.mod_small by lia. done. }
  cbn [sends_all]. set (n := ninline s) in *. set (s1 := set_ninline (if n =? 64 then 0 else n + 1) s).
  set (v := send_request (n =? 64) (q, bytes, proto)).
  rewrite (st_bind_run _ _ s tt (set_verbs (verbs s ++ [v]) s1)) by done.
  assert (ninline s1 = (n + 1) mod 65) as En.
  { cbn. destruct (Z.eqb_spec n 64) as [->|]; [done|]. by rewrite Z.mod_small by lia. }
  destruct (IH (set_verbs (verbs s ++ [v]) s1)) as (s' & E & Ev & En').
  { cbn [ninline set_verbs]. rewrite En. pose proof (Z.mod_pos_bound (n + 1) 65). lia. }
  exists s'. split; [done|]. cbn [verbs ninline set_verbs] in Ev, En'. rewrite En in Ev, En'. split.
  - rewrite Ev, <- app_assoc. f_equal. cbn [imap app]. f_equal.
    + unfold v. rewrite Z.add_0_r, (Z.mod_small n) by lia. done.
    + apply imap_ext. intros j x _. cbn. do 2 f_equal. rewrite Zplus_mod_idemp_l. f_equal. lia.
  - rewrite En', Zplus_mod_idemp_l. f_equal. cbn [length]. lia.
Qed.

(** [k] times: 64 sends to the pair [a], one to [b]. *)
Fixpoint rounds (k : nat) (a b : Z * list Z * Z) : list (Z * list Z * Z) :=
  match k with O => [] | S k => replicate 64 a ++ b :: rounds k a b end.

Lemma rounds_length k a b : Z.of_nat (length (rounds k a b)) = 65 * Z.of_nat k.
Proof. induction k as [|k IH]; [done|]. cbn [rounds]. rewrite length_app, length_replicate. cbn [length].
  lia. Qed.

Lemma rounds_lookup k a b : forall j x, rounds k a b !! j = Some x ->
  x = if Z.of_nat j mod 65 =? 64 then b else a.
Proof.
  induction k as [|k IH]; intros j x Hx; [done|]. cbn [rounds] in Hx.
  destruct (decide (j < 64)%nat) as [Hj|Hj].
  - rewrite lookup_app_l in Hx by (by rewrite length_replicate). apply lookup_replicate in Hx as [-> _].
    rewrite Z.mod_small, (proj2 (Z.eqb_neq _ _)) by lia. done.
  - rewrite lookup_app_r in Hx by (rewrite length_replicate; lia). rewrite length_replicate in Hx.
    destruct (j - 64)%nat as [|i] eqn:Ej; cbn in Hx.
    + injection Hx as ->. by replace (Z.of_nat j) with 64 by lia.
    + rewrite (IH _ _ Hx). replace (Z.of_nat j) with (Z.of_nat i + 1 * 65) by lia. by rewrite Z_mod_plus_full.
Qed.

(** Of short sends one in 65 is signalled, so that its queue pair gives the entries of the
    sends before it back; but the count is of the sends to all pairs.  Of [k] rounds of 64
    sends to one pair and one to another, the first pair gets 64 [k] requests, more than the
    256 its queue takes when [k] is five, and none of them is signalled. *)
Theorem inline_signals s k q1 q2 bytes1 bytes2 proto1 proto2 : ninline s = 0 ->
  exists s' new, sends_all (rounds k (q1, bytes1, proto1) (q2, bytes2, proto2)) s = Ok (tt, s') /\
    verbs s' = verbs s ++ new /\ ninline s' = 0 /\ Z.of_nat (length new) = 65 * Z.of_nat k /\
    forall j v, new !! j = Some v ->
      v = if Z.of_nat j mod 65 =? 64 then send_request true (q2, bytes2, proto2)
          else send_request false (q1, bytes1, proto1).
Proof.
  intros Hn. set (l := rounds k _ _). destruct (sends_all_run l s) as (s' & E & Ev & En); [lia|].
  eexists s', _. split; [exact E|]. split; [exact Ev|]. rewrite Hn in En |- *. unfold l in *.
  rewrite rounds_length in En. split; [|split].
  - rewrite En. replace (0 + 65 * Z.of_nat k) with (Z.of_nat k * 65) by lia. apply Z_mod_mult.
  - by rewrite length_imap, rounds_length.
  - intros j v Hv. rewrite list_lookup_imap in Hv. destruct (rounds _ _ _ !! j) as [x|] eqn:Ex; [|done].
    cbn in Hv. injection Hv as <-. apply rounds_lookup in Ex as ->.
    replace (0 + Z.of_nat j) with (Z.of_nat j) by lia. by destruct (_ =? _).
Qed.

End signals.

(** ** Messages from one server to another *)

Section eager.
Context `{Verbs, Build, Server, Client, Platform}.
Context (use_dreg : bool) (fuel : nat).

Lemma run_post_recv s dev d p k : dev_wf (proc s) dev d -> heap s <> NULL ->
  (p <> NULL -> packets (proc s) !! p = Some k) ->
  exists s', ibv_post_recv_ dev p s = Ok (tt, s') /\ memory (proc s') = memory (proc s) /\
    reqs (proc s') = reqs (proc s).
Proof.
  intros Hd Hh Hk. unfold ibv_post_recv_. destruct (Z.eqb_spec p NULL) as [|Hp].
  - rewrite (st_bind_run _ _ s (recv_posted s) s) by done.
    rewrite (st_bind_run _ _ s (lcg_deadlock (proc s)) s) by (by destruct s).
    destruct (_ && _); [by eexists|by exists s].
  - rewrite (st_bind_run _ _ s (heap s) s) by done.
    rewrite (st_bind_run _ _ s (mr_lkey (heap s)) s)
      by (unfold mr_field; by rewrite (proj2 (Z.eqb_neq _ _) Hh)).
    destruct (run_pool_get_local (proc s) (LciEp 0 0 0 dev NoSrc NoDst) d Hd) as (pid & g & pool & E & _).
    unfold ep_pool_get_local in E. cbn [server] in E.
    rewrite (st_bind_run _ _ _ _ _ (ibv_on_proc_run _ _ _ _ E)). set (y := set_dev _ _ _).
    rewrite (st_bind_run _ _ _ _ _ (ibv_on_proc_run _ (set_proc y s) _ _ (run_upd_packet y _ k _ (Hk Hp)))).
    set (s2 := set_proc _ (set_proc y s)). set (v := IbvPostSrqRecv _ _ _ _).
    rewrite (st_bind_run _ _ s2 tt (set_verbs (verbs s2 ++ [v]) s2)) by done. set (s3 := set_verbs _ s2).
    rewrite (st_bind_run _ _ s3 (recv_posted s3) s3) by done.
    rewrite (st_bind_run _ _ s3 tt (set_recv_posted (recv_posted s3 + 1) s3)) by done.
    set (s4 := set_recv_posted _ s3). rewrite (st_bind_run _ _ s4 (lcg_deadlock (proc s4)) s4) by done.
    destruct (_ && _); [by eexists|by exists s4].
Qed.

Lemma ibv_progress_post_run s dev d : dev_wf (proc s) dev d -> Forall (fun r => 0 <= r) (rands (proc s)) ->
  Forall (fun p => is_Some (packets (proc s) !! p)) (pool_elems (pkpool d)) -> heap s <> NULL ->
  exists b s', progress_post dev s = Ok (b, s') /\ memory (proc s') = memory (proc s) /\
    reqs (proc s') = reqs (proc s).
Proof.
  intros Hd Hr Ha Hh. unfold progress_post. rewrite (st_bind_run _ _ s (recv_posted s) s) by done.
  destruct (_ <? _); [|by eexists _, s].
  destruct (run_pool_get_nb (proc s) (LciEp 0 0 0 dev NoSrc NoDst) d Hd Hr)
    as (p & g & pool & l & E & Hwf & _ & Hnn & Hcase).
  unfold ep_pool_get_nb in E. cbn [server] in E.
  rewrite (st_bind_run _ _ _ _ _ (ibv_on_proc_run _ _ _ _ E)). set (d' := LcServer _ _ _ _).
  set (y := set_dev _ _ _).
  assert (exists k, p <> NULL -> packets y !! p = Some k) as [k Hk].
  { destruct Hcase as [[-> _]|[_ Hel]]; [by exists lc_packet0|].
    rewrite Hel in Ha. apply Forall_cons in Ha as [[k Hk] _]. by exists k. }
  destruct (run_post_recv (set_proc y s) dev d' p k) as (s' & E' & Em & Er); [|done|done|].
  { destruct Hd. split; [apply lookup_insert_eq|done..]. }
  rewrite (st_bind_run _ _ _ _ _ E'). by exists true, s'.
Qed.

(** The progress on a completed eager receive from the queue pair of [rank]. *)
Lemma ibv_progress_eager dev s wc p k q rank h x : wc_recv_rdma_with_imm wc = false -> wc_wr_id wc = p ->
  packets (proc s) !! p = Some k -> reqs (proc s) !! req_s_of p = Some q ->
  (forall s', qp2rank s' = qp2rank s -> qp2rank_mod s' = qp2rank_mod s -> qp s' = qp s ->
     rank_of_qp (wc_qp_num wc) s' = Ok (rank, s')) ->
  aget (qp s) rank = Ok h ->
  lci_serve_recv p (wc_imm_data wc)
    (noted_at p k (rq_set_size (wc_byte_len wc) (rq_set_rhandle h (rq_set_rank rank q))) (proc s)) = Ok (tt, x) ->
  progress_recv dev wc s = Ok (tt, set_proc x (set_recv_posted (recv_posted s - 1) s)).
Proof.
  intros Hw <- Hk Hq Hr Hh Ex. unfold progress_recv.
  rewrite (st_bind_run _ _ s tt (set_recv_posted (recv_posted s - 1) s)) by done. rewrite Hw. cbn [negb].
  set (p := wc_wr_id wc) in *. set (s1 := set_recv_posted _ s).
  rewrite (st_bind_run _ _ _ _ _ (ibv_on_proc_run (own_req p) s1 _ _ (run_upd_packet (proc s) _ _ _ Hk))).
  set (y1 := set_packets _ (proc s)).
    rewrite (st_bind_run _ _ _ _ _ (Hr (set_proc y1 s1) eq_refl eq_refl eq_refl)).
  rewrite (st_bind_run _ _ (set_proc y1 s1) (qp s) (set_proc y1 s1)) by done. rewrite Hh.
  erewrite st_bind_run by reflexivity.
  rewrite (st_bind_run _ _ _ _ _ (ibv_on_proc_run _ (set_proc y1 s1) _ _ (run_upd_req y1 _ q _ Hq))).
  exact (ibv_on_proc_run _ (set_proc _ (set_proc y1 s1)) _ _ Ex).
Qed.

(** C13: From lc_sends on one process to the receive on another: the request the sender's server
    posts carries the bytes and the protocol word on the queue pair of the receiver; when it
    completes a receive there, on the pair the start made for the sender, the server
    finds the sender's rank in its table, the posted receive matches, its buffer has the
    bytes and its request is signalled. *)
Theorem ibv_eager_delivery sd eps_s es ds to r buf sz tag bytes s n M ep e h d src rsz rank hd req p k q m' :
  let proto := MAKE_PROTO (gid es) LC_PROTO_DATA tag in
  let wc := Wc p false (qp_num hd) (Z.of_nat (length bytes)) proto in
  eps (proc sd) !! eps_s = Some es -> lcg_dev (proc sd) !! server es = Some ds ->
  aget (rep ds) to = Ok r -> load_bytes (memory (proc sd)) buf (Z.to_nat sz) = Ok bytes ->
  has_exp = true -> has_sync = true -> heap s <> NULL ->
  pairs_ok M n (qp s) -> qp s !! Z.to_nat rank = Some hd ->
  rank_table n (qp_num <$> qp s) (Z.of_nat (length (qp s))) = Ok (qp2rank_mod s, qp2rank s) ->
  packets (proc s) !! p = Some k -> reqs (proc s) !! req_s_of p = Some q ->
  eager_ready (noted_at p k (rq_set_size (Z.of_nat (length bytes))
       (rq_set_rhandle hd (rq_set_rank rank q))) (proc s)) ep e h d src rank tag req proto p bytes m' ->
  Forall (fun r => 0 <= r) (rands (proc s)) ->
  Forall (fun p => is_Some (packets (proc s) !! p)) (pool_elems (pkpool d)) ->
  exists sd1 sd2 ev s1 s2 q',
    on_proc (lc_sends buf sz to tag eps_s) sd = Ok (LC_OK, sd1) /\
    trace (proc sd1) = trace (proc sd) ++ [ev] /\ serve_event use_dreg fuel ev sd1 = Ok (tt, sd2) /\
    verbs sd2 = verbs sd ++ [IbvPostSend (handle r)
      (SendWr 0 (SgeBytes bytes) IBV_WR_SEND_WITH_IMM (ninline sd =? 64) true proto 0 0)] /\
    on_proc (lc_recv src rsz rank tag ep req) s = Ok (LC_OK, s1) /\
    lc_server_progress (server e) [wc] [] s1 = Ok (true, s2) /\
    memory (proc s2) = m' /\ reqs (proc s2) !! req = Some q' /\ sync q' = 1 /\
    buffer q' = src /\ size q' = Z.of_nat (length bytes).
Proof.
  intros proto wc Hes Hds Hr Hload Hbe Hbs Hheap Hpairs Hhd Htab Hk Hq Hready Hrands Halloc.
  assert (u32 proto = proto) as Eproto by (apply u32_small, u32_range).
  pose proof (er_rank _ _ _ _ _ _ _ _ _ _ _ _ _ Hready) as Hrank.
  destruct (eager_arrival _ _ _ _ _ _ rsz _ _ _ _ _ _ _ _ _ _ Hready Hbe Hbs Hk Hq)
    as (y1 & x2 & E1 & Hk1 & Hq1 & E2 & Hdel).
  pose proof (ibv_progress_eager (server e) (set_proc y1 s) wc p k q rank hd x2 eq_refl eq_refl Hk1 Hq1) as Epr.
  destruct (run_rank_of_qp _ _ _ Hpairs) as (m & b0 & Etab & _ & Hrk & _). rewrite Htab in Etab.
  injection Etab as <- <-.
  specialize (Epr ltac:(intros s' Q1 Q2 _; pose proof (Hrk _ _ s' Hhd Q2 Q1) as Q;
    by rewrite Z2Nat.id in Q by lia)).
  specialize (Epr ltac:(apply aget_ok; split; [lia|exact Hhd]) E2).
  set (s3 := set_proc x2 _) in Epr.
  destruct (de_pool _ _ _ _ _ _ _ _ _ _ _ Hdel) as (d' & Hd' & Hel).
  destruct (ibv_progress_post_run s3 (server e) d') as (b & s2 & E3 & Em & Erq); [done|..].
  { cbn. by rewrite (de_rands _ _ _ _ _ _ _ _ _ _ _ Hdel). }
  { cbn. rewrite Hel. pose proof (de_packets _ _ _ _ _ _ _ _ _ _ _ Hdel) as Hdp. constructor.
    - apply Hdp. cbn. rewrite lookup_insert_eq. by eexists.
    - eapply Forall_impl; [exact Halloc|]. intros a Ha. apply Hdp. cbn.
      rewrite lookup_insert_is_Some'. by right. }
  { done. }
  destruct (de_req _ _ _ _ _ _ _ _ _ _ _ Hdel) as (q' & Eq' & Hq').
  set (ev := EvSends (server es) (handle r) bytes proto).
  set (sd1 := set_proc (set_trace (fun t => t ++ [ev]) (proc sd)) sd).
  eexists sd1, _, ev, (set_proc y1 s), s2, q'.
  split; [unfold on_proc; by rewrite (sends_run _ _ _ _ _ _ _ _ tag _ Hes Hds Hr Hload)|].
  split; [done|]. split; [reflexivity|]. split; [cbn; by rewrite Eproto|].
  split; [unfold on_proc; by rewrite E1|]. split; [|split; [|split]].
  - unfold lc_server_progress. erewrite st_bind_run by (cbn [progress_all];
      by rewrite (st_bind_run _ _ _ _ _ Epr)).
    rewrite (st_bind_run _ _ s3 tt s3), (st_bind_run _ _ _ _ _ E3) by done. done.
  - rewrite Em. exact (de_memory _ _ _ _ _ _ _ _ _ _ _ Hdel).
  - by rewrite Erq.
  - done.
Qed.

End eager.
