(* ===== verification/IbvStart.v ===== *)
(** * The start of the InfiniBand servers of a job (about Ibv.v)

    Each process makes a queue pair for every rank, publishes its number with the address
    and the key of its heap, reads what every rank published for it, and connects. *)
From stdpp Require Import gmap.
From S2P Require Import Prelude Text Config Lock Dequeue Pool Hashtable CompQueue State.
From S2P Require Import Proto Api ProtoSpec Vma VmaSpec Dreg PmiUtil PmiSpec Pmi PmiKvs Ibv IbvSpec.

(** ** The names exchanged *)

Record conn_ok (c : conn_ctx) : Prop := {
  co_addr : 0 <= c_addr c < 2 ^ 64; co_rkey : 0 <= c_rkey c < 2 ^ 32;
  co_num : 0 <= c_qp_num c < 2 ^ 32; co_lid : 0 <= c_lid c < 2 ^ 16 }.

Lemma i32_range x : - 2 ^ 31 <= i32 x < 2 ^ 31.
Proof. unfold i32. pose proof (Z.mod_pos_bound (x + 2 ^ 31) (2 ^ 32)). lia. Qed.

Lemma u32_i32 x : 0 <= x < 2 ^ 32 -> u32 (i32 x) = x.
Proof.
  intros Hx. unfold u32, i32.
  rewrite Zminus_mod_idemp_l. replace (x + 2 ^ 31 - 2 ^ 31) with x by lia. by apply Z.mod_small.
Qed.

(** What one process prints another reads, whatever the key and the number. *)
Lemma scan_conn_print c : conn_ok c -> scan_conn (print_conn c) = Some c.
Proof.
  destruct c as [a k q l]. intros [Ha Hk Hq Hl]. cbn in Ha, Hk, Hq, Hl. unfold scan_conn, print_conn.
  cbn [c_addr c_rkey c_qp_num c_lid].
  rewrite scan_unsigned_print by done. cbn [mbind option_bind scan_dash]. rewrite Z.eqb_refl.
  cbn [mbind option_bind].
  rewrite scan_int_print by (apply i32_range || done). cbn [mbind option_bind scan_dash].
  rewrite Z.eqb_refl. cbn [mbind option_bind].
  rewrite scan_int_print by (apply i32_range || done). cbn [mbind option_bind scan_dash].
  rewrite Z.eqb_refl. cbn [mbind option_bind]. rewrite <- (app_nil_r (print_signed l)).
  rewrite scan_int_print by (lia || done). cbn [mbind option_bind].
  by rewrite !u32_i32, Z.mod_small by done.
Qed.

Lemma print_conn_chars c : conn_ok c -> chars_ok (print_conn c) /\ len (print_conn c) < 255.
Proof.
  intros [Ha Hk Hq Hl]. destruct (unsigned_chars (c_addr c) Ha) as [A1 A2].
  destruct (signed_chars (i32 (c_rkey c)) (i32_range _)) as [B1 B2].
  destruct (signed_chars (i32 (c_qp_num c)) (i32_range _)) as [C1 C2].
  destruct (signed_chars (c_lid c)) as [D1 D2]; [lia|]. unfold print_conn. split.
  - assert (forall l l', chars_ok l -> chars_ok l' -> chars_ok (l ++ DASH :: l')) as Happ.
    { intros l l' Hl1 Hl2. apply Forall_app. split; [exact Hl1|]. apply Forall_cons. by split. }
    apply (Happ _ _ A1), (Happ _ _ B1), (Happ _ _ C1), D1.
  - rewrite len_app, len_cons, len_app, len_cons, len_app, len_cons. lia.
Qed.

Lemma sprintf_conn_run ep c : conn_ok c -> len ep = 256 ->
  exists ep', sprintf_conn ep c = Ok ep' /\ holds_str ep' (print_conn c) /\ len ep' = 256.
Proof.
  intros Hc Hl. destruct (print_conn_chars c Hc) as [H1 H2]. unfold sprintf_conn. unfold len in *.
  rewrite (proj2 (Z.ltb_lt _ _)) by lia. eexists. split; [done|].
  split; [apply cstr_app, value_end_chars, H1|]. rewrite length_app. cbn [length]. rewrite length_drop. lia.
Qed.

(** ** The pairs made and published *)

Section start.
Context `{Verbs}.

(** The pairs the process makes after the requests [vs], and the requests making them. *)
Fixpoint made (port : Z) (vs : list verb) (n : nat) : list Z :=
  match n with
  | O => []
  | S n => let q := (ibv_create_qp vs).1 in
           q :: made port (vs ++ [IbvCreateQp q; IbvModifyQp q (AttrInit port)]) n
  end.

Fixpoint make_log (port : Z) (qs : list Z) : list verb :=
  match qs with [] => [] | q :: qs => IbvCreateQp q :: IbvModifyQp q (AttrInit port) :: make_log port qs end.

Definition gid_of (id i : Z) : Z := Z.lor (Z.shiftl id 8) i.

(** What the process says of its pair [q]. *)
Definition conn_of (h lid q : Z) : conn_ctx := ConnCtx (mr_addr h) (mr_rkey h) (qp_num q) lid.

Fixpoint publish_lines (K : list Z) (rank id h lid i : Z) (qs : list Z) : list (list Z) :=
  match qs with
  | [] => []
  | q :: qs => put_text K (lc_key rank (gid_of id i)) (print_conn (conn_of h lid q)) :: BARRIER ::
               publish_lines K rank id h lid (i + 1) qs
  end.
Fixpoint publish_replies (n : nat) : list Z :=
  match n with O => [] | S n => message put_reply ++ message barrier_reply ++ publish_replies n end.

Fixpoint getname_lines (K : list Z) (rank id i : Z) (n : nat) : list (list Z) :=
  match n with
  | O => []
  | S n => get_text K (lc_key i (gid_of id rank)) :: getname_lines K rank id (i + 1) n
  end.
Fixpoint getname_replies (peer : Z -> conn_ctx) (i : Z) (n : nat) : list Z :=
  match n with
  | O => []
  | S n => message (get_reply (print_conn (peer i))) ++ getname_replies peer (i + 1) n
  end.

Fixpoint connect_log (port mtu : Z) (peer : Z -> conn_ctx) (i : Z) (qs : list Z) : list verb :=
  match qs with
  | [] => []
  | q :: qs => IbvModifyQp q (AttrRtr mtu (c_qp_num (peer i)) (c_lid (peer i)) port) ::
               IbvModifyQp q AttrRts :: connect_log port mtu peer (i + 1) qs
  end.
Fixpoint connect_reps (peer : Z -> conn_ctx) (i : Z) (qs : list Z) : list lci_rep :=
  match qs with
  | [] => []
  | q :: qs => LciRep q i (c_addr (peer i)) (c_rkey (peer i)) :: connect_reps peer (i + 1) qs
  end.

Lemma made_length port n : forall vs, length (made port vs n) = n.
Proof. induction n as [|n IH]; intros vs; cbn; [done|]. by rewrite IH. Qed.

Lemma connect_reps_lookup peer qs : forall i k q, qs !! k = Some q ->
  connect_reps peer i qs !! k =
    Some (LciRep q (i + Z.of_nat k) (c_addr (peer (i + Z.of_nat k))) (c_rkey (peer (i + Z.of_nat k)))).
Proof.
  induction qs as [|q0 qs IH]; intros i k q Hq; [done|]. destruct k as [|k]; cbn in Hq |- *.
  - injection Hq as ->. by rewrite Z.add_0_r.
  - rewrite (IH _ _ _ Hq). by replace (i + 1 + Z.of_nat k) with (i + Z.of_nat (S k)) by lia.
Qed.

Lemma connect_log_in port mtu peer qs : forall i k q, qs !! k = Some q ->
  IbvModifyQp q (AttrRtr mtu (c_qp_num (peer (i + Z.of_nat k))) (c_lid (peer (i + Z.of_nat k))) port)
    ∈ connect_log port mtu peer i qs /\ IbvModifyQp q AttrRts ∈ connect_log port mtu peer i qs.
Proof.
  induction qs as [|q0 qs IH]; intros i k q Hq; [done|]. destruct k as [|k]; cbn in Hq |- *.
  - injection Hq as ->. rewrite Z.add_0_r. set_solver.
  - destruct (IH (i + 1) k q Hq) as [H1 H2].
    replace (i + 1 + Z.of_nat k) with (i + Z.of_nat (S k)) in * by lia. set_solver.
Qed.

(** ** The two loops *)

(** What the loops change of the server. *)
Definition advance (m : pmi) (qs : list Z) (room : Z) (vs : list verb) (s : ibv) : ibv :=
  set_pm m (set_qp qs (set_max_inline room (set_verbs vs s))).

Hypothesis create_ok : forall vs, (ibv_create_qp vs).1 <> 0.
Hypothesis modify_ok : forall vs q attr, ibv_modify_qp vs q attr = 0.

Lemma qp_create_run s : exists room, qp_create s = Ok ((ibv_create_qp (verbs s)).1,
  set_max_inline room (set_verbs (verbs s ++ [IbvCreateQp (ibv_create_qp (verbs s)).1]) s)).
Proof.
  unfold qp_create. pose proof (create_ok (verbs s)) as Hq. destruct (ibv_create_qp (verbs s)) as [q room].
  exists (Z.min room LC_MAX_INLINE). cbn [fst] in *. unfold must_have.
  rewrite (proj2 (Z.eqb_neq _ _) Hq). by rewrite (st_bind_run _ _ s tt s) by done.
Qed.

Lemma qp_modify_run s q attr : qp_modify q attr s = Ok (tt, set_verbs (verbs s ++ [IbvModifyQp q attr]) s).
Proof.
  unfold qp_modify. rewrite (st_bind_run _ _ s (verbs s) s) by done. erewrite st_bind_run by reflexivity.
  by rewrite modify_ok.
Qed.

Lemma mr_field_run f mr s : mr <> NULL -> mr_field f mr s = Ok (f mr, s).
Proof. intros Hmr. unfold mr_field. by rewrite (proj2 (Z.eqb_neq _ _) Hmr). Qed.

Lemma publish_pairs_run name K rank id port h lid n : forall i s ep more rest, heap s = h -> h <> NULL ->
  holds_str name K -> (forall j, i <= j < i + Z.of_nat n -> name_ok K rank (gid_of id j)) ->
  let qs := made port (verbs s) n in
  let lines := publish_lines K rank id h lid i qs in
  Forall (fun q => conn_ok (conn_of h lid q)) qs -> len ep = 256 ->
  client (pm s) -> all_written (ws (pm s)) (lines ++ more) -> incoming (pm s) (publish_replies n ++ rest) ->
  exists ep' m room, publish_pairs name rank id port lid ep i n s =
      Ok (ep', advance m (qp s ++ qs) room (verbs s ++ make_log port qs) s) /\
    len ep' = 256 /\ exchanged (pm s) m lines more rest.
Proof.
  induction n as [|n IH]; intros i s ep more rest Hh Hnn Hname Hok qs lines Hco Hep Hcl Hw Hin.
  { exists ep, (pm s), (max_inline s). unfold advance. cbn [make_log made qs lines publish_lines].
    rewrite !app_nil_r. split; [by destruct s|]. split; [done|]. split; [done|by rewrite app_nil_r|done..]. }
  cbn [publish_pairs]. destruct (qp_create_run s) as [room Ec]. set (q := (ibv_create_qp (verbs s)).1) in *.
  rewrite (st_bind_run _ _ _ _ _ Ec). set (s1 := set_max_inline room _).
  rewrite (st_bind_run _ _ s1 tt (set_qp (qp s1 ++ [q]) s1)) by done. set (s2 := set_qp _ s1).
  unfold qp_init. rewrite (st_bind_run _ _ _ _ _ (qp_modify_run s2 q (AttrInit port))).
  set (s3 := set_verbs _ s2).
  rewrite (st_bind_run _ _ s3 (heap s3) s3) by done. change (heap s3) with (heap s). rewrite Hh.
  rewrite (st_bind_run _ _ _ _ _ (mr_field_run mr_addr h s3 Hnn)).
  rewrite (st_bind_run _ _ _ _ _ (mr_field_run mr_rkey h s3 Hnn)). fold (conn_of h lid q).
  assert (qs = q :: made port (verbs s3) n) as Eqs
    by (unfold qs; cbn [made verbs set_verbs s3 s2 set_qp set_max_inline s1]; by rewrite <- app_assoc).
  unfold lines in *. rewrite Eqs in Hco, Hw |- *. cbn [publish_lines publish_replies app] in Hw, Hin |- *.
  apply Forall_cons in Hco as [Hc Hco]. destruct (sprintf_conn_run ep _ Hc Hep) as (ep1 & Es & Hs1 & Hl1).
  rewrite Es, (st_bind_run _ _ s3 ep1 s3) by done. destruct (print_conn_chars _ Hc) as [P1 P2].
  rewrite <- !app_assoc in Hin.
  destruct (publish_run (pm s3) name rank (gid_of id i) ep1 K _ _ _ (Hok i ltac:(lia)) P1 P2 Hname Hs1 Hcl Hw Hin)
    as (m1 & E1 & Hx1).
  fold (gid_of id i). rewrite (st_bind_run _ _ _ _ _ (ibv_on_pm_run _ s3 _ _ E1)). set (s4 := set_pm m1 s3).
  destruct (IH (i + 1) s4 ep1 more rest) as (ep2 & m2 & room2 & E2 & Hl2 & Hx2); try done.
  { intros j Hj. apply Hok. lia. } { by destruct Hx1. } { by destruct Hx1. } { by destruct Hx1. }
  exists ep2, m2, room2. rewrite E2. split; [|split; [done|]].
  - do 2 f_equal. unfold advance.
    cbn [qp verbs s4 s3 s2 s1 set_pm set_verbs set_qp set_max_inline make_log]. by rewrite <- !app_assoc.
  - exact (exchanged_trans _ _ _ [_; _] _ _ _ _ _ Hx1 Hx2).
Qed.

Lemma connect_pairs_run name K rank id port attr peer ql : forall i s ep more rest,
  drop (Z.to_nat i) (qp s) = ql -> 0 <= i -> holds_str name K ->
  (forall j, i <= j < i + Z.of_nat (length ql) -> name_ok K j (gid_of id rank) /\ conn_ok (peer j)) ->
  let lines := getname_lines K rank id i (length ql) in
  len ep = 256 -> client (pm s) -> all_written (ws (pm s)) (lines ++ more) ->
  incoming (pm s) (getname_replies peer i (length ql) ++ rest) ->
  exists m, connect_pairs name rank id port attr ep i (length ql) s = Ok (connect_reps peer i ql,
      set_pm m (set_verbs (verbs s ++ connect_log port (active_mtu attr) peer i ql) s)) /\
    exchanged (pm s) m lines more rest.
Proof.
  induction ql as [|q ql IH]; intros i s ep more rest Hd Hi Hname Hok lines Hep Hcl Hw Hin.
  { exists (pm s). cbn [connect_log]. rewrite app_nil_r. split; [by destruct s|].
    split; [done|cbn; by rewrite app_nil_r|done..]. }
  cbn [connect_pairs length]. unfold lines in *. cbn [length getname_lines getname_replies app] in Hw, Hin |- *.
  destruct (Hok i) as [Hn Hc]; [cbn [length]; lia|]. destruct (print_conn_chars _ Hc) as [P1 P2].
  rewrite <- app_assoc in Hin.
  destruct (getname_run (pm s) name i (gid_of id rank) ep K _ _ _ Hn P1 P2 Hname ltac:(lia) Hcl Hw Hin)
    as (m1 & ep1 & E1 & Ho1 & Hl1 & Hx1).
  fold (gid_of id rank). rewrite (st_bind_run _ _ _ _ _ (ibv_on_pm_run _ s _ _ E1)). set (s1 := set_pm m1 s).
  unfold holds_str in Ho1. rewrite Ho1, (st_bind_run _ _ s1 (print_conn (peer i)) s1) by done.
  rewrite (scan_conn_print _ Hc), (st_bind_run _ _ s1 (peer i) s1) by done.
  rewrite (st_bind_run _ _ s1 (qp s) s1) by done.
  assert (qp s !! Z.to_nat i = Some q) as Hq
    by (rewrite <- (Nat.add_0_r (Z.to_nat i)), <- lookup_drop, Hd; done).
  rewrite (proj2 (aget_ok _ _ _) (conj Hi Hq)), (st_bind_run _ _ s1 q s1) by done.
  unfold qp_to_rtr, qp_to_rts. rewrite (st_bind_run _ _ _ _ _ (qp_modify_run s1 q _)).
  set (s2 := set_verbs _ s1).
  rewrite (st_bind_run _ _ _ _ _ (qp_modify_run s2 q _)). set (s3 := set_verbs _ s2).
  destruct (IH (i + 1) s3 ep1 more rest) as (m2 & E2 & Hx2); try done; try lia; try (by destruct Hx1).
  { change (qp s3) with (qp s). rewrite Z2Nat.inj_add by lia. change (Z.to_nat 1) with 1%nat.
    by rewrite Nat.add_comm, <- skipn_skipn, Hd. }
  { intros j Hj. apply Hok. cbn [length]. lia. }
  exists m2. rewrite (st_bind_run _ _ _ _ _ E2). split; [|exact (exchanged_trans _ _ _ [_] _ _ _ _ _ Hx1 Hx2)].
  unfold mret, ST_ret. do 2 f_equal. cbn [verbs s3 s2 s1 set_verbs set_pm connect_log].
  by rewrite <- !app_assoc.
Qed.

End start.

(** ** A process that starts *)

Section node.
Context `{Verbs}.
Context (use_dreg : bool) (lcg_name K : list Z) (size id : Z) (M : Z) (n : nat).

(** The context of the device taken, the port found and what is known of it, the heap. *)
Definition device : Z := ibv_open_device (default 0 (last ibv_get_device_list)).
Definition dev_port : Z := (find_port device 0 128 (0, PortAttr 0 0)).1.
Definition port_attr : ibv_port_attr := (find_port device 0 128 (0, PortAttr 0 0)).2.2.
Definition heap_of (s : ibv) (ptr : Z) : Z := ibv_reg_mr (dma (cache s)) ptr (1024 * 1024 * 1024).
Definition pairs_of (s : ibv) : list Z := made dev_port (verbs s) (Z.to_nat size).
Definition own_conn (s : ibv) (ptr q : Z) : conn_ctx := conn_of (heap_of s ptr) (lid port_attr) q.

Definition start_lines (s : ibv) (rank ptr : Z) : list (list Z) :=
  publish_lines K rank id (heap_of s ptr) (lid port_attr) 0 (pairs_of s) ++
  getname_lines K rank id 0 (Z.to_nat size) ++ [BARRIER].

(** The device works, the numbers of its pairs differ, and the process manager answers: to the
    request for what rank [i] published for this one, with [peer i]. *)
Record start_ok (s : ibv) (rank ptr entries : Z) (peer : Z -> conn_ctx) (rest : list Z) : Prop := {
  st_list : ibv_get_device_list <> []; st_device : device <> 0; st_query : ibv_query_device device = 0;
  st_port : (find_port device 0 128 (0, PortAttr 0 0)).2.1 = 0; st_pd : ibv_alloc_pd device <> 0;
  st_srq : ibv_create_srq (ibv_alloc_pd device) LC_SERVER_MAX_RCVS <> 0;
  st_cq : forall sending, ibv_create_cq device (64 * 1024) sending <> 0;
  st_create : forall vs, (ibv_create_qp vs).1 <> 0;
  st_modify : forall vs q attr, ibv_modify_qp vs q attr = 0;
  st_heap : heap_of s ptr <> NULL;
  st_pairs : pairs_ok M n (pairs_of s);
  st_conns : Forall (fun q => conn_ok (own_conn s ptr q)) (pairs_of s);
  st_cache : use_dreg = true -> entries <> NULL /\ db_start (db_set_pinned 0 (db (cache s)));
  st_size : 0 <= size; st_name : holds_str lcg_name K;
  st_names : forall i, 0 <= i < size -> name_ok K rank (gid_of id i) /\ name_ok K i (gid_of id rank);
  st_peers : forall i, 0 <= i < size -> conn_ok (peer i);
  st_client : client (pm s); st_written : all_written (ws (pm s)) (start_lines s rank ptr);
  st_incoming : incoming (pm s) (publish_replies (Z.to_nat size) ++
    getname_replies peer 0 (Z.to_nat size) ++ message barrier_reply ++ rest) }.

Lemma start_cache s s1 rank ptr entries peer rest : start_ok s rank ptr entries peer rest ->
  db (cache s1) = db (cache s) ->
  exists c, (if use_dreg then _ ← on_cache (dreg_init entries);
    mret tt else mret tt) s1 = Ok (tt, set_cache c s1).
Proof.
  intros Hok Hdb. destruct use_dreg eqn:Ed; [|exists (cache s1); by destruct s1].
  destruct (st_cache _ _ _ _ _ _ Hok Ed) as [He Hst]. rewrite <- Hdb in Hst.
  destruct (vma_db_init_run ∅ _ Hst) as (x & Ex & _).
  assert (exists c, dreg_init entries (cache s1) = Ok (0, c)) as [c Ec].
  { unfold dreg_init. erewrite st_bind_run by reflexivity. set (c1 := ds_db _ _).
    assert (in_db (fun _ => vma_db_init) c1 = Ok (tt, ds_db x c1)) as E by (unfold in_db;
      cbn [db dregs ds_db c1]; by rewrite Ex).
    rewrite (st_bind_run _ _ _ _ _ E).
    rewrite (proj2 (Z.eqb_neq _ _) He). do 3 (erewrite st_bind_run by reflexivity). by eexists. }
  exists c. rewrite (st_bind_run _ _ s1 0 (set_cache c s1)); [done|]. unfold on_cache. by rewrite Ec.
Qed.

Lemma must_run s : must 0 s = Ok (tt, s).
Proof. done. Qed.

Lemma must_have_run x s : x <> 0 -> must_have x s = Ok (tt, s).
Proof. intros Hx. unfold must_have. by rewrite (proj2 (Z.eqb_neq _ _) Hx). Qed.

(** The device: up to the heap's registration. *)
Definition prepared (s : ibv) (ptr : Z) : ibv :=
  set_qp [] (set_recv_posted 0 (set_heap (heap_of s ptr)
    (set_cache (ds_dma (dma (cache s) ++ [DmaGet (srv s) ptr (1024 * 1024 * 1024)]) (cache s))
      (set_objects (ibv_create_srq (ibv_alloc_pd device) LC_SERVER_MAX_RCVS)
        (ibv_create_cq device (64 * 1024) true) (ibv_create_cq device (64 * 1024) false) s)))).

Lemma init_prepares s rank ptr entries peer rest : start_ok s rank ptr entries peer rest ->
  lc_server_init use_dreg lcg_name rank size id ptr entries n s =
  (ep_name ← publish_pairs lcg_name rank id dev_port (lid port_attr) (chars 256) 0 (Z.to_nat size);
   reps ← connect_pairs lcg_name rank id dev_port port_attr ep_name 0 (Z.to_nat size);
   qs ← st_get qp;
   '(m, b) ← st_lift (rank_table n (qp_num <$> qs) size);
   _ ← st_set (set_qp2rank b m);
   _ ← (if use_dreg then _ ← on_cache (dreg_init entries); mret tt else mret tt);
   _ ← on_pm PMI_Barrier;
   mret reps) (prepared s ptr).
Proof.
  intros [Hl Hd Hq Hp Hpd Hsrq Hcq _ _ Hh _ _ _ _ _ _ _ _ _ _]. unfold lc_server_init. fold device.
  rewrite (st_bind_run _ _ s tt s) by (apply must_have_run; by destruct ibv_get_device_list).
  rewrite (st_bind_run _ _ s device s), (st_bind_run _ _ s tt s) by (done || by apply must_have_run).
  rewrite Hq, (st_bind_run _ _ _ _ _ (must_run s)).
  pose proof (eq_refl : dev_port = (find_port device 0 128 (0, PortAttr 0 0)).1) as Eport.
  pose proof (eq_refl : port_attr = (find_port device 0 128 (0, PortAttr 0 0)).2.2) as Eattr.
  destruct (find_port device 0 128 (0, PortAttr 0 0)) as [port [rc attr]]. cbn [fst snd] in Hp, Eport, Eattr.
  subst rc. rewrite <- Eport, <- Eattr. rewrite (st_bind_run _ _ _ _ _ (must_run s)).
  rewrite (st_bind_run _ _ s (ibv_alloc_pd device) s) by done.
  rewrite (st_bind_run _ _ s tt s) by (by apply must_have_run).
  rewrite (st_bind_run _ _ s (ibv_create_srq (ibv_alloc_pd device) LC_SERVER_MAX_RCVS) s) by done.
  do 3 (rewrite (st_bind_run _ _ s tt s) by (by apply must_have_run)).
  erewrite st_bind_run by reflexivity. set (s1 := set_objects _ _ _ s).
  rewrite (st_bind_run _ _ s1 (heap_of s ptr)
    (set_cache (ds_dma (dma (cache s) ++ [DmaGet (srv s) ptr (1024 * 1024 * 1024)]) (cache s)) s1)) by done.
  rewrite (st_bind_run _ _ _ _ _ (mr_field_run mr_addr _ _ Hh)).
  do 3 (erewrite st_bind_run by reflexivity). done.
Qed.

Lemma lc_server_init_run s rank ptr entries peer rest : start_ok s rank ptr entries peer rest ->
  exists s', lc_server_init use_dreg lcg_name rank size id ptr entries n s =
      Ok (connect_reps peer 0 (pairs_of s), s') /\
    qp s' = pairs_of s /\ heap s' = heap_of s ptr /\ recv_posted s' = 0 /\
    verbs s' = verbs s ++ make_log dev_port (pairs_of s) ++
      connect_log dev_port (active_mtu port_attr) peer 0 (pairs_of s) /\
    sent (pm s') = sent (pm s) ++ start_lines s rank ptr /\ incoming (pm s') rest /\
    (forall i q, pairs_of s !! i = Some q -> rank_of_qp (qp_num q) s' = Ok (Z.of_nat i, s')).
Proof.
  intros Hok. pose proof Hok as [_ _ _ _ _ _ _ Hcr Hmo Hh Hpairs Hcs _ Hsz Hnm Hnms Hpe Hcl Hw Hin].
  rewrite (init_prepares _ _ _ _ _ _ Hok). set (s2 := prepared s ptr).
  unfold start_lines in Hw.
  destruct (publish_pairs_run Hcr Hmo lcg_name K rank id dev_port (heap_of s ptr) (lid port_attr) (Z.to_nat size)
    0 s2 (chars 256) (getname_lines K rank id 0 (Z.to_nat size) ++ [BARRIER])
    (getname_replies peer 0 (Z.to_nat size) ++ message barrier_reply ++ rest))
    as (ep & m1 & room & E1 & Hep & Hx1); try done.
  { intros j Hj. apply Hnms. lia. }
  rewrite (st_bind_run _ _ _ _ _ E1). fold (pairs_of s) in *.
  change (made dev_port (verbs s2) _) with (pairs_of s) in *.
  set (s3 := advance _ _ _ _ s2).
  assert (length (pairs_of s) = Z.to_nat size) as Elen by apply made_length.
  destruct (connect_pairs_run Hmo lcg_name K rank id dev_port port_attr peer (pairs_of s) 0 s3 ep
    [BARRIER] (message barrier_reply ++ rest)) as (m2 & E2 & Hx2); try done; rewrite ?Elen;
      try (by destruct Hx1).
  { intros j Hj. split; [apply Hnms|apply Hpe]; lia. }
  rewrite Elen in E2. rewrite (st_bind_run _ _ _ _ _ E2). set (s4 := set_pm m2 _).
  rewrite (st_bind_run _ _ s4 (pairs_of s) s4) by done.
  destruct (run_rank_of_qp _ _ _ Hpairs) as (m & b & Et & _ & Hrk & _). rewrite Elen, Z2Nat.id in Et by done.
  rewrite Et, (st_bind_run _ _ s4 (m, b) s4) by done. erewrite st_bind_run by reflexivity.
  set (s5 := set_qp2rank b m s4).
  destruct (start_cache s s5 rank ptr entries peer rest Hok eq_refl) as [c Ec].
  rewrite (st_bind_run _ _ _ _ _ Ec).
  set (s6 := set_cache c s5). rewrite Elen in Hx2.
  destruct (barrier_exchange (pm s6) [] rest) as (m3 & E3 & Hx3); try (by destruct Hx2).
  rewrite (st_bind_run _ _ _ _ _ (ibv_on_pm_run _ s6 _ _ E3)). exists (set_pm m3 s6).
  split; [done|]. split; [done|]. split; [done|]. split; [done|].
  split; [symmetry; apply app_assoc|].
  split; [|split; [by destruct Hx3|intros i q Hi; by apply Hrk]].
  pose proof (exchanged_trans _ _ _ _ _ _ _ _ _ Hx1 (exchanged_trans _ _ _ _ _ _ _ _ _ Hx2 Hx3)) as Hx.
  exact (ex_sent _ _ _ _ _ Hx).
Qed.

End node.

(** ** Two processes of a job *)

Lemma publish_lines_in `{Verbs} K rank id h lid_ qs : forall i k q, qs !! k = Some q ->
  put_text K (lc_key rank (gid_of id (i + Z.of_nat k))) (print_conn (conn_of h lid_ q))
    ∈ publish_lines K rank id h lid_ i qs.
Proof.
  induction qs as [|q0 qs IH]; intros i k q Hq; [done|]. destruct k as [|k]; cbn in Hq |- *.
  - injection Hq as ->. rewrite Z.add_0_r. left.
  - right. right. replace (i + Z.of_nat (S k)) with (i + 1 + Z.of_nat k) by lia. by apply IH.
Qed.

Lemma getname_lines_in K rank id n : forall i k, (k < n)%nat ->
  get_text K (lc_key (i + Z.of_nat k) (gid_of id rank)) ∈ getname_lines K rank id i n.
Proof.
  induction n as [|n IH]; intros i k Hk; [lia|]. destruct k as [|k]; cbn.
  - rewrite Z.add_0_r. left.
  - right. replace (i + Z.of_nat (S k)) with (i + 1 + Z.of_nat k) by lia. apply IH. lia.
Qed.

(** The started server [s] of one process, with the table of peers [reps], talks through its
    pair [q] to the pair whose context is [c], which is that of the process [rank]. *)
Record joined `{Verbs} (s : ibv) (reps : list lci_rep) (q rank : Z) (c : conn_ctx) : Prop := {
  jo_rtr : IbvModifyQp q (AttrRtr (active_mtu port_attr) (c_qp_num c) (c_lid c) dev_port) ∈ verbs s;
  jo_rts : IbvModifyQp q AttrRts ∈ verbs s;
  jo_rep : aget reps rank = Ok (LciRep q rank (c_addr c) (c_rkey c));
  jo_rank : rank_of_qp (qp_num q) s = Ok (rank, s) }.

Lemma start_joined `{Verbs} use_dreg name K size id M n s rank ptr entries peer rest other q :
  start_ok use_dreg name K size id M n s rank ptr entries peer rest -> 0 <= other ->
  pairs_of size s !! Z.to_nat other = Some q ->
  exists reps s', lc_server_init use_dreg name rank size id ptr entries n s = Ok (reps, s') /\
    joined s' reps q other (peer other) /\ recv_posted s' = 0 /\ incoming (pm s') rest /\
    put_text K (lc_key rank (gid_of id other)) (print_conn (own_conn s ptr q)) ∈ sent (pm s') /\
    get_text K (lc_key other (gid_of id rank)) ∈ sent (pm s').
Proof.
  intros Hok Ho Hq. destruct (lc_server_init_run _ _ _ _ _ _ _ _ _ _ _ _ _ Hok)
    as (s' & E & _ & _ & Hrp & Hv & Hs & Hin & Hr).
  eexists _, s'. split; [exact E|]. split.
  - destruct (connect_log_in dev_port (active_mtu port_attr) peer _ 0 _ _ Hq) as [L1 L2].
    rewrite Z2Nat.id, Z.add_0_l in L1 by done. split.
    + rewrite Hv, !elem_of_app. tauto.
    + rewrite Hv, !elem_of_app. tauto.
    + apply aget_ok. split; [done|]. rewrite (connect_reps_lookup _ _ _ _ _ Hq). by rewrite Z.add_0_l, Z2Nat.id.
    + rewrite <- (Z2Nat.id other) by done. by apply Hr.
  - split; [done|]. split; [done|]. rewrite Hs. unfold start_lines. rewrite !elem_of_app.
    pose proof (publish_lines_in K rank id (heap_of s ptr) (lid port_attr) _ 0 _ _ Hq) as P1.
    pose proof (getname_lines_in K rank id (Z.to_nat size) 0 (Z.to_nat other)) as P2.
    rewrite Z2Nat.id, Z.add_0_l in P1, P2 by done.
    split; [tauto|]. right. right. left. apply P2.
    apply lookup_lt_Some in Hq. unfold pairs_of in Hq. by rewrite made_length in Hq.
Qed.

(** C14: The servers of a job connect.  When two processes start and the process manager gives each
    what the other published for it, both starts succeed; the pair that [a] keeps for [b] is made
    ready with the number and the port of the pair that [b] keeps for [a], and the other way
    round; the table of peers holds the other's heap and its key; and each finds the other's
    rank by the number of its own pair. *)
Theorem ibv_start_connects (VA VB : Verbs) use_dreg name K size id M n a b sa sb ptra ptrb ea eb
    peera peerb resta restb qa qb :
  @start_ok VA use_dreg name K size id M n sa a ptra ea peera resta ->
  @start_ok VB use_dreg name K size id M n sb b ptrb eb peerb restb ->
  0 <= a -> 0 <= b ->
  @pairs_of VA size sa !! Z.to_nat b = Some qa -> @pairs_of VB size sb !! Z.to_nat a = Some qb ->
  peera b = @own_conn VB sb ptrb qb -> peerb a = @own_conn VA sa ptra qa ->
  exists repsa sa' repsb sb',
    @lc_server_init VA use_dreg name a size id ptra ea n sa = Ok (repsa, sa') /\
    @lc_server_init VB use_dreg name b size id ptrb eb n sb = Ok (repsb, sb') /\
    @joined VA sa' repsa qa b (@own_conn VB sb ptrb qb) /\
      @joined VB sb' repsb qb a (@own_conn VA sa ptra qa) /\
    put_text K (lc_key a (gid_of id b)) (print_conn (@own_conn VA sa ptra qa)) ∈ sent (pm sa') /\
    get_text K (lc_key a (gid_of id b)) ∈ sent (pm sb') /\
    incoming (pm sa') resta /\ incoming (pm sb') restb.
Proof.
  intros Ha Hb Hapos Hbpos Hqa Hqb Ea Eb.
  destruct (@start_joined VA _ _ _ _ _ _ _ _ _ _ _ _ _ b qa Ha Hbpos Hqa) as (ra & sa' & E1 & J1 & _ & I1 & P1 & _).
  destruct (@start_joined VB _ _ _ _ _ _ _ _ _ _ _ _ _ a qb Hb Hapos Hqb) as (rb & sb' & E2 & J2 & _ & I2 & _ & G2).
  rewrite Ea in J1. rewrite Eb in J2. by exists ra, sa', rb, sb'.
Qed.
