(* ===== verification/IbvDemo.v ===== *)
(** * Witnesses for the properties of IbvSpec.v and IbvStart.v

    The process of ProtoDemo.v with a server of this kind, and two processes that start. *)
From stdpp Require Import gmap.
From S2P Require Import Prelude Text Config Lock Dequeue Pool Hashtable CompQueue State.
From S2P Require Import Proto Api ProtoSpec ProtoDemo Vma VmaSpec Dreg.
From S2P Require Import PmiUtil PmiSpec Pmi PmiKvs Ibv IbvSpec IbvStart.

#[local] Existing Instances demo_build demo_server ProtoDemo.demo_client demo_platform.

Definition is_create (v : verb) : bool := match v with IbvCreateQp _ => true | _ => false end.

(** A library that numbers the pairs it makes from 70 on, on the fabric from [70 + first] on,
    and whose memory regions start at 2^20. *)
Definition demo_verbs (first lid_ : Z) : Verbs := {|
  ibv_reg_mr _ _ _ := 5000; mr_addr _ := 2 ^ 20; mr_lkey _ := 8; mr_rkey _ := 2 ^ 31 + first;
  ibv_get_device_list := [1; 2]; ibv_open_device d := 10 + d; ibv_query_device _ := 0;
  ibv_query_port _ p := if p =? 1 then (0, PortAttr lid_ 4) else (22, PortAttr 0 0);
  ibv_alloc_pd _ := 20; ibv_create_srq _ _ := 30; ibv_create_cq _ _ _ := 40;
  ibv_create_qp vs := (70 + Z.of_nat (length (filter is_create vs)), 64);
  qp_num q := q + first; ibv_modify_qp _ _ _ := 0 |}.

Definition demo_cache0 : dreg_state :=
  DregState VmaSpec.demo_start ∅ 0 0 0 0 0 0 0 0 0 (-1) (-1) 1 [] 0 [] 0 [].
Definition demo_pmi : pmi := demo_client 0 [] [].
Definition demo_ibv (y : lci) (m : pmi) : ibv :=
  Ibv y m demo_cache0 9 [70; 71] 5000 0 64 [0; 1] 2 0 30 40 40 [].

#[local] Instance demo_ibv_verbs : Verbs := demo_verbs 0 6.

Lemma demo_ibv_run {A} (m : IS A) s : is_ok (m s) = true -> exists a s', m s = Ok (a, s').
Proof. destruct (m s) as [[a s']|]; [by exists a, s'|done]. Qed.

Lemma demo_pairs : pairs_ok 100 98 [70; 71].
Proof. split; [repeat constructor; set_solver|repeat constructor; cbn; lia|cbn; lia|cbn; lia]. Qed.

Lemma rank_table_perfect_witness : exists m b,
  rank_table 98 [70; 71] 2 = Ok (m, b) /\ 2 <= m <= 100 /\
  rank_of_qp 71 (set_qp2rank b m (demo_ibv demo_state demo_pmi)) =
    Ok (1, set_qp2rank b m (demo_ibv demo_state demo_pmi)).
Proof.
  destruct (rank_table_perfect (demo_ibv demo_state demo_pmi) 100 98 demo_pairs) as (m & b & E & Hm & Hr & _).
  exists m, b. split; [exact E|]. split; [exact Hm|]. exact (Hr 1%nat 71 eq_refl).
Defined.

Lemma posted_exact_witness : exists s' o', ibv_run 0 [([], [])] (demo_ibv demo_state demo_pmi) 0 s' o' /\
  recv_posted s' = o' /\ 0 <= o' <= LC_SERVER_MAX_RCVS.
Proof.
  set (s := demo_ibv demo_state demo_pmi).
  destruct (demo_ibv_run (lc_server_progress 0 [] []) s) as (b & s1 & E); [by vm_compute|].
  assert (ibv_run 0 [([], [])] s 0 s1 (0 - 0 + (posted s1 - posted s))) as R.
  { eapply IbvSpec.run_cons; [|exact E|constructor]. cbn. lia. }
  eexists s1, _. split; [exact R|].
  destruct (posted_exact 0 [([], [])] s s1 _ eq_refl R) as (H1 & H2 & _). exact (conj H1 H2).
Defined.

(** Remote writes into packet 8192: the data for the rendezvous of the packet 8192 bytes into
    the heap, whose answer was sent, and puts with a signal to endpoint 301. *)
Definition demo_rtr_wc : ibv_wc := Wc 8192 true 71 3 (Z.lor 8192 IBV_IMM_RTR).
Definition demo_put_wc (meta : Z) : ibv_wc := Wc 8192 true 71 3 (MAKE_PROTO 1 LC_PROTO_LONG meta).
Definition demo_answered : lci :=
  set_packets (fun m => <[2 ^ 20 + 8192 := pk_set_ref 1
    (Rendezvous.answer 300 (2 ^ 20 + 8192) 900 1005 demo_long 1004 (2 ^ 20))]> m) demo_state.

Lemma demo_answered_ep : sync_ep demo_answered 300 demo_sync_ep lc_hash_create demo_dev.
Proof.
  split; [reflexivity|reflexivity|apply lc_hash_create_wf|reflexivity|reflexivity|reflexivity
    | |exact demo_room]. destruct demo_dev_wf. by split.
Qed.

Lemma demo_queue_ep : queue_ep demo_state 301 demo_dyn_ep cq_init.
Proof. split; first [reflexivity | apply cq_init_wf | rewrite cq_init_elems; by vm_compute]. Qed.

Lemma demo_putss meta : exists x, lc_putss 1000 3 1 4100 meta 301 demo_state = Ok (LC_OK, x).
Proof. eexists. reflexivity. Qed.

Lemma imm_words_witness :
  (exists s', progress_recv 0 demo_rtr_wc (demo_ibv demo_answered demo_pmi) = Ok (tt, s') /\
     reqs (proc s') !! 900 = Some (rq_set_sync 1 lc_req0)) /\
  (exists s' rq, progress_recv 0 (demo_put_wc 77) (demo_ibv demo_state demo_pmi) = Ok (tt, s') /\
     reqs (proc s') !! req_s_of 8192 = Some rq /\ meta rq = 77) /\
  progress_recv 0 (demo_put_wc (2 ^ 15)) (demo_ibv demo_state demo_pmi) = Err NullDeref.
Proof.
  assert (has_sync = true) as Hbs by reflexivity. assert (has_cq = true) as Hbq by reflexivity.
  set (sd := demo_ibv demo_state demo_pmi). split; [|split].
  - destruct (demo_ibv_run (lc_server_rma_rtr true 10 71 1000 1004 9 3 8192 8192) sd) as ([] & sd' & E);
      [by vm_compute|].
    destruct (proj1 (imm_words true 10 0 (demo_ibv demo_answered demo_pmi) demo_rtr_wc eq_refl
      ltac:(discriminate) ltac:(discriminate)) sd sd' 71 1000 1004 9 3 8192 (2 ^ 20 + 8192) 300
      demo_sync_ep lc_hash_create demo_dev 900 1005 demo_long 1004 (2 ^ 20) lc_req0 E)
      as (s' & d' & E1 & _ & E2 & _); try reflexivity; try exact demo_answered_ep; try (cbn; lia).
    + exact (rma_rtr_word true 10 71 1000 1004 9 3 8192 8192 sd sd' E).
    + rewrite demo_elems. apply Nat.ltb_lt. reflexivity.
    + discriminate.
    + exists s'. split; [exact E1|exact E2].
  - destruct (demo_putss 77) as [x Ex].
    destruct (proj2 (imm_words true 10 0 sd (demo_put_wc 77) eq_refl ltac:(discriminate) ltac:(discriminate))
      sd 301 demo_dyn_ep 1000 3 1 4100 77 LC_OK x eq_refl ltac:(cbn; lia) ltac:(lia) Ex)
      as (ev & sd' & Ht & Es & Hput & _).
    destruct (putss_word true 10 1000 3 1 4100 77 301 demo_dyn_ep LC_OK x sd eq_refl Ex) as (ev2 & sd2 & Ht2 & Es2 & Hw).
    rewrite Ht in Ht2. apply app_inj_tail in Ht2 as [_ <-]. rewrite Es in Es2. injection Es2 as <-.
    destruct (Hput Hw ltac:(lia) 301 demo_dyn_ep cq_init demo_packet demo_req_s Hbq eq_refl demo_queue_ep
      eq_refl eq_refl) as (s' & e' & cq' & E1 & _ & E2 & _).
    eexists s', _. split; [exact E1|]. split; [exact E2|reflexivity].
  - destruct (demo_putss (2 ^ 15)) as [x Ex].
    destruct (proj2 (imm_words true 10 0 sd (demo_put_wc (2 ^ 15)) eq_refl ltac:(discriminate)
      ltac:(discriminate)) sd 301 demo_dyn_ep 1000 3 1 4100 (2 ^ 15) LC_OK x eq_refl ltac:(cbn; lia)
      ltac:(lia) Ex) as (ev & sd' & Ht & Es & _ & Hput).
    destruct (putss_word true 10 1000 3 1 4100 (2 ^ 15) 301 demo_dyn_ep LC_OK x sd eq_refl Ex) as (ev2 & sd2 & Ht2 & Es2 & Hw).
    rewrite Ht in Ht2. apply app_inj_tail in Ht2 as [_ <-]. rewrite Es in Es2. injection Es2 as <-.
    exact (proj2 (Hput Hw ltac:(lia)) eq_refl).
Defined.

Definition demo_ibv_sender : ibv :=
  demo_ibv (set_memory (fun _ => list_to_map [(1000, 10); (1001, 20); (1002, 30)]) demo_state) demo_pmi.

Lemma demo_noted : noted_at 8192 demo_packet (rq_set_size (Z.of_nat (length demo_bytes))
  (rq_set_rhandle 71 (rq_set_rank 1 demo_req_s))) demo_state = demo_state.
Proof.
  unfold noted_at, set_reqs, set_packets. cbn [reqs packets].
  rewrite (insert_id _ (req_s_of 8192)), (insert_id _ 8192); reflexivity.
Qed.

Lemma ibv_eager_delivery_witness : exists sd1 s1 s2,
  on_proc (lc_sends 1000 3 0 0 300) demo_ibv_sender = Ok (LC_OK, sd1) /\
  on_proc (lc_recv 1000 8 1 0 300 900) (demo_ibv demo_state demo_pmi) = Ok (LC_OK, s1) /\
  lc_server_progress 0 [Wc 8192 false 71 3 (MAKE_PROTO 0 LC_PROTO_DATA 0)] [] s1 = Ok (true, s2) /\
  load_bytes (memory (proc s2)) 1000 4 = Ok [10; 20; 30; 0].
Proof.
  destruct (ibv_eager_delivery true 1 demo_ibv_sender 300 demo_sync_ep demo_dev 0 (LciRep 70 0 0 0) 1000 3 0
    demo_bytes (demo_ibv demo_state demo_pmi) 98 100 300 demo_sync_ep lc_hash_create demo_dev 1000 8 1 71
    900 8192 demo_packet demo_req_s (<[1002 := 30]> (<[1001 := 20]> (<[1000 := 10]> (memory demo_state)))))
    as (sd1 & sd2 & ev & s1 & s2 & q' & E1 & _ & _ & _ & E2 & E3 & Em & _).
  1-6: reflexivity.
  - discriminate.
  - exact demo_pairs.
  - reflexivity.
  - by vm_compute.
  - reflexivity.
  - reflexivity.
  - change (eager_ready (noted_at 8192 demo_packet (rq_set_size (Z.of_nat (length demo_bytes))
      (rq_set_rhandle 71 (rq_set_rank 1 demo_req_s))) demo_state) 300 demo_sync_ep
      lc_hash_create demo_dev 1000 1 0 900 (MAKE_PROTO 0 LC_PROTO_DATA 0) 8192 demo_bytes
      (<[1002 := 30]> (<[1001 := 20]> (<[1000 := 10]> (memory demo_state))))).
    rewrite demo_noted. exact demo_eager_ready.
  - constructor.
  - rewrite demo_elems. apply Forall_singleton. by exists lc_packet0.
  - exists sd1, s1, s2. split; [exact E1|]. split; [exact E2|]. split; [exact E3|].
    rewrite Em. reflexivity.
Defined.

Lemma inline_signals_witness : exists s' new,
  sends_all (rounds 5 (70, [1], 0) (71, [2], 4)) (demo_ibv demo_state demo_pmi) = Ok (tt, s') /\
  verbs s' = new /\ Z.of_nat (length new) = 325 /\
  forall j v, new !! j = Some v -> v = if Z.of_nat j mod 65 =? 64 then send_request true (71, [2], 4)
                                       else send_request false (70, [1], 0).
Proof.
  destruct (inline_signals (demo_ibv demo_state demo_pmi) 5 70 71 [1] [2] 0 4 eq_refl)
    as (s' & new & E & Ev & _ & Hl & Hnew).
  exists s', new. split; [exact E|]. split; [exact Ev|]. split; [exact Hl|exact Hnew].
Defined.

(** ** Two processes that start *)

(** The process manager's words for a request written in full. *)
Definition demo_written (lines : list (list Z)) : list write_result := (fun l => Wrote (len l)) <$> lines.

Lemma demo_all_written lines : all_written (demo_written lines) lines.
Proof. induction lines as [|l lines IH]; [done|]. by exists (demo_written lines). Qed.

(** Process [rank], which reads what [peer] has published; the library of process 1 numbers its
    pairs from 1070 on. *)
Definition demo_lib (rank : Z) : Verbs := demo_verbs (1000 * rank) (6 + rank).
Definition demo_peer (rank i : Z) : conn_ctx :=
  ConnCtx (2 ^ 20) (2 ^ 31 + 1000 * i) (70 + rank + 1000 * i) (6 + i).
Definition demo_stream (rank : Z) : list Z :=
  publish_replies 2 ++ getname_replies (demo_peer rank) 0 2 ++ message barrier_reply ++ [].
Definition demo_fresh (m : pmi) : ibv :=
  Ibv demo_state m demo_cache0 9 [] 0 0 0 [] 0 0 0 0 0 [].
Definition demo_lines (rank : Z) : list (list Z) :=
  @start_lines (demo_lib rank) demo_space 2 0 (demo_fresh demo_pmi) rank 4096.
Definition demo_node (rank : Z) : ibv :=
  demo_fresh (PmiKvs.demo_client rank (demo_stream rank) (demo_written (demo_lines rank))).

Lemma demo_conn_ok rank i : 0 <= rank < 2 -> 0 <= i < 2 -> conn_ok (demo_peer rank i).
Proof. intros Hr Hi. split; cbn; lia. Qed.

Lemma demo_name_ok i r : 0 <= i < 2 -> 0 <= r < 2 -> name_ok demo_space i (gid_of 0 r).
Proof.
  intros Hi Hr. split; [lia|unfold gid_of; rewrite Z.shiftl_0_l, Z.lor_0_l;
    lia|by apply chars_dec_ok|by vm_compute].
Qed.

Lemma demo_start_ok rank : 0 <= rank < 2 ->
  @start_ok (demo_lib rank) true (demo_space ++ [0]) demo_space 2 0 2000 1998 (demo_node rank) rank 4096 7000
    (demo_peer rank) [].
Proof.
  intros Hr. split; try done.
  - intros vs. cbn. lia.
  - change (@pairs_of (demo_lib rank) 2 (demo_node rank)) with [70; 71].
    split; [|repeat constructor; cbn; lia|cbn; lia|cbn; lia]. apply NoDup_cons.
    split; [rewrite list_elem_of_singleton; cbn; lia|apply NoDup_singleton].
  - change (@pairs_of (demo_lib rank) 2 (demo_node rank)) with [70; 71].
    assert (@port_attr (demo_lib rank) = PortAttr (6 + rank) 4) as Ep by done.
    apply Forall_cons; split; [|apply Forall_singleton]; split; cbn; rewrite ?Ep; cbn; lia.
  - intros _. split; [done|]. repeat split; try done. cbn. lia.
  - intros i Hi. split; by apply demo_name_ok.
  - intros i Hi. by apply demo_conn_ok.
  - split; [done|exact keyval_tab0_wf].
  - exact (demo_all_written (demo_lines rank)).
  - split; [|by left]. apply app_nil_r.
Qed.

Lemma ibv_start_connects_witness : exists repsa sa' repsb sb',
  @lc_server_init (demo_lib 0) true (demo_space ++ [0]) 0 2 0 4096 7000 1998 (demo_node 0) = Ok (repsa, sa') /\
  @lc_server_init (demo_lib 1) true (demo_space ++ [0]) 1 2 0 4096 7000 1998 (demo_node 1) = Ok (repsb, sb') /\
  aget repsa 1 = Ok (LciRep 71 1 (2 ^ 20) (2 ^ 31 + 1000)) /\
    aget repsb 0 = Ok (LciRep 70 0 (2 ^ 20) (2 ^ 31)) /\
  IbvModifyQp 71 (AttrRtr 4 1070 7 1) ∈ verbs sa'.
Proof.
  destruct (ibv_start_connects (demo_lib 0) (demo_lib 1) true (demo_space ++ [0]) demo_space 2 0 2000 1998 0 1
    (demo_node 0) (demo_node 1) 4096 4096 7000 7000 (demo_peer 0) (demo_peer 1) [] [] 71 70
    (demo_start_ok 0 ltac:(lia)) (demo_start_ok 1 ltac:(lia)) ltac:(lia) ltac:(lia) eq_refl eq_refl eq_refl eq_refl)
    as (ra & sa & rb & sb & E1 & E2 & J1 & J2 & _).
  exists ra, sa, rb, sb. split; [exact E1|]. split; [exact E2|].
  split; [exact (jo_rep _ _ _ _ _ J1)|]. split; [exact (jo_rep _ _ _ _ _ J2)|]. exact (jo_rtr _ _ _ _ _ J1).
Defined.
